(* ===== verification/_CoqProject ===== *)
-Q . S2P
Prelude.v
Text.v
Ranges.v
Containers.v
World.v
Supervisor.v
PeerTree.v
Managers.v
Invariant.v
Scheduler.v
GoFloat.v
MathUtils.v
Units.v
Evaluator.v
Searcher.v
BasicScheduler.v
Events.v
EventsInvariant.v
KeyMutex.v
Worker.v
Service.v
SeedTask.v
System.v
Demo.v
EventProperties.v
SchedulerProperties.v
SystemProperties.v
Races.v
SupervisorProperties.v
FileSystem.v
LocalStorage.v
HttpRange.v
StorageManager.v
PieceSize.v
Bitmap.v
PeerTask.v
PieceManager.v
PullPieces.v
ClientDemo.v
PeerTaskProperties.v
PullProperties.v
SourceDownload.v
Cache.v
SourceProperties.v
PullContent.v
StorageProperties.v
StorageSteps.v
StoreProperties.v
StorageDemo.v
StreamTask.v
StreamProperties.v
FileUtils.v
StoreDriver.v
CdnTask.v
CdnTaskProperties.v
CdnStorage.v
DiskStorage.v
DiskLaws.v
Digests.v
CdnMetadata.v
CdnDetector.v
CdnProgress.v
CdnSubscriber.v
CdnProgressProperties.v
CdnService.v
CdnServiceProperties.v
CdnWriter.v
CdnWriterProperties.v
CdnManager.v
CdnDownload.v
CdnDemo.v
CdnCleaner.v
CdnCleanerProperties.v
HybridStorage.v
CdnTriggerProperties.v
