(* ===== verification/Prelude.v ===== *)
(** * A verification development for Dragonfly2

    Dragonfly2 distributes files between peers.  A client daemon that wants a
    file registers with a scheduler; the scheduler arranges the peers of a file
    (a task) in a tree in which every peer downloads its pieces from its
    parent, asks the CDN to seed the task, and re-arranges the tree as the peers
    report pieces, fail or leave.  The client daemon writes the pieces to its
    storage, goes back to the source of the file when the scheduler cannot help,
    and serves what it stores to later requests.  The CDN downloads a task from
    its source, piece by piece, keeps the pieces on its disk, and streams to the
    scheduler which pieces it has.

    ** The scheduler (scheduler/, and what it uses of pkg/)

    - Containers.v: the sets and sorted lists of pkg/container.
    - World.v: hosts, peers, tasks and connections as structs on a shared heap
      ([World]), the messages of pkg/rpc, and [Outcome], the monad of a Go
      computation that returns, panics or does not return.
    - Supervisor.v, Managers.v, SeedTask.v: supervisor/host.go, peer.go, task.go
      and cdn.go, one definition per method, and the three registries with
      their collection passes.
    - GoFloat.v, MathUtils.v, Evaluator.v: float64 as IEEE binary64, and
      core/evaluator on it.
    - Scheduler.v, BasicScheduler.v: the interface of core/scheduler as classes,
      operations ([Scheduler]) and laws, and the basic scheduler, which
      implements it.
    - Events.v, Worker.v, Service.v: core/events.go, worker.go and service.go
      with rpcserver.go.  The handlers are written and proved against the
      scheduler interface, not against the basic scheduler.
    - KeyMutex.v: the locks by key of pkg/synclock and pkg/sync, as transition
      systems of goroutines.
    - System.v: all of it as one step relation: requests, events, the
      re-schedule loop, the single visits of the collections, connections, the
      CDN's stream, the clock.  Each handler is one step: an execution is a
      serial one, in any order of the steps.  The peers have no lock, so that
      handlers of one task in different goroutines (a registration, a worker, a
      collection) can also overlap; Races.v takes [ReplaceParent] apart into
      its accesses and shows what then goes wrong.

    PeerTree.v, Invariant.v and EventsInvariant.v hold the invariant [world_ok]
    and that the operations keep it; SystemProperties.v, EventProperties.v,
    SchedulerProperties.v and SupervisorProperties.v the theorems: the
    invariant in every state that serial executions reach (a tree in which
    links agree in both directions, without cycles, upload slots counted
    exactly); which candidates are accepted and that the best are taken; that
    the walks over the tree return; what becomes of the children of a peer that
    leaves or fails; when a handler panics, exactly; that the packets a report
    stream accepts are delivered in order; the accounting of back-to-source
    peers and that they are told; which peers a collection removes.  Demo.v is the concrete state the witnesses start from.

    ** The client daemon (client/daemon, client/clientutil, internal/util)

    - FileSystem.v: directories, inodes, hard and symbolic links and the calls
      the storage makes of os and io.
    - HttpRange.v: clientutil/range.go, the parser of Range headers.
    - LocalStorage.v, StorageManager.v: daemon/storage and
      clientutil/keepalive.go.  The JSON codec of the metadata is a class with
      its round trip as law.
    - PieceSize.v, Bitmap.v, PeerTask.v, PieceManager.v: daemon/peer, the books of the peer
      task of a file, its reports and callbacks, the download of a piece and
      of a whole file from its source.
    - PullPieces.v: daemon/peer/peertask_base.go, the goroutines of a task that
      pulls pieces from other peers: the receiver of the scheduler's packets,
      the loop that asks the peers for pieces, and the workers.  They take
      steps under a schedule ([runPull]).
    - StreamTask.v: daemon/peer/peertask_stream.go and its callback, a task that
      writes its pieces to a pipe, in order, while it downloads: the reports of
      pieces and the pipe writer take steps under a schedule ([runStream]).
    - Cache.v: pkg/cache and internal/dynconfig, the configuration a daemon gets
      from the manager and keeps in a cache file.

    SourceDownload.v and SourceProperties.v compose them: a download from the
    source ends with the file at its output, for a known and for an unknown
    length, with what the scheduler is told on the way, and the lengths for
    which it does not.  StoreProperties.v: pieces
    written in any order assemble the content, and a restarted daemon loads
    what was stored, unless its metadata were longer before.
    StorageProperties.v and StorageSteps.v: collection in two rounds, the books
    of the storage manager from its start, and that a store found for reuse
    outlives the next collection.  PeerTaskProperties.v: the choice of the next piece and the
    bitmap.  PullContent.v: under every schedule, a task that pulls its pieces
    from honest peers and succeeds has the content at its output.
    PullProperties.v: its channels do not deadlock; how it forgets a failed
    piece, and how it fails with all its pieces.  StreamProperties.v: the reader
    of a stream task gets the content in order, all of it when the task
    succeeds, and can always read it to its end; how a failed task ends as if
    it had succeeded.  Cache.v also has its theorems: the cache implements a map
    whose items expire, the answers of its calls included, and the configuration answers with what was fetched
    last, also after a restart.  ClientDemo.v and StorageDemo.v instantiate the
    parameters and hold witnesses.

    ** The CDN (cdn/, and what it uses of pkg/)

    - Text.v, Ranges.v, Units.v, Digests.v, FileUtils.v: the functions of strings
      and strconv, pkg/util/rangeutils, pkg/unit, pkg/util/digestutils and
      pkg/util/fileutils.
    - StoreDriver.v: storedriver/ with the local driver, over FileSystem.v.
    - CdnStorage.v: supervisor/cdn/storage, the interface of a storage manager
      as two classes, operations ([CdnStore]) and laws ([CdnStoreLaws]), and the
      text of a piece record.  DiskStorage.v: the disk manager, an instance of
      the first; DiskLaws.v: that it obeys the laws.
    - CdnCleaner.v: supervisor/cdn/storage/storage_gc.go over a record of the
      operations it needs ([Cleaner]), and the disk manager's test of the free
      space and collection.  HybridStorage.v: storage/hybrid, the storage on
      disk and in memory, with the two goroutines of its collection.
    - CdnTask.v: supervisor/task, the tasks on a heap and their manager.
    - CdnMetadata.v, CdnDetector.v, CdnWriter.v, CdnManager.v: supervisor/cdn,
      written against the storage interface.  The reading loop and the writers
      of cache_writer.go are a pool that takes one step at a time under a
      schedule; a trigger runs to its end under every schedule that ends.
    - CdnProgress.v, CdnSubscriber.v: supervisor/progress, the publishers, and
      the goroutine of a subscriber with its lock, condition and channel.
    - CdnService.v: supervisor/service.go and rpcserver/; the trigger also as
      the steps of calls that overlap ([triggerStep]).

    CdnTriggerProperties.v, on CdnWriterProperties.v and CdnDownload.v, has the
    theorems on a trigger, against the laws of the storage: under every
    schedule, an empty storage ends with the content, its metadata and one
    record per piece, all published; an interrupted download is resumed and
    what is complete is not downloaded again; the pool has no deadlock as long
    as the storage does not fail, and one when it does.  CdnTaskProperties.v:
    the books of the task manager.  CdnProgressProperties.v: a watcher has
    every piece that was published.  CdnSubscriber.v: what a subscriber
    delivers, and the two ways in which it gets stuck.  CdnServiceProperties.v:
    calls that overlap trigger one download, and the pages of the list of
    pieces.
    CdnCleanerProperties.v: a collection of the disk removes only tasks that are
    not in use, and all of them when it is full; which tasks go first.
    HybridStorage.v: the first task of a bucket fails, and a collection frees no
    memory.
    CdnDemo.v instantiates the parameters: a storage on the modelled disk, a
    codec, hashes and a source.

    ** The manager (manager/searcher)

    Searcher.v: the scheduler cluster a client is sent to, scored on binary64;
    it is the best of those that may serve the client.

    ** Conventions

    A w-bit integer is a [Z]; [int32], [int64], [uint32] wrap where the source
    can overflow.  A pointer is a [positive] into a heap.  [sync.Map.Range] and
    [range] over a map visit in an order that is an argument; the theorems hold
    for every order.  Time is nanoseconds read from the state.  Fallible code
    returns an option or an error value, and what panics is a value of
    [Outcome].  Code of other packages is a parameter: the statistics of
    montanaflynn/stats, the RPC and HTTP clients, MD5 and SHA-256, the codecs,
    the disk usage gopsutil answers, the source clients.  What the theorems use
    of a parameter is a law of its class: the codec reads back what it wrote, a
    hash is written in hexadecimal.

    Fuel: the walks over the tree have one unit more than there are peers
    ([treeFuel]); on a tree that is enough (SchedulerProperties.v), and where
    the links form a cycle the source does not return, which is [Diverge].  The
    search for the next piece has one unit more than the bitmap has bits
    ([searchFuel]), the download of unknown length one more than the stream has
    bytes ([unknownFuel]); both are proved to suffice.  A path is resolved
    through at most 40 symbolic links, as Linux does.

    Bounds: the theorems on downloads take lengths below 2^62 and fewer than
    2^27 pieces, so that the float64 quotient of which the source takes
    [math.Ceil] is exact.  A stream reports its end after its last byte, not
    with it.  A digest of SHA-256 is not the empty string.

    ** Not modelled

    - The manager of peer tasks, which registers and starts them; the progress
      a task sends is taken to be received at once.  A stream task is not
      composed with the loop that pulls pieces or with the download from the
      source: which pieces come, and when, is any choice of its schedule.
    - The proxy, the upload and RPC servers of the client, dfget: network
      servers and command lines around the modelled parts.
    - Of the CDN: the plugins.  The free space of a disk is a parameter.  The
      scheduler sees the CDN as a stream of pieces; the two are not composed.
    - The rest of the manager: REST handlers over a database.
    - Configuration, metrics, jobs, tracing, logs, plugins, start-up and
      command-line wiring, and generated code (codecs, mocks): I/O or calls of
      libraries. *)

From stdpp Require Export base tactics list gmap strings sorting relations.
From Stdlib Require Export ZArith.
From stdpp Require Import options.

(** ** Notations *)

Declare Scope go_scope.
Delimit Scope go_scope with go.

(** ** Automation *)

Create HintDb dfly.
Create Rewrite HintDb dflyz.

(** Decide every [bool_decide]/[decide]/[if] test the goal or a hypothesis
    stops on. *)
Ltac case_tests :=
  repeat first
    [ case_decide
    | case_match
    | progress simplify_eq/= ].

(** Turn boolean comparisons in the context into propositions for [lia]. *)
Ltac zbool :=
  repeat match goal with
  | H : (_ && _) = true |- _ => apply andb_true_iff in H; destruct H
  | H : (_ || _) = false |- _ => apply orb_false_iff in H; destruct H
  | H : negb _ = true |- _ => apply negb_true_iff in H
  | H : negb _ = false |- _ => apply negb_false_iff in H
  | H : (_ <=? _)%Z = true |- _ => apply Z.leb_le in H
  | H : (_ <=? _)%Z = false |- _ => apply Z.leb_gt in H
  | H : (_ <? _)%Z = true |- _ => apply Z.ltb_lt in H
  | H : (_ <? _)%Z = false |- _ => apply Z.ltb_ge in H
  | H : (_ =? _)%Z = true |- _ => apply Z.eqb_eq in H
  | H : (_ =? _)%Z = false |- _ => apply Z.eqb_neq in H
  | H : bool_decide _ = true |- _ => apply bool_decide_eq_true_1 in H
  | H : bool_decide _ = false |- _ => apply bool_decide_eq_false_1 in H
  end.

(** ** Machine integers

    A Go integer of [w] bits is a [Z] kept in range by the wrap-around the
    language defines for conversions and arithmetic. *)

Section Words.
Local Open Scope Z_scope.

Definition wrapU (w : Z) (z : Z) : Z := z mod 2 ^ w.
Definition wrapS (w : Z) (z : Z) : Z := (z + 2 ^ (w - 1)) mod 2 ^ w - 2 ^ (w - 1).

Definition inU (w z : Z) : Prop := 0 <= z < 2 ^ w.
Definition inS (w z : Z) : Prop := - 2 ^ (w - 1) <= z < 2 ^ (w - 1).

Definition uint32 (z : Z) : Z := wrapU 32 z.
Definition uint64 (z : Z) : Z := wrapU 64 z.
Definition int32 (z : Z) : Z := wrapS 32 z.
Definition int64 (z : Z) : Z := wrapS 64 z.

Lemma wrapU_range w z : 0 <= w -> inU w (wrapU w z).
Proof. intros Hw. apply Z.mod_pos_bound. apply Z.pow_pos_nonneg; lia. Qed.

Lemma wrapU_small w z : inU w z -> wrapU w z = z.
Proof. intros [? ?]. by apply Z.mod_small. Qed.

Lemma pow_half w : 0 < w -> 2 ^ w = 2 ^ (w - 1) + 2 ^ (w - 1).
Proof.
  intros Hw. replace w with (Z.succ (w - 1)) at 1 by lia.
  rewrite Z.pow_succ_r by lia. lia.
Qed.

Lemma wrapS_range w z : 0 < w -> inS w (wrapS w z).
Proof.
  intros Hw. unfold inS, wrapS.
  pose proof (Z.mod_pos_bound (z + 2 ^ (w - 1)) (2 ^ w)
                (Z.pow_pos_nonneg 2 w ltac:(lia) ltac:(lia))).
  pose proof (pow_half w Hw). lia.
Qed.

Lemma wrapS_small w z : 0 < w -> inS w z -> wrapS w z = z.
Proof.
  intros Hw [? ?]. unfold wrapS. pose proof (pow_half w Hw).
  rewrite Z.mod_small; lia.
Qed.

(** Reading an unsigned wrap as signed gives the signed wrap: the conversion
    [int32(uint32 value)] keeps the value modulo [2^w]. *)
Lemma wrapS_wrapU w z : 0 < w -> wrapS w (wrapU w z) = wrapS w z.
Proof.
  intros Hw. unfold wrapS, wrapU. f_equal.
  rewrite Zplus_mod_idemp_l. done.
Qed.

Lemma wrapU_add_l w a b : wrapU w (wrapU w a + b) = wrapU w (a + b).
Proof. unfold wrapU. apply Zplus_mod_idemp_l. Qed.

Lemma wrapU_sub_l w a b : wrapU w (wrapU w a - b) = wrapU w (a - b).
Proof. unfold wrapU. apply Zminus_mod_idemp_l. Qed.

Lemma uint32_small z : 0 <= z < 4294967296 -> uint32 z = z.
Proof. intros. apply wrapU_small. unfold inU. lia. Qed.

Lemma int32_small z : -2147483648 <= z < 2147483648 -> int32 z = z.
Proof. intros. apply wrapS_small; [lia|]. unfold inS. lia. Qed.

Lemma int64_small z :
  -9223372036854775808 <= z < 9223372036854775808 -> int64 z = z.
Proof. intros. apply wrapS_small; [lia|]. unfold inS. lia. Qed.

Lemma uint32_range z : 0 <= uint32 z < 4294967296.
Proof. apply (wrapU_range 32 z). lia. Qed.

Lemma int32_range z : -2147483648 <= int32 z < 2147483648.
Proof. apply (wrapS_range 32 z). lia. Qed.

End Words.

#[export] Hint Rewrite wrapU_add_l wrapU_sub_l : dflyz.

(** ** Outcomes

    What a Go call can do besides returning: panic, or never return.  [Diverge]
    is the answer of a loop that has used up its fuel; each loop comes with a
    theorem saying which fuel is enough. *)

Inductive PanicReason :=
  | NilDereference
  | IndexOutOfRange
  | SliceBoundsOutOfRange
  | DivideByZero
  | NegativeWaitGroup
  | UnlockOfUnlocked
  | NotANumber.

Inductive Outcome (A : Type) :=
  | Ok (a : A)
  | Panic (why : PanicReason)
  | Diverge.
Arguments Ok {_} _.
Arguments Panic {_} _.
Arguments Diverge {_}.

#[export] Instance outcome_ret : MRet Outcome := @Ok.
#[export] Instance outcome_bind : MBind Outcome := λ _ _ f m,
  match m with
  | Ok a => f a
  | Panic why => Panic why
  | Diverge => Diverge
  end.
#[export] Instance outcome_fmap : FMap Outcome := λ _ _ f m,
  match m with
  | Ok a => Ok (f a)
  | Panic why => Panic why
  | Diverge => Diverge
  end.

Lemma outcome_bind_Ok {A B} (m : Outcome A) (f : A → Outcome B) b :
  m ≫= f = Ok b ↔ ∃ a, m = Ok a ∧ f a = Ok b.
Proof. destruct m; naive_solver. Qed.

Lemma outcome_fmap_Ok {A B} (m : Outcome A) (f : A → B) b :
  f <$> m = Ok b ↔ ∃ a, m = Ok a ∧ f a = b.
Proof. destruct m; naive_solver. Qed.

(** Take a successful run apart into the successful runs of its steps. *)
Ltac ok_inv :=
  repeat match goal with
  | H : (_ ≫= _) = Ok _ |- _ =>
      let a := fresh "a" in let Ha := fresh "Ha" in
      apply outcome_bind_Ok in H; destruct H as (a & Ha & H)
  | H : (_ <$> _) = Ok _ |- _ =>
      let a := fresh "a" in let Ha := fresh "Ha" in
      apply outcome_fmap_Ok in H; destruct H as (a & Ha & H)
  | H : mret _ = Ok _ |- _ => injection H as H
  | H : Ok _ = Ok _ |- _ => injection H as H
  | H : Panic _ = Ok _ |- _ => discriminate H
  | H : Diverge = Ok _ |- _ => discriminate H
  end.

(** A Go [for ... range] over a slice whose body changes the state. *)
Fixpoint foldM {S A} (f : S → A → Outcome S) (l : list A) (s : S) : Outcome S :=
  match l with
  | [] => Ok s
  | x :: l => s' ← f s x; foldM f l s'
  end.

(** The invariant rule of such a loop. *)
Lemma foldM_invariant {S A} (P : S → Prop) (f : S → A → Outcome S) l s s' :
  (∀ x s1 s2, x ∈ l → P s1 → f s1 x = Ok s2 → P s2) →
  P s → foldM f l s = Ok s' → P s'.
Proof.
  revert s. induction l as [|x l IH]; intros s Hstep Hs Hrun; simpl in Hrun.
  - by ok_inv; subst.
  - ok_inv. eapply IH; [|eapply Hstep; [|exact Hs|exact Ha]|exact Hrun].
    + intros; eapply Hstep; [by apply elem_of_cons; right|done..].
    + apply elem_of_cons; by left.
Qed.

(** The invariant rule of a loop that never panics: a plain fold. *)
Lemma foldl_invariant {S A} (P : S → Prop) (f : S → A → S) l s :
  (∀ x s1, x ∈ l → P s1 → P (f s1 x)) → P s → P (foldl f s l).
Proof.
  revert s. induction l as [|x l IH]; intros s Hstep Hs; simpl; [done|].
  apply IH; [|apply Hstep; [apply elem_of_cons; by left|done]].
  intros; apply Hstep; [apply elem_of_cons; by right|done].
Qed.

(** ** Lists *)

Section Lists.
Context {A : Type} `{EqDecision A}.

(** Remove the first occurrence: [list.List.Remove] of the element a scan
    stops at. *)
Fixpoint remove_first (x : A) (l : list A) : list A :=
  match l with
  | [] => []
  | y :: l => if decide (y = x) then l else y :: remove_first x l
  end.

Lemma remove_first_notin x l : x ∉ l → remove_first x l = l.
Proof.
  induction l as [|y l IH]; [done|]. intros [Hne Hnin]%not_elem_of_cons. simpl.
  case_decide; [congruence|]. by rewrite IH.
Qed.

Lemma remove_first_perm x l : x ∈ l → l ≡ₚ x :: remove_first x l.
Proof.
  induction l as [|y l IH]; [by intros ?%elem_of_nil|]. simpl.
  intros Hin. case_decide as Hyx; [by subst|].
  apply elem_of_cons in Hin as [->|Hin]; [done|].
  rewrite (IH Hin) at 1. apply Permutation_swap.
Qed.

Lemma remove_first_subset x y l : y ∈ remove_first x l → y ∈ l.
Proof.
  induction l as [|z l IH]; [done|]. simpl. case_decide; set_solver.
Qed.

Lemma remove_first_other x y l : y ∈ l → y ≠ x → y ∈ remove_first x l.
Proof.
  intros Hin Hne. destruct (decide (x ∈ l)) as [Hx|Hx].
  - rewrite (remove_first_perm x l Hx) in Hin. by apply elem_of_cons in Hin as [?|?].
  - by rewrite remove_first_notin.
Qed.

Lemma elem_of_remove_first x y l :
  NoDup l → y ∈ remove_first x l ↔ y ∈ l ∧ y ≠ x.
Proof.
  intros Hnd. destruct (decide (x ∈ l)) as [Hin|Hnin].
  - pose proof (remove_first_perm x l Hin) as Hp.
    rewrite Hp in Hnd. apply NoDup_cons in Hnd as [Hx _].
    split; [intros Hy; split; [by eapply remove_first_subset|by intros ->]|].
    intros [Hy Hne]. rewrite Hp in Hy. by apply elem_of_cons in Hy as [?|?].
  - rewrite remove_first_notin by done. set_solver.
Qed.

Lemma NoDup_remove_first x l : NoDup l → NoDup (remove_first x l).
Proof.
  intros Hnd. destruct (decide (x ∈ l)) as [Hin|Hnin].
  - rewrite (remove_first_perm x l Hin) in Hnd. by apply NoDup_cons in Hnd as [_ ?].
  - by rewrite remove_first_notin.
Qed.

Lemma Sorted_remove_first (R : relation A) x l :
  Transitive R → Sorted R l → Sorted R (remove_first x l).
Proof.
  intros HT Hs. apply StronglySorted_Sorted. apply Sorted_StronglySorted in Hs; [|done].
  induction Hs as [|y l Hs IH Hy]; simpl; [constructor|].
  case_decide; [done|]. constructor; [done|].
  apply Forall_forall. intros z Hz%remove_first_subset.
  by eapply Forall_forall in Hy.
Qed.

End Lists.

#[export] Hint Resolve NoDup_remove_first Sorted_remove_first : dfly.

(** ** Strings *)

(** [strings.Split(s, sep)] for a separator of one byte. *)
Fixpoint strings_Split (sep : Ascii.ascii) (s : string) : list string :=
  match s with
  | EmptyString => [EmptyString]
  | String c s =>
      if decide (c = sep) then EmptyString :: strings_Split sep s
      else match strings_Split sep s with
           | [] => [String c EmptyString]
           | x :: l => String c x :: l
           end
  end.

(** [strings.Join(l, sep)] for a separator of one byte. *)
Fixpoint strings_Join (sep : Ascii.ascii) (l : list string) : string :=
  match l with
  | [] => EmptyString
  | [x] => x
  | x :: l => String.app x (String sep (strings_Join sep l))
  end.

Lemma strings_Split_not_nil sep s : strings_Split sep s ≠ [].
Proof. destruct s as [|c s]; simpl; [done|]. case_decide; [done|]. by destruct (strings_Split sep s). Qed.

Lemma strings_Join_Split sep s : strings_Join sep (strings_Split sep s) = s.
Proof.
  induction s as [|c s IH]; simpl; [done|].
  pose proof (strings_Split_not_nil sep s) as Hne.
  destruct (strings_Split sep s) as [|x l] eqn:Hs; [done|].
  case_decide as Hc.
  - subst c. simpl in *. by rewrite IH.
  - destruct l as [|y l]; simpl in *; by rewrite <-IH.
Qed.

(** A run that fails fails at one of its steps. *)
Lemma foldM_panic {S A} (f : S → A → Outcome S) l s r :
  foldM f l s = Panic r → ∃ x s', x ∈ l ∧ f s' x = Panic r.
Proof.
  revert s. induction l as [|x l IH]; intros s; simpl; [done|].
  destruct (f s x) eqn:Hf; simpl; [|intros [= ->]; set_solver|done].
  intros (y & s' & ? & ?)%IH. set_solver.
Qed.

Lemma foldM_diverge {S A} (f : S → A → Outcome S) l s :
  foldM f l s = Diverge → ∃ x s', x ∈ l ∧ f s' x = Diverge.
Proof.
  revert s. induction l as [|x l IH]; intros s; simpl; [done|].
  destruct (f s x) eqn:Hf; simpl; [|done|intros _; set_solver].
  intros (y & s' & ? & ?)%IH. set_solver.
Qed.

(** Filtering for one element. *)
Lemma filter_none {A} (P : A → Prop) `{!∀ x, Decision (P x)} l :
  (∀ x, x ∈ l → ¬ P x) → filter P l = [].
Proof.
  induction l as [|x l IH]; intros Hl; [done|]. rewrite filter_cons.
  rewrite decide_False by (apply Hl; by left). apply IH. intros y Hy. apply Hl. by right.
Qed.

Lemma filter_eq_NoDup {A} `{EqDecision A} (x : A) l :
  NoDup l → x ∈ l → filter (.= x) l = [x].
Proof.
  induction 1 as [|y l Hy Hnd IH]; intros Hx; [by apply elem_of_nil in Hx|].
  rewrite filter_cons. apply elem_of_cons in Hx as [->|Hx].
  - rewrite decide_True by done. f_equal. apply filter_none. naive_solver.
  - rewrite decide_False by (intros ->; done). by apply IH.
Qed.

(** A list in reverse is sorted the other way round. *)
Lemma StronglySorted_reverse {A} (R : relation A) l :
  StronglySorted (flip R) l → StronglySorted R (reverse l).
Proof.
  induction 1 as [|x l Hs IH Hx]; [constructor|]. rewrite reverse_cons.
  apply StronglySorted_app_2; [|done|repeat constructor].
  intros y z Hy Hz. apply list_elem_of_singleton in Hz as ->. rewrite elem_of_reverse in Hy.
  by eapply Forall_forall in Hx.
Qed.

Lemma elem_of_take_filter {A} (P : A → Prop) `{!∀ x, Decision (P x)} n l x :
  x ∈ take n (filter P l) → P x ∧ x ∈ l.
Proof.
  intros (i & Hx & _)%elem_of_take. apply list_elem_of_lookup_2 in Hx.
  by apply list_elem_of_filter in Hx.
Qed.

Lemma NoDup_take {A} n (l : list A) : NoDup l → NoDup (take n l).
Proof. rewrite <-(take_drop n l) at 1. by intros [? _]%NoDup_app. Qed.
