(* ===== verification/Text.v ===== *)
(** * Text: numbers and fields in strings

    What the sources use of Go's strconv, strings and net/textproto packages to
    read and write numbers, ranges and records as text, and
    pkg/util/stringutils.  Strings are sequences of bytes; the white space is
    that of ASCII. *)

From S2P Require Import Prelude.
From Stdlib Require Import Ascii String.
From stdpp Require Export pretty.
From stdpp Require Import options.
Local Open Scope Z_scope.

(** ** Fields *)

Fixpoint strings_Contains (c : ascii) (s : string) : bool :=
  match s with
  | EmptyString => false
  | String d s => bool_decide (d = c) || strings_Contains c s
  end.

Fixpoint strings_Count (c : ascii) (s : string) : nat :=
  match s with
  | EmptyString => 0
  | String d s => (if decide (d = c) then 1 else 0) + strings_Count c s
  end.

(** [strings.HasPrefix] and [strings.TrimPrefix] for a string. *)
Fixpoint strings_CutPrefix (p s : string) : option string :=
  match p, s with
  | EmptyString, _ => Some s
  | String a p, String b s => if decide (a = b) then strings_CutPrefix p s else None
  | _, _ => None
  end.

(** [strings.HasSuffix] and [strings.TrimSuffix] for a suffix of one byte. *)
Fixpoint strings_CutSuffix (c : ascii) (s : string) : option string :=
  match s with
  | EmptyString => None
  | String d EmptyString => if decide (d = c) then Some EmptyString else None
  | String d s => String d <$> strings_CutSuffix c s
  end.

(** The text before and after the first [c]: [strings.Index]. *)
Fixpoint strings_Cut (c : ascii) (s : string) : option (string * string) :=
  match s with
  | EmptyString => None
  | String d s =>
      if decide (d = c) then Some (EmptyString, s)
      else prod_map (String d) id <$> strings_Cut c s
  end.

(** ** White space *)

Definition isSpace (c : ascii) : bool :=
  let n := N_of_ascii c in
  (N.leb 9 n && N.leb n 13) || N.eqb n 32.

(** textproto: space, tab, newline and carriage return. *)
Definition isASCIISpace (c : ascii) : bool :=
  let n := N_of_ascii c in N.eqb n 32 || N.eqb n 9 || N.eqb n 10 || N.eqb n 13.

Fixpoint trimLeft (sp : ascii → bool) (s : string) : string :=
  match s with
  | EmptyString => EmptyString
  | String c t => if sp c then trimLeft sp t else s
  end.

Fixpoint trimRight (sp : ascii → bool) (s : string) : string :=
  match s with
  | EmptyString => EmptyString
  | String c t =>
      match trimRight sp t with
      | EmptyString => if sp c then EmptyString else String c EmptyString
      | t' => String c t'
      end
  end.

Definition strings_TrimSpace (s : string) : string := trimRight isSpace (trimLeft isSpace s).
Definition textproto_TrimString (s : string) : string :=
  trimRight isASCIISpace (trimLeft isASCIISpace s).

(** ** stringutils *)

Fixpoint IsBlank (s : string) : bool :=
  match s with
  | EmptyString => true
  | String c s => isSpace c && IsBlank s
  end.

Definition SubString (str : string) (start end' : Z) : string :=
  let length := Z.of_nat (String.length str) in
  if (start <? 0) || (length <=? start) || (end' <=? 0) || (length <? end') || (end' <=? start)
  then ""
  else String.substring (Z.to_nat start) (Z.to_nat (end' - start)) str.

(** ** Numbers *)

Definition digitValue (c : ascii) : option N :=
  let n := N_of_ascii c in
  if N.leb 48 n && N.leb n 57 then Some (n - 48)%N else None.

Fixpoint parseDigits (base acc : N) (s : string) : option N :=
  match s with
  | EmptyString => Some acc
  | String c s =>
      match digitValue c with
      | Some d => if N.ltb d base then parseDigits base (acc * base + d)%N s else None
      | None => None
      end
  end.

(** [strconv.ParseUint(s, 10, bits)]; [None] for its error. *)
Definition strconv_ParseUint (bits : Z) (s : string) : option Z :=
  match s with
  | EmptyString => None
  | _ =>
      n ← parseDigits 10 0 s;
      if Z.of_N n <? 2 ^ bits then Some (Z.of_N n) else None
  end.

(** The magnitude and the sign: [ParseInt] after its sign. *)
Definition signedValue (bits : Z) (neg : bool) (n : N) : option Z :=
  let z := Z.of_N n in
  if neg then if z <=? 2 ^ (bits - 1) then Some (- z) else None
  else if z <? 2 ^ (bits - 1) then Some z else None.

(** [strconv.ParseInt(s, 10, bits)]. *)
Definition strconv_ParseInt (bits : Z) (s : string) : option Z :=
  let '(neg, digits) :=
    match s with
    | String c t =>
        if decide (c = "-"%char) then (true, t)
        else if decide (c = "+"%char) then (false, t) else (false, s)
    | EmptyString => (false, s)
    end in
  match digits with
  | EmptyString => None
  | _ => parseDigits 10 0 digits ≫= signedValue bits neg
  end.

(** [strconv.ParseInt(s, 0, bits)] of a string of digits: a leading zero makes
    it octal. *)
Definition strconv_ParseInt0 (bits : Z) (s : string) : option Z :=
  match s with
  | EmptyString => None
  | String c t =>
      let '(base, digits) := if decide (c = "0"%char) then (8%N, t) else (10%N, s) in
      parseDigits base 0 digits ≫= signedValue bits false
  end.

(** [fmt.Sprint] of an integer. *)
Definition fmt_Sprint (z : Z) : string := pretty z.

(** ** Lemmas: fields *)

Lemma str_app_nil_r s : s +:+ "" = s.
Proof. induction s as [|c s IH]; [done|]. change (String c (s +:+ "") = String c s). by f_equal. Qed.

Lemma str_app_assoc s1 s2 s3 : (s1 +:+ s2) +:+ s3 = s1 +:+ (s2 +:+ s3).
Proof.
  induction s1 as [|c s1 IH]; [done|].
  change (String c ((s1 +:+ s2) +:+ s3) = String c (s1 +:+ (s2 +:+ s3))). by f_equal.
Qed.

Lemma strings_Contains_app c s1 s2 :
  strings_Contains c (s1 +:+ s2) = strings_Contains c s1 || strings_Contains c s2.
Proof. induction s1 as [|d s1 IH]; simpl; [done|]. by rewrite IH, orb_assoc. Qed.

Lemma strings_Split_single sep s : strings_Contains sep s = false → strings_Split sep s = [s].
Proof.
  induction s as [|d s IH]; [done|]. intros [Hd Hs]%orb_false_iff. apply bool_decide_eq_false in Hd.
  simpl. by rewrite decide_False, IH.
Qed.

Lemma strings_Split_app sep x y :
  strings_Contains sep x = false →
  strings_Split sep (x +:+ String sep y) = x :: strings_Split sep y.
Proof.
  induction x as [|d x IH]; intros Hx; simpl.
  - by rewrite decide_True.
  - apply orb_false_iff in Hx as [Hd Hx]. apply bool_decide_eq_false in Hd.
    by rewrite decide_False, IH.
Qed.

Lemma strings_Split_Join sep l :
  l ≠ [] → Forall (λ s, strings_Contains sep s = false) l →
  strings_Split sep (strings_Join sep l) = l.
Proof.
  intros Hne Hall. induction Hall as [|x l Hx Hall IH]; [done|].
  destruct l as [|y l]; [by apply strings_Split_single|].
  change (strings_Join sep (x :: y :: l)) with (x +:+ String sep (strings_Join sep (y :: l))).
  by rewrite strings_Split_app, IH.
Qed.

(** A split has one field more than there are separators. *)
Lemma strings_Split_Count sep s : length (strings_Split sep s) = S (strings_Count sep s).
Proof.
  induction s as [|c s IH]; [done|]. simpl. case_decide; simpl; [by rewrite IH|].
  pose proof (strings_Split_not_nil sep s). destruct (strings_Split sep s); [done|]. done.
Qed.

(** ** Lemmas: numbers *)

Definition isDigit (c : ascii) : Prop := is_Some (digitValue c).

Fixpoint allDigits (s : string) : Prop :=
  match s with
  | EmptyString => True
  | String c s => isDigit c ∧ allDigits s
  end.

Lemma digitValue_pretty (d : N) : (d < 10)%N → digitValue (pretty_N_char d) = Some d.
Proof.
  intros Hd. destruct d as [|p]; [done|].
  do 4 (destruct p as [p|p|]; try done; try lia).
Qed.

Lemma parse_pretty_go x s : parseDigits 10 0 (pretty_N_go x s) = parseDigits 10 x s.
Proof.
  revert s. induction (N.lt_wf_0 x) as [x _ IH]; intros s.
  assert (x = 0 ∨ 0 < x)%N as [->|Hx] by lia; [by rewrite pretty_N_go_0|].
  assert (x `mod` 10 < 10)%N as Hm by (by apply N.mod_lt).
  rewrite pretty_N_go_step by done. rewrite IH by (by apply N.div_lt).
  cbn [parseDigits]. rewrite digitValue_pretty by done.
  replace (N.ltb (x `mod` 10) 10) with true by (symmetry; by apply N.ltb_lt).
  f_equal. pose proof (N.div_mod x 10). lia.
Qed.

Lemma allDigits_pretty_go x s : allDigits s → allDigits (pretty_N_go x s).
Proof.
  revert s. induction (N.lt_wf_0 x) as [x _ IH]; intros s Hs.
  assert (x = 0 ∨ 0 < x)%N as [->|Hx] by lia; [by rewrite pretty_N_go_0|].
  rewrite pretty_N_go_step by done. apply IH; [by apply N.div_lt|].
  split; [|done]. exists (x `mod` 10)%N. apply digitValue_pretty. by apply N.mod_lt.
Qed.

Lemma allDigits_pretty (x : N) : allDigits (pretty x).
Proof.
  unfold pretty, pretty_N. case_decide; [by repeat eexists|]. by apply allDigits_pretty_go.
Qed.

Lemma pretty_go_nonempty x s : s ≠ ""%string → pretty_N_go x s ≠ ""%string.
Proof.
  revert s. induction (N.lt_wf_0 x) as [x _ IH]; intros s Hs.
  assert (x = 0 ∨ 0 < x)%N as [->|Hx] by lia; [by rewrite pretty_N_go_0|].
  rewrite pretty_N_go_step by done. apply IH; [by apply N.div_lt|done].
Qed.

Lemma pretty_nonempty (x : N) : pretty x ≠ ""%string.
Proof.
  unfold pretty, pretty_N. case_decide; [done|].
  rewrite pretty_N_go_step by lia. by apply pretty_go_nonempty.
Qed.

Lemma parseDigits_pretty (x : N) : parseDigits 10 0 (pretty x) = Some x.
Proof. unfold pretty, pretty_N. case_decide; [by subst|]. by rewrite parse_pretty_go. Qed.

Lemma fmt_Sprint_nonneg z : 0 <= z → fmt_Sprint z = pretty (Z.to_N z).
Proof. intros Hz. unfold fmt_Sprint, pretty, pretty_Z. by destruct z. Qed.

Lemma allDigits_Sprint z : 0 <= z → allDigits (fmt_Sprint z).
Proof. intros Hz. rewrite fmt_Sprint_nonneg by done. apply allDigits_pretty. Qed.

(** What is printed is read back. *)
Lemma ParseUint_Sprint bits z : 0 <= z < 2 ^ bits → strconv_ParseUint bits (fmt_Sprint z) = Some z.
Proof.
  intros [H0 H1]. rewrite fmt_Sprint_nonneg by done. unfold strconv_ParseUint.
  pose proof (pretty_nonempty (Z.to_N z)) as Hne. rewrite parseDigits_pretty. simpl.
  rewrite Z2N.id by done. destruct (pretty (Z.to_N z)); [done|].
  by rewrite (proj2 (Z.ltb_lt _ _)).
Qed.

Lemma allDigits_notIn c s : digitValue c = None → allDigits s → strings_Contains c s = false.
Proof.
  intros Hc. induction s as [|d s IH]; [done|]. intros [[v Hd] Hs]. simpl.
  rewrite IH by done. rewrite bool_decide_eq_false_2; [done|]. intros ->. congruence.
Qed.

Lemma ParseUint_nonneg bits s z : strconv_ParseUint bits s = Some z → 0 <= z < 2 ^ bits.
Proof.
  unfold strconv_ParseUint. destruct s; [done|].
  destruct (parseDigits _ _ _) as [n|]; simpl; [|done].
  destruct (Z.ltb_spec (Z.of_N n) (2 ^ bits)); [|done]. intros [= <-]. lia.
Qed.

Lemma digitValue_dash : digitValue "-" = None. Proof. done. Qed.

Lemma ParseInt_Sprint bits z :
  0 < bits → 0 <= z < 2 ^ (bits - 1) → strconv_ParseInt bits (fmt_Sprint z) = Some z.
Proof.
  intros Hb [H0 H1]. unfold strconv_ParseInt.
  pose proof (allDigits_Sprint z H0) as Hd. rewrite fmt_Sprint_nonneg in * by done.
  pose proof (pretty_nonempty (Z.to_N z)) as Hne. pose proof (parseDigits_pretty (Z.to_N z)) as Hp.
  destruct (pretty (Z.to_N z)) as [|c s] eqn:Hs; [done|]. destruct Hd as [[v Hv] _].
  rewrite !decide_False by (intros ->; done). rewrite Hp. simpl. unfold signedValue.
  by rewrite Z2N.id, (proj2 (Z.ltb_lt _ _)).
Qed.

(** ** Lemmas: white space *)

Lemma isSpace_digit c : isDigit c → isSpace c = false.
Proof.
  intros [v Hv]. unfold digitValue in Hv. unfold isSpace.
  destruct (N.leb_spec 48 (N_of_ascii c)); [|done].
  destruct (N.leb_spec (N_of_ascii c) 13); [lia|].
  destruct (N.eqb_spec (N_of_ascii c) 32); [lia|]. by rewrite andb_false_r.
Qed.

Lemma trimLeft_id sp c s : sp c = false → trimLeft sp (String c s) = String c s.
Proof. intros Hc. simpl. by rewrite Hc. Qed.

(** The white space at the end goes. *)
Lemma trimRight_app sp s c t :
  sp c = false → trimRight sp t = ""%string →
  trimRight sp (s +:+ String c t) = s +:+ String c "".
Proof.
  intros Hc Ht. induction s as [|d s IH]; simpl; [by rewrite Ht, Hc|].
  rewrite IH. by destruct s.
Qed.
