(* ===== verification/Ranges.v ===== *)
(** * Ranges: pkg/util/rangeutils

    Byte ranges of a file as text: the ranges of pieces in the CDN's metadata
    and the range of a request for part of a file. *)

From S2P Require Import Prelude Text.
From Stdlib Require Import Ascii.
From stdpp Require Import options.
Local Open Scope Z_scope.

Definition separator : ascii := "-".

Record ByteRange := mkByteRange { StartIndex : Z; EndIndex : Z }.   (* uint64 *)

#[export] Instance ByteRange_eq_dec : EqDecision ByteRange.
Proof. solve_decision. Defined.

Inductive RangeError :=
  | ErrRangeIllegal          (* not of the form start-end *)
  | ErrRangeNotANumber
  | ErrRangeBeyondLength
  | ErrRangeStartAfterEnd.

#[export] Instance RangeError_eq_dec : EqDecision RangeError.
Proof. solve_decision. Defined.

Definition ByteRange_String (r : ByteRange) : string :=
  fmt_Sprint (StartIndex r) +:+ String separator (fmt_Sprint (EndIndex r)).

Definition ByteRange_Length (r : ByteRange) : Z :=
  uint64 (uint64 (EndIndex r - StartIndex r) + 1).

Definition GetRange (rangeStr : string) : RangeError + ByteRange :=
  match strings_Split separator rangeStr with
  | [a; b] =>
      match strconv_ParseUint 64 a with
      | None => inl ErrRangeNotANumber
      | Some startIndex =>
          match strconv_ParseUint 64 b with
          | None => inl ErrRangeNotANumber
          | Some endIndex =>
              if endIndex <? startIndex then inl ErrRangeStartAfterEnd
              else inr (mkByteRange startIndex endIndex)
          end
      end
  | _ => inl ErrRangeIllegal
  end.

(** [-n]: the last [n] bytes; [downLength] is the text after the separator. *)
Definition handlePrefixRange (downLength : string) (length : Z) : RangeError + ByteRange :=
  match strconv_ParseUint 64 downLength with
  | None => inl ErrRangeNotANumber
  | Some downLength =>
      if length <? downLength then inl ErrRangeBeyondLength
      else inr (mkByteRange (uint64 (length - downLength)) (uint64 (length - 1)))
  end.

(** [n-]: all bytes from [n] on. *)
Definition handleSuffixRange (startIndex : string) (length : Z) : RangeError + ByteRange :=
  match strconv_ParseUint 64 startIndex with
  | None => inl ErrRangeNotANumber
  | Some startIndex =>
      if length <? startIndex then inl ErrRangeBeyondLength
      else inr (mkByteRange startIndex (uint64 (length - 1)))
  end.

Definition handlePairRange (rangeStr : string) (length : Z) : RangeError + ByteRange :=
  match strings_Split separator rangeStr with
  | a :: b :: _ =>
      match strconv_ParseUint 64 a with
      | None => inl ErrRangeNotANumber
      | Some startIndex =>
          if length <? startIndex then inl ErrRangeBeyondLength
          else
            match strconv_ParseUint 64 b with
            | None => inl ErrRangeNotANumber
            | Some endIndex =>
                let endIndex := if length <=? endIndex then uint64 (length - 1) else endIndex in
                if endIndex <? startIndex then inl ErrRangeStartAfterEnd
                else inr (mkByteRange startIndex endIndex)
            end
      end
  | _ => inl ErrRangeIllegal
  end.

Definition ParseRange (rangeStr : string) (length : Z) : RangeError + ByteRange :=
  if negb (Nat.eqb (strings_Count separator rangeStr) 1) then inl ErrRangeIllegal
  else
    match strings_CutPrefix (String separator "") rangeStr with
    | Some downLength => handlePrefixRange downLength length
    | None =>
        match strings_CutSuffix separator rangeStr with
        | Some startIndex => handleSuffixRange startIndex length
        | None => handlePairRange rangeStr length
        end
    end.

(** ** Round trips *)

Lemma uint64_small z : 0 <= z < 2 ^ 64 → uint64 z = z.
Proof. intros. by apply wrapU_small. Qed.

Definition range_ok (r : ByteRange) : Prop := 0 <= StartIndex r <= EndIndex r ∧ EndIndex r < 2 ^ 64.

Lemma Split_ByteRange r :
  range_ok r →
  strings_Split separator (ByteRange_String r) = [fmt_Sprint (StartIndex r); fmt_Sprint (EndIndex r)].
Proof.
  intros [Hr ?]. unfold ByteRange_String.
  rewrite strings_Split_app, strings_Split_single; [done|..];
    apply allDigits_notIn; first [done | apply allDigits_Sprint; lia].
Qed.

Lemma GetRange_String r : range_ok r → GetRange (ByteRange_String r) = inr r.
Proof.
  intros Hr. unfold GetRange. rewrite Split_ByteRange by done. destruct Hr as [Hr He].
  rewrite !ParseUint_Sprint by lia. rewrite (proj2 (Z.ltb_ge _ _)) by lia. by destruct r.
Qed.

Lemma GetRange_ok s r : GetRange s = inr r → range_ok r.
Proof.
  unfold GetRange. destruct (strings_Split separator s) as [|a [|b [|]]]; try done.
  destruct (strconv_ParseUint 64 a) as [x|] eqn:Ha; [|done].
  destruct (strconv_ParseUint 64 b) as [y|] eqn:Hb; [|done].
  apply ParseUint_nonneg in Ha, Hb. destruct (Z.ltb_spec y x); [done|].
  intros [= <-]. unfold range_ok. simpl. lia.
Qed.

(** The text of a range has its separator inside. *)
Lemma CutPrefix_digits c s t :
  isDigit c → strings_CutPrefix (String separator s) (String c t) = None.
Proof. intros [v Hv]. simpl. rewrite decide_False; [done|]. by intros <-. Qed.

Lemma CutSuffix_digits s : allDigits s → strings_CutSuffix separator s = None.
Proof.
  induction s as [|c s IH]; [done|]. intros [[v Hv] Hs]. simpl. rewrite IH by done.
  rewrite decide_False by (by intros ->). by destruct s.
Qed.

Lemma CutSuffix_app s t : t ≠ ""%string →
  strings_CutSuffix separator (s +:+ t) = (λ x, s +:+ x) <$> strings_CutSuffix separator t.
Proof.
  intros Ht. induction s as [|c s IH]; simpl; [by destruct (strings_CutSuffix _ _)|].
  rewrite IH. destruct (s +:+ t) eqn:Hst; [by destruct s, t|].
  by destruct (strings_CutSuffix separator t).
Qed.

Lemma ParseRange_pair a b length :
  0 <= a <= b → b < 2 ^ 64 → a < length < 2 ^ 64 →
  ParseRange (ByteRange_String (mkByteRange a b)) length = inr (mkByteRange a (Z.min b (length - 1))).
Proof.
  intros Hab Hb Hl. assert (range_ok (mkByteRange a b)) as Hok by (split; simpl; lia).
  pose proof (Split_ByteRange _ Hok) as Hsp. pose proof (strings_Split_Count separator
    (ByteRange_String (mkByteRange a b))) as Hc. rewrite Hsp in Hc. simpl in Hc.
  injection Hc as Hc. unfold ParseRange. rewrite <-Hc. simpl negb.
  assert (strings_CutSuffix separator (ByteRange_String (mkByteRange a b)) = None) as ->.
  { unfold ByteRange_String. rewrite CutSuffix_app by done. simpl.
    rewrite CutSuffix_digits by (apply allDigits_Sprint; lia).
    pose proof (pretty_nonempty (Z.to_N b)) as Hne. rewrite (fmt_Sprint_nonneg b) by lia.
    by destruct (pretty (Z.to_N b)). }
  assert (strings_CutPrefix (String separator "") (ByteRange_String (mkByteRange a b)) = None) as ->.
  { unfold ByteRange_String. simpl StartIndex. pose proof (allDigits_Sprint a ltac:(lia)) as Hd.
    pose proof (pretty_nonempty (Z.to_N a)) as Hne. rewrite (fmt_Sprint_nonneg a) in * by lia.
    destruct (pretty (Z.to_N a)); [done|]. destruct Hd. by apply CutPrefix_digits. }
  unfold handlePairRange. rewrite Hsp. simpl StartIndex. simpl EndIndex.
  rewrite !ParseUint_Sprint by lia. rewrite (proj2 (Z.ltb_ge length a)) by lia.
  rewrite uint64_small by lia.
  destruct (Z.leb_spec length b); rewrite (proj2 (Z.ltb_ge _ _)) by lia; do 2 f_equal; lia.
Qed.

Lemma strings_Count_digits s : allDigits s → strings_Count separator s = 0%nat.
Proof.
  induction s as [|c s IH]; [done|]. intros [[v Hv] Hs]. simpl. rewrite IH by done.
  by rewrite decide_False by (by intros ->).
Qed.

Lemma strings_Count_app c s t :
  strings_Count c (s +:+ t) = (strings_Count c s + strings_Count c t)%nat.
Proof. induction s as [|d s IH]; simpl; [done|]. rewrite IH. lia. Qed.

Lemma ParseRange_last n length :
  0 <= n <= length → 0 < length < 2 ^ 64 →
  ParseRange (String separator (fmt_Sprint n)) length = inr (mkByteRange (length - n) (length - 1)).
Proof.
  intros Hn Hl. unfold ParseRange. cbn [strings_Count]. rewrite decide_True by done.
  rewrite strings_Count_digits by (apply allDigits_Sprint; lia). simpl.
  unfold handlePrefixRange. rewrite ParseUint_Sprint by lia.
  rewrite (proj2 (Z.ltb_ge length n)), !uint64_small by lia. done.
Qed.

Lemma ParseRange_from n length :
  0 <= n <= length → 0 < length < 2 ^ 64 →
  ParseRange (fmt_Sprint n +:+ String separator "") length = inr (mkByteRange n (length - 1)).
Proof.
  intros Hn Hl. unfold ParseRange. pose proof (allDigits_Sprint n ltac:(lia)) as Hd.
  rewrite strings_Count_app, strings_Count_digits by done. cbn [strings_Count].
  rewrite decide_True by done. cbn [Nat.add Nat.eqb negb].
  rewrite CutSuffix_app by done.
  assert (strings_CutPrefix (String separator "") (fmt_Sprint n +:+ String separator "") = None) as ->.
  { pose proof (pretty_nonempty (Z.to_N n)) as Hne. rewrite (fmt_Sprint_nonneg n) in * by lia.
    destruct (pretty (Z.to_N n)); [done|]. destruct Hd. by apply CutPrefix_digits. }
  cbn [strings_CutSuffix]. rewrite decide_True by done. simpl. rewrite str_app_nil_r.
  unfold handleSuffixRange. rewrite ParseUint_Sprint by lia.
  rewrite (proj2 (Z.ltb_ge length n)), !uint64_small by lia. done.
Qed.

(** What is accepted lies in the file; the range may be empty. *)
Lemma ParseRange_in_file s length r :
  0 < length < 2 ^ 64 → ParseRange s length = inr r →
  0 <= StartIndex r <= EndIndex r + 1 ∧ EndIndex r < length.
Proof.
  intros Hl. unfold ParseRange, handlePrefixRange, handleSuffixRange, handlePairRange.
  rewrite !(uint64_small (length - 1)) by lia. intros H.
  repeat match goal with
  | H : (if ?b then _ else _) = _ |- _ => destruct b eqn:?; [try done|try done]
  | H : match ?x with _ => _ end = _ |- _ => destruct x eqn:?; try done
  end; try done; zbool;
  repeat match goal with H : strconv_ParseUint _ _ = Some _ |- _ => apply ParseUint_nonneg in H end;
  injection H as <-; simpl; rewrite ?uint64_small by lia;
  repeat match goal with H : context [if ?b then _ else _] |- _ => destruct b eqn:? end; zbool; simpl in *; try lia.
Qed.

(** C33: the range of a request.  For a file of positive length the three forms
    mean the last [n] bytes, the bytes from [n] on, and the bytes from [a] to
    [b] as far as the file goes; a range that is written out as text is read
    back; and whatever text is accepted, the range lies in the file. *)
Theorem ParseRange_correct (length : Z) :
  0 < length < 2 ^ 64 →
  (∀ n, 0 <= n <= length →
     ParseRange (String separator (fmt_Sprint n)) length = inr (mkByteRange (length - n) (length - 1)) ∧
     ParseRange (fmt_Sprint n +:+ String separator "") length = inr (mkByteRange n (length - 1))) ∧
  (∀ a b, 0 <= a <= b → b < 2 ^ 64 → a < length →
     ParseRange (ByteRange_String (mkByteRange a b)) length = inr (mkByteRange a (Z.min b (length - 1)))) ∧
  (∀ r, range_ok r → EndIndex r < length →
     ParseRange (ByteRange_String r) length = GetRange (ByteRange_String r)) ∧
  (∀ s r, ParseRange s length = inr r → 0 <= StartIndex r <= EndIndex r + 1 ∧ EndIndex r < length).
Proof.
  intros Hl. split_and!.
  - intros n Hn. split; [by apply ParseRange_last|by apply ParseRange_from].
  - intros a b Hab Hb Ha. apply ParseRange_pair; lia.
  - intros [a b] [Hab Hb] Hr. simpl in *. rewrite GetRange_String by done.
    rewrite ParseRange_pair by lia. do 2 f_equal. lia.
  - intros s r. by apply ParseRange_in_file.
Qed.

Lemma ParseRange_correct_witness :
  ParseRange "-5" 100 = inr (mkByteRange 95 99) ∧
  ParseRange "40-" 100 = inr (mkByteRange 40 99) ∧
  ParseRange "40-1000" 100 = inr (mkByteRange 40 99).
Proof.
  destruct (ParseRange_correct 100 ltac:(lia)) as (H1 & H2 & _). split_and!.
  - exact (proj1 (H1 5 ltac:(lia))).
  - exact (proj2 (H1 40 ltac:(lia))).
  - exact (H2 40 1000 ltac:(lia) ltac:(lia) ltac:(lia)).
Defined.

(** Of an empty file the end of the range wraps around. *)
Lemma ParseRange_empty_file :
  ParseRange "0-" 0 = inr (mkByteRange 0 (2 ^ 64 - 1)) ∧
  ParseRange "0-9" 0 = inr (mkByteRange 0 (2 ^ 64 - 1)).
Proof. split; vm_compute; reflexivity. Qed.
