(* ===== verification/Containers.v ===== *)
(** * Containers: pkg/container/set and pkg/container/list

    The unordered set ([set.go]), its mutex-guarded variant ([safe_set.go],
    whose [Add] is also modelled at the granularity of its two critical
    sections), the sorted list ([sorted_list.go]) and the sorted list without
    repetitions ([sorted_unique_list.go]) the scheduler keeps the peers of a
    task in.

    An [Item] only offers [SortedValue()], which the list calls at every
    comparison: the value of an item may change between two calls, so the
    operations take the valuation [sv] of the moment as an argument and the
    theorems relate lists that were sorted under different valuations. *)

From S2P Require Import Prelude.
From stdpp Require Import options.

(** ** set.go *)

Section SetOps.
Context {A : Type} `{Countable A}.

Definition set_New : gset A := ∅.

Definition set_Add (v : A) (s : gset A) : gset A * bool :=
  if decide (v ∈ s) then (s, false) else ({[v]} ∪ s, true).

Definition set_Delete (v : A) (s : gset A) : gset A := s ∖ {[v]}.

(** [Contains] is variadic: it answers [false] at the first value missing. *)
Fixpoint set_Contains (vals : list A) (s : gset A) : bool :=
  match vals with
  | [] => true
  | v :: vals => if decide (v ∈ s) then set_Contains vals s else false
  end.

Definition set_Len (s : gset A) : nat := size s.

(** [Range] visits the keys of a Go map: [order] is the order the runtime
    picks, and the visit stops when the callback answers [false]. *)
Fixpoint set_Range {S} (fn : S → A → S * bool) (order : list A) (acc : S) : S :=
  match order with
  | [] => acc
  | v :: order =>
      let '(acc', continue) := fn acc v in
      if continue : bool then set_Range fn order acc' else acc'
  end.

Definition set_Values (order : list A) : list A :=
  set_Range (λ result v, (result ++ [v], true)) order [].

(** ** safe_set.go, [Add] at the granularity of its critical sections *)

Inductive add_pc :=
  | AddCheck                 (* about to take the read lock *)
  | AddStore                 (* found the value absent, about to take the write lock *)
  | AddReturned (b : bool).

(** One critical section of one caller of [Add(v)]. *)
Definition safeSet_Add_step (v : A) (pc : add_pc) (data : gset A) : add_pc * gset A :=
  match pc with
  | AddCheck => if decide (v ∈ data) then (AddReturned false, data) else (AddStore, data)
  | AddStore => (AddReturned true, {[v]} ∪ data)
  | AddReturned b => (AddReturned b, data)
  end.

(** Two callers of [Add(v)], scheduled by [sched]: [true] runs the first. *)
Fixpoint safeSet_Add_run (v : A) (sched : list bool) (pc1 pc2 : add_pc)
    (data : gset A) : add_pc * add_pc * gset A :=
  match sched with
  | [] => (pc1, pc2, data)
  | true :: sched =>
      let '(pc1', data') := safeSet_Add_step v pc1 data in
      safeSet_Add_run v sched pc1' pc2 data'
  | false :: sched =>
      let '(pc2', data') := safeSet_Add_step v pc2 data in
      safeSet_Add_run v sched pc1 pc2' data'
  end.

(** A caller that runs alone. *)
Definition safeSet_Add (v : A) (data : gset A) : gset A * bool :=
  if decide (v ∈ data) then (data, false) else ({[v]} ∪ data, true).

Definition safeSet_Delete (v : A) (data : gset A) : gset A := data ∖ {[v]}.

Definition safeSet_Contains (vals : list A) (data : gset A) : bool :=
  set_Contains vals data.

Definition safeSet_Len (data : gset A) : nat := size data.

Definition safeSet_Values (order : list A) : list A :=
  set_Range (λ result v, (result ++ [v], true)) order [].

End SetOps.

(** ** sorted_list.go *)

Section SortedList.
Context {A : Type} `{EqDecision A}.

Definition sortedList_Len (l : list A) : nat := length l.

(** Insert before the first element whose value is not smaller. *)
Fixpoint sortedList_Insert (sv : A → Z) (item : A) (l : list A) : list A :=
  match l with
  | [] => [item]
  | v :: l => if (sv item <=? sv v)%Z then item :: v :: l
              else v :: sortedList_Insert sv item l
  end.

Definition sortedList_Remove (item : A) (l : list A) : list A := remove_first item l.

Fixpoint sortedList_Contains (item : A) (l : list A) : bool :=
  match l with
  | [] => false
  | v :: l => if decide (v = item) then true else sortedList_Contains item l
  end.

(** The callback of [Range] may change the surrounding state and may panic. *)
Fixpoint sortedList_Range {S} (fn : S → A → Outcome (S * bool)) (l : list A)
    (s : S) : Outcome S :=
  match l with
  | [] => Ok s
  | v :: l =>
      '(s', continue) ← fn s v;
      if continue : bool then sortedList_Range fn l s' else Ok s'
  end.

Definition sortedList_ReverseRange {S} (fn : S → A → Outcome (S * bool))
    (l : list A) (s : S) : Outcome S :=
  sortedList_Range fn (reverse l) s.

End SortedList.

(** ** sorted_unique_list.go *)

Record SortedUniqueList (A : Type) `{Countable A} := mkSortedUniqueList {
  ul_container : list A;
  ul_data : gset A;
}.
Arguments mkSortedUniqueList {_ _ _} _ _.
Arguments ul_container {_ _ _} _.
Arguments ul_data {_ _ _} _.

Section SortedUniqueListOps.
Context {A : Type} `{Countable A}.

Definition NewSortedUniqueList : SortedUniqueList A := mkSortedUniqueList [] set_New.

Definition sortedUniqueList_Len (ul : SortedUniqueList A) : nat :=
  sortedList_Len (ul_container ul).

Definition sortedUniqueList_Insert (sv : A → Z) (item : A)
    (ul : SortedUniqueList A) : SortedUniqueList A :=
  if set_Contains [item] (ul_data ul) then
    let c := sortedList_Remove item (ul_container ul) in
    mkSortedUniqueList (sortedList_Insert sv item c) (ul_data ul)
  else
    mkSortedUniqueList (sortedList_Insert sv item (ul_container ul))
                       (set_Add item (ul_data ul)).1.

Definition sortedUniqueList_Remove (item : A) (ul : SortedUniqueList A)
    : SortedUniqueList A :=
  mkSortedUniqueList (sortedList_Remove item (ul_container ul))
                     (set_Delete item (ul_data ul)).

Definition sortedUniqueList_Contains (item : A) (ul : SortedUniqueList A) : bool :=
  set_Contains [item] (ul_data ul).

Definition sortedUniqueList_Range {S} (fn : S → A → Outcome (S * bool))
    (ul : SortedUniqueList A) (s : S) : Outcome S :=
  sortedList_Range fn (ul_container ul) s.

Definition sortedUniqueList_ReverseRange {S} (fn : S → A → Outcome (S * bool))
    (ul : SortedUniqueList A) (s : S) : Outcome S :=
  sortedList_ReverseRange fn (ul_container ul) s.

(** The representation invariant: the list has no repetitions and holds the
    members of the set. *)
Definition ul_wf (ul : SortedUniqueList A) : Prop :=
  NoDup (ul_container ul) ∧ ∀ x, x ∈ ul_container ul ↔ x ∈ ul_data ul.

(** Sorted under the valuation [sv]. *)
Definition ul_sorted (sv : A → Z) (ul : SortedUniqueList A) : Prop :=
  Sorted (λ x y, (sv x <= sv y)%Z) (ul_container ul).

End SortedUniqueListOps.

(** ** Lemmas *)

Section SetLemmas.
Context {A : Type} `{Countable A}.

Lemma set_Contains_spec (vals : list A) (s : gset A) :
  set_Contains vals s = true ↔ ∀ v, v ∈ vals → v ∈ s.
Proof.
  induction vals as [|v vals IH]; simpl; [set_solver|].
  case_decide; [rewrite IH; set_solver|].
  split; [done|set_solver].
Qed.

Lemma set_Contains_one (v : A) (s : gset A) :
  set_Contains [v] s = bool_decide (v ∈ s).
Proof. simpl. by case_decide; case_bool_decide. Qed.

Lemma set_Add_fst (v : A) (s : gset A) : (set_Add v s).1 = {[v]} ∪ s.
Proof. unfold set_Add. case_decide; simpl; [set_solver|done]. Qed.

Lemma set_Range_all {S} (f : S → A → S) order acc :
  set_Range (λ s v, (f s v, true)) order acc = foldl f acc order.
Proof. revert acc. induction order as [|v order IH]; intros acc; simpl; auto. Qed.

Lemma set_Values_order (order : list A) : set_Values order = order.
Proof.
  unfold set_Values. rewrite set_Range_all.
  assert (∀ acc, foldl (λ result v, result ++ [v]) acc order = acc ++ order) as Hgen;
    [|by rewrite Hgen].
  induction order as [|v order IH]; intros acc; simpl; [by rewrite app_nil_r|].
  rewrite IH, <-app_assoc. done.
Qed.

End SetLemmas.

Section SortedListLemmas.
Context {A : Type} `{EqDecision A}.
Implicit Types (l : list A).

Lemma sortedList_Insert_perm (sv : A → Z) item l :
  sortedList_Insert sv item l ≡ₚ item :: l.
Proof.
  induction l as [|v l IH]; simpl; [done|].
  case_match; [done|]. rewrite IH. apply Permutation_swap.
Qed.

Lemma sortedList_Insert_length (sv : A → Z) item l :
  length (sortedList_Insert sv item l) = S (length l).
Proof. by rewrite sortedList_Insert_perm. Qed.

Lemma elem_of_sortedList_Insert (sv : A → Z) item l x :
  x ∈ sortedList_Insert sv item l ↔ x = item ∨ x ∈ l.
Proof. by rewrite sortedList_Insert_perm, elem_of_cons. Qed.

Lemma NoDup_sortedList_Insert (sv : A → Z) item l :
  item ∉ l → NoDup l → NoDup (sortedList_Insert sv item l).
Proof. intros. rewrite sortedList_Insert_perm. by constructor. Qed.

Lemma sortedList_Insert_sorted (sv : A → Z) item l :
  Sorted (λ x y, (sv x <= sv y)%Z) l →
  Sorted (λ x y, (sv x <= sv y)%Z) (sortedList_Insert sv item l).
Proof.
  induction 1 as [|v l Hs IH Hv]; simpl; [repeat constructor|].
  destruct (Z.leb_spec (sv item) (sv v)) as [Hle|Hlt].
  - repeat constructor; auto.
  - constructor; [done|].
    destruct l as [|v' l]; simpl; [constructor; lia|].
    inversion Hv; subst. case_match; constructor; zbool; lia.
Qed.

Lemma sortedList_Contains_spec item l :
  sortedList_Contains item l = true ↔ item ∈ l.
Proof.
  induction l as [|v l IH]; simpl; [split; [done|set_solver]|].
  case_decide; [set_solver|]. rewrite IH. set_solver.
Qed.

(** A valuation that agrees on the elements sorts them the same way. *)
Lemma Sorted_ext (sv sv' : A → Z) l :
  (∀ x, x ∈ l → sv x = sv' x) →
  Sorted (λ x y, (sv x <= sv y)%Z) l → Sorted (λ x y, (sv' x <= sv' y)%Z) l.
Proof.
  intros Hext. induction 1 as [|v l Hs IH Hv]; constructor.
  - apply IH. set_solver.
  - inversion Hv; subst; constructor.
    rewrite <-!Hext by set_solver. done.
Qed.

(** The rule of a [Range] whose callback keeps an invariant. *)
Lemma sortedList_Range_invariant {S} (P : S → Prop) fn l s s' :
  (∀ x s1 s2 b, x ∈ l → P s1 → fn s1 x = Ok (s2, b) → P s2) →
  P s → sortedList_Range fn l s = Ok s' → P s'.
Proof.
  revert s. induction l as [|x l IH]; intros s Hstep Hs Hrun; simpl in Hrun.
  - by ok_inv; subst.
  - ok_inv. destruct a as [s2 b]. destruct b.
    + eapply IH; [|eapply Hstep; [|exact Hs|exact Ha]|exact Hrun].
      * intros; eapply Hstep; [by apply elem_of_cons; right|done..].
      * apply elem_of_cons; by left.
    + ok_inv; subst. eapply Hstep; [|exact Hs|exact Ha]. apply elem_of_cons; by left.
Qed.

End SortedListLemmas.

Section SortedUniqueListLemmas.
Context {A : Type} `{Countable A}.
Implicit Types (ul : SortedUniqueList A).

Lemma ul_New_wf : ul_wf (A := A) NewSortedUniqueList.
Proof. split; [constructor|]. intros x. simpl. unfold set_New. set_solver. Qed.

Lemma ul_Insert_container sv item ul :
  ul_wf ul →
  ul_container (sortedUniqueList_Insert sv item ul) =
  sortedList_Insert sv item (remove_first item (ul_container ul)).
Proof.
  intros [Hnd Hin]. unfold sortedUniqueList_Insert. rewrite set_Contains_one.
  case_bool_decide as Hd; simpl; [done|].
  rewrite remove_first_notin; [done|]. by rewrite Hin.
Qed.

Lemma ul_Insert_data sv item ul :
  ul_data (sortedUniqueList_Insert sv item ul) = {[item]} ∪ ul_data ul.
Proof.
  unfold sortedUniqueList_Insert. rewrite set_Contains_one.
  case_bool_decide; simpl; [set_solver|]. apply set_Add_fst.
Qed.

Lemma ul_Insert_wf sv item ul : ul_wf ul → ul_wf (sortedUniqueList_Insert sv item ul).
Proof.
  intros Hwf. pose proof Hwf as [Hnd Hin]. unfold ul_wf.
  rewrite ul_Insert_container, ul_Insert_data by done. split.
  - apply NoDup_sortedList_Insert; [|auto with dfly].
    rewrite elem_of_remove_first by done. naive_solver.
  - intros x. rewrite elem_of_sortedList_Insert, elem_of_remove_first by done.
    rewrite Hin. destruct (decide (x = item)); set_solver.
Qed.

Lemma ul_Remove_wf item ul : ul_wf ul → ul_wf (sortedUniqueList_Remove item ul).
Proof.
  intros [Hnd Hin]. split; simpl; [unfold sortedList_Remove; auto with dfly|].
  intros x. unfold sortedList_Remove, set_Delete.
  rewrite elem_of_remove_first by done. rewrite Hin. set_solver.
Qed.

Lemma elem_of_ul_Insert sv item ul x :
  ul_wf ul →
  x ∈ ul_container (sortedUniqueList_Insert sv item ul) ↔ x = item ∨ x ∈ ul_container ul.
Proof.
  intros Hwf. pose proof (ul_Insert_wf sv item ul Hwf) as [_ Hin'].
  destruct Hwf as [_ Hin]. rewrite Hin', Hin, ul_Insert_data. set_solver.
Qed.

Lemma elem_of_ul_Remove item ul x :
  ul_wf ul →
  x ∈ ul_container (sortedUniqueList_Remove item ul) ↔ x ≠ item ∧ x ∈ ul_container ul.
Proof.
  intros [Hnd Hin]. simpl. unfold sortedList_Remove.
  rewrite elem_of_remove_first by done. tauto.
Qed.

(** Re-inserting an item restores the order when the item is the only one
    whose value changed. *)
Lemma ul_Insert_resorts (sv sv' : A → Z) item ul :
  ul_wf ul → (∀ x, x ≠ item → sv x = sv' x) → ul_sorted sv ul →
  ul_sorted sv' (sortedUniqueList_Insert sv' item ul).
Proof.
  intros Hwf Hext Hs. unfold ul_sorted. rewrite ul_Insert_container by done.
  apply sortedList_Insert_sorted. apply (Sorted_ext sv).
  - intros x. destruct Hwf as [Hnd _]. rewrite elem_of_remove_first by done. naive_solver.
  - apply Sorted_remove_first; [|done]. intros x y z ??; lia.
Qed.

Lemma ul_Remove_sorted (sv : A → Z) item ul :
  ul_sorted sv ul → ul_sorted sv (sortedUniqueList_Remove item ul).
Proof. intros Hs. apply Sorted_remove_first; [|done]. intros x y z ??; lia. Qed.

Lemma ul_Len_size ul : ul_wf ul → sortedUniqueList_Len ul = set_Len (ul_data ul).
Proof.
  intros [Hnd Hin]. unfold sortedUniqueList_Len, sortedList_Len, set_Len.
  rewrite <-(size_list_to_set (C := gset A)) by done. f_equal.
  apply set_eq. intros x. rewrite elem_of_list_to_set. apply Hin.
Qed.

End SortedUniqueListLemmas.

#[export] Hint Resolve ul_New_wf ul_Insert_wf ul_Remove_wf : dfly.

(** ** Properties *)

Local Open Scope Z_scope.

(** inserting into a sorted unique list keeps its representation (no
    repetition, the list and the set agree), adds the item to the set, and
    leaves the list sorted under the current values, also when the value of the
    re-inserted item is the only one that changed since. *)
Theorem sortedUniqueList_Insert_correct `{Countable A} (sv sv' : A → Z) item ul :
  ul_wf ul → (∀ x, x ≠ item → sv x = sv' x) → ul_sorted sv ul →
  let ul' := sortedUniqueList_Insert sv' item ul in
  ul_wf ul' ∧ ul_sorted sv' ul' ∧ ul_data ul' = {[item]} ∪ ul_data ul ∧
  sortedUniqueList_Len ul' = set_Len (ul_data ul') ∧ sortedUniqueList_Contains item ul' = true.
Proof.
  intros Hwf Hext Hs ul'. pose proof (ul_Insert_wf sv' item ul Hwf) as Hwf'.
  split; [done|]. split; [by apply (ul_Insert_resorts sv)|]. split; [apply ul_Insert_data|].
  split; [by apply ul_Len_size|]. unfold sortedUniqueList_Contains. rewrite set_Contains_one.
  apply bool_decide_eq_true. subst ul'. rewrite ul_Insert_data. set_solver.
Qed.

Lemma sortedUniqueList_Insert_correct_witness :
  let sv := λ x : Z, x in
  let sv' := λ x : Z, if decide (x = 1) then 9 else x in
  let ul := sortedUniqueList_Insert sv 5 (sortedUniqueList_Insert sv 1 NewSortedUniqueList) in
  ul_sorted sv' (sortedUniqueList_Insert sv' 1 ul) ∧
  ul_container (sortedUniqueList_Insert sv' 1 ul) = [5; 1].
Proof.
  intros sv sv' ul. split; [|by vm_compute].
  apply (sortedUniqueList_Insert_correct sv sv' 1 ul).
  - apply ul_Insert_wf, ul_Insert_wf, ul_New_wf.
  - intros x Hx. subst sv sv'. simpl. by rewrite decide_False.
  - subst ul. apply (ul_Insert_resorts sv); [apply ul_Insert_wf, ul_New_wf|done|].
    apply (ul_Insert_resorts sv); [apply ul_New_wf|done|]. constructor.
Defined.

(** Two callers of [Add]: either nobody has stored the value, or one of them
    has and knows it. *)
Definition add_inv `{Countable A} (v : A) (data : gset A) (pc1 pc2 : add_pc) (d : gset A) : Prop :=
  (d = data ∧ pc1 ∈ [AddCheck; AddStore] ∧ pc2 ∈ [AddCheck; AddStore]) ∨
  (d = {[v]} ∪ data ∧ (pc1 = AddReturned true ∨ pc2 = AddReturned true)).

Lemma add_step_inv `{Countable A} (v : A) (data : gset A) pc1 pc2 d :
  v ∉ data → add_inv v data pc1 pc2 d →
  add_inv v data (safeSet_Add_step v pc1 d).1 pc2 (safeSet_Add_step v pc1 d).2.
Proof.
  intros Hv [(-> & H1 & H2)|[-> H12]].
  - destruct pc1 as [| |b]; simpl.
    + rewrite decide_False by done. left. split; [done|]. split; [by right; left|done].
    + right. split; [done|by left].
    + exfalso. by repeat apply elem_of_cons in H1 as [?|H1]; apply elem_of_nil in H1 || done.
  - right. destruct pc1 as [| |b]; simpl.
    + rewrite decide_True by set_solver. simpl. destruct H12 as [?|?]; [done|]. auto.
    + split; [set_solver|by left].
    + done.
Qed.

Lemma add_inv_sym `{Countable A} (v : A) (data : gset A) pc1 pc2 d :
  add_inv v data pc1 pc2 d → add_inv v data pc2 pc1 d.
Proof. intros [(? & ? & ?)|[? [?|?]]]; [left|right|right]; auto. Qed.

Lemma add_run_inv `{Countable A} (v : A) (data : gset A) sched pc1 pc2 d pc1' pc2' d' :
  v ∉ data → add_inv v data pc1 pc2 d →
  safeSet_Add_run v sched pc1 pc2 d = (pc1', pc2', d') → add_inv v data pc1' pc2' d'.
Proof.
  intros Hv. revert pc1 pc2 d. induction sched as [|[] sched IH]; intros pc1 pc2 d Hinv; simpl.
  - by intros [= <- <- <-].
  - pose proof (add_step_inv v data pc1 pc2 d Hv Hinv) as Hs.
    destruct (safeSet_Add_step v pc1 d) as [q e]. by apply IH.
  - pose proof (add_step_inv v data pc2 pc1 d Hv (add_inv_sym _ _ _ _ _ Hinv)) as Hs.
    destruct (safeSet_Add_step v pc2 d) as [q e]. by apply IH, add_inv_sym.
Qed.

(** two concurrent callers of [Add] of the safe set can both be told that
    they added the value, because the test and the insertion are two critical
    sections; whatever the schedule, once both have returned the value is in
    the set, nothing else was added, and one of them was told so. *)
Theorem safeSet_Add_not_atomic `{Countable A} (v : A) (data : gset A) :
  v ∉ data →
  safeSet_Add_run v [true; false; true; false] AddCheck AddCheck data =
    (AddReturned true, AddReturned true, {[v]} ∪ data) ∧
  ∀ sched b1 b2 data',
    safeSet_Add_run v sched AddCheck AddCheck data = (AddReturned b1, AddReturned b2, data') →
    data' = {[v]} ∪ data ∧ (b1 || b2) = true.
Proof.
  intros Hv. split.
  - simpl. repeat (rewrite decide_False by done; simpl). f_equal. set_solver.
  - intros sched b1 b2 data' Hr. apply (add_run_inv v data) in Hr; [|done|].
    + destruct Hr as [(_ & H1 & _)|[-> H12]].
      * by repeat apply elem_of_cons in H1 as [?|H1]; apply elem_of_nil in H1 || done.
      * split; [done|]. destruct H12 as [[= ->]|[= ->]]; [done|apply orb_true_r].
    + left. split; [done|]. split; by left.
Qed.

Lemma safeSet_Add_not_atomic_witness :
  safeSet_Add_run 1 [true; false; true; false] AddCheck AddCheck (∅ : gset Z) =
    (AddReturned true, AddReturned true, {[1]} ∪ ∅).
Proof. apply (safeSet_Add_not_atomic 1 ∅). set_solver. Defined.
