(* ===== verification/World.v ===== *)
(** * World: the data of the scheduler and its heap

    The scheduler keeps hosts, peers, tasks and the stream connections of the
    peers as pointers shared by several maps and goroutines
    (scheduler/supervisor/{host,peer,task}.go).  A pointer is a [positive]; the
    world keeps one heap per struct, so an update through one alias is seen
    through every other.  Go has no dangling pointers: reading a reference that
    was never allocated (which no reachable state holds) answers the zero
    value of the struct.

    The messages are those of pkg/rpc/{base,scheduler,cdnsystem}. *)

From S2P Require Import Prelude Containers.
From stdpp Require Import pretty.
From stdpp Require Import options.
Local Open Scope Z_scope.

(** ** pkg/rpc/base: codes, size scopes, pieces *)

Definition Code := Z.
Definition Code_Success : Code := 200.
Definition Code_ResourceLacked : Code := 1000.
Definition Code_BadRequest : Code := 1400.
Definition Code_PeerTaskNotFound : Code := 1404.
Definition Code_UnknownError : Code := 1500.
Definition Code_RequestTimeOut : Code := 1504.
Definition Code_ClientWaitPieceReady : Code := 4004.
Definition Code_SchedError : Code := 5000.
Definition Code_SchedNeedBackSource : Code := 5001.
Definition Code_SchedPeerGone : Code := 5002.
Definition Code_SchedPeerNotFound : Code := 5004.
Definition Code_SchedPeerPieceResultReportFail : Code := 5005.
Definition Code_SchedTaskStatusError : Code := 5006.
Definition Code_CDNError : Code := 6000.
Definition Code_CDNTaskRegistryFail : Code := 6001.
Definition Code_CDNTaskDownloadFail : Code := 6002.
Definition Code_CDNTaskNotFound : Code := 6404.

Inductive SizeScope := SizeScope_NORMAL | SizeScope_SMALL | SizeScope_TINY.
#[export] Instance SizeScope_eq_dec : EqDecision SizeScope.
Proof. solve_decision. Defined.

(** [EndOfPiece] and [ZeroOfPiece] of pkg/rpc/base/common: the piece numbers
    that open and close a report stream. *)
Definition EndOfPiece : Z := Z.shiftl 1 30.
Definition ZeroOfPiece : Z := -1.

Record PieceInfo := mkPieceInfo {
  PieceNum : Z;      (* int32 *)
  RangeStart : Z;    (* uint64 *)
  RangeSize : Z;     (* uint32 *)
  PieceMd5 : string;
  PieceOffset : Z;   (* uint64 *)
  PieceStyle : Z;    (* enum *)
}.

Record UrlMeta := mkUrlMeta {
  meta_Digest : string;
  meta_Tag : string;
  meta_Range : string;
  meta_Filter : string;
  meta_Header : gmap string string;
}.

(** ** internal/dferrors and the errors the scheduler answers *)

Inductive GoError :=
  | DfError (code : Code) (message : string)
  | ErrChannelBusy
  | ErrConnClosed          (* "conn has closed" *)
  | ErrNotConnected        (* "client peer is not connected" *)
  | ErrEOF                 (* io.EOF *)
  | ErrCDNClientUninitialized
  | ErrCDNRegisterFail
  | ErrCDNDownloadFail
  | ErrCDNUnknown
  | ErrCDNInvokeFail
  | ErrInitCDNPeerFail
  | ErrOther (message : string).

#[export] Instance GoError_eq_dec : EqDecision GoError.
Proof. solve_decision. Defined.

(** The text of an error ([Error]); the errors that wrap another one are
    represented by their cause. *)
Definition GoError_Error (e : GoError) : string :=
  match e with
  | DfError code message => "[" ++ pretty code ++ "]" ++ message
  | ErrChannelBusy => "channel busy"
  | ErrConnClosed => "conn has closed"
  | ErrNotConnected => "client peer is not connected"
  | ErrEOF => "EOF"
  | ErrCDNClientUninitialized => "cdn client is not initialized"
  | ErrCDNRegisterFail => "cdn task register failed"
  | ErrCDNDownloadFail => "cdn task download failed"
  | ErrCDNUnknown => "cdn obtain seed encounter unknown err"
  | ErrCDNInvokeFail => "invoke cdn interface failed"
  | ErrInitCDNPeerFail => "init cdn peer failed"
  | ErrOther message => message
  end.

(** dferrors.CheckError *)
Definition CheckError (err : option GoError) (code : Code) : bool :=
  match err with
  | None => false
  | Some (DfError c _) => (c =? code)%Z
  | Some _ => false
  end.

(** ** pkg/rpc/scheduler and pkg/rpc/cdnsystem: messages *)

Record DestPeer := mkDestPeer {
  dest_Ip : string;
  dest_RpcPort : Z;
  dest_PeerId : string;
}.

Record PeerPacket := mkPeerPacket {
  packet_TaskId : string;
  packet_SrcPid : string;
  packet_ParallelCount : Z;
  packet_MainPeer : DestPeer;
  packet_StealPeers : list DestPeer;
  packet_Code : Code;
}.

Record PieceResult := mkPieceResult {
  pr_TaskId : string;
  pr_SrcPid : string;
  pr_DstPid : string;
  pr_PieceInfo : option PieceInfo;
  pr_BeginTime : Z;        (* uint64 *)
  pr_EndTime : Z;          (* uint64 *)
  pr_Success : bool;
  pr_Code : Code;
  pr_FinishedCount : Z;    (* int32 *)
}.

Record PeerResult := mkPeerResult {
  res_TaskId : string;
  res_PeerId : string;
  res_ContentLength : Z;     (* int64 *)
  res_Success : bool;
  res_Code : Code;
  res_TotalPieceCount : Z;   (* int32 *)
}.

Record PeerHost := mkPeerHost {
  ph_Uuid : string;
  ph_Ip : string;
  ph_RpcPort : Z;
  ph_DownPort : Z;
  ph_HostName : string;
  ph_SecurityDomain : string;
  ph_Location : string;
  ph_Idc : string;
  ph_NetTopology : string;
}.

Record PeerTaskRequest := mkPeerTaskRequest {
  req_Url : string;
  req_UrlMeta : option UrlMeta;
  req_PeerId : string;
  req_PeerHost : option PeerHost;
}.

Record SinglePiece := mkSinglePiece {
  sp_DstPid : string;
  sp_DstAddr : string;
  sp_PieceInfo : PieceInfo;
}.

Inductive DirectPiece :=
  | RegisterResult_None
  | RegisterResult_SinglePiece (p : SinglePiece)
  | RegisterResult_PieceContent (content : list Byte.byte).

Record RegisterResult := mkRegisterResult {
  reg_TaskId : string;
  reg_SizeScope : SizeScope;
  reg_DirectPiece : DirectPiece;
}.

Record PieceSeed := mkPieceSeed {
  ps_PeerId : string;
  ps_HostUuid : string;
  ps_PieceInfo : option PieceInfo;
  ps_Done : bool;
  ps_ContentLength : Z;      (* int64 *)
  ps_TotalPieceCount : Z;    (* int32 *)
}.

(** ** Statuses *)

Inductive PeerStatus :=
  | PeerStatusWaiting
  | PeerStatusRunning
  | PeerStatusZombie
  | PeerStatusFail
  | PeerStatusSuccess.
#[export] Instance PeerStatus_eq_dec : EqDecision PeerStatus.
Proof. solve_decision. Defined.

Inductive TaskStatus :=
  | TaskStatusWaiting
  | TaskStatusRunning
  | TaskStatusSeeding
  | TaskStatusSuccess
  | TaskStatusZombie
  | TaskStatusFail.
#[export] Instance TaskStatus_eq_dec : EqDecision TaskStatus.
Proof. solve_decision. Defined.

(** ** References *)

Notation PeerRef := positive (only parsing).
Notation TaskRef := positive (only parsing).
Notation HostRef := positive (only parsing).
Notation ChanRef := positive (only parsing).

(** ** Structs *)

(** [Channel] (peer.go): the connection of one report stream.  [ch_ready] says
    that the send loop is parked in its [select], so that an unbuffered send
    succeeds; [ch_sending] that the send loop has not returned; [ch_packet] is
    the packet it has received and is sending; [ch_sent] is what [stream.Send]
    has taken. *)
Record Channel := mkChannel {
  ch_closed : bool;
  ch_done : bool;  (* the done channel is closed *)
  ch_ready : bool;
  ch_sending : bool;  (* the send loop has not returned *)
  ch_packet : option PeerPacket;
  ch_err : option GoError;
  ch_sent : list PeerPacket;
}.

Definition set_ch_closed (v : bool) (r : Channel) : Channel :=
  {| ch_closed := v; ch_done := ch_done r; ch_ready := ch_ready r; ch_sending := ch_sending r;
     ch_packet := ch_packet r; ch_err := ch_err r; ch_sent := ch_sent r |}.

Definition set_ch_done (v : bool) (r : Channel) : Channel :=
  {| ch_closed := ch_closed r; ch_done := v; ch_ready := ch_ready r; ch_sending := ch_sending r;
     ch_packet := ch_packet r; ch_err := ch_err r; ch_sent := ch_sent r |}.

Definition set_ch_ready (v : bool) (r : Channel) : Channel :=
  {| ch_closed := ch_closed r; ch_done := ch_done r; ch_ready := v; ch_sending := ch_sending r;
     ch_packet := ch_packet r; ch_err := ch_err r; ch_sent := ch_sent r |}.

Definition set_ch_sending (v : bool) (r : Channel) : Channel :=
  {| ch_closed := ch_closed r; ch_done := ch_done r; ch_ready := ch_ready r; ch_sending := v;
     ch_packet := ch_packet r; ch_err := ch_err r; ch_sent := ch_sent r |}.

Definition set_ch_packet (v : option PeerPacket) (r : Channel) : Channel :=
  {| ch_closed := ch_closed r; ch_done := ch_done r; ch_ready := ch_ready r; ch_sending := ch_sending r;
     ch_packet := v; ch_err := ch_err r; ch_sent := ch_sent r |}.

Definition set_ch_err (v : option GoError) (r : Channel) : Channel :=
  {| ch_closed := ch_closed r; ch_done := ch_done r; ch_ready := ch_ready r; ch_sending := ch_sending r;
     ch_packet := ch_packet r; ch_err := v; ch_sent := ch_sent r |}.

Definition set_ch_sent (v : list PeerPacket) (r : Channel) : Channel :=
  {| ch_closed := ch_closed r; ch_done := ch_done r; ch_ready := ch_ready r; ch_sending := ch_sending r;
     ch_packet := ch_packet r; ch_err := ch_err r; ch_sent := v |}.

(** [Host] (host.go). *)
Record Host := mkHost {
  host_UUID : string;
  host_IP : string;
  host_HostName : string;
  host_RPCPort : Z;  (* int32 *)
  host_DownloadPort : Z;  (* int32 *)
  host_IsCDN : bool;
  host_SecurityDomain : string;
  host_Location : string;
  host_IDC : string;
  host_NetTopology : string;
  host_TotalUploadLoad : Z;  (* uint32 *)
  host_CurrentUploadLoad : Z;  (* uint32 *)
  host_peers : gmap string PeerRef;
}.

Definition set_host_NetTopology (v : string) (r : Host) : Host :=
  {| host_UUID := host_UUID r; host_IP := host_IP r; host_HostName := host_HostName r;
     host_RPCPort := host_RPCPort r; host_DownloadPort := host_DownloadPort r;
     host_IsCDN := host_IsCDN r; host_SecurityDomain := host_SecurityDomain r;
     host_Location := host_Location r; host_IDC := host_IDC r; host_NetTopology := v;
     host_TotalUploadLoad := host_TotalUploadLoad r;
     host_CurrentUploadLoad := host_CurrentUploadLoad r; host_peers := host_peers r |}.

Definition set_host_TotalUploadLoad (v : Z) (r : Host) : Host :=
  {| host_UUID := host_UUID r; host_IP := host_IP r; host_HostName := host_HostName r;
     host_RPCPort := host_RPCPort r; host_DownloadPort := host_DownloadPort r;
     host_IsCDN := host_IsCDN r; host_SecurityDomain := host_SecurityDomain r;
     host_Location := host_Location r; host_IDC := host_IDC r;
     host_NetTopology := host_NetTopology r; host_TotalUploadLoad := v;
     host_CurrentUploadLoad := host_CurrentUploadLoad r; host_peers := host_peers r |}.

Definition set_host_CurrentUploadLoad (v : Z) (r : Host) : Host :=
  {| host_UUID := host_UUID r; host_IP := host_IP r; host_HostName := host_HostName r;
     host_RPCPort := host_RPCPort r; host_DownloadPort := host_DownloadPort r;
     host_IsCDN := host_IsCDN r; host_SecurityDomain := host_SecurityDomain r;
     host_Location := host_Location r; host_IDC := host_IDC r;
     host_NetTopology := host_NetTopology r;
     host_TotalUploadLoad := host_TotalUploadLoad r; host_CurrentUploadLoad := v;
     host_peers := host_peers r |}.

Definition set_host_peers (v : gmap string PeerRef) (r : Host) : Host :=
  {| host_UUID := host_UUID r; host_IP := host_IP r; host_HostName := host_HostName r;
     host_RPCPort := host_RPCPort r; host_DownloadPort := host_DownloadPort r;
     host_IsCDN := host_IsCDN r; host_SecurityDomain := host_SecurityDomain r;
     host_Location := host_Location r; host_IDC := host_IDC r;
     host_NetTopology := host_NetTopology r;
     host_TotalUploadLoad := host_TotalUploadLoad r;
     host_CurrentUploadLoad := host_CurrentUploadLoad r; host_peers := v |}.

(** [Peer] (peer.go). *)
Record Peer := mkPeer {
  peer_ID : string;
  peer_Task : TaskRef;
  peer_Host : HostRef;
  peer_TotalPieceCount : Z;  (* int32 *)
  peer_CreateAt : Z;  (* ns *)
  peer_lastAccessAt : Z;  (* ns *)
  peer_parent : option PeerRef;
  peer_children : gmap string PeerRef;
  peer_status : PeerStatus;
  peer_pieceCosts : list Z;  (* int *)
  peer_conn : option ChanRef;
  peer_leave : bool;
}.

Definition set_peer_TotalPieceCount (v : Z) (r : Peer) : Peer :=
  {| peer_ID := peer_ID r; peer_Task := peer_Task r; peer_Host := peer_Host r;
     peer_TotalPieceCount := v; peer_CreateAt := peer_CreateAt r;
     peer_lastAccessAt := peer_lastAccessAt r; peer_parent := peer_parent r;
     peer_children := peer_children r; peer_status := peer_status r;
     peer_pieceCosts := peer_pieceCosts r; peer_conn := peer_conn r;
     peer_leave := peer_leave r |}.

Definition set_peer_lastAccessAt (v : Z) (r : Peer) : Peer :=
  {| peer_ID := peer_ID r; peer_Task := peer_Task r; peer_Host := peer_Host r;
     peer_TotalPieceCount := peer_TotalPieceCount r; peer_CreateAt := peer_CreateAt r;
     peer_lastAccessAt := v; peer_parent := peer_parent r;
     peer_children := peer_children r; peer_status := peer_status r;
     peer_pieceCosts := peer_pieceCosts r; peer_conn := peer_conn r;
     peer_leave := peer_leave r |}.

Definition set_peer_parent (v : option PeerRef) (r : Peer) : Peer :=
  {| peer_ID := peer_ID r; peer_Task := peer_Task r; peer_Host := peer_Host r;
     peer_TotalPieceCount := peer_TotalPieceCount r; peer_CreateAt := peer_CreateAt r;
     peer_lastAccessAt := peer_lastAccessAt r; peer_parent := v;
     peer_children := peer_children r; peer_status := peer_status r;
     peer_pieceCosts := peer_pieceCosts r; peer_conn := peer_conn r;
     peer_leave := peer_leave r |}.

Definition set_peer_children (v : gmap string PeerRef) (r : Peer) : Peer :=
  {| peer_ID := peer_ID r; peer_Task := peer_Task r; peer_Host := peer_Host r;
     peer_TotalPieceCount := peer_TotalPieceCount r; peer_CreateAt := peer_CreateAt r;
     peer_lastAccessAt := peer_lastAccessAt r; peer_parent := peer_parent r;
     peer_children := v; peer_status := peer_status r;
     peer_pieceCosts := peer_pieceCosts r; peer_conn := peer_conn r;
     peer_leave := peer_leave r |}.

Definition set_peer_status (v : PeerStatus) (r : Peer) : Peer :=
  {| peer_ID := peer_ID r; peer_Task := peer_Task r; peer_Host := peer_Host r;
     peer_TotalPieceCount := peer_TotalPieceCount r; peer_CreateAt := peer_CreateAt r;
     peer_lastAccessAt := peer_lastAccessAt r; peer_parent := peer_parent r;
     peer_children := peer_children r; peer_status := v;
     peer_pieceCosts := peer_pieceCosts r; peer_conn := peer_conn r;
     peer_leave := peer_leave r |}.

Definition set_peer_pieceCosts (v : list Z) (r : Peer) : Peer :=
  {| peer_ID := peer_ID r; peer_Task := peer_Task r; peer_Host := peer_Host r;
     peer_TotalPieceCount := peer_TotalPieceCount r; peer_CreateAt := peer_CreateAt r;
     peer_lastAccessAt := peer_lastAccessAt r; peer_parent := peer_parent r;
     peer_children := peer_children r; peer_status := peer_status r; peer_pieceCosts := v;
     peer_conn := peer_conn r; peer_leave := peer_leave r |}.

Definition set_peer_conn (v : option ChanRef) (r : Peer) : Peer :=
  {| peer_ID := peer_ID r; peer_Task := peer_Task r; peer_Host := peer_Host r;
     peer_TotalPieceCount := peer_TotalPieceCount r; peer_CreateAt := peer_CreateAt r;
     peer_lastAccessAt := peer_lastAccessAt r; peer_parent := peer_parent r;
     peer_children := peer_children r; peer_status := peer_status r;
     peer_pieceCosts := peer_pieceCosts r; peer_conn := v; peer_leave := peer_leave r |}.

Definition set_peer_leave (v : bool) (r : Peer) : Peer :=
  {| peer_ID := peer_ID r; peer_Task := peer_Task r; peer_Host := peer_Host r;
     peer_TotalPieceCount := peer_TotalPieceCount r; peer_CreateAt := peer_CreateAt r;
     peer_lastAccessAt := peer_lastAccessAt r; peer_parent := peer_parent r;
     peer_children := peer_children r; peer_status := peer_status r;
     peer_pieceCosts := peer_pieceCosts r; peer_conn := peer_conn r; peer_leave := v |}.

(** [Task] (task.go). *)
Record Task := mkTask {
  task_ID : string;
  task_URL : string;
  task_URLMeta : option UrlMeta;
  task_DirectPiece : list Byte.byte;
  task_ContentLength : Z;  (* int64 *)
  task_CreateAt : Z;  (* ns *)
  task_LastTriggerAt : Z;  (* ns *)
  task_lastAccessAt : Z;  (* ns *)
  task_status : TaskStatus;
  task_peers : SortedUniqueList PeerRef;
  task_BackToSourceWeight : Z;  (* int32 *)
  task_backToSourcePeers : list string;
  task_pieces : gmap Z PieceInfo;
  task_TotalPieceCount : Z;  (* int32 *)
}.

Definition set_task_DirectPiece (v : list Byte.byte) (r : Task) : Task :=
  {| task_ID := task_ID r; task_URL := task_URL r; task_URLMeta := task_URLMeta r;
     task_DirectPiece := v; task_ContentLength := task_ContentLength r;
     task_CreateAt := task_CreateAt r; task_LastTriggerAt := task_LastTriggerAt r;
     task_lastAccessAt := task_lastAccessAt r; task_status := task_status r;
     task_peers := task_peers r; task_BackToSourceWeight := task_BackToSourceWeight r;
     task_backToSourcePeers := task_backToSourcePeers r; task_pieces := task_pieces r;
     task_TotalPieceCount := task_TotalPieceCount r |}.

Definition set_task_ContentLength (v : Z) (r : Task) : Task :=
  {| task_ID := task_ID r; task_URL := task_URL r; task_URLMeta := task_URLMeta r;
     task_DirectPiece := task_DirectPiece r; task_ContentLength := v;
     task_CreateAt := task_CreateAt r; task_LastTriggerAt := task_LastTriggerAt r;
     task_lastAccessAt := task_lastAccessAt r; task_status := task_status r;
     task_peers := task_peers r; task_BackToSourceWeight := task_BackToSourceWeight r;
     task_backToSourcePeers := task_backToSourcePeers r; task_pieces := task_pieces r;
     task_TotalPieceCount := task_TotalPieceCount r |}.

Definition set_task_LastTriggerAt (v : Z) (r : Task) : Task :=
  {| task_ID := task_ID r; task_URL := task_URL r; task_URLMeta := task_URLMeta r;
     task_DirectPiece := task_DirectPiece r; task_ContentLength := task_ContentLength r;
     task_CreateAt := task_CreateAt r; task_LastTriggerAt := v;
     task_lastAccessAt := task_lastAccessAt r; task_status := task_status r;
     task_peers := task_peers r; task_BackToSourceWeight := task_BackToSourceWeight r;
     task_backToSourcePeers := task_backToSourcePeers r; task_pieces := task_pieces r;
     task_TotalPieceCount := task_TotalPieceCount r |}.

Definition set_task_lastAccessAt (v : Z) (r : Task) : Task :=
  {| task_ID := task_ID r; task_URL := task_URL r; task_URLMeta := task_URLMeta r;
     task_DirectPiece := task_DirectPiece r; task_ContentLength := task_ContentLength r;
     task_CreateAt := task_CreateAt r; task_LastTriggerAt := task_LastTriggerAt r;
     task_lastAccessAt := v; task_status := task_status r; task_peers := task_peers r;
     task_BackToSourceWeight := task_BackToSourceWeight r;
     task_backToSourcePeers := task_backToSourcePeers r; task_pieces := task_pieces r;
     task_TotalPieceCount := task_TotalPieceCount r |}.

Definition set_task_status (v : TaskStatus) (r : Task) : Task :=
  {| task_ID := task_ID r; task_URL := task_URL r; task_URLMeta := task_URLMeta r;
     task_DirectPiece := task_DirectPiece r; task_ContentLength := task_ContentLength r;
     task_CreateAt := task_CreateAt r; task_LastTriggerAt := task_LastTriggerAt r;
     task_lastAccessAt := task_lastAccessAt r; task_status := v;
     task_peers := task_peers r; task_BackToSourceWeight := task_BackToSourceWeight r;
     task_backToSourcePeers := task_backToSourcePeers r; task_pieces := task_pieces r;
     task_TotalPieceCount := task_TotalPieceCount r |}.

Definition set_task_peers (v : SortedUniqueList PeerRef) (r : Task) : Task :=
  {| task_ID := task_ID r; task_URL := task_URL r; task_URLMeta := task_URLMeta r;
     task_DirectPiece := task_DirectPiece r; task_ContentLength := task_ContentLength r;
     task_CreateAt := task_CreateAt r; task_LastTriggerAt := task_LastTriggerAt r;
     task_lastAccessAt := task_lastAccessAt r; task_status := task_status r;
     task_peers := v; task_BackToSourceWeight := task_BackToSourceWeight r;
     task_backToSourcePeers := task_backToSourcePeers r; task_pieces := task_pieces r;
     task_TotalPieceCount := task_TotalPieceCount r |}.

Definition set_task_BackToSourceWeight (v : Z) (r : Task) : Task :=
  {| task_ID := task_ID r; task_URL := task_URL r; task_URLMeta := task_URLMeta r;
     task_DirectPiece := task_DirectPiece r; task_ContentLength := task_ContentLength r;
     task_CreateAt := task_CreateAt r; task_LastTriggerAt := task_LastTriggerAt r;
     task_lastAccessAt := task_lastAccessAt r; task_status := task_status r;
     task_peers := task_peers r; task_BackToSourceWeight := v;
     task_backToSourcePeers := task_backToSourcePeers r; task_pieces := task_pieces r;
     task_TotalPieceCount := task_TotalPieceCount r |}.

Definition set_task_backToSourcePeers (v : list string) (r : Task) : Task :=
  {| task_ID := task_ID r; task_URL := task_URL r; task_URLMeta := task_URLMeta r;
     task_DirectPiece := task_DirectPiece r; task_ContentLength := task_ContentLength r;
     task_CreateAt := task_CreateAt r; task_LastTriggerAt := task_LastTriggerAt r;
     task_lastAccessAt := task_lastAccessAt r; task_status := task_status r;
     task_peers := task_peers r; task_BackToSourceWeight := task_BackToSourceWeight r;
     task_backToSourcePeers := v; task_pieces := task_pieces r;
     task_TotalPieceCount := task_TotalPieceCount r |}.

Definition set_task_pieces (v : gmap Z PieceInfo) (r : Task) : Task :=
  {| task_ID := task_ID r; task_URL := task_URL r; task_URLMeta := task_URLMeta r;
     task_DirectPiece := task_DirectPiece r; task_ContentLength := task_ContentLength r;
     task_CreateAt := task_CreateAt r; task_LastTriggerAt := task_LastTriggerAt r;
     task_lastAccessAt := task_lastAccessAt r; task_status := task_status r;
     task_peers := task_peers r; task_BackToSourceWeight := task_BackToSourceWeight r;
     task_backToSourcePeers := task_backToSourcePeers r; task_pieces := v;
     task_TotalPieceCount := task_TotalPieceCount r |}.

Definition set_task_TotalPieceCount (v : Z) (r : Task) : Task :=
  {| task_ID := task_ID r; task_URL := task_URL r; task_URLMeta := task_URLMeta r;
     task_DirectPiece := task_DirectPiece r; task_ContentLength := task_ContentLength r;
     task_CreateAt := task_CreateAt r; task_LastTriggerAt := task_LastTriggerAt r;
     task_lastAccessAt := task_lastAccessAt r; task_status := task_status r;
     task_peers := task_peers r; task_BackToSourceWeight := task_BackToSourceWeight r;
     task_backToSourcePeers := task_backToSourcePeers r; task_pieces := task_pieces r;
     task_TotalPieceCount := v |}.

(** An entry of the queue of peers waiting for a parent ([rsPeer] of
    scheduler/core/events.go): the queue holds pointers, whose [times] the
    re-schedule event counts up. *)

Record RsPeer := mkRsPeer {
  rs_times : Z;  (* int32 *)
  rs_peer : PeerRef;
  rs_blankParents : gset string;
}.

Definition set_rs_times (v : Z) (r : RsPeer) : RsPeer :=
  {| rs_times := v; rs_peer := rs_peer r; rs_blankParents := rs_blankParents r |}.

(** A goroutine that asks the CDN for a task: the one [GetOrAddTask] starts
    (service.go), which sends an event with the outcome, and the one a failed
    piece starts (events.go), which only logs. *)
Inductive Spawn :=
  | SpawnSeed (task : TaskRef)
  | SpawnReseed (task : TaskRef).

(** ** The world

    The heaps, the allocator, the clock, the maps of the three managers, and
    the queue of peers waiting to be given a parent (with the delay each was
    added with). *)

Record World := mkWorld {
  w_peerHeap : gmap PeerRef Peer;
  w_taskHeap : gmap TaskRef Task;
  w_hostHeap : gmap HostRef Host;
  w_chanHeap : gmap ChanRef Channel;
  w_next : positive;  (* allocator *)
  w_now : Z;  (* ns *)
  w_peers : gmap string PeerRef;  (* peerManager.peers *)
  w_tasks : gmap string TaskRef;  (* taskManager.tasks *)
  w_hosts : gmap string HostRef;  (* hostManager *)
  w_queue : list (RsPeer * Z);  (* waitScheduleParentPeerQueue *)
  w_spawned : list Spawn;  (* goroutines started, not yet run *)
}.

Definition set_w_peerHeap (v : gmap PeerRef Peer) (r : World) : World :=
  {| w_peerHeap := v; w_taskHeap := w_taskHeap r; w_hostHeap := w_hostHeap r;
     w_chanHeap := w_chanHeap r; w_next := w_next r; w_now := w_now r;
     w_peers := w_peers r; w_tasks := w_tasks r; w_hosts := w_hosts r;
     w_queue := w_queue r; w_spawned := w_spawned r |}.

Definition set_w_taskHeap (v : gmap TaskRef Task) (r : World) : World :=
  {| w_peerHeap := w_peerHeap r; w_taskHeap := v; w_hostHeap := w_hostHeap r;
     w_chanHeap := w_chanHeap r; w_next := w_next r; w_now := w_now r;
     w_peers := w_peers r; w_tasks := w_tasks r; w_hosts := w_hosts r;
     w_queue := w_queue r; w_spawned := w_spawned r |}.

Definition set_w_hostHeap (v : gmap HostRef Host) (r : World) : World :=
  {| w_peerHeap := w_peerHeap r; w_taskHeap := w_taskHeap r; w_hostHeap := v;
     w_chanHeap := w_chanHeap r; w_next := w_next r; w_now := w_now r;
     w_peers := w_peers r; w_tasks := w_tasks r; w_hosts := w_hosts r;
     w_queue := w_queue r; w_spawned := w_spawned r |}.

Definition set_w_chanHeap (v : gmap ChanRef Channel) (r : World) : World :=
  {| w_peerHeap := w_peerHeap r; w_taskHeap := w_taskHeap r; w_hostHeap := w_hostHeap r;
     w_chanHeap := v; w_next := w_next r; w_now := w_now r; w_peers := w_peers r;
     w_tasks := w_tasks r; w_hosts := w_hosts r; w_queue := w_queue r;
     w_spawned := w_spawned r |}.

Definition set_w_next (v : positive) (r : World) : World :=
  {| w_peerHeap := w_peerHeap r; w_taskHeap := w_taskHeap r; w_hostHeap := w_hostHeap r;
     w_chanHeap := w_chanHeap r; w_next := v; w_now := w_now r; w_peers := w_peers r;
     w_tasks := w_tasks r; w_hosts := w_hosts r; w_queue := w_queue r;
     w_spawned := w_spawned r |}.

Definition set_w_now (v : Z) (r : World) : World :=
  {| w_peerHeap := w_peerHeap r; w_taskHeap := w_taskHeap r; w_hostHeap := w_hostHeap r;
     w_chanHeap := w_chanHeap r; w_next := w_next r; w_now := v; w_peers := w_peers r;
     w_tasks := w_tasks r; w_hosts := w_hosts r; w_queue := w_queue r;
     w_spawned := w_spawned r |}.

Definition set_w_peers (v : gmap string PeerRef) (r : World) : World :=
  {| w_peerHeap := w_peerHeap r; w_taskHeap := w_taskHeap r; w_hostHeap := w_hostHeap r;
     w_chanHeap := w_chanHeap r; w_next := w_next r; w_now := w_now r; w_peers := v;
     w_tasks := w_tasks r; w_hosts := w_hosts r; w_queue := w_queue r;
     w_spawned := w_spawned r |}.

Definition set_w_tasks (v : gmap string TaskRef) (r : World) : World :=
  {| w_peerHeap := w_peerHeap r; w_taskHeap := w_taskHeap r; w_hostHeap := w_hostHeap r;
     w_chanHeap := w_chanHeap r; w_next := w_next r; w_now := w_now r;
     w_peers := w_peers r; w_tasks := v; w_hosts := w_hosts r; w_queue := w_queue r;
     w_spawned := w_spawned r |}.

Definition set_w_hosts (v : gmap string HostRef) (r : World) : World :=
  {| w_peerHeap := w_peerHeap r; w_taskHeap := w_taskHeap r; w_hostHeap := w_hostHeap r;
     w_chanHeap := w_chanHeap r; w_next := w_next r; w_now := w_now r;
     w_peers := w_peers r; w_tasks := w_tasks r; w_hosts := v; w_queue := w_queue r;
     w_spawned := w_spawned r |}.

Definition set_w_queue (v : list (RsPeer * Z)) (r : World) : World :=
  {| w_peerHeap := w_peerHeap r; w_taskHeap := w_taskHeap r; w_hostHeap := w_hostHeap r;
     w_chanHeap := w_chanHeap r; w_next := w_next r; w_now := w_now r;
     w_peers := w_peers r; w_tasks := w_tasks r; w_hosts := w_hosts r; w_queue := v;
     w_spawned := w_spawned r |}.

Definition set_w_spawned (v : list Spawn) (r : World) : World :=
  {| w_peerHeap := w_peerHeap r; w_taskHeap := w_taskHeap r; w_hostHeap := w_hostHeap r;
     w_chanHeap := w_chanHeap r; w_next := w_next r; w_now := w_now r;
     w_peers := w_peers r; w_tasks := w_tasks r; w_hosts := w_hosts r;
     w_queue := w_queue r; w_spawned := v |}.

Definition emptyWorld (now : Z) : World :=
  mkWorld ∅ ∅ ∅ ∅ 1 now ∅ ∅ ∅ [] [].

(** Zero values of the structs. *)
Definition zeroChannel : Channel := mkChannel false false false false None None [].
Definition zeroHost : Host :=
  mkHost "" "" "" 0 0 false "" "" "" "" 0 0 ∅.
Definition zeroPeer : Peer :=
  mkPeer "" 1 1 0 0 0 None ∅ PeerStatusWaiting [] None false.
Definition zeroTask : Task :=
  mkTask "" "" None [] 0 0 0 0 TaskStatusWaiting NewSortedUniqueList 0 [] ∅ 0.

(** ** Reading and writing through a pointer *)

Definition getPeer (w : World) (p : PeerRef) : Peer := default zeroPeer (w_peerHeap w !! p).
Definition getTask (w : World) (t : TaskRef) : Task := default zeroTask (w_taskHeap w !! t).
Definition getHost (w : World) (h : HostRef) : Host := default zeroHost (w_hostHeap w !! h).
Definition getChan (w : World) (c : ChanRef) : Channel := default zeroChannel (w_chanHeap w !! c).

Definition updPeer (f : Peer → Peer) (p : PeerRef) (w : World) : World :=
  set_w_peerHeap (<[p := f (getPeer w p)]> (w_peerHeap w)) w.
Definition updTask (f : Task → Task) (t : TaskRef) (w : World) : World :=
  set_w_taskHeap (<[t := f (getTask w t)]> (w_taskHeap w)) w.
Definition updHost (f : Host → Host) (h : HostRef) (w : World) : World :=
  set_w_hostHeap (<[h := f (getHost w h)]> (w_hostHeap w)) w.
Definition updChan (f : Channel → Channel) (c : ChanRef) (w : World) : World :=
  set_w_chanHeap (<[c := f (getChan w c)]> (w_chanHeap w)) w.

(** The peer's own host and task. *)
Definition hostOf (w : World) (p : PeerRef) : Host := getHost w (peer_Host (getPeer w p)).
Definition taskOf (w : World) (p : PeerRef) : Task := getTask w (peer_Task (getPeer w p)).

(** ** Heap equations *)

Section HeapEquations.
Implicit Types (w : World).

Lemma getPeer_updPeer f p q w :
  getPeer (updPeer f p w) q = if decide (p = q) then f (getPeer w p) else getPeer w q.
Proof. unfold getPeer, updPeer; simpl. rewrite lookup_insert. by case_decide. Qed.
Lemma getTask_updTask f t u w :
  getTask (updTask f t w) u = if decide (t = u) then f (getTask w t) else getTask w u.
Proof. unfold getTask, updTask; simpl. rewrite lookup_insert. by case_decide. Qed.
Lemma getHost_updHost f h k w :
  getHost (updHost f h w) k = if decide (h = k) then f (getHost w h) else getHost w k.
Proof. unfold getHost, updHost; simpl. rewrite lookup_insert. by case_decide. Qed.
Lemma getChan_updChan f c d w :
  getChan (updChan f c w) d = if decide (c = d) then f (getChan w c) else getChan w d.
Proof. unfold getChan, updChan; simpl. rewrite lookup_insert. by case_decide. Qed.

Lemma getPeer_updTask f t p w : getPeer (updTask f t w) p = getPeer w p.
Proof. done. Qed.
Lemma getPeer_updHost f h p w : getPeer (updHost f h w) p = getPeer w p.
Proof. done. Qed.
Lemma getPeer_updChan f c p w : getPeer (updChan f c w) p = getPeer w p.
Proof. done. Qed.
Lemma getTask_updPeer f p t w : getTask (updPeer f p w) t = getTask w t.
Proof. done. Qed.
Lemma getTask_updHost f h t w : getTask (updHost f h w) t = getTask w t.
Proof. done. Qed.
Lemma getTask_updChan f c t w : getTask (updChan f c w) t = getTask w t.
Proof. done. Qed.
Lemma getHost_updPeer f p h w : getHost (updPeer f p w) h = getHost w h.
Proof. done. Qed.
Lemma getHost_updTask f t h w : getHost (updTask f t w) h = getHost w h.
Proof. done. Qed.
Lemma getHost_updChan f c h w : getHost (updChan f c w) h = getHost w h.
Proof. done. Qed.
Lemma getChan_updPeer f p c w : getChan (updPeer f p w) c = getChan w c.
Proof. done. Qed.
Lemma getChan_updTask f t c w : getChan (updTask f t w) c = getChan w c.
Proof. done. Qed.
Lemma getChan_updHost f h c w : getChan (updHost f h w) c = getChan w c.
Proof. done. Qed.

Lemma getPeer_updPeer_eq f p w : getPeer (updPeer f p w) p = f (getPeer w p).
Proof. rewrite getPeer_updPeer. by case_decide. Qed.
Lemma getTask_updTask_eq f t w : getTask (updTask f t w) t = f (getTask w t).
Proof. rewrite getTask_updTask. by case_decide. Qed.
Lemma getHost_updHost_eq f h w : getHost (updHost f h w) h = f (getHost w h).
Proof. rewrite getHost_updHost. by case_decide. Qed.
Lemma getPeer_updPeer_ne f p q w : p ≠ q → getPeer (updPeer f p w) q = getPeer w q.
Proof. intros. rewrite getPeer_updPeer. by case_decide. Qed.

(** An update that keeps a field keeps it for every reference. *)
Lemma updPeer_field {B} (g : Peer → B) f p q w :
  (∀ x, g (f x) = g x) → g (getPeer (updPeer f p w) q) = g (getPeer w q).
Proof. intros Hg. rewrite getPeer_updPeer. case_decide; subst; auto. Qed.
Lemma updTask_field {B} (g : Task → B) f t u w :
  (∀ x, g (f x) = g x) → g (getTask (updTask f t w) u) = g (getTask w u).
Proof. intros Hg. rewrite getTask_updTask. case_decide; subst; auto. Qed.
Lemma updHost_field {B} (g : Host → B) f h k w :
  (∀ x, g (f x) = g x) → g (getHost (updHost f h w) k) = g (getHost w k).
Proof. intros Hg. rewrite getHost_updHost. case_decide; subst; auto. Qed.

End HeapEquations.

Create Rewrite HintDb heap.
#[export] Hint Rewrite
  getPeer_updTask getPeer_updHost getPeer_updChan
  getTask_updPeer getTask_updHost getTask_updChan
  getHost_updPeer getHost_updTask getHost_updChan
  getChan_updPeer getChan_updTask getChan_updHost
  getPeer_updPeer_eq getTask_updTask_eq getHost_updHost_eq : heap.

(** Push a heap read through the updates below it and decide the aliases. *)
Ltac heap :=
  repeat first
    [ progress autorewrite with heap
    | rewrite getPeer_updPeer
    | rewrite getTask_updTask
    | rewrite getHost_updHost
    | rewrite getChan_updChan ];
  repeat case_decide; simplify_eq/=.
