(* ===== verification/Supervisor.v ===== *)
(** * Supervisor: hosts, peers, tasks and peer connections

    scheduler/supervisor/{host,peer,task}.go: the methods of [Host], [Task],
    [Channel] and [Peer], each with the whole of its effect on the shared heap.
    Log calls are left out; [time.Now()] reads the clock of the world.  A
    method call is atomic here. *)

From S2P Require Import Prelude Containers World.
From stdpp Require Import options.
Local Open Scope Z_scope.

(** ** host.go *)

Definition HostMaxLoad : Z := 5 * 1000.

Notation HostOption := (Host → Host) (only parsing).

Definition WithTotalUploadLoad (load : Z) : HostOption := set_host_TotalUploadLoad load.
Definition WithNetTopology (n : string) : HostOption := set_host_NetTopology n.

Definition newHost (uuid ip hostname : string) (rpcPort downloadPort : Z) (isCDN : bool)
    (securityDomain location idc : string) (options : list HostOption) : Host :=
  foldl (λ h opt, opt h)
    (mkHost uuid ip hostname rpcPort downloadPort isCDN securityDomain location idc
            "" 100 0 ∅)
    options.

Definition NewClientHost (uuid ip hostname : string) (rpcPort downloadPort : Z)
    (securityDomain location idc : string) (options : list HostOption) : Host :=
  newHost uuid ip hostname rpcPort downloadPort false securityDomain location idc options.

Definition NewCDNHost (uuid ip hostname : string) (rpcPort downloadPort : Z)
    (securityDomain location idc : string) (options : list HostOption) : Host :=
  newHost uuid ip hostname rpcPort downloadPort true securityDomain location idc options.

Definition allocHost (w : World) (h : Host) : World * HostRef :=
  let r := w_next w in
  (set_w_next (Pos.succ r) (set_w_hostHeap (<[r := h]> (w_hostHeap w)) w), r).

Definition Host_AddPeer (w : World) (h : HostRef) (p : PeerRef) : World :=
  updHost (λ x, set_host_peers (<[peer_ID (getPeer w p) := p]> (host_peers x)) x) h w.

Definition Host_DeletePeer (w : World) (h : HostRef) (id : string) : World :=
  updHost (λ x, set_host_peers (delete id (host_peers x)) x) h w.

Definition Host_GetPeer (w : World) (h : HostRef) (id : string) : option PeerRef :=
  host_peers (getHost w h) !! id.

Definition Host_GetPeersLen (w : World) (h : HostRef) : Z :=
  Z.of_nat (size (host_peers (getHost w h))).

(** [int32(h.TotalUploadLoad - h.CurrentUploadLoad)], on [uint32]. *)
Definition Host_GetFreeUploadLoad (h : Host) : Z :=
  int32 (uint32 (host_TotalUploadLoad h - host_CurrentUploadLoad h)).

Definition Host_incUploadLoad (h : Host) : Host :=
  set_host_CurrentUploadLoad (uint32 (host_CurrentUploadLoad h + 1)) h.

Definition Host_decUploadLoad (h : Host) : Host :=
  set_host_CurrentUploadLoad (uint32 (host_CurrentUploadLoad h - 1)) h.

(** ** peer.go: accessors *)

Definition PeerStatus_String (s : PeerStatus) : string :=
  match s with
  | PeerStatusWaiting => "Waiting"
  | PeerStatusRunning => "Running"
  | PeerStatusZombie => "Zombie"
  | PeerStatusFail => "Fail"
  | PeerStatusSuccess => "Success"
  end.

Definition NewPeer (w : World) (id : string) (task : TaskRef) (host : HostRef)
    : World * PeerRef :=
  let r := w_next w in
  let peer := mkPeer id task host 0 (w_now w) (w_now w) None ∅ PeerStatusWaiting [] None false in
  (set_w_next (Pos.succ r) (set_w_peerHeap (<[r := peer]> (w_peerHeap w)) w), r).

Definition Peer_GetParent (w : World) (p : PeerRef) : option PeerRef :=
  peer_parent (getPeer w p).

Definition Peer_SetParent (w : World) (p : PeerRef) (parent : option PeerRef) : World :=
  updPeer (set_peer_parent parent) p w.

Definition Peer_GetStatus (w : World) (p : PeerRef) : PeerStatus := peer_status (getPeer w p).

Definition Peer_SetStatus (w : World) (p : PeerRef) (s : PeerStatus) : World :=
  updPeer (set_peer_status s) p w.

Definition Peer_Leave (w : World) (p : PeerRef) : World := updPeer (set_peer_leave true) p w.
Definition Peer_IsLeave (w : World) (p : PeerRef) : bool := peer_leave (getPeer w p).
Definition Peer_IsRunning (w : World) (p : PeerRef) : bool :=
  bool_decide (Peer_GetStatus w p = PeerStatusRunning).
Definition Peer_IsWaiting (w : World) (p : PeerRef) : bool :=
  bool_decide (Peer_GetStatus w p = PeerStatusWaiting).
Definition Peer_IsSuccess (w : World) (p : PeerRef) : bool :=
  bool_decide (Peer_GetStatus w p = PeerStatusSuccess).
Definition Peer_IsDone (w : World) (p : PeerRef) : bool :=
  bool_decide (Peer_GetStatus w p = PeerStatusSuccess)
  || bool_decide (Peer_GetStatus w p = PeerStatusFail).
Definition Peer_IsBad (w : World) (p : PeerRef) : bool :=
  bool_decide (Peer_GetStatus w p = PeerStatusFail)
  || bool_decide (Peer_GetStatus w p = PeerStatusZombie).
Definition Peer_IsFail (w : World) (p : PeerRef) : bool :=
  bool_decide (Peer_GetStatus w p = PeerStatusFail).

Definition Peer_GetPieceCosts (w : World) (p : PeerRef) : list Z := peer_pieceCosts (getPeer w p).

Definition Peer_SetPieceCosts (w : World) (p : PeerRef) (costs : list Z) : World :=
  updPeer (λ x, set_peer_pieceCosts (peer_pieceCosts x ++ costs) x) p w.

Definition Peer_getFreeLoad (w : World) (p : PeerRef) : Z := Host_GetFreeUploadLoad (hostOf w p).

(** The key of the peer list of a task; computed in [int32], then widened. *)
Definition Peer_SortedValue (w : World) (p : PeerRef) : Z :=
  let pieceCount := peer_TotalPieceCount (getPeer w p) in
  let freeLoad := Peer_getFreeLoad w p in
  if host_IsCDN (hostOf w p) then int32 (pieceCount * HostMaxLoad)
  else int32 (int32 (pieceCount * HostMaxLoad) + freeLoad).

(** ** task.go *)

Definition TinyFileSize : Z := 128.

Definition TaskStatus_String (s : TaskStatus) : string :=
  match s with
  | TaskStatusWaiting => "Waiting"
  | TaskStatusRunning => "Running"
  | TaskStatusSeeding => "Seeding"
  | TaskStatusSuccess => "Success"
  | TaskStatusZombie => "Zombie"
  | TaskStatusFail => "Fail"
  end.

Definition NewTask (now : Z) (id url : string) (meta : option UrlMeta) : Task :=
  mkTask id url meta [] 0 now now now TaskStatusWaiting NewSortedUniqueList 0 [] ∅ 0.

Definition allocTask (w : World) (t : Task) : World * TaskRef :=
  let r := w_next w in
  (set_w_next (Pos.succ r) (set_w_taskHeap (<[r := t]> (w_taskHeap w)) w), r).

Definition Task_GetStatus (w : World) (t : TaskRef) : TaskStatus := task_status (getTask w t).

Definition Task_SetStatus (w : World) (t : TaskRef) (s : TaskStatus) : World :=
  updTask (set_task_status s) t w.

Definition Task_IsSuccess (w : World) (t : TaskRef) : bool :=
  bool_decide (Task_GetStatus w t = TaskStatusSuccess).
Definition Task_CanSchedule (w : World) (t : TaskRef) : bool :=
  bool_decide (Task_GetStatus w t = TaskStatusSeeding)
  || bool_decide (Task_GetStatus w t = TaskStatusSuccess).
Definition Task_IsWaiting (w : World) (t : TaskRef) : bool :=
  bool_decide (Task_GetStatus w t = TaskStatusWaiting).
Definition Task_IsHealth (w : World) (t : TaskRef) : bool :=
  bool_decide (Task_GetStatus w t = TaskStatusRunning)
  || bool_decide (Task_GetStatus w t = TaskStatusSeeding)
  || bool_decide (Task_GetStatus w t = TaskStatusSuccess).
Definition Task_IsFail (w : World) (t : TaskRef) : bool :=
  bool_decide (Task_GetStatus w t = TaskStatusFail).

Definition Task_Touch (w : World) (t : TaskRef) : World :=
  updTask (set_task_lastAccessAt (w_now w)) t w.

Definition Task_UpdateSuccess (w : World) (t : TaskRef) (pieceCount contentLength : Z) : World :=
  if decide (Task_GetStatus w t = TaskStatusSuccess) then w
  else
    updTask (λ x, set_task_ContentLength contentLength
                    (set_task_TotalPieceCount pieceCount
                       (set_task_status TaskStatusSuccess x))) t w.

(** [AddPeer] and [UpdatePeer] both insert into the sorted list, with the
    values the peers have at that moment. *)
Definition Task_AddPeer (w : World) (t : TaskRef) (p : PeerRef) : World :=
  updTask (λ x, set_task_peers
                  (sortedUniqueList_Insert (Peer_SortedValue w) p (task_peers x)) x) t w.

Definition Task_UpdatePeer (w : World) (t : TaskRef) (p : PeerRef) : World :=
  updTask (λ x, set_task_peers
                  (sortedUniqueList_Insert (Peer_SortedValue w) p (task_peers x)) x) t w.

Definition Task_DeletePeer (w : World) (t : TaskRef) (p : PeerRef) : World :=
  updTask (λ x, set_task_peers (sortedUniqueList_Remove p (task_peers x)) x) t w.

Definition Task_GetPeers (w : World) (t : TaskRef) : SortedUniqueList PeerRef :=
  task_peers (getTask w t).

Definition Task_GetPiece (w : World) (t : TaskRef) (n : Z) : option PieceInfo :=
  task_pieces (getTask w t) !! n.

(** [LoadOrStore]: the piece already there wins. *)
Definition Task_GetOrAddPiece (w : World) (t : TaskRef) (p : PieceInfo)
    : World * (PieceInfo * bool) :=
  match task_pieces (getTask w t) !! PieceNum p with
  | Some old => (w, (old, true))
  | None => (updTask (λ x, set_task_pieces (<[PieceNum p := p]> (task_pieces x)) x) t w,
             (p, false))
  end.

Definition Task_GetSizeScope (w : World) (t : TaskRef) : SizeScope :=
  if task_ContentLength (getTask w t) <=? TinyFileSize then SizeScope_TINY
  else if task_TotalPieceCount (getTask w t) =? 1 then SizeScope_SMALL
  else SizeScope_NORMAL.

Definition Task_CanBackToSource (w : World) (t : TaskRef) : bool :=
  0 <? task_BackToSourceWeight (getTask w t).

Definition Task_ContainsBackToSourcePeer (w : World) (t : TaskRef) (peerID : string) : bool :=
  existsb (λ id, bool_decide (id = peerID)) (task_backToSourcePeers (getTask w t)).

Definition Task_AddBackToSourcePeer (w : World) (t : TaskRef) (peerID : string) : World :=
  if Task_ContainsBackToSourcePeer w t peerID then w
  else if task_BackToSourceWeight (getTask w t) <=? 0 then w
  else
    updTask (λ x, set_task_BackToSourceWeight (int32 (task_BackToSourceWeight x - 1))
                    (set_task_backToSourcePeers (task_backToSourcePeers x ++ [peerID]) x)) t w.

Definition Task_GetBackToSourcePeers (w : World) (t : TaskRef) : list string :=
  task_backToSourcePeers (getTask w t).

(** The callback of [Pick] and [PickReverse]. *)
Definition pick_step (limit : Z) (pickFn : PeerRef → Outcome bool)
    (peers : list PeerRef) (p : PeerRef) : Outcome (list PeerRef * bool) :=
  if limit <=? Z.of_nat (length peers) then Ok (peers, false)
  else
    picked ← pickFn p;
    Ok (if picked : bool then peers ++ [p] else peers, true).

Definition Task_Pick (w : World) (t : TaskRef) (limit : Z)
    (pickFn : PeerRef → Outcome bool) : Outcome (list PeerRef) :=
  sortedUniqueList_Range (pick_step limit pickFn) (Task_GetPeers w t) [].

Definition Task_PickReverse (w : World) (t : TaskRef) (limit : Z)
    (pickFn : PeerRef → Outcome bool) : Outcome (list PeerRef) :=
  sortedUniqueList_ReverseRange (pick_step limit pickFn) (Task_GetPeers w t) [].

(** ** peer.go: the tree of peers *)

Definition Peer_insertChild (w : World) (peer child : PeerRef) : World :=
  let w := updPeer (λ x, set_peer_children
                           (<[peer_ID (getPeer w child) := child]> (peer_children x)) x) peer w in
  let w := updHost Host_incUploadLoad (peer_Host (getPeer w peer)) w in
  Task_UpdatePeer w (peer_Task (getPeer w peer)) peer.

Definition Peer_deleteChild (w : World) (peer child : PeerRef) : World :=
  let w := updPeer (λ x, set_peer_children
                           (delete (peer_ID (getPeer w child)) (peer_children x)) x) peer w in
  let w := updHost Host_decUploadLoad (peer_Host (getPeer w peer)) w in
  Task_UpdatePeer w (peer_Task (getPeer w peer)) peer.

Definition Peer_ReplaceParent (w : World) (peer : PeerRef) (parent : option PeerRef) : World :=
  let w := match Peer_GetParent w peer with
           | Some oldParent => Peer_deleteChild w oldParent peer
           | None => w
           end in
  let w := Peer_SetParent w peer parent in
  match parent with
  | Some parent => Peer_insertChild w parent peer
  | None => w
  end.

Definition Peer_GetChildren (w : World) (p : PeerRef) : gmap string PeerRef :=
  peer_children (getPeer w p).

(** Enough fuel for a walk that visits no peer twice. *)
Definition treeFuel (w : World) : nat := S (size (w_peerHeap w)).

(** [GetTreeNodeCount]: the order [Range] visits the children in does not
    change the sum. *)
Fixpoint treeNodeCount (fuel : nat) (w : World) (p : PeerRef) : Outcome Z :=
  match fuel with
  | O => Diverge
  | S fuel =>
      foldM (λ count c, n ← treeNodeCount fuel w c; Ok (count + n))
            (map_to_list (Peer_GetChildren w p)).*2 1
  end.

Definition Peer_GetTreeNodeCount (w : World) (p : PeerRef) : Outcome Z :=
  treeNodeCount (treeFuel w) w p.

(** The loop of [GetTreeDepth], counting the nodes up to the root or to a peer
    of a CDN host. *)
Fixpoint treeDepth (fuel : nat) (w : World) (node : PeerRef) (deep : Z) : Outcome Z :=
  match fuel with
  | O => Diverge
  | S fuel =>
      let deep := deep + 1 in
      match Peer_GetParent w node with
      | None => Ok deep
      | Some parent =>
          if host_IsCDN (hostOf w node) then Ok deep else treeDepth fuel w parent deep
      end
  end.

Definition Peer_GetTreeDepth (w : World) (p : PeerRef) : Outcome Z :=
  treeDepth (treeFuel w) w p 0.

Fixpoint getRoot (fuel : nat) (w : World) (node : PeerRef) : Outcome PeerRef :=
  match fuel with
  | O => Diverge
  | S fuel =>
      match Peer_GetParent w node with
      | None => Ok node
      | Some parent =>
          if host_IsCDN (hostOf w node) then Ok node else getRoot fuel w parent
      end
  end.

Definition Peer_GetRoot (w : World) (p : PeerRef) : Outcome PeerRef :=
  getRoot (treeFuel w) w p.

(** The loop of [isDescendant]: the ancestors are compared by ID. *)
Fixpoint descendantLoop (fuel : nat) (w : World) (ancestorID : string) (node : PeerRef)
    : Outcome bool :=
  match fuel with
  | O => Diverge
  | S fuel =>
      match Peer_GetParent w node with
      | None => Ok false
      | Some parent =>
          if decide (peer_ID (getPeer w parent) = ancestorID) then Ok true
          else descendantLoop fuel w ancestorID parent
      end
  end.

Definition isDescendant (w : World) (ancestor offspring : option PeerRef) : Outcome bool :=
  match ancestor, offspring with
  | Some ancestor, Some offspring =>
      descendantLoop (treeFuel w) w (peer_ID (getPeer w ancestor)) offspring
  | _, _ => Ok false
  end.

Definition Peer_IsDescendant (w : World) (peer : PeerRef) (ancestor : option PeerRef)
    : Outcome bool :=
  isDescendant w ancestor (Some peer).

Definition Peer_IsAncestor (w : World) (peer : PeerRef) (offspring : option PeerRef)
    : Outcome bool :=
  isDescendant w (Some peer) offspring.

(** ** peer.go: progress *)

Definition Peer_Touch (w : World) (p : PeerRef) : World :=
  let w := updPeer (set_peer_lastAccessAt (w_now w)) p w in
  let w := if bool_decide (Peer_GetStatus w p = PeerStatusZombie) && negb (Peer_IsLeave w p)
           then Peer_SetStatus w p PeerStatusRunning else w in
  Task_Touch w (peer_Task (getPeer w p)).

Definition Peer_UpdateProgress (w : World) (p : PeerRef) (finishedCount cost : Z) : World :=
  if peer_TotalPieceCount (getPeer w p) <? finishedCount then
    let w := updPeer (set_peer_TotalPieceCount finishedCount) p w in
    let w := Peer_SetPieceCosts w p [cost] in
    Task_UpdatePeer w (peer_Task (getPeer w p)) p
  else w.

(** ** peer.go: the connection *)

(** [newChannel] starts the two loops; the send loop parks later. *)
Definition newChannel : Channel := mkChannel false false false true None None [].

Definition allocChan (w : World) (c : Channel) : World * ChanRef :=
  let r := w_next w in
  (set_w_next (Pos.succ r) (set_w_chanHeap (<[r := c]> (w_chanHeap w)) w), r).

(** [Close] only flips the flag; the goroutine it starts closes [done]. *)
Definition Channel_Close (c : Channel) : Channel :=
  if ch_closed c then c else set_ch_closed true c.

(** The steps of the goroutines of a channel: the one [Close] starts, the send
    loop parking in its [select], coming back from [stream.Send] and leaving
    when the channel is done, and the receive loop ending. *)
Inductive ChannelStep :=
  | CloseDone
  | SendLoopPark
  | SendLoopSend (err : option GoError)
  | SendLoopDone
  | ReceiveLoopEnd (e : option GoError).

Definition Channel_step (s : ChannelStep) (c : Channel) : Channel :=
  match s with
  | CloseDone =>
      if ch_closed c then set_ch_ready false (set_ch_done true c) else c
  | SendLoopPark =>
      match ch_packet c with
      | None => if ch_done c || negb (ch_sending c) then c else set_ch_ready true c
      | Some _ => c
      end
  | SendLoopSend err =>
      match ch_packet c, err with
      | None, _ => c
      | Some packet, None => set_ch_packet None (set_ch_sent (ch_sent c ++ [packet]) c)
      | Some _, Some e => Channel_Close (set_ch_sending false (set_ch_packet None (set_ch_err (Some e) c)))
      end
  | SendLoopDone =>
      match ch_packet c with
      | None => if ch_done c then Channel_Close (set_ch_sending false c) else c
      | Some _ => c
      end
  | ReceiveLoopEnd (Some e) => Channel_Close (set_ch_err (Some e) c)
  | ReceiveLoopEnd None => Channel_Close c
  end.

(** The non-blocking [select] of [Send]; a packet that is taken goes to the
    send loop. *)
Definition Channel_Send (c : Channel) (packet : PeerPacket) : Channel * option GoError :=
  if ch_done c then (c, Some ErrConnClosed)
  else if ch_ready c then (set_ch_ready false (set_ch_packet (Some packet) c), None)
  else (c, Some ErrChannelBusy).

Definition Channel_IsClosed (c : Channel) : bool := ch_closed c.

Definition Peer_getConn (w : World) (p : PeerRef) : option ChanRef := peer_conn (getPeer w p).

Definition Peer_BindNewConn (w : World) (p : PeerRef) : World * option ChanRef :=
  let w := if decide (Peer_GetStatus w p = PeerStatusWaiting)
           then Peer_SetStatus w p PeerStatusRunning else w in
  let '(w, c) := allocChan w newChannel in
  let w := updPeer (set_peer_conn (Some c)) p w in
  (w, Peer_getConn w p).

Definition Peer_IsConnected (w : World) (p : PeerRef) : bool :=
  match Peer_getConn w p with
  | None => false
  | Some c => negb (Channel_IsClosed (getChan w c))
  end.

Definition Peer_SendSchedulePacket (w : World) (p : PeerRef) (packet : PeerPacket)
    : World * option GoError :=
  match Peer_getConn w p with
  | None => (w, Some ErrNotConnected)
  | Some c =>
      let '(ch, err) := Channel_Send (getChan w c) packet in
      (updChan (λ _, ch) c w, err)
  end.

Definition Peer_CloseChannelWithError (w : World) (p : PeerRef) (err : GoError)
    : World * option GoError :=
  match Peer_getConn w p with
  | None => (w, Some ErrNotConnected)
  | Some c => (updChan (λ x, Channel_Close (set_ch_err (Some err) x)) c w, None)
  end.

(** The proofs rewrite with the equations of these operations. *)
#[global] Arguments Peer_ReplaceParent : simpl never.
#[global] Arguments isDescendant : simpl never.
#[global] Arguments Peer_IsDescendant : simpl never.
#[global] Arguments Peer_IsAncestor : simpl never.
#[global] Arguments Peer_insertChild : simpl never.
#[global] Arguments Peer_deleteChild : simpl never.
#[global] Arguments updPeer : simpl never.
#[global] Arguments updTask : simpl never.
#[global] Arguments updHost : simpl never.
#[global] Arguments updChan : simpl never.
