(* ===== verification/PeerTree.v ===== *)
(** * PeerTree: the distribution tree of a task

    Invariants of the parent and children links of the peers
    (scheduler/supervisor/peer.go) and of the upload load of the hosts that
    [insertChild] and [deleteChild] count: what [ReplaceParent] keeps, when the
    walks over the links return, and what [isDescendant] answers. *)

From S2P Require Import Prelude Containers World Supervisor.
From stdpp Require Import options.
Local Open Scope Z_scope.

(** ** Specification vocabulary *)

(** One step up the tree. *)
Definition parent_rel (w : World) : relation PeerRef :=
  λ c p, Peer_GetParent w c = Some p.

Definition acyclic (w : World) : Prop := ∀ p, ¬ tc (parent_rel w) p p.

(** The two directions of the links agree. *)
Record tree_ok (w : World) : Prop := {
  tree_child : ∀ p id c,
    Peer_GetChildren w p !! id = Some c →
    peer_ID (getPeer w c) = id ∧ Peer_GetParent w c = Some p;
  tree_parent : ∀ c p,
    Peer_GetParent w c = Some p →
    Peer_GetChildren w p !! peer_ID (getPeer w c) = Some c;
}.

(** The uploads a host serves: the children of its peers. *)
Definition uploads_at (h : HostRef) (x : Peer) : Z :=
  if decide (peer_Host x = h) then Z.of_nat (size (peer_children x)) else 0.

Definition uploads (w : World) (h : HostRef) : Z :=
  map_fold (λ _ x acc, uploads_at h x + acc) 0 (w_peerHeap w).

(** [CurrentUploadLoad] counts them, modulo [2^32]. *)
Definition load_ok (w : World) : Prop :=
  ∀ h, host_CurrentUploadLoad (getHost w h) = uint32 (uploads w h).

(** ** What [ReplaceParent] changes *)

Section ReplaceParentEquations.
Implicit Types (w : World) (p q : PeerRef).

(** A field the links do not touch. *)
Lemma Peer_insertChild_field {B} (g : Peer → B) w p c q :
  (∀ v x, g (set_peer_children v x) = g x) →
  g (getPeer (Peer_insertChild w p c) q) = g (getPeer w q).
Proof.
  intros Hg. unfold Peer_insertChild, Task_UpdatePeer. autorewrite with heap.
  rewrite getPeer_updPeer. case_decide; subst; auto.
Qed.

Lemma Peer_deleteChild_field {B} (g : Peer → B) w p c q :
  (∀ v x, g (set_peer_children v x) = g x) →
  g (getPeer (Peer_deleteChild w p c) q) = g (getPeer w q).
Proof.
  intros Hg. unfold Peer_deleteChild, Task_UpdatePeer. autorewrite with heap.
  rewrite getPeer_updPeer. case_decide; subst; auto.
Qed.

Lemma Peer_ReplaceParent_field {B} (g : Peer → B) w p np q :
  (∀ v x, g (set_peer_children v x) = g x) →
  (∀ v x, g (set_peer_parent v x) = g x) →
  g (getPeer (Peer_ReplaceParent w p np) q) = g (getPeer w q).
Proof.
  intros Hc Hp. unfold Peer_ReplaceParent.
  assert (∀ w, g (getPeer (Peer_SetParent w p np) q) = g (getPeer w q)) as Hset.
  { intros w'. unfold Peer_SetParent. rewrite getPeer_updPeer. case_decide; subst; auto. }
  destruct (Peer_GetParent w p), np;
    rewrite ?Peer_insertChild_field, ?Hset, ?Peer_deleteChild_field by done; done.
Qed.

Lemma Peer_ReplaceParent_ID w p np q :
  peer_ID (getPeer (Peer_ReplaceParent w p np) q) = peer_ID (getPeer w q).
Proof. by apply (Peer_ReplaceParent_field peer_ID). Qed.

Lemma Peer_ReplaceParent_Host w p np q :
  peer_Host (getPeer (Peer_ReplaceParent w p np) q) = peer_Host (getPeer w q).
Proof. by apply (Peer_ReplaceParent_field peer_Host). Qed.

Lemma Peer_ReplaceParent_GetParent w p np q :
  Peer_GetParent (Peer_ReplaceParent w p np) q =
  if decide (p = q) then np else Peer_GetParent w q.
Proof.
  unfold Peer_ReplaceParent, Peer_GetParent at 1, Peer_SetParent.
  assert (∀ w', (∀ r, peer_parent (getPeer w' r) = peer_parent (getPeer w r)) →
    peer_parent (getPeer (updPeer (set_peer_parent np) p w') q) =
    if decide (p = q) then np else Peer_GetParent w q) as Hset.
  { intros w' Hw'. rewrite getPeer_updPeer. case_decide; subst; [done|apply Hw']. }
  destruct (Peer_GetParent w p) as [o|], np as [n|];
    rewrite ?(Peer_insertChild_field peer_parent) by done; apply Hset; intros r;
    rewrite ?(Peer_deleteChild_field peer_parent) by done; done.
Qed.

(** The children maps after [ReplaceParent]. *)
Definition detach (w : World) (p q : PeerRef) : gmap string PeerRef :=
  if decide (Peer_GetParent w p = Some q)
  then delete (peer_ID (getPeer w p)) (Peer_GetChildren w q) else Peer_GetChildren w q.

Lemma Peer_ReplaceParent_GetChildren w p np q :
  Peer_GetChildren (Peer_ReplaceParent w p np) q =
  if decide (np = Some q) then <[peer_ID (getPeer w p) := p]> (detach w p q)
  else detach w p q.
Proof.
  unfold Peer_ReplaceParent.
  set (w1 := match Peer_GetParent w p with
             | Some o => Peer_deleteChild w o p | None => w end).
  assert (Hw1 : ∀ r, Peer_GetChildren w1 r = detach w p r).
  { intros r. subst w1. unfold detach.
    destruct (Peer_GetParent w p) as [o|]; [|by case_decide].
    unfold Peer_GetChildren, Peer_deleteChild, Task_UpdatePeer. autorewrite with heap.
    rewrite getPeer_updPeer. repeat case_decide; simplify_eq/=; done. }
  assert (Hid : peer_ID (getPeer w1 p) = peer_ID (getPeer w p)).
  { subst w1. destruct (Peer_GetParent w p); [|done].
    by rewrite (Peer_deleteChild_field peer_ID). }
  assert (Hw2 : ∀ r, Peer_GetChildren (Peer_SetParent w1 p np) r = detach w p r).
  { intros r. rewrite <-Hw1. unfold Peer_GetChildren, Peer_SetParent.
    by apply updPeer_field. }
  assert (Hid2 : peer_ID (getPeer (Peer_SetParent w1 p np) p) = peer_ID (getPeer w p)).
  { rewrite <-Hid. by apply updPeer_field. }
  destruct np as [n|]; [|by case_decide].
  unfold Peer_insertChild, Task_UpdatePeer, Peer_GetChildren at 1. autorewrite with heap.
  rewrite getPeer_updPeer, Hid2. case_decide as Hnq.
  - subst n. rewrite decide_True by done. simpl. f_equal. apply Hw2.
  - rewrite decide_False by congruence. apply Hw2.
Qed.

End ReplaceParentEquations.

(** ** The links stay consistent *)

Section LinkInvariant.
Implicit Types (w : World) (p q : PeerRef).

(** The new parent has no other child of the peer's ID. *)
Definition child_slot_free (w : World) (p : PeerRef) (np : option PeerRef) : Prop :=
  ∀ q c, np = Some q → Peer_GetChildren w q !! peer_ID (getPeer w p) = Some c → c = p.

Lemma detach_Some w p q id c :
  tree_ok w →
  detach w p q !! id = Some c ↔ Peer_GetChildren w q !! id = Some c ∧ c ≠ p.
Proof.
  intros Htree. unfold detach. case_decide as Hq.
  - rewrite lookup_delete_Some. split.
    + intros [Hne Hc]. split; [done|]. intros ->. apply Hne.
      by destruct (tree_child w Htree _ _ _ Hc) as [<- _].
    + intros [Hc Hne]. split; [|done]. intros <-.
      rewrite (tree_parent w Htree p q Hq) in Hc. congruence.
  - split; [|by intros [? _]]. intros Hc. split; [done|]. intros ->.
    by destruct (tree_child w Htree _ _ _ Hc) as [_ ?].
Qed.

Lemma Peer_ReplaceParent_tree_ok w p np :
  tree_ok w → child_slot_free w p np → tree_ok (Peer_ReplaceParent w p np).
Proof.
  intros Htree Hfree. split.
  - intros q id c. rewrite Peer_ReplaceParent_GetChildren, Peer_ReplaceParent_ID,
      Peer_ReplaceParent_GetParent. intros Hc.
    assert (detach w p q !! id = Some c → peer_ID (getPeer w c) = id ∧
              (if decide (p = c) then np else Peer_GetParent w c) = Some q) as Hold.
    { rewrite detach_Some by done. intros [Hc' Hne].
      rewrite decide_False by congruence. by eapply tree_child. }
    destruct (decide (np = Some q)) as [Hq|Hq]; [|by apply Hold].
    apply lookup_insert_Some in Hc as [[<- <-]|[Hne Hc]]; [|by apply Hold].
    split; [done|]. by rewrite decide_True.
  - intros c q. rewrite Peer_ReplaceParent_GetChildren, Peer_ReplaceParent_ID,
      Peer_ReplaceParent_GetParent. case_decide as Hpc.
    + subst c. intros ->. rewrite decide_True by done. by rewrite lookup_insert_eq.
    + intros Hcq. assert (detach w p q !! peer_ID (getPeer w c) = Some c) as Hd.
      { apply detach_Some; [done|]. split; [|done]. by apply tree_parent. }
      case_decide as Hq; [|done].
      rewrite lookup_insert_ne; [done|]. intros Heq. apply Hpc.
      apply detach_Some in Hd as [Hd _]; [|done]. symmetry.
      eapply Hfree; [done|]. by rewrite Heq.
Qed.

End LinkInvariant.

(** ** The upload load stays accurate *)

Section LoadInvariant.
Implicit Types (w : World) (p q : PeerRef) (h : HostRef).

Lemma uploads_insert h (m : gmap PeerRef Peer) p x :
  map_fold (λ _ x acc, uploads_at h x + acc) 0 (<[p := x]> m) =
  map_fold (λ _ x acc, uploads_at h x + acc) 0 m
    - uploads_at h (default zeroPeer (m !! p)) + uploads_at h x.
Proof.
  assert (Hfresh : ∀ (m : gmap PeerRef Peer) x, m !! p = None →
    map_fold (λ _ x acc, uploads_at h x + acc) 0 (<[p := x]> m) =
    uploads_at h x + map_fold (λ _ x acc, uploads_at h x + acc) 0 m).
  { intros m' y Hm. apply (map_fold_insert_L (λ _ x acc, uploads_at h x + acc));
      [intros; lia|done]. }
  destruct (m !! p) as [y|] eqn:Hm; simpl.
  - rewrite <-(insert_delete_id m p y) at 2 by done.
    rewrite <-insert_delete_eq. rewrite !Hfresh by apply lookup_delete_eq. lia.
  - rewrite Hfresh by done. unfold uploads_at at 4. simpl.
    rewrite map_size_empty. case_decide; lia.
Qed.

Lemma uploads_updPeer f p h w :
  uploads (updPeer f p w) h =
  uploads w h - uploads_at h (getPeer w p) + uploads_at h (f (getPeer w p)).
Proof. apply uploads_insert. Qed.

Lemma uploads_updHost f k h w : uploads (updHost f k w) h = uploads w h.
Proof. done. Qed.
Lemma uploads_updTask f t h w : uploads (updTask f t w) h = uploads w h.
Proof. done. Qed.

Lemma uploads_nonneg w h : 0 <= uploads w h.
Proof.
  unfold uploads. apply (map_fold_weak_ind (λ r _, 0 <= r)); [lia|].
  intros _ x _ r _ Hr. unfold uploads_at. case_decide; lia.
Qed.

(** [insertChild] of a new child and [deleteChild] of a present one count. *)
Lemma Peer_insertChild_load w p c :
  load_ok w → Peer_GetChildren w p !! peer_ID (getPeer w c) = None →
  load_ok (Peer_insertChild w p c).
Proof.
  intros Hload Hnone h. unfold Peer_insertChild, Task_UpdatePeer.
  autorewrite with heap. rewrite uploads_updTask, uploads_updHost, uploads_updPeer, getHost_updHost.
  unfold uploads_at; simpl. autorewrite with heap.
  rewrite (map_size_insert_None _ _ _ Hnone).
  case_decide as Hh; simpl; autorewrite with heap.
  - subst h. rewrite Hload.
    unfold uint32. rewrite wrapU_add_l. f_equal. unfold Peer_GetChildren. lia.
  - rewrite Hload. f_equal. lia.
Qed.

Lemma Peer_deleteChild_load w p c d :
  load_ok w → Peer_GetChildren w p !! peer_ID (getPeer w c) = Some d →
  load_ok (Peer_deleteChild w p c).
Proof.
  intros Hload Hsome h. unfold Peer_deleteChild, Task_UpdatePeer.
  autorewrite with heap. rewrite uploads_updTask, uploads_updHost, uploads_updPeer, getHost_updHost.
  unfold uploads_at; simpl. autorewrite with heap.
  rewrite (map_size_delete_Some _ _ (mk_is_Some _ _ Hsome)).
  assert (size (peer_children (getPeer w p)) ≠ 0%nat) as Hsz.
  { eapply map_size_ne_0_lookup_2. by eexists. }
  case_decide as Hh; simpl; autorewrite with heap.
  - subst h. rewrite Hload.
    unfold uint32. rewrite wrapU_sub_l. f_equal. unfold Peer_GetChildren. lia.
  - rewrite Hload. f_equal. lia.
Qed.

Lemma Peer_SetParent_load w p np : load_ok w → load_ok (Peer_SetParent w p np).
Proof.
  intros Hload h. unfold Peer_SetParent. rewrite uploads_updPeer.
  autorewrite with heap. rewrite Hload. f_equal. unfold uploads_at; simpl. lia.
Qed.

Lemma Peer_ReplaceParent_load_ok w p np :
  tree_ok w → load_ok w → child_slot_free w p np → load_ok (Peer_ReplaceParent w p np).
Proof.
  intros Htree Hload Hfree.
  pose proof (λ q, Peer_ReplaceParent_GetChildren w p None q) as Hdet.
  assert (load_ok (Peer_ReplaceParent w p None)) as Hl1.
  { unfold Peer_ReplaceParent. destruct (Peer_GetParent w p) as [o|] eqn:Ho.
    - eapply Peer_SetParent_load, Peer_deleteChild_load; [done|].
      by eapply tree_parent.
    - by apply Peer_SetParent_load. }
  destruct np as [n|]; [|done].
  unfold Peer_ReplaceParent in *.
  set (w1 := match Peer_GetParent w p with
             | Some o => Peer_deleteChild w o p | None => w end) in *.
  apply Peer_insertChild_load.
  - intros h. specialize (Hl1 h). unfold Peer_SetParent, uploads in *. simpl in *.
    rewrite uploads_insert in Hl1 |- *. unfold uploads_at in *. simpl in *. done.
  - specialize (Hdet n). rewrite decide_False in Hdet by done.
    assert (Peer_GetChildren (Peer_SetParent w1 p (Some n)) n = detach w p n) as ->.
    { rewrite <-Hdet. unfold Peer_GetChildren, Peer_SetParent.
      rewrite !(updPeer_field peer_children) by done. done. }
    assert (peer_ID (getPeer (Peer_SetParent w1 p (Some n)) p) = peer_ID (getPeer w p)) as ->.
    { unfold Peer_SetParent. rewrite (updPeer_field peer_ID) by done. subst w1.
      destruct (Peer_GetParent w p); [|done]. by rewrite (Peer_deleteChild_field peer_ID). }
    destruct (detach w p n !! _) as [c|] eqn:Hd; [|done].
    apply detach_Some in Hd as [Hd Hne]; [|done]. by destruct Hne; eapply Hfree.
Qed.

End LoadInvariant.

(** ** No cycles *)

Section Acyclicity.
Implicit Types (w : World) (p q : PeerRef).

Lemma Peer_ReplaceParent_parent_rel w p np c d :
  parent_rel (Peer_ReplaceParent w p np) c d ↔
  (c = p ∧ np = Some d) ∨ (c ≠ p ∧ parent_rel w c d).
Proof.
  unfold parent_rel. rewrite Peer_ReplaceParent_GetParent.
  case_decide; naive_solver.
Qed.

(** A path after re-parenting [p] under [q] either is an old path or goes
    through the new edge. *)
Lemma replaced_path w p q x y :
  tc (parent_rel (Peer_ReplaceParent w p (Some q))) x y →
  tc (parent_rel w) x y ∨
  (rtc (parent_rel (Peer_ReplaceParent w p (Some q))) x p ∧
   rtc (parent_rel (Peer_ReplaceParent w p (Some q))) q y).
Proof.
  induction 1 as [x y Hxy|x x' y Hxx' Htc IH].
  - apply Peer_ReplaceParent_parent_rel in Hxy as [[-> [= ->]]|[_ Hxy]].
    + right. split; apply rtc_refl.
    + left. by apply tc_once.
  - pose proof Hxx' as Hstep.
    apply Peer_ReplaceParent_parent_rel in Hxx' as [[-> [= ->]]|[_ Hxx']].
    + right. split; [apply rtc_refl|by apply tc_rtc].
    + destruct IH as [IH|[IH1 IH2]].
      * left. by eapply tc_l.
      * right. split; [by eapply rtc_l|done].
Qed.

(** Up to the first arrival at [p], the new path is an old one. *)
Lemma replaced_path_to w p np x :
  rtc (parent_rel (Peer_ReplaceParent w p np)) x p → rtc (parent_rel w) x p.
Proof.
  intros Hx. remember p as z eqn:Hz in Hx at 2. revert Hz.
  induction Hx as [x|x y z Hxy Hyz IH]; intros ->; [apply rtc_refl|].
  apply Peer_ReplaceParent_parent_rel in Hxy as [[-> _]|[_ Hxy]]; [apply rtc_refl|].
  eapply rtc_l; [done|by apply IH].
Qed.

Lemma Peer_ReplaceParent_acyclic w p np :
  acyclic w →
  (∀ q, np = Some q → q ≠ p ∧ ¬ tc (parent_rel w) q p) →
  acyclic (Peer_ReplaceParent w p np).
Proof.
  intros Hac Hnp x Hx. destruct np as [q|].
  - destruct (Hnp q eq_refl) as [Hne Hnd].
    apply replaced_path in Hx as [Hx|[Hxp Hqx]]; [by eapply Hac|].
    assert (rtc (parent_rel w) q p) as Hqp.
    { apply (replaced_path_to w p (Some q)). by etrans. }
    apply rtc_tc in Hqp as [->|Hqp]; done.
  - apply (Hac x). revert Hx. apply (tc_congruence id). intros c d Hcd.
    by apply Peer_ReplaceParent_parent_rel in Hcd as [[_ ?]|[_ ?]].
Qed.

End Acyclicity.

(** ** The walks return *)

Section Walks.
Implicit Types (w : World) (p q : PeerRef).

(** The peers a walk leaves are distinct and allocated. *)
Lemma parent_chain w n p q :
  acyclic w → nsteps (parent_rel w) n p q →
  ∃ l : list PeerRef, length l = n ∧ NoDup l ∧
    ∀ x, x ∈ l → rtc (parent_rel w) p x ∧ x ∈ dom (w_peerHeap w).
Proof.
  intros Hac. induction 1 as [p|n p p' q Hpp' Hn (l & Hlen & Hnd & Hl)].
  - exists []. split; [done|]. split; [constructor|]. intros ? []%elem_of_nil.
  - exists (p :: l). split; [by simpl; rewrite Hlen|]. split.
    + constructor; [|done]. intros [Hr _]%Hl. apply (Hac p).
      by eapply tc_rtc_r; [apply tc_once|].
    + intros x [->|Hx]%elem_of_cons.
      * split; [apply rtc_refl|]. apply elem_of_dom.
        unfold parent_rel, Peer_GetParent, getPeer in Hpp'.
        by destruct (w_peerHeap w !! p).
      * apply Hl in Hx as [Hx ?]. split; [by eapply rtc_l|done].
Qed.

Lemma parent_chain_bound w n p q :
  acyclic w → nsteps (parent_rel w) n p q → (n < treeFuel w)%nat.
Proof.
  intros Hac (l & <- & Hnd & Hl)%parent_chain; [|done]. unfold treeFuel.
  rewrite <-(size_dom (D := gset PeerRef)).
  rewrite <-(size_list_to_set (C := gset PeerRef)) by done.
  apply le_n_S, subseteq_size. intros x. rewrite elem_of_list_to_set.
  intros [_ ?]%Hl. done.
Qed.

(** A loop that runs out of fuel has walked that many steps. *)
Lemma descendantLoop_Diverge fuel w id p :
  descendantLoop fuel w id p = Diverge → ∃ q, nsteps (parent_rel w) fuel p q.
Proof.
  revert p. induction fuel as [|fuel IH]; intros p; simpl; [eauto using nsteps_O|].
  destruct (Peer_GetParent w p) as [o|] eqn:Ho; [|done]. case_decide; [done|].
  intros [q Hq]%IH. exists q. by econstructor.
Qed.

Lemma treeDepth_Diverge fuel w p deep :
  treeDepth fuel w p deep = Diverge → ∃ q, nsteps (parent_rel w) fuel p q.
Proof.
  revert p deep. induction fuel as [|fuel IH]; intros p deep; simpl; [eauto using nsteps_O|].
  destruct (Peer_GetParent w p) as [o|] eqn:Ho; [|done]. case_match; [done|].
  intros [q Hq]%IH. exists q. by econstructor.
Qed.

Lemma getRoot_Diverge fuel w p :
  getRoot fuel w p = Diverge → ∃ q, nsteps (parent_rel w) fuel p q.
Proof.
  revert p. induction fuel as [|fuel IH]; intros p; simpl; [eauto using nsteps_O|].
  destruct (Peer_GetParent w p) as [o|] eqn:Ho; [|done]. case_match; [done|].
  intros [q Hq]%IH. exists q. by econstructor.
Qed.

(** Down the children maps. *)
Lemma treeNodeCount_Diverge fuel w p :
  tree_ok w → treeNodeCount fuel w p = Diverge → ∃ q, nsteps (parent_rel w) fuel q p.
Proof.
  intros Htree. revert p. induction fuel as [|fuel IH]; intros p; simpl;
    [eauto using nsteps_O|].
  intros (c & n & Hc & Hd)%foldM_diverge.
  destruct (treeNodeCount fuel w c) eqn:Hn; simpl in Hd; try done.
  apply IH in Hn as [q Hq]. exists q. eapply nsteps_r; [done|].
  apply list_elem_of_fmap in Hc as ([id c'] & -> & Hc).
  apply elem_of_map_to_list in Hc. by destruct (tree_child w Htree _ _ _ Hc).
Qed.

Lemma treeNodeCount_no_panic fuel w p r : treeNodeCount fuel w p ≠ Panic r.
Proof.
  revert p. induction fuel as [|fuel IH]; intros p; simpl; [done|].
  intros (c & n & Hc & Hd)%foldM_panic.
  destruct (treeNodeCount fuel w c) eqn:Hn; simpl in Hd; naive_solver.
Qed.

(** What [descendantLoop] answers when it answers. *)
Lemma descendantLoop_spec fuel w id p b :
  descendantLoop fuel w id p = Ok b →
  b = true ↔ ∃ q, tc (parent_rel w) p q ∧ peer_ID (getPeer w q) = id.
Proof.
  revert p. induction fuel as [|fuel IH]; intros p; simpl; [done|].
  destruct (Peer_GetParent w p) as [o|] eqn:Ho.
  - case_decide as Hid.
    + intros [= <-]. split; [|done]. intros _. exists o. split; [by apply tc_once|done].
    + intros Hb%IH. rewrite Hb. split.
      * intros (q & Hq & ?). exists q. split; [by eapply tc_l|done].
      * intros (q & Hq & Hqid). exists q. split; [|done].
        inversion Hq as [? ? Hpq|? z ? Hpz Hzq]; subst; unfold parent_rel in *; simplify_eq.
        done.
  - intros [= <-]. split; [done|]. intros (q & Hq & _).
    inversion Hq; subst; unfold parent_rel in *; congruence.
Qed.

Lemma isDescendant_total w a o :
  acyclic w → ∃ b, isDescendant w a o = Ok b.
Proof.
  intros Hac. unfold isDescendant. destruct a as [a|], o as [o|]; eauto.
  destruct (descendantLoop (treeFuel w) w (peer_ID (getPeer w a)) o) as [b|r|] eqn:Hd;
    [eauto| |].
  - exfalso. revert Hd. generalize (treeFuel w). intros n. revert o.
    induction n as [|n IH]; intros o; simpl; [done|].
    destruct (Peer_GetParent w o); [|done]. case_decide; [done|apply IH].
  - apply descendantLoop_Diverge in Hd as [q Hq].
    apply parent_chain_bound in Hq; [lia|done].
Qed.

End Walks.

(** ** How much a link adds to the load of a host *)

Section LoadGrowth.
Implicit Types (w : World) (p q : PeerRef) (h : HostRef).

Lemma uploads_insertChild_le w p c h :
  uploads (Peer_insertChild w p c) h <=
  uploads w h + (if decide (peer_Host (getPeer w p) = h) then 1 else 0).
Proof.
  unfold Peer_insertChild, Task_UpdatePeer.
  rewrite uploads_updTask, uploads_updHost, uploads_updPeer. unfold uploads_at; simpl.
  case_decide; [|lia]. rewrite map_size_insert. case_match; simpl; lia.
Qed.

Lemma uploads_deleteChild_le w p c h : uploads (Peer_deleteChild w p c) h <= uploads w h.
Proof.
  unfold Peer_deleteChild, Task_UpdatePeer.
  rewrite uploads_updTask, uploads_updHost, uploads_updPeer. unfold uploads_at; simpl.
  case_decide; [|lia]. rewrite map_size_delete. case_match; simpl; lia.
Qed.

Lemma uploads_SetParent w p np h : uploads (Peer_SetParent w p np) h = uploads w h.
Proof. unfold Peer_SetParent. rewrite uploads_updPeer. unfold uploads_at; simpl. lia. Qed.

Lemma uploads_ReplaceParent_le w p q h :
  uploads (Peer_ReplaceParent w p (Some q)) h <=
  uploads w h + (if decide (peer_Host (getPeer w q) = h) then 1 else 0).
Proof.
  unfold Peer_ReplaceParent.
  set (w1 := match Peer_GetParent w p with
             | Some o => Peer_deleteChild w o p | None => w end).
  etrans; [apply uploads_insertChild_le|]. rewrite uploads_SetParent.
  assert (uploads w1 h <= uploads w h).
  { subst w1. destruct (Peer_GetParent w p); [apply uploads_deleteChild_le|lia]. }
  assert (peer_Host (getPeer (Peer_SetParent w1 p (Some q)) q) = peer_Host (getPeer w q)) as ->;
    [|lia].
  unfold Peer_SetParent. rewrite (updPeer_field peer_Host) by done. subst w1.
  destruct (Peer_GetParent w p); [|done]. by rewrite (Peer_deleteChild_field peer_Host).
Qed.

End LoadGrowth.

(** ** The invariant of the tree of peers *)

(** Peers of one non-empty ID are one peer. *)
Definition ids_inj (w : World) : Prop :=
  ∀ p q, peer_ID (getPeer w p) = peer_ID (getPeer w q) → peer_ID (getPeer w p) ≠ ""%string → p = q.

Record peers_ok (w : World) : Prop := {
  peers_tree : tree_ok w;
  peers_load : load_ok w;
  peers_acyclic : acyclic w;
  peers_ids : ids_inj w;
}.

#[export] Hint Resolve peers_tree peers_load peers_acyclic peers_ids : dfly.

(** [p] may be put under [q]. *)
Definition may_follow (w : World) (p q : PeerRef) : Prop :=
  q ≠ p ∧ ¬ tc (parent_rel w) q p.

Lemma ids_slot_free w p np :
  peers_ok w → peer_ID (getPeer w p) ≠ ""%string → child_slot_free w p np.
Proof.
  intros Hok Hid q c -> Hc.
  apply (tree_child _ (peers_tree _ Hok)) in Hc as [Hc _].
  symmetry. by apply (peers_ids _ Hok).
Qed.

Lemma Peer_ReplaceParent_peers_ok w p np :
  peers_ok w → peer_ID (getPeer w p) ≠ ""%string →
  (∀ q, np = Some q → may_follow w p q) →
  peers_ok (Peer_ReplaceParent w p np).
Proof.
  intros Hok Hid Hnp. pose proof (ids_slot_free w p np Hok Hid). split.
  - apply Peer_ReplaceParent_tree_ok; auto with dfly.
  - apply Peer_ReplaceParent_load_ok; auto with dfly.
  - apply Peer_ReplaceParent_acyclic; [auto with dfly|exact Hnp].
  - intros x y. rewrite !Peer_ReplaceParent_ID. apply (peers_ids _ Hok).
Qed.

(** Linking one peer below [q] does not forbid linking another. *)
Lemma Peer_ReplaceParent_may_follow w p q x :
  may_follow w p q → may_follow w x q → may_follow (Peer_ReplaceParent w p (Some q)) x q.
Proof.
  intros [Hpq Hqp] [Hxq Hqx]. split; [done|]. intros Hx.
  apply replaced_path in Hx as [Hx|[Hx _]]; [done|].
  apply replaced_path_to, rtc_tc in Hx as [?|?]; done.
Qed.

(** ** Linking a list of children *)

Section Linking.
Implicit Types (w : World) (peer c : PeerRef).

Definition link_children w peer (cs : list PeerRef) : World :=
  foldl (λ w c, Peer_ReplaceParent w c (Some peer)) w cs.

Lemma link_children_peers_ok w peer cs :
  peers_ok w →
  (∀ c, c ∈ cs → peer_ID (getPeer w c) ≠ ""%string ∧ may_follow w c peer) →
  peers_ok (link_children w peer cs).
Proof.
  revert w. induction cs as [|c cs IH]; intros w Hok Hcs; simpl; [done|].
  destruct (Hcs c) as [Hid Hc]; [by left|]. apply IH.
  - apply Peer_ReplaceParent_peers_ok; [done..|]. by intros q [= <-].
  - intros x Hx. destruct (Hcs x) as [Hidx Hxf]; [by right|]. split.
    + by rewrite Peer_ReplaceParent_ID.
    + by apply Peer_ReplaceParent_may_follow.
Qed.

Lemma link_children_GetParent w peer cs x :
  Peer_GetParent (link_children w peer cs) x =
  if decide (x ∈ cs) then Some peer else Peer_GetParent w x.
Proof.
  revert w. induction cs as [|c cs IH]; intros w; [done|].
  unfold link_children in *. cbn [foldl]. rewrite IH, Peer_ReplaceParent_GetParent.
  repeat case_decide; set_solver.
Qed.

Lemma link_children_uploads w peer cs :
  uploads (link_children w peer cs) (peer_Host (getPeer w peer)) <=
  uploads w (peer_Host (getPeer w peer)) + Z.of_nat (length cs).
Proof.
  revert w. induction cs as [|c cs IH]; intros w; simpl; [lia|].
  specialize (IH (Peer_ReplaceParent w c (Some peer))).
  rewrite Peer_ReplaceParent_Host in IH. etrans; [exact IH|].
  pose proof (uploads_ReplaceParent_le w c peer (peer_Host (getPeer w peer))) as Hle.
  rewrite decide_True in Hle by done. lia.
Qed.

End Linking.
