(* ===== verification/Managers.v ===== *)
(** * Managers: the registries of hosts, peers and tasks, and their GC

    [hostManager] (scheduler/supervisor/host.go), [peerManager] (peer.go) and
    [taskManager] (task.go): three [sync.Map]s and the two [RunGC] passes that
    age peers and tasks out.  [sync.Map.Range] visits the keys in an order the
    runtime picks and skips the entries deleted before their turn, so a pass
    takes the order as an argument and looks each key up when it comes to it;
    the theorems hold for every order. *)

From S2P Require Import Prelude Containers World Supervisor PeerTree.
From stdpp Require Import options.
Local Open Scope Z_scope.

(** ** hostManager *)

Definition hostManager_Get (w : World) (key : string) : option HostRef := w_hosts w !! key.

Definition hostManager_Add (w : World) (h : HostRef) : World :=
  set_w_hosts (<[host_UUID (getHost w h) := h]> (w_hosts w)) w.

Definition hostManager_Delete (w : World) (key : string) : World :=
  set_w_hosts (delete key (w_hosts w)) w.

(** ** peerManager *)

Definition peerManager_Add (w : World) (p : PeerRef) : World :=
  let w := Host_AddPeer w (peer_Host (getPeer w p)) p in
  let w := Task_AddPeer w (peer_Task (getPeer w p)) p in
  set_w_peers (<[peer_ID (getPeer w p) := p]> (w_peers w)) w.

Definition peerManager_Get (w : World) (id : string) : option PeerRef := w_peers w !! id.

Definition peerManager_Delete (w : World) (id : string) : World :=
  match peerManager_Get w id with
  | Some p =>
      let w := Host_DeletePeer w (peer_Host (getPeer w p)) id in
      let w := Task_DeletePeer w (peer_Task (getPeer w p)) p in
      let w := Peer_ReplaceParent w p None in
      set_w_peers (delete id (w_peers w)) w
  | None => w
  end.

(** The peers of a task, in the order [Range] visits the registry. *)
Definition peerManager_GetPeersByTask (w : World) (taskID : string) (order : list string)
    : list PeerRef :=
  filter (λ p, task_ID (taskOf w p) = taskID) (omap (λ id, w_peers w !! id) order).

(** One visit of [RunGC], in its two halves: a peer idle for longer than the
    TTI becomes a zombie, and leaves when it is not connected; a peer that has
    left, failed or is idle for longer than the TTL is deleted, and with it its
    host and the progress of its task when they have no peer left. *)
Definition RunGC_age (peerTTI elapsed : Z) (w : World) (peer : PeerRef) : World :=
  if (peerTTI <? elapsed) && negb (Peer_IsDone w peer)
       && negb (host_IsCDN (hostOf w peer)) then
    let w := if negb (Peer_IsConnected w peer) then Peer_Leave w peer else w in
    if bool_decide (Peer_GetStatus w peer ≠ PeerStatusZombie)
    then Peer_SetStatus w peer PeerStatusZombie else w
  else w.

Definition RunGC_collect (w : World) (id : string) (peer : PeerRef) : World :=
  let w := peerManager_Delete w id in
  let w := if Host_GetPeersLen w (peer_Host (getPeer w peer)) =? 0
           then hostManager_Delete w (host_UUID (hostOf w peer)) else w in
  if Z.of_nat (sortedUniqueList_Len (Task_GetPeers w (peer_Task (getPeer w peer)))) =? 0
  then Task_SetStatus w (peer_Task (getPeer w peer)) TaskStatusWaiting else w.

Definition peerManager_RunGC_visit (peerTTL peerTTI : Z) (w : World) (id : string) : World :=
  match w_peers w !! id with
  | None => w
  | Some peer =>
      let elapsed := w_now w - peer_lastAccessAt (getPeer w peer) in
      let w := RunGC_age peerTTI elapsed w peer in
      if Peer_IsLeave w peer || Peer_IsFail w peer || (peerTTL <? elapsed)
      then RunGC_collect w id peer else w
  end.

Definition peerManager_RunGC (peerTTL peerTTI : Z) (w : World) (order : list string) : World :=
  foldl (peerManager_RunGC_visit peerTTL peerTTI) w order.

(** ** taskManager *)

Definition taskManager_Delete (w : World) (id : string) : World :=
  set_w_tasks (delete id (w_tasks w)) w.

Definition taskManager_Add (w : World) (t : TaskRef) : World :=
  set_w_tasks (<[task_ID (getTask w t) := t]> (w_tasks w)) w.

Definition taskManager_Get (w : World) (id : string) : option TaskRef := w_tasks w !! id.

(** [LoadOrStore]: the registered task wins; the flag says it was there. *)
Definition taskManager_GetOrAdd (w : World) (t : TaskRef) : World * (TaskRef * bool) :=
  match w_tasks w !! task_ID (getTask w t) with
  | Some old => (w, (old, true))
  | None => (taskManager_Add w t, (t, false))
  end.

(** One visit of [RunGC]; [peerOrder] is the order the registry of peers is
    ranged over when the task expires. *)
Definition taskManager_RunGC_visit (taskTTL taskTTI : Z) (peerOrder : list string)
    (w : World) (taskID : string) : World :=
  match w_tasks w !! taskID with
  | None => w
  | Some task =>
      let elapsed := w_now w - task_lastAccessAt (getTask w task) in
      let w := if (taskTTI <? elapsed) && Task_IsSuccess w task
               then Task_SetStatus w task TaskStatusZombie else w in
      let w := if Z.of_nat (sortedUniqueList_Len (Task_GetPeers w task)) =? 0
               then Task_SetStatus w task TaskStatusWaiting else w in
      if taskTTL <? elapsed then
        let peers := peerManager_GetPeersByTask w taskID peerOrder in
        let w := foldl (λ w p, peerManager_Delete w (peer_ID (getPeer w p))) w peers in
        taskManager_Delete w taskID
      else w
  end.

Definition taskManager_RunGC (taskTTL taskTTI : Z) (peerOrder : list string)
    (w : World) (order : list string) : World :=
  foldl (taskManager_RunGC_visit taskTTL taskTTI peerOrder) w order.

(** ** Frames: what the link operations leave alone *)

Section Frames.
Implicit Types (w : World) (p q : PeerRef).

Ltac links := unfold Peer_ReplaceParent, Peer_SetParent, Peer_insertChild, Peer_deleteChild,
  Task_UpdatePeer; repeat case_match; done.

Lemma Peer_ReplaceParent_peers w p np : w_peers (Peer_ReplaceParent w p np) = w_peers w.
Proof. links. Qed.
Lemma Peer_ReplaceParent_tasks w p np : w_tasks (Peer_ReplaceParent w p np) = w_tasks w.
Proof. links. Qed.
Lemma Peer_ReplaceParent_hosts w p np : w_hosts (Peer_ReplaceParent w p np) = w_hosts w.
Proof. links. Qed.
Lemma Peer_ReplaceParent_now w p np : w_now (Peer_ReplaceParent w p np) = w_now w.
Proof. links. Qed.
Lemma Peer_ReplaceParent_queue w p np : w_queue (Peer_ReplaceParent w p np) = w_queue w.
Proof. links. Qed.
Lemma Peer_ReplaceParent_chanHeap w p np :
  w_chanHeap (Peer_ReplaceParent w p np) = w_chanHeap w.
Proof. links. Qed.

Lemma Peer_insertChild_host {B} (g : Host → B) w p c h :
  (∀ v x, g (set_host_CurrentUploadLoad v x) = g x) →
  g (getHost (Peer_insertChild w p c) h) = g (getHost w h).
Proof.
  intros Hg. unfold Peer_insertChild, Task_UpdatePeer. autorewrite with heap.
  rewrite getHost_updHost. case_decide; subst; [apply Hg|done].
Qed.

Lemma Peer_deleteChild_host {B} (g : Host → B) w p c h :
  (∀ v x, g (set_host_CurrentUploadLoad v x) = g x) →
  g (getHost (Peer_deleteChild w p c) h) = g (getHost w h).
Proof.
  intros Hg. unfold Peer_deleteChild, Task_UpdatePeer. autorewrite with heap.
  rewrite getHost_updHost. case_decide; subst; [apply Hg|done].
Qed.

Lemma Peer_ReplaceParent_host {B} (g : Host → B) w p np h :
  (∀ v x, g (set_host_CurrentUploadLoad v x) = g x) →
  g (getHost (Peer_ReplaceParent w p np) h) = g (getHost w h).
Proof.
  intros Hg. unfold Peer_ReplaceParent, Peer_SetParent.
  destruct (Peer_GetParent w p), np; rewrite ?Peer_insertChild_host by done;
    autorewrite with heap; rewrite ?Peer_deleteChild_host by done; done.
Qed.

Lemma Peer_insertChild_task {B} (g : Task → B) w p c t :
  (∀ v x, g (set_task_peers v x) = g x) →
  g (getTask (Peer_insertChild w p c) t) = g (getTask w t).
Proof. intros Hg. unfold Peer_insertChild, Task_UpdatePeer. by rewrite updTask_field. Qed.

Lemma Peer_deleteChild_task {B} (g : Task → B) w p c t :
  (∀ v x, g (set_task_peers v x) = g x) →
  g (getTask (Peer_deleteChild w p c) t) = g (getTask w t).
Proof. intros Hg. unfold Peer_deleteChild, Task_UpdatePeer. by rewrite updTask_field. Qed.

Lemma Peer_ReplaceParent_task {B} (g : Task → B) w p np t :
  (∀ v x, g (set_task_peers v x) = g x) →
  g (getTask (Peer_ReplaceParent w p np) t) = g (getTask w t).
Proof.
  intros Hg. unfold Peer_ReplaceParent, Peer_SetParent.
  destruct (Peer_GetParent w p), np; rewrite ?Peer_insertChild_task by done;
    autorewrite with heap; rewrite ?Peer_deleteChild_task by done; done.
Qed.

(** Deleting a peer only changes links, loads, lists and registries. *)
Lemma peerManager_Delete_field {B} (g : Peer → B) w id q :
  (∀ v x, g (set_peer_children v x) = g x) →
  (∀ v x, g (set_peer_parent v x) = g x) →
  g (getPeer (peerManager_Delete w id) q) = g (getPeer w q).
Proof.
  intros Hc Hp. unfold peerManager_Delete. destruct (peerManager_Get w id); [|done].
  etrans; [by apply (Peer_ReplaceParent_field g)|done].
Qed.

Lemma peerManager_Delete_host {B} (g : Host → B) w id h :
  (∀ v x, g (set_host_CurrentUploadLoad v x) = g x) →
  (∀ v x, g (set_host_peers v x) = g x) →
  g (getHost (peerManager_Delete w id) h) = g (getHost w h).
Proof.
  intros Hc Hp. unfold peerManager_Delete. destruct (peerManager_Get w id); [|done].
  etrans; [by apply (Peer_ReplaceParent_host g)|]. unfold Task_DeletePeer, Host_DeletePeer.
  autorewrite with heap. by rewrite updHost_field.
Qed.

Lemma peerManager_Delete_now w id : w_now (peerManager_Delete w id) = w_now w.
Proof.
  unfold peerManager_Delete. destruct (peerManager_Get w id); [|done].
  etrans; [apply (Peer_ReplaceParent_now _ _ None)|done].
Qed.

Lemma peerManager_Delete_chanHeap w id :
  w_chanHeap (peerManager_Delete w id) = w_chanHeap w.
Proof.
  unfold peerManager_Delete. destruct (peerManager_Get w id); [|done].
  etrans; [apply (Peer_ReplaceParent_chanHeap _ _ None)|done].
Qed.

Lemma peerManager_Delete_peers w id : w_peers (peerManager_Delete w id) = delete id (w_peers w).
Proof.
  unfold peerManager_Delete, peerManager_Get. destruct (w_peers w !! id) eqn:Hid; simpl.
  - f_equal. etrans; [apply (Peer_ReplaceParent_peers _ _ None)|done].
  - by rewrite delete_id.
Qed.

End Frames.

(** ** The peer GC collects exactly the dead peers *)

Section PeerGC.
Implicit Types (w : World) (p q : PeerRef).
Context (peerTTL peerTTI : Z).

Definition elapsed (w : World) (p : PeerRef) : Z :=
  w_now w - peer_lastAccessAt (getPeer w p).

(** The peers one pass removes. *)
Definition gc_dead (w : World) (p : PeerRef) : bool :=
  Peer_IsLeave w p || Peer_IsFail w p || (peerTTL <? elapsed w p)
  || ((peerTTI <? elapsed w p) && negb (Peer_IsDone w p)
       && negb (host_IsCDN (hostOf w p)) && negb (Peer_IsConnected w p)).

(** What [gc_dead] depends on. *)
Definition gc_view (w : World) (p : PeerRef) : PeerStatus * bool * Z * bool * bool :=
  (Peer_GetStatus w p, Peer_IsLeave w p, elapsed w p, host_IsCDN (hostOf w p),
   Peer_IsConnected w p).

Lemma gc_dead_view w w' p : gc_view w p = gc_view w' p → gc_dead w p = gc_dead w' p.
Proof.
  unfold gc_view, gc_dead, Peer_IsFail, Peer_IsDone. intros [= -> -> -> -> ->]. done.
Qed.

Lemma gc_view_Delete w id q : gc_view (peerManager_Delete w id) q = gc_view w q.
Proof.
  unfold gc_view, Peer_GetStatus, Peer_IsLeave, elapsed, hostOf, Peer_IsConnected,
    Peer_getConn, getChan.
  rewrite !(peerManager_Delete_field peer_status), !(peerManager_Delete_field peer_leave),
    !(peerManager_Delete_field peer_lastAccessAt), !(peerManager_Delete_field peer_Host),
    !(peerManager_Delete_field peer_conn), peerManager_Delete_now,
    peerManager_Delete_chanHeap, (peerManager_Delete_host host_IsCDN) by done.
  done.
Qed.

Lemma RunGC_age_peers e w p : w_peers (RunGC_age peerTTI e w p) = w_peers w.
Proof. unfold RunGC_age. repeat case_match; done. Qed.

Lemma RunGC_age_other e w p q : p ≠ q → gc_view (RunGC_age peerTTI e w p) q = gc_view w q.
Proof.
  intros Hne. unfold RunGC_age, Peer_Leave, Peer_SetStatus.
  assert (∀ w f, gc_view (updPeer f p w) q = gc_view w q) as Hupd.
  { intros w' f. unfold gc_view, Peer_GetStatus, Peer_IsLeave, elapsed, hostOf,
      Peer_IsConnected, Peer_getConn. by rewrite !getPeer_updPeer_ne by done. }
  repeat case_match; rewrite ?Hupd; done.
Qed.

Lemma RunGC_age_dead w p :
  let w' := RunGC_age peerTTI (elapsed w p) w p in
  Peer_IsLeave w' p || Peer_IsFail w' p || (peerTTL <? elapsed w p) = gc_dead w p.
Proof.
  unfold RunGC_age, gc_dead.
  destruct (_ && _) eqn:Hcond; simpl; [|by rewrite orb_false_r].
  zbool.
  destruct (Peer_IsConnected w p) eqn:Hconn; simpl; unfold Peer_IsDone in *;
    repeat case_match; zbool; unfold Peer_IsLeave, Peer_IsFail, Peer_GetStatus, Peer_Leave,
    Peer_SetStatus in *; heap; rewrite ?orb_true_r, ?orb_false_r; try done.
  all: repeat (case_bool_decide; try done); congruence.
Qed.

Lemma RunGC_collect_peers w id p : w_peers (RunGC_collect w id p) = delete id (w_peers w).
Proof.
  unfold RunGC_collect. rewrite <-peerManager_Delete_peers. repeat case_match; done.
Qed.

Lemma RunGC_collect_view w id p q : gc_view (RunGC_collect w id p) q = gc_view w q.
Proof.
  rewrite <-(gc_view_Delete w id q). unfold RunGC_collect. repeat case_match; done.
Qed.

(** The visit of a registered peer keeps or removes it, and only it. *)
Lemma RunGC_visit_spec w id p :
  w_peers w !! id = Some p →
  w_peers (peerManager_RunGC_visit peerTTL peerTTI w id) =
  if gc_dead w p then delete id (w_peers w) else w_peers w.
Proof.
  intros Hid. unfold peerManager_RunGC_visit. rewrite Hid.
  fold (elapsed w p). rewrite RunGC_age_dead.
  case_match; rewrite ?RunGC_collect_peers, RunGC_age_peers; done.
Qed.

Lemma RunGC_visit_view w id q :
  w_peers w !! id ≠ Some q →
  gc_view (peerManager_RunGC_visit peerTTL peerTTI w id) q = gc_view w q.
Proof.
  intros Hq. unfold peerManager_RunGC_visit.
  destruct (w_peers w !! id) as [p|]; [|done].
  case_match; rewrite ?RunGC_collect_view, RunGC_age_other by congruence; done.
Qed.

(** No two keys of the registry hold the same peer. *)
Definition registry_inj (w : World) : Prop :=
  ∀ id id' p, w_peers w !! id = Some p → w_peers w !! id' = Some p → id = id'.

Lemma RunGC_visit_subset w id :
  w_peers (peerManager_RunGC_visit peerTTL peerTTI w id) ⊆ w_peers w.
Proof.
  destruct (w_peers w !! id) as [p|] eqn:Hid.
  - rewrite (RunGC_visit_spec _ _ p) by done. case_match; [apply delete_subseteq|done].
  - unfold peerManager_RunGC_visit. by rewrite Hid.
Qed.

Lemma RunGC_invariant w order id p :
  registry_inj w → NoDup order → w_peers w !! id = Some p →
  w_peers (peerManager_RunGC peerTTL peerTTI w order) !! id =
  if decide (id ∈ order) then (if gc_dead w p then None else Some p) else Some p.
Proof.
  unfold peerManager_RunGC. revert w. induction order as [|k order IH]; intros w Hinj Hnd Hid.
  { rewrite decide_False by set_solver. done. }
  apply NoDup_cons in Hnd as [Hk Hnd]. simpl.
  assert (registry_inj (peerManager_RunGC_visit peerTTL peerTTI w k)) as Hinj'.
  { intros i i' q Hi Hi'. eapply Hinj; eapply lookup_weaken; eauto using RunGC_visit_subset. }
  destruct (decide (id = k)) as [->|Hne].
  - rewrite decide_True by set_solver. pose proof (RunGC_visit_spec w k p Hid) as Hv.
    destruct (gc_dead w p).
    + assert (w_peers (peerManager_RunGC_visit peerTTL peerTTI w k) !! k = None) as Hnone
        by (rewrite Hv; apply lookup_delete_eq).
      clear IH Hv. revert Hnone. generalize (peerManager_RunGC_visit peerTTL peerTTI w k).
      intros w' Hnone. clear -Hnone.
      assert (w_peers (foldl (peerManager_RunGC_visit peerTTL peerTTI) w' order) ⊆ w_peers w')
        as Hsub.
      { apply (foldl_invariant (λ v, w_peers v ⊆ w_peers w')); [|done].
        intros x v _ Hv. etrans; [apply RunGC_visit_subset|done]. }
      eapply lookup_weaken_None; done.
    + rewrite (IH _ Hinj' Hnd); [by rewrite decide_False by done|]. by rewrite Hv.
  - assert (w_peers w !! k ≠ Some p) as Hkp.
    { intros Hkp. apply Hne. by eapply Hinj. }
    assert (w_peers (peerManager_RunGC_visit peerTTL peerTTI w k) !! id = Some p) as Hid'.
    { destruct (w_peers w !! k) as [q|] eqn:Hkq.
      - rewrite (RunGC_visit_spec _ _ q) by done.
        destruct (gc_dead w q); [by rewrite lookup_delete_ne|done].
      - unfold peerManager_RunGC_visit. by rewrite Hkq. }
    rewrite (IH _ Hinj' Hnd Hid').
    rewrite (gc_dead_view _ w p) by (by apply RunGC_visit_view).
    destruct (decide (id ∈ order)).
    + by rewrite decide_True by set_solver.
    + by rewrite decide_False by set_solver.
Qed.

End PeerGC.
