(* ===== verification/Invariant.v ===== *)
(** * Invariant: the states the scheduler keeps

    [world_ok] joins the invariant of the tree of peers (PeerTree.v) with the
    scoping of references and the ranges of the counters, and is kept by every
    primitive the event handlers are made of. *)

From S2P Require Import Prelude Containers World Supervisor PeerTree Managers.
From stdpp Require Import options.
Local Open Scope Z_scope.

Definition alive (w : World) (p : PeerRef) : Prop := is_Some (w_peerHeap w !! p).

Record scope_ok (w : World) : Prop := {
  scope_named : ∀ p, alive w p → peer_ID (getPeer w p) ≠ ""%string;
  scope_next : ∀ p, alive w p →
    (p < w_next w)%positive ∧ (peer_Host (getPeer w p) < w_next w)%positive;
  scope_size : Z.of_nat (size (w_peerHeap w)) < 2 ^ 31;
  scope_tasks : ∀ t p, p ∈ ul_container (Task_GetPeers w t) → alive w p;
  scope_wf : ∀ t, ul_wf (Task_GetPeers w t);
  scope_registry : ∀ id p, w_peers w !! id = Some p → alive w p;
  scope_queue : ∀ e, e ∈ w_queue w → alive w (rs_peer e.1);
  scope_hosts : ∀ id h, w_hosts w !! id = Some h → (h < w_next w)%positive;
  scope_pieces : ∀ p, 0 <= peer_TotalPieceCount (getPeer w p) < 2 ^ 31;
  scope_total : ∀ h, 0 <= host_TotalUploadLoad (getHost w h) < 2 ^ 32;
  scope_counts : ∀ t, task_TotalPieceCount (getTask w t) < 2 ^ 31;
}.

Record world_ok (w : World) : Prop := {
  world_peers : peers_ok w;
  world_scope : scope_ok w;
}.

#[export] Hint Resolve world_peers world_scope : dfly.

(** ** Scoping is kept by the updates *)

Section Scope.
Implicit Types (w : World) (p q : PeerRef) (t : TaskRef) (h : HostRef).

Lemma alive_updPeer f p q w : alive w p → alive (updPeer f p w) q ↔ alive w q.
Proof.
  unfold alive, updPeer; simpl. intros Hp. rewrite lookup_insert.
  case_decide; subst; [|done]. split; [done|by eexists].
Qed.

Lemma scope_ok_updPeer f p w :
  scope_ok w → alive w p →
  (∀ x, peer_ID (f x) = peer_ID x) → (∀ x, peer_Host (f x) = peer_Host x) →
  0 <= peer_TotalPieceCount (f (getPeer w p)) < 2 ^ 31 →
  scope_ok (updPeer f p w).
Proof.
  intros Hok Hp Hid Hho Hcnt. split; try apply Hok.
  - intros q. rewrite alive_updPeer by done. rewrite (updPeer_field peer_ID) by done. apply Hok.
  - intros q. rewrite alive_updPeer by done. rewrite (updPeer_field peer_Host) by done. apply Hok.
  - unfold updPeer; simpl. destruct Hp as [x Hx].
    rewrite (map_size_insert_Some _ _ _ (mk_is_Some _ _ Hx)). apply Hok.
  - intros t q Hq. rewrite alive_updPeer by done. by eapply Hok.
  - intros id q Hq. rewrite alive_updPeer by done. by eapply scope_registry.
  - intros e He. rewrite alive_updPeer by done. by apply Hok.
  - intros q. rewrite getPeer_updPeer. case_decide; [done|apply Hok].
Qed.

Lemma scope_ok_updTask f t w :
  scope_ok w →
  task_TotalPieceCount (f (getTask w t)) < 2 ^ 31 →
  ul_wf (task_peers (f (getTask w t))) →
  (∀ p, p ∈ ul_container (task_peers (f (getTask w t))) → alive w p) →
  scope_ok (updTask f t w).
Proof.
  intros Hok Hcnt Hwf Hin. split; try apply Hok.
  - intros u p. unfold Task_GetPeers. rewrite getTask_updTask. case_decide; [apply Hin|apply Hok].
  - intros u. unfold Task_GetPeers. rewrite getTask_updTask. case_decide; [done|apply Hok].
  - intros u. rewrite getTask_updTask. case_decide; [done|apply Hok].
Qed.

(** The updates of a task that leave its list and piece count alone. *)
Lemma scope_ok_updTask_field f t w :
  scope_ok w → (∀ x, task_TotalPieceCount (f x) = task_TotalPieceCount x) →
  (∀ x, task_peers (f x) = task_peers x) → scope_ok (updTask f t w).
Proof.
  intros Hok Hc Hp. apply scope_ok_updTask; [done|rewrite Hc; apply Hok|rewrite Hp; apply Hok|].
  intros p. rewrite Hp. by apply Hok.
Qed.

Lemma scope_ok_updHost f h w :
  scope_ok w → (∀ x, host_TotalUploadLoad (f x) = host_TotalUploadLoad x) →
  scope_ok (updHost f h w).
Proof.
  intros Hok Ht. split; try apply Hok. intros k.
  rewrite (updHost_field host_TotalUploadLoad) by done. apply Hok.
Qed.

Lemma scope_ok_UpdatePeer t p w : scope_ok w → alive w p → scope_ok (Task_UpdatePeer w t p).
Proof.
  intros Hok Hp. apply scope_ok_updTask; simpl; [done|apply Hok| |].
  - apply ul_Insert_wf, Hok.
  - intros q. pose proof (scope_wf _ Hok t) as Hwf. rewrite elem_of_ul_Insert by done.
    intros [->|Hq]; [done|]. by eapply Hok.
Qed.

Lemma scope_ok_SetParent w p np : scope_ok w → alive w p → scope_ok (Peer_SetParent w p np).
Proof. intros Hok Hp. apply scope_ok_updPeer; [done..|apply Hok]. Qed.

Lemma alive_insertChild w p c q : alive w p → alive (Peer_insertChild w p c) q ↔ alive w q.
Proof. intros Hp. by apply alive_updPeer. Qed.
Lemma alive_deleteChild w p c q : alive w p → alive (Peer_deleteChild w p c) q ↔ alive w q.
Proof. intros Hp. by apply alive_updPeer. Qed.

Lemma scope_ok_insertChild w p c : scope_ok w → alive w p → scope_ok (Peer_insertChild w p c).
Proof.
  intros Hok Hp. unfold Peer_insertChild. apply scope_ok_UpdatePeer; [|by apply alive_updPeer].
  apply scope_ok_updHost; [|done]. apply scope_ok_updPeer; [done..|apply Hok].
Qed.

Lemma scope_ok_deleteChild w p c : scope_ok w → alive w p → scope_ok (Peer_deleteChild w p c).
Proof.
  intros Hok Hp. unfold Peer_deleteChild. apply scope_ok_UpdatePeer; [|by apply alive_updPeer].
  apply scope_ok_updHost; [|done]. apply scope_ok_updPeer; [done..|apply Hok].
Qed.

(** A peer with a name is allocated. *)
Lemma alive_named w p : peer_ID (getPeer w p) ≠ ""%string → alive w p.
Proof. unfold alive, getPeer. destruct (w_peerHeap w !! p); [by eexists|done]. Qed.

(** A peer with a child or a parent is allocated. *)
Lemma parent_alive w p q : tree_ok w → Peer_GetParent w p = Some q → alive w p ∧ alive w q.
Proof.
  intros Htree Hq. pose proof (tree_parent _ Htree _ _ Hq) as Hc.
  unfold alive, Peer_GetParent, Peer_GetChildren, getPeer in *.
  destruct (w_peerHeap w !! p), (w_peerHeap w !! q); simpl in *; try done; by split; eexists.
Qed.

Lemma scope_ok_ReplaceParent w p np :
  tree_ok w → scope_ok w → alive w p → (∀ q, np = Some q → alive w q) →
  scope_ok (Peer_ReplaceParent w p np) ∧
  ∀ q, alive (Peer_ReplaceParent w p np) q ↔ alive w q.
Proof.
  intros Htree Hok Hp Hnp. unfold Peer_ReplaceParent.
  set (w1 := match Peer_GetParent w p with
             | Some o => Peer_deleteChild w o p | None => w end).
  assert (scope_ok w1 ∧ ∀ q, alive w1 q ↔ alive w q) as [Hok1 Hal1].
  { subst w1. destruct (Peer_GetParent w p) as [o|] eqn:Ho; [|done].
    apply parent_alive in Ho as [_ Ho]; [|done].
    split; [by apply scope_ok_deleteChild|]. intros q. by apply alive_deleteChild. }
  assert (scope_ok (Peer_SetParent w1 p np) ∧
    ∀ q, alive (Peer_SetParent w1 p np) q ↔ alive w q) as [Hok2 Hal2].
  { split; [apply scope_ok_SetParent; [done|by apply Hal1]|]. intros q. rewrite <-Hal1.
    apply alive_updPeer. by apply Hal1. }
  destruct np as [n|]; [|done]. split.
  - apply scope_ok_insertChild; [done|]. by apply Hal2, Hnp.
  - intros q. rewrite alive_insertChild; [done|]. by apply Hal2, Hnp.
Qed.

End Scope.

(** ** The tree is kept by the updates that do not touch it *)

Section Tree.
Implicit Types (w : World) (p q : PeerRef) (t : TaskRef) (h : HostRef).

Lemma peers_ok_updPeer f p w :
  (∀ x, peer_ID (f x) = peer_ID x) → (∀ x, peer_parent (f x) = peer_parent x) →
  (∀ x, peer_children (f x) = peer_children x) → (∀ x, peer_Host (f x) = peer_Host x) →
  peers_ok w → peers_ok (updPeer f p w).
Proof.
  intros Hid Hpar Hch Hho Hok.
  assert (∀ c d, parent_rel (updPeer f p w) c d ↔ parent_rel w c d) as Hrel.
  { intros c d. unfold parent_rel, Peer_GetParent. by rewrite (updPeer_field peer_parent). }
  split.
  - split.
    + intros q id c. unfold Peer_GetChildren, Peer_GetParent.
      rewrite (updPeer_field peer_children), (updPeer_field peer_parent),
        (updPeer_field peer_ID) by done.
      by apply (tree_child _ (peers_tree _ Hok)).
    + intros c q. unfold Peer_GetChildren, Peer_GetParent.
      rewrite (updPeer_field peer_children), (updPeer_field peer_parent),
        (updPeer_field peer_ID) by done.
      by apply (tree_parent _ (peers_tree _ Hok)).
  - intros h. rewrite uploads_updPeer. unfold uploads_at. rewrite Hch, Hho.
    rewrite getHost_updPeer, (peers_load _ Hok h). f_equal. lia.
  - intros q Hq. apply (peers_acyclic _ Hok q). revert Hq. apply (tc_congruence id).
    intros c d. apply Hrel.
  - intros q r. rewrite !(updPeer_field peer_ID) by done. apply Hok.
Qed.

(** Only the heap of peers and the loads of the hosts matter. *)
Lemma peers_ok_ext w w' :
  w_peerHeap w' = w_peerHeap w →
  (∀ h, host_CurrentUploadLoad (getHost w' h) = host_CurrentUploadLoad (getHost w h)) →
  peers_ok w → peers_ok w'.
Proof.
  intros Hheap Hload Hok.
  assert (∀ p, getPeer w' p = getPeer w p) as Hget by (intros p; unfold getPeer; by rewrite Hheap).
  split.
  - split; intros *; unfold Peer_GetChildren, Peer_GetParent; rewrite !Hget; apply Hok.
  - intros h. unfold uploads. rewrite Hheap, Hload. apply Hok.
  - intros q Hq. apply (peers_acyclic _ Hok q). revert Hq. apply (tc_congruence id).
    intros c d. unfold parent_rel, Peer_GetParent. by rewrite Hget.
  - intros p q. rewrite !Hget. apply Hok.
Qed.

End Tree.

(** ** The whole invariant *)

Section WorldOk.
Implicit Types (w : World) (p q : PeerRef) (t : TaskRef) (h : HostRef).

Lemma world_ok_updPeer f p w :
  (∀ x, peer_ID (f x) = peer_ID x) → (∀ x, peer_parent (f x) = peer_parent x) →
  (∀ x, peer_children (f x) = peer_children x) → (∀ x, peer_Host (f x) = peer_Host x) →
  0 <= peer_TotalPieceCount (f (getPeer w p)) < 2 ^ 31 →
  world_ok w → alive w p → world_ok (updPeer f p w).
Proof.
  intros ? ? ? ? Hcnt [Hp Hs] Hal. split; [by apply peers_ok_updPeer|].
  by apply scope_ok_updPeer.
Qed.

Lemma world_ok_updTask f t w :
  world_ok w → (∀ x, task_TotalPieceCount (f x) = task_TotalPieceCount x) →
  (∀ x, task_peers (f x) = task_peers x) → world_ok (updTask f t w).
Proof.
  intros [Hp Hs] Hc Hl. split; [by apply (peers_ok_ext w)|by apply scope_ok_updTask_field].
Qed.

Lemma world_ok_same w w' :
  w_peerHeap w' = w_peerHeap w → w_taskHeap w' = w_taskHeap w → w_hostHeap w' = w_hostHeap w →
  w_peers w' = w_peers w → (w_next w <= w_next w')%positive →
  (∀ e, e ∈ w_queue w' → alive w (rs_peer e.1)) →
  (∀ id h, w_hosts w' !! id = Some h → (h < w_next w')%positive) → world_ok w → world_ok w'.
Proof.
  intros Hp Ht Hh Hr Hn Hq Hho [Hpe Hs]. split.
  - apply (peers_ok_ext w); [done| |done]. intros h. unfold getHost. by rewrite Hh.
  - destruct w, w'; simpl in *; subst. split; try apply Hs; [|exact Hq|exact Hho].
    intros p Hal. destruct (scope_next _ Hs p Hal) as [H1 H2]. simpl in *.
    split; (eapply Pos.lt_le_trans; [|exact Hn]); assumption.
Qed.

Lemma world_ok_ReplaceParent w p np :
  world_ok w → alive w p → (∀ q, np = Some q → alive w q ∧ may_follow w p q) →
  world_ok (Peer_ReplaceParent w p np) ∧
  ∀ q, alive (Peer_ReplaceParent w p np) q ↔ alive w q.
Proof.
  intros [Hp Hs] Hal Hnp.
  destruct (scope_ok_ReplaceParent w p np) as [Hs' Hal']; [by apply Hp|done..| |].
  { intros q Hq. by apply Hnp. }
  split; [|done]. split; [|done]. apply Peer_ReplaceParent_peers_ok; [done| |].
  - by apply Hs.
  - intros q Hq. by apply Hnp.
Qed.

(** A peer linked by [ReplaceParent] to nothing is always possible. *)
Lemma world_ok_detach w p :
  world_ok w → alive w p → world_ok (Peer_ReplaceParent w p None).
Proof. intros Hok Hal. by apply world_ok_ReplaceParent. Qed.

Lemma alive_detach w p q :
  world_ok w → alive w p → alive (Peer_ReplaceParent w p None) q ↔ alive w q.
Proof. intros Hok Hal. by apply world_ok_ReplaceParent. Qed.

Lemma scope_ok_DeletePeer w h id t p :
  scope_ok w → scope_ok (Task_DeletePeer (Host_DeletePeer w h id) t p).
Proof.
  intros Hok. apply scope_ok_updTask; simpl; [by apply scope_ok_updHost|apply Hok| |].
  - apply ul_Remove_wf, Hok.
  - intros q. change (q ∈ ul_container (sortedUniqueList_Remove p (Task_GetPeers w t)) → alive w q).
    pose proof (scope_wf _ Hok t) as Hwf. rewrite elem_of_ul_Remove by done.
    intros [_ Hq]. by eapply Hok.
Qed.

Lemma world_ok_peerManager_Delete w id :
  world_ok w →
  world_ok (peerManager_Delete w id) ∧ ∀ q, alive (peerManager_Delete w id) q ↔ alive w q.
Proof.
  intros Hok. unfold peerManager_Delete, peerManager_Get.
  destruct (w_peers w !! id) as [p|] eqn:Hid; [|done].
  pose proof (scope_registry _ (world_scope _ Hok) _ _ Hid) as Hal.
  set (w1 := Task_DeletePeer _ _ _).
  assert (world_ok w1) as Hok1.
  { split; [|by apply scope_ok_DeletePeer, Hok]. apply (peers_ok_ext w); [done| |apply Hok].
    intros h. subst w1. unfold Task_DeletePeer, Host_DeletePeer. autorewrite with heap.
    by rewrite updHost_field. }
  destruct (world_ok_ReplaceParent w1 p None) as [[Hp2 Hs2] Hal2]; [done..|].
  split; [|exact Hal2]. split; [by eapply peers_ok_ext, Hp2|].
  split; try apply Hs2. intros id' q. simpl.
  intros [_ Hq]%lookup_delete_Some. by eapply (scope_registry _ Hs2).
Qed.

End WorldOk.

(** ** A host serves at most one upload per peer *)

Section LoadBound.
Implicit Types (w : World) (p q : PeerRef) (h : HostRef).

(** The children of one peer, as a set. *)
Lemma children_set w p :
  tree_ok w →
  ∃ X : gset PeerRef, size X = size (Peer_GetChildren w p) ∧
    ∀ c, c ∈ X ↔ Peer_GetParent w c = Some p.
Proof.
  intros Htree. set (m := Peer_GetChildren w p).
  exists (list_to_set (map_to_list m).*2). split.
  - rewrite size_list_to_set; [by rewrite length_fmap, length_map_to_list|].
    apply NoDup_fmap_2_strong; [|apply NoDup_map_to_list].
    intros [i c] [j d] Hi Hj Hcd. simpl in Hcd. subst d.
    apply elem_of_map_to_list in Hi, Hj.
    apply (tree_child _ Htree) in Hi as [<- _], Hj as [<- _]. done.
  - intros c. rewrite elem_of_list_to_set, list_elem_of_fmap. split.
    + intros ([i d] & -> & Hd). apply elem_of_map_to_list in Hd.
      by apply (tree_child _ Htree) in Hd as [_ ?].
    + intros Hc%(tree_parent _ Htree). eexists (_, c). split; [done|].
      by apply elem_of_map_to_list.
Qed.

Lemma uploads_le_size w h : peers_ok w → uploads w h <= Z.of_nat (size (w_peerHeap w)).
Proof.
  intros Hok. pose proof (peers_tree _ Hok) as Htree.
  cut (∃ X : gset PeerRef, uploads w h <= Z.of_nat (size X) ∧
    ∀ c, c ∈ X → ∃ p, is_Some (w_peerHeap w !! p) ∧ Peer_GetParent w c = Some p).
  { intros (X & Hle & HX). etrans; [exact Hle|]. rewrite <-size_dom. apply inj_le, subseteq_size.
    intros c (p & _ & Hp)%HX. apply elem_of_dom. by eapply (parent_alive w c p). }
  unfold uploads.
  assert (∀ p x, w_peerHeap w !! p = Some x → x = getPeer w p) as Hget.
  { intros p x Hx. unfold getPeer. by rewrite Hx. }
  revert Hget. generalize (w_peerHeap w) as m.
  refine (map_fold_weak_ind (λ r m, (∀ p x, m !! p = Some x → x = getPeer w p) →
    ∃ X : gset PeerRef, r <= Z.of_nat (size X) ∧
    ∀ c, c ∈ X → ∃ p, is_Some (m !! p) ∧ Peer_GetParent w c = Some p) _ _ _ _).
  - intros _. exists ∅. rewrite size_empty. split; [done|set_solver].
  - intros p x m r Hp IH Hget. destruct IH as (X & Hr & HX).
    { intros q y Hq. apply Hget. rewrite lookup_insert_ne; [done|]. intros ->. congruence. }
    assert (x = getPeer w p) as -> by (apply Hget, lookup_insert_eq).
    destruct (children_set w p Htree) as (Y & HYsize & HY).
    exists (Y ∪ X). rewrite size_union.
    + split.
      * rewrite HYsize. unfold uploads_at, Peer_GetChildren. case_decide; lia.
      * intros c [Hc%HY|(q & Hq & Hcq)%HX]%elem_of_union.
        -- exists p. split; [rewrite lookup_insert_eq; by eexists|done].
        -- exists q. split; [|done]. rewrite lookup_insert. case_decide; [by eexists|done].
    + intros c Hc (q & Hq & Hcq)%HX. apply HY in Hc. rewrite Hcq in Hc. injection Hc as ->.
      rewrite Hp in Hq. by destruct Hq.
Qed.

(** [CurrentUploadLoad] is the number of uploads: it never wraps around. *)
Lemma load_exact w h :
  world_ok w → host_CurrentUploadLoad (getHost w h) = uploads w h ∧ 0 <= uploads w h < 2 ^ 31.
Proof.
  intros [Hp Hs]. pose proof (uploads_le_size w h Hp). pose proof (uploads_nonneg w h).
  pose proof (scope_size _ Hs). split; [|lia].
  rewrite (peers_load _ Hp). apply uint32_small. lia.
Qed.

End LoadBound.
