(* ===== verification/Scheduler.v ===== *)
(** * Scheduler: the interface between the event handlers and a scheduler

    The interface of scheduler/core/scheduler/scheduler.go, and what the event
    handlers rely on: a scheduler answers on every state that satisfies the
    invariant, keeps it, and changes nothing but the links of the peers.
    BasicScheduler.v discharges the laws. *)

From S2P Require Import Prelude Containers World Supervisor PeerTree Managers Invariant.
From stdpp Require Import options.
Local Open Scope Z_scope.

Class Scheduler := {
  ScheduleChildren : World → PeerRef → gset string → Outcome (World * list PeerRef);
  ScheduleParent : World → PeerRef → gset string →
    Outcome (World * option (PeerRef * list PeerRef));
}.

(** ** Changes of links only *)

Record links_only (w w' : World) : Prop := {
  lo_peer : ∀ B (g : Peer → B) p,
    (∀ v x, g (set_peer_children v x) = g x) → (∀ v x, g (set_peer_parent v x) = g x) →
    g (getPeer w' p) = g (getPeer w p);
  lo_task : ∀ B (g : Task → B) t,
    (∀ v x, g (set_task_peers v x) = g x) → g (getTask w' t) = g (getTask w t);
  lo_host : ∀ B (g : Host → B) h,
    (∀ v x, g (set_host_CurrentUploadLoad v x) = g x) → g (getHost w' h) = g (getHost w h);
  lo_alive : ∀ p, alive w' p ↔ alive w p;
  lo_peers : w_peers w' = w_peers w;
  lo_chan : w_chanHeap w' = w_chanHeap w;
  lo_queue : w_queue w' = w_queue w;
  lo_spawned : w_spawned w' = w_spawned w;
  lo_now : w_now w' = w_now w;
}.

#[export] Instance links_only_preorder : PreOrder links_only.
Proof.
  split.
  - by intros w.
  - intros w1 w2 w3 H12 H23. split; intros; etrans; try (by apply H23); by apply H12.
Qed.

Lemma Peer_ReplaceParent_spawned w p np : w_spawned (Peer_ReplaceParent w p np) = w_spawned w.
Proof.
  unfold Peer_ReplaceParent, Peer_SetParent, Peer_insertChild, Peer_deleteChild, Task_UpdatePeer.
  repeat case_match; done.
Qed.

Lemma Peer_ReplaceParent_links_only w p np :
  world_ok w → alive w p → (∀ q, np = Some q → alive w q) →
  links_only w (Peer_ReplaceParent w p np).
Proof.
  intros Hok Hal Hnp. split.
  - intros B g q Hc Hp. by apply Peer_ReplaceParent_field.
  - intros B g t Ht. by apply Peer_ReplaceParent_task.
  - intros B g h Hh. by apply Peer_ReplaceParent_host.
  - apply scope_ok_ReplaceParent; [apply Hok|apply Hok|done..].
  - apply Peer_ReplaceParent_peers.
  - apply Peer_ReplaceParent_chanHeap.
  - apply Peer_ReplaceParent_queue.
  - apply Peer_ReplaceParent_spawned.
  - apply Peer_ReplaceParent_now.
Qed.

(** ** The laws *)

(** What [ScheduleParent] may answer for [p] in [w]. *)
Record parent_scheduled (w : World) (p : PeerRef) (blank : gset string) (w' : World)
    (r : option (PeerRef * list PeerRef)) : Prop := {
  ps_ok : world_ok w';
  ps_links : links_only w w';
  ps_others : ∀ x, x ≠ p → Peer_GetParent w' x = Peer_GetParent w x;
  ps_none : r = None → w' = w;
  ps_some : ∀ q cs, r = Some (q, cs) →
    alive w q ∧ peer_ID (getPeer w q) ∉ blank ∧ may_follow w' p q ∧
    Peer_GetParent w' p = (Peer_GetParent w p ≫= λ _, Some q);
}.

Record children_scheduled (w : World) (p : PeerRef) (blank : gset string) (w' : World)
    (cs : list PeerRef) : Prop := {
  cs_ok : world_ok w';
  cs_links : links_only w w';
  cs_parent : ∀ x, Peer_GetParent w' x = if decide (x ∈ cs) then Some p else Peer_GetParent w x;
  cs_child : ∀ c, c ∈ cs → alive w c ∧ peer_ID (getPeer w c) ∉ blank ∧ c ≠ p;
}.

Class SchedulerLaws (S : Scheduler) : Prop := {
  ScheduleParent_law : ∀ w p blank, world_ok w → alive w p →
    ∃ w' r, ScheduleParent w p blank = Ok (w', r) ∧ parent_scheduled w p blank w' r;
  ScheduleChildren_law : ∀ w p blank, world_ok w → alive w p →
    ∃ w' cs, ScheduleChildren w p blank = Ok (w', cs) ∧ children_scheduled w p blank w' cs;
}.

(** ** Linking a list of children *)

Lemma link_children_world_ok w p cs :
  world_ok w → alive w p → (∀ c, c ∈ cs → alive w c ∧ may_follow w c p) →
  world_ok (link_children w p cs) ∧ links_only w (link_children w p cs).
Proof.
  revert w. induction cs as [|c cs IH]; intros w Hok Hal Hcs; simpl; [done|].
  destruct (Hcs c) as [Hc Hcp]; [by left|].
  assert (∀ q, Some p = Some q → alive w q ∧ may_follow w c q) as Hp by (by intros q [= <-]).
  destruct (world_ok_ReplaceParent w c (Some p)) as [Hok' Hal']; [done..|].
  assert (links_only w (Peer_ReplaceParent w c (Some p))) as Hlo.
  { apply Peer_ReplaceParent_links_only; [done..|]. intros q Hq. by apply Hp. }
  destruct (IH (Peer_ReplaceParent w c (Some p))) as [Hok'' Hlo'']; [done|by apply Hal'| |].
  - intros x Hx. destruct (Hcs x) as [Hx1 Hx2]; [by right|]. split; [by apply Hal'|].
    by apply Peer_ReplaceParent_may_follow.
  - split; [done|]. by etrans.
Qed.
