(* ===== verification/GoFloat.v ===== *)
(** * GoFloat: Go's float64

    [float64] is IEEE 754 binary64 with round-to-nearest-even: the executable
    [spec_float] of the core library at precision 53 and maximal exponent 1024.
    The multiplications and additions of the source are evaluated one rounding
    at a time (no fused multiply-add).  Also [sort.Float64s] and the
    [map[float64]] lookups, which compare keys with [==]. *)

From S2P Require Import Prelude.
From Stdlib Require Import SpecFloat.
From stdpp Require Import options.
Local Open Scope Z_scope.

Notation float64 := spec_float.

Definition fofZ (z : Z) : float64 := binary_normalize 53 1024 z 0 false.
Definition fadd (x y : float64) : float64 := SFadd 53 1024 x y.
Definition fmul (x y : float64) : float64 := SFmul 53 1024 x y.
Definition fdiv (x y : float64) : float64 := SFdiv 53 1024 x y.
Definition fsub (x y : float64) : float64 := SFsub 53 1024 x y.
Definition feqb (x y : float64) : bool := SFeqb x y.
Definition fltb (x y : float64) : bool := SFltb x y.
Definition fleb (x y : float64) : bool := SFleb x y.
Definition isNaN (x : float64) : bool := match x with S754_nan => true | _ => false end.

(** [big.NewFloat(x).Cmp(big.NewFloat(y))]: [NewFloat] panics on NaN, the
    comparison is exact. *)
Definition bigFloatCmp (x y : float64) : Outcome comparison :=
  match SFcompare x y with
  | Some c => Ok c
  | None => Panic NotANumber
  end.

(** [sort.Float64s]: NaN first, then by [<]. *)
Definition float64Less (x y : float64) : bool := fltb x y || (isNaN x && negb (isNaN y)).

Fixpoint float64Insert (x : float64) (l : list float64) : list float64 :=
  match l with
  | [] => [x]
  | y :: l => if float64Less y x then y :: float64Insert x l else x :: y :: l
  end.

Definition sortFloat64s (l : list float64) : list float64 := foldr float64Insert [] l.

(** [map[float64][]V]: a NaN key is stored but never found again. *)
Section FloatMap.
Context {V : Type}.

Fixpoint fmapGet (k : float64) (m : list (float64 * list V)) : list V :=
  match m with
  | [] => []
  | (k', v) :: m => if feqb k k' then v else fmapGet k m
  end.

(** [m[k] = append(m[k], x)] *)
Fixpoint fmapAppend (k : float64) (x : V) (m : list (float64 * list V))
    : list (float64 * list V) :=
  match m with
  | [] => [(k, [x])]
  | (k', v) :: m => if feqb k k' then (k', v ++ [x]) :: m else (k', v) :: fmapAppend k x m
  end.

End FloatMap.

(** ** Ordering of the numbers

    [fkey] embeds the floats that are not NaN into triples of integers, compared
    lexicographically: the class, then the exponent, then the mantissa. *)

Definition fkey (x : float64) : Z * Z * Z :=
  match x with
  | S754_nan => (3, 0, 0)
  | S754_infinity true => (-2, 0, 0)
  | S754_finite true m e => (-1, - e, - Z.pos m)
  | S754_zero _ => (0, 0, 0)
  | S754_finite false m e => (1, e, Z.pos m)
  | S754_infinity false => (2, 0, 0)
  end.

Definition key_lt (a b : Z * Z * Z) : Prop :=
  let '(a1, a2, a3) := a in
  let '(b1, b2, b3) := b in
  a1 < b1 ∨ (a1 = b1 ∧ (a2 < b2 ∨ (a2 = b2 ∧ a3 < b3))).

Lemma fltb_key x y :
  isNaN x = false → isNaN y = false → fltb x y = true ↔ key_lt (fkey x) (fkey y).
Proof.
  intros Hx Hy. unfold fltb, SFltb, SFcompare, key_lt.
  change (λ m1 m2, Pos.compare_cont Eq m1 m2) with Pos.compare.
  destruct x as [[]|[]| |[] m1 e1], y as [[]|[]| |[] m2 e2]; try done; simpl;
    try (split; [done|lia]); try (split; [lia|done]).
  all: change (Pos.compare_cont Eq m1 m2) with (m1 ?= m2)%positive.
  all: destruct (Z.compare_spec e1 e2); simpl; try (split; [done|lia]); try (split; [lia|done]).
  all: destruct (Pos.compare_spec m1 m2); simpl; subst; split; try done; lia.
Qed.

Lemma feqb_key x y :
  isNaN x = false → isNaN y = false → feqb x y = true ↔ fkey x = fkey y.
Proof.
  intros Hx Hy. unfold feqb, SFeqb, SFcompare.
  destruct x as [[]|[]| |[] m1 e1], y as [[]|[]| |[] m2 e2]; try done; simpl.
  all: change (Pos.compare_cont Eq m1 m2) with (m1 ?= m2)%positive.
  all: destruct (Z.compare_spec e1 e2); simpl; try (split; [done|intros [=]; lia]).
  all: destruct (Pos.compare_spec m1 m2); simpl; subst; split; try done; intros [=]; lia.
Qed.

Lemma key_lt_trans a b c : key_lt a b → key_lt b c → key_lt a c.
Proof. destruct a as [[]], b as [[]], c as [[]]; unfold key_lt; lia. Qed.

Lemma key_lt_irrefl a : ¬ key_lt a a.
Proof. destruct a as [[]]; unfold key_lt; lia. Qed.

Lemma key_trichotomy a b : key_lt a b ∨ a = b ∨ key_lt b a.
Proof.
  destruct a as [[a1 a2] a3], b as [[b1 b2] b3]; unfold key_lt.
  destruct (Z.lt_trichotomy a1 b1) as [|[->|]]; [lia| |lia].
  destruct (Z.lt_trichotomy a2 b2) as [|[->|]]; [lia| |lia].
  destruct (Z.lt_trichotomy a3 b3) as [|[->|]]; [lia| |lia]. by right; left.
Qed.

(** [fge x y]: [x] is not smaller than [y]. *)
Definition fge (x y : float64) : Prop := ¬ key_lt (fkey x) (fkey y).

#[export] Instance fge_trans : Transitive fge.
Proof.
  intros x y z Hxy Hyz Hxz. unfold fge in *.
  destruct (key_trichotomy (fkey x) (fkey y)) as [?|[Heq|Hyx]]; [done| |].
  - apply Hyz. by rewrite <-Heq.
  - apply Hyz. by eapply key_lt_trans.
Qed.

Lemma fge_refl x : fge x x.
Proof. apply key_lt_irrefl. Qed.

Lemma float64Less_key x y :
  isNaN x = false → isNaN y = false → float64Less x y = true ↔ key_lt (fkey x) (fkey y).
Proof.
  intros Hx Hy. unfold float64Less. rewrite Hx, andb_false_l, orb_false_r.
  by apply fltb_key.
Qed.

(** ** Sorting *)

Lemma float64Insert_perm x l : float64Insert x l ≡ₚ x :: l.
Proof.
  induction l as [|y l IH]; simpl; [done|]. case_match; [|done].
  rewrite IH. apply Permutation_swap.
Qed.

Lemma sortFloat64s_perm l : sortFloat64s l ≡ₚ l.
Proof.
  induction l as [|x l IH]; simpl; [done|]. by rewrite float64Insert_perm, IH.
Qed.

Lemma float64Insert_sorted x l :
  isNaN x = false → Forall (λ y, isNaN y = false) l →
  StronglySorted (flip fge) l → StronglySorted (flip fge) (float64Insert x l).
Proof.
  intros Hx Hl Hs. revert Hl. induction Hs as [|y l Hs IH Hy]; intros Hl; simpl.
  - repeat constructor.
  - apply Forall_cons in Hl as [Hny Hl]. destruct (float64Less y x) eqn:Hless.
    + constructor; [by apply IH|]. apply Forall_forall. intros z.
      rewrite float64Insert_perm. intros [->|Hz]%elem_of_cons.
      * apply float64Less_key in Hless; [|done..]. unfold flip, fge. intros Hlt.
        eapply key_lt_irrefl, key_lt_trans; done.
      * by eapply Forall_forall in Hy.
    + assert (flip fge x y) as Hxy.
      { unfold flip, fge. rewrite <-float64Less_key by done. by rewrite Hless. }
      constructor; [by constructor|]. constructor; [done|].
      eapply Forall_impl; [exact Hy|]. intros z Hz. unfold flip in *. by etrans.
Qed.

Lemma sortFloat64s_sorted l :
  Forall (λ y, isNaN y = false) l → StronglySorted (flip fge) (sortFloat64s l).
Proof.
  induction l as [|x l IH]; simpl; [constructor|]. intros [Hx Hl]%Forall_cons.
  apply float64Insert_sorted; [done| |by apply IH].
  by rewrite sortFloat64s_perm.
Qed.

(** ** The map keyed by scores groups the values by score *)

Section FloatMapLemmas.
Context {V : Type} (score : V → float64).

Definition groupByScore (l : list V) : list (float64 * list V) :=
  foldl (λ m x, fmapAppend (score x) x m) [] l.

Lemma feqb_trans_l k k' k'' : feqb k k' = true → feqb k k'' = feqb k' k''.
Proof.
  intros Hk. destruct (isNaN k) eqn:Hn; [by destruct k|].
  destruct (isNaN k') eqn:Hn'; [destruct k'; [done..|by destruct k as [[]|[]| |[]]|done]|].
  apply feqb_key in Hk; [|done..].
  destruct (isNaN k'') eqn:Hn''.
  { destruct k''; try done. by destruct k as [[]|[]| |[]], k' as [[]|[]| |[]]. }
  apply Bool.eq_true_iff_eq. rewrite !feqb_key by done. by rewrite Hk.
Qed.

Lemma feqb_sym k k' : feqb k k' = feqb k' k.
Proof.
  destruct (isNaN k) eqn:Hn.
  { destruct k; try done. by destruct k' as [[]|[]| |[]]. }
  destruct (isNaN k') eqn:Hn'.
  { destruct k'; try done. by destruct k as [[]|[]| |[]]. }
  apply Bool.eq_true_iff_eq. rewrite !feqb_key by done. done.
Qed.

Lemma fmapGet_Append k k' x (m : list (float64 * list V)) :
  fmapGet k (fmapAppend k' x m) =
  if feqb k k' then fmapGet k m ++ [x] else fmapGet k m.
Proof.
  induction m as [|[k0 v] m IH]; simpl; [by case_match|].
  destruct (feqb k' k0) eqn:Hk0; simpl.
  - destruct (feqb k k') eqn:Hk.
    + rewrite (feqb_trans_l _ _ k0 Hk), Hk0. done.
    + destruct (feqb k k0) eqn:Hkk0; [|done].
      rewrite feqb_sym in Hk0. rewrite (feqb_trans_l _ _ k' Hkk0) in Hk. congruence.
  - rewrite IH. destruct (feqb k k') eqn:Hk; [|done].
    by rewrite (feqb_trans_l _ _ k0 Hk), Hk0.
Qed.

(** Looking a score up gives the values with that score, in order. *)
Lemma fmapGet_groupByScore k l :
  fmapGet k (groupByScore l) = filter (λ x, feqb k (score x) = true) l.
Proof.
  unfold groupByScore.
  assert (∀ m, fmapGet k (foldl (λ m x, fmapAppend (score x) x m) m l) =
    fmapGet k m ++ filter (λ x, feqb k (score x) = true) l) as Hgen; [|by rewrite Hgen].
  induction l as [|x l IH]; intros m; simpl; [by rewrite app_nil_r|].
  rewrite IH, fmapGet_Append, filter_cons. destruct (feqb k (score x)) eqn:Hk.
  - rewrite decide_True by done. by rewrite <-app_assoc.
  - by rewrite decide_False by done.
Qed.

End FloatMapLemmas.

(** ** Arithmetic on non-negative numbers never gives NaN *)

(** Not NaN and not below zero (a zero of either sign is allowed). *)
Definition fnonneg (x : float64) : bool :=
  match x with
  | S754_zero _ => true
  | S754_finite s _ _ | S754_infinity s => negb s
  | S754_nan => false
  end.

(** Positive and finite. *)
Definition fposfin (x : float64) : bool :=
  match x with S754_finite false _ _ => true | _ => false end.

Section NonNegative.

Lemma iter_pos_inv {A} (P : A → Prop) f n (x : A) :
  (∀ y, P y → P (f y)) → P x → P (iter_pos f n x).
Proof. intros Hf. revert x. induction n as [n IH|n IH|]; intros x Hx; simpl; auto. Qed.

Lemma shr_1_nonneg m : 0 <= shr_m m → 0 <= shr_m (shr_1 m).
Proof. destruct m as [[|[]|[]] r s]; simpl; lia. Qed.

Lemma shr_fexp_nonneg m e l : 0 <= m → 0 <= shr_m (shr_fexp 53 1024 m e l).1.
Proof.
  intros Hm. unfold shr_fexp, shr.
  assert (0 <= shr_m (shr_record_of_loc m l)) as Hr by (by destruct l as [|[]]).
  case_match; simpl; [done| |done].
  apply (iter_pos_inv (λ r, 0 <= shr_m r)); [|done]. apply shr_1_nonneg.
Qed.

Lemma binary_round_aux_nonneg m e l :
  0 <= m → fnonneg (binary_round_aux 53 1024 false m e l) = true.
Proof.
  intros Hm. unfold binary_round_aux.
  pose proof (shr_fexp_nonneg m e l Hm) as H1.
  destruct (shr_fexp 53 1024 m e l) as [r1 e1]. simpl in H1.
  set (m2 := round_nearest_even _ _).
  assert (0 <= m2) as H2.
  { subst m2. unfold round_nearest_even. repeat case_match; lia. }
  pose proof (shr_fexp_nonneg m2 e1 loc_Exact H2) as H3.
  destruct (shr_fexp 53 1024 m2 e1 loc_Exact) as [r2 e2]. simpl in H3.
  destruct (shr_m r2); [done| |lia]. by case_match.
Qed.

Lemma binary_normalize_nonneg m e :
  0 <= m → fnonneg (binary_normalize 53 1024 m e false) = true.
Proof.
  intros Hm. destruct m as [|m|m]; simpl; [done| |lia].
  unfold binary_round. destruct (shl_align _ _ _). by apply binary_round_aux_nonneg.
Qed.

Lemma fofZ_nonneg z : 0 <= z → fnonneg (fofZ z) = true.
Proof. apply binary_normalize_nonneg. Qed.

Lemma fadd_nonneg x y : fnonneg x = true → fnonneg y = true → fnonneg (fadd x y) = true.
Proof.
  destruct x as [[]|[]| |[] m1 e1], y as [[]|[]| |[] m2 e2]; try done.
  intros _ _. unfold fadd, SFadd, cond_Zopp. apply binary_normalize_nonneg. lia.
Qed.

Lemma fmul_nonneg x y : fposfin x = true → fnonneg y = true → fnonneg (fmul x y) = true.
Proof.
  destruct x as [[]|[]| |[] m1 e1], y as [[]|[]| |[] m2 e2]; try done.
  intros _ _. unfold fmul, SFmul. by apply binary_round_aux_nonneg.
Qed.

(** Dividing by a non-zero number that is not negative. *)
Lemma fdiv_nonneg x y :
  fnonneg x = true → fposfin y = true → fnonneg (fdiv x y) = true.
Proof.
  destruct x as [[]|[]| |[] m1 e1], y as [[]|[]| |[] m2 e2]; try done.
  intros _ _. unfold fdiv, SFdiv, SFdiv_core_binary.
  set (m' := match _ with Z0 => _ | _ => _ end).
  assert (0 <= m') as Hm'.
  { subst m'. case_match; [lia| |lia]. apply Z.shiftl_nonneg. lia. }
  pose proof (Z_div_pos m' (Z.pos m2) ltac:(lia) Hm') as Hq.
  unfold Z.div in Hq. destruct (Z.div_eucl m' (Z.pos m2)) as [q r].
  by apply binary_round_aux_nonneg.
Qed.

Lemma binary_round_aux_not_NaN b m e l :
  0 <= m → isNaN (binary_round_aux 53 1024 b m e l) = false.
Proof.
  intros Hm. unfold binary_round_aux.
  pose proof (shr_fexp_nonneg m e l Hm) as H1.
  destruct (shr_fexp 53 1024 m e l) as [r1 e1]. simpl in H1.
  set (m2 := round_nearest_even _ _).
  assert (0 <= m2) as H2.
  { subst m2. unfold round_nearest_even. repeat case_match; lia. }
  pose proof (shr_fexp_nonneg m2 e1 loc_Exact H2) as H3.
  destruct (shr_fexp 53 1024 m2 e1 loc_Exact) as [r2 e2]. simpl in H3.
  destruct (shr_m r2); [done| |lia]. by case_match.
Qed.

Lemma fmul_not_NaN x y : isNaN x = false → fposfin y = true → isNaN (fmul x y) = false.
Proof.
  destruct x as [[]|[]| |[] m1 e1], y as [[]|[]| |[] m2 e2]; try done;
    intros _ _; unfold fmul, SFmul; by apply binary_round_aux_not_NaN.
Qed.

Lemma fofZ_not_NaN z : isNaN (fofZ z) = false.
Proof.
  unfold fofZ, binary_normalize, binary_round.
  destruct z as [|m|m]; [done| |]; destruct (shl_align _ _ _); by apply binary_round_aux_not_NaN.
Qed.

Lemma fnonneg_not_NaN x : fnonneg x = true → isNaN x = false.
Proof. by destruct x. Qed.

End NonNegative.

(** ** Integers below [2^53] convert exactly *)

Lemma digits2_pos_size m : digits2_pos m = Pos.size m.
Proof. induction m as [m IH|m IH|]; simpl; rewrite ?IH; done. Qed.

Lemma digits2_pos_iter m k : digits2_pos (Pos.iter xO m k) = (digits2_pos m + k)%positive.
Proof.
  induction k as [|k IH] using Pos.peano_ind; [simpl; lia|].
  rewrite Pos.iter_succ. simpl. rewrite IH. lia.
Qed.

Lemma digits2_pos_bound m : Z.pos m < 2 ^ 53 → Z.pos (digits2_pos m) <= 53.
Proof.
  intros Hm. rewrite digits2_pos_size. pose proof (Pos.size_le m) as Hs.
  destruct (Z.le_gt_cases (Z.pos (Pos.size m)) 53) as [|Hgt]; [done|].
  assert (2 ^ 54 <= 2 ^ Z.pos (Pos.size m)) as Hpow by (apply Z.pow_le_mono_r; lia).
  change (2 ^ Z.pos (Pos.size m)) with (Z.pow_pos 2 (Pos.size m)) in Hpow.
  rewrite <-Pos2Z.inj_pow_pos in Hpow. lia.
Qed.

Lemma shr_fexp_exact m e :
  Z.pos (digits2_pos m) = 53 → -1074 <= e →
  shr_fexp 53 1024 (Z.pos m) e loc_Exact = (Build_shr_record (Z.pos m) false false, e).
Proof.
  intros Hd He. unfold shr_fexp, Zdigits2, fexp, emin. rewrite Hd.
  replace (Z.max (53 + e - 53) (3 - 1024 - 53) - e) with 0 by lia. done.
Qed.

Lemma fofZ_posfin z : 0 < z < 2 ^ 53 → fposfin (fofZ z) = true.
Proof.
  intros [Hz Hlt]. destruct z as [|m|m]; try lia. unfold fofZ. simpl.
  pose proof (digits2_pos_bound m Hlt) as Hd. unfold binary_round, fexp, emin.
  rewrite Z.add_0_r.
  replace (Z.max (Z.pos (digits2_pos m) - 53) (3 - 1024 - 53))
    with (Z.pos (digits2_pos m) - 53) by lia.
  unfold shl_align. rewrite Z.sub_0_r.
  destruct (Z.pos (digits2_pos m) - 53) as [|k|k] eqn:Hk; [|lia|];
    unfold binary_round_aux.
  - rewrite shr_fexp_exact by lia. simpl. rewrite shr_fexp_exact by lia. done.
  - assert (Z.pos (digits2_pos (Pos.iter xO m k)) = 53) as Hdk
      by (rewrite digits2_pos_iter; lia).
    rewrite shr_fexp_exact by lia. cbn [shr_m loc_of_shr_record round_nearest_even].
    rewrite shr_fexp_exact by lia. cbn [shr_m].
    by rewrite (proj2 (Z.leb_le _ _)) by lia.
Qed.

Create HintDb floats.
#[export] Hint Resolve fofZ_nonneg fadd_nonneg fmul_nonneg fdiv_nonneg fnonneg_not_NaN fofZ_posfin : floats.

(** Closed float computations go through [vm_compute]; unification must not
    start them. *)
#[global] Opaque fofZ fadd fmul fdiv fsub.
