(* ===== verification/MathUtils.v ===== *)
(** * MathUtils: pkg/util/mathutils

    The integer helpers.  [int] is 64 bits wide on the supported platforms; none
    of them computes, so no operation wraps. *)

From S2P Require Import Prelude.
From stdpp Require Import options.
Local Open Scope Z_scope.

Definition MaxInt (a b : Z) : Z := if a <? b then a else b.
Definition MaxInt32 (a b : Z) : Z := if b <? a then a else b.
Definition MinInt (a b : Z) : Z := if a <? b then a else b.
Definition MinInt32 (a b : Z) : Z := if a <? b then a else b.
Definition MaxInt64 (a b : Z) : Z := if b <? a then a else b.
Definition MinInt64 (a b : Z) : Z := if a <? b then a else b.

Lemma MaxInt_min a b : MaxInt a b = Z.min a b.
Proof. unfold MaxInt. case_match; zbool; lia. Qed.

Lemma MaxInt32_max a b : MaxInt32 a b = Z.max a b.
Proof. unfold MaxInt32. case_match; zbool; lia. Qed.

Lemma MinInt64_min a b : MinInt64 a b = Z.min a b.
Proof. unfold MinInt64. case_match; zbool; lia. Qed.

Lemma MaxInt64_max a b : MaxInt64 a b = Z.max a b.
Proof. unfold MaxInt64. case_match; zbool; lia. Qed.
