(* ===== verification/Units.v ===== *)
(** * Units: pkg/unit/byte.go

    Sizes in configuration files and flags: their text and the parser of it.
    [%.1f] prints the exact value of the float64 rounded to one decimal, half
    to even. *)

From S2P Require Import Prelude Text GoFloat.
From Stdlib Require Import Ascii SpecFloat.
From stdpp Require Import options.
Local Open Scope Z_scope.

Notation Bytes := Z (only parsing).   (* int64 *)

Definition B : Bytes := 1.
Definition KB : Bytes := 1024 * B.
Definition MB : Bytes := 1024 * KB.
Definition GB : Bytes := 1024 * MB.
Definition TB : Bytes := 1024 * GB.
Definition PB : Bytes := 1024 * TB.
Definition EB : Bytes := 1024 * PB.

(** ** String *)

(** [n / d], rounded to the nearest integer, half to even. *)
Definition divRoundEven (n d : Z) : Z :=
  let q := n / d in
  match 2 * (n mod d) ?= d with
  | Lt => q
  | Gt => q + 1
  | Eq => if Z.even q then q else q + 1
  end.

(** [fmt.Sprintf("%.1f", x)] of a finite number. *)
Definition fmt_Fixed1 (x : float64) : string :=
  let show (s : bool) (tenths : Z) : string :=
    (if s then "-" else "") +:+ fmt_Sprint (tenths / 10) +:+ "." +:+ fmt_Sprint (tenths mod 10) in
  match x with
  | S754_zero s => show s 0
  | S754_finite s m e =>
      show s (if 0 <=? e then Z.pos m * 10 * 2 ^ e else divRoundEven (Z.pos m * 10) (2 ^ (- e)))
  | S754_infinity s => if s then "-Inf" else "+Inf"
  | S754_nan => "NaN"
  end.

Definition unitOf (f : Bytes) : string * Bytes :=
  if PB <=? f then ("PB"%string, PB)
  else if TB <=? f then ("TB"%string, TB)
  else if GB <=? f then ("GB"%string, GB)
  else if MB <=? f then ("MB"%string, MB)
  else if KB <=? f then ("KB"%string, KB)
  else ("B"%string, B).

Definition Bytes_String (f : Bytes) : string :=
  let '(symbol, unit) := unitOf f in fmt_Fixed1 (fdiv (fofZ f) (fofZ unit)) +:+ symbol.

(** ** parseSize *)

(** sizeRegexp: digits, a fraction of zeros, a unit letter, [i] and [b].  The
    classes of the parts are disjoint, so the match is found from left to
    right. *)
Fixpoint spanString (p : ascii → bool) (s : string) : string * string :=
  match s with
  | EmptyString => (EmptyString, EmptyString)
  | String c t => if p c then prod_map (String c) id (spanString p t) else (EmptyString, s)
  end.

Definition dropOne (p : ascii → bool) (s : string) : string :=
  match s with String c t => if p c then t else s | _ => s end.

Definition oneOf (cs : string) (c : ascii) : bool := strings_Contains c cs.

(** [matches[1]] and [matches[3]]. *)
Definition sizeRegexp (s : string) : option (string * string) :=
  let '(num, s) := spanString (λ c, bool_decide (isDigit c)) s in
  if decide (num = ""%string) then None
  else
    let s := match s with
             | String c t => if decide (c = "."%char) then (spanString (oneOf "0") t).2 else s
             | _ => s
             end in
    let '(letter, s) :=
      match s with
      | String c t => if oneOf "MmKkGgTtPpEe" c then (String c "", t) else (EmptyString, s)
      | _ => (EmptyString, s)
      end in
    if decide (dropOne (oneOf "bB") (dropOne (oneOf "iI") s) = ""%string)
    then Some (num, letter) else None.

Definition unitLetter (letter : string) : Bytes :=
  match letter with
  | String c EmptyString =>
      if oneOf "kK" c then KB else if oneOf "mM" c then MB else if oneOf "gG" c then GB
      else if oneOf "tT" c then TB else if oneOf "pP" c then PB else if oneOf "eE" c then EB else B
  | _ => B
  end.

Inductive SizeError := ErrSizeFormat | ErrSizeNumber.

Definition parseSize (fsize : string) : SizeError + Bytes :=
  let fsize := strings_TrimSpace fsize in
  if IsBlank fsize then inr 0
  else
    match sizeRegexp fsize with
    | None => inl ErrSizeFormat
    | Some (num, letter) =>
        match strconv_ParseInt0 64 num with
        | None => inl ErrSizeNumber
        | Some num => inr (int64 (num * unitLetter letter))
        end
    end.

(** [Set]: what a flag is set to, and the error. *)
Definition Bytes_Set (s : string) : Bytes * option SizeError :=
  if IsBlank s then (0, None)
  else match parseSize s with inl e => (0, Some e) | inr n => (n, None) end.

(** ** Properties *)

Lemma spanString_digits s t :
  allDigits s → (∀ c u, t = String c u → ¬ isDigit c) →
  spanString (λ c, bool_decide (isDigit c)) (s +:+ t) = (s, t).
Proof.
  intros Hs Ht. induction s as [|c s IH].
  - destruct t as [|c t]; simpl; [done|]. rewrite bool_decide_eq_false_2; [done|]. by eapply Ht.
  - destruct Hs as [Hc Hs]. change (String c s +:+ t) with (String c (s +:+ t)). simpl.
    rewrite bool_decide_eq_true_2, IH by done. done.
Qed.

(** A printed number has no leading zero. *)
Lemma pretty_go_head x s : (0 < x)%N → ∃ c t, pretty_N_go x s = String c t ∧ c ≠ "0"%char.
Proof.
  revert s. induction (N.lt_wf_0 x) as [x _ IH]; intros s Hx.
  rewrite pretty_N_go_step by done. destruct (decide (N.div x 10 = 0%N)) as [H0|H0].
  - rewrite H0, pretty_N_go_0. eexists _, _. split; [done|].
    apply N.div_small_iff in H0; [|done]. rewrite N.mod_small by done. intros Hc.
    pose proof (digitValue_pretty x H0) as Hd. rewrite Hc in Hd. injection Hd as Hd. lia.
  - apply IH; [by apply N.div_lt|by apply N.neq_0_lt_0].
Qed.

Lemma ParseInt0_Sprint n : 0 <= n < 2 ^ 63 → strconv_ParseInt0 64 (fmt_Sprint n) = Some n.
Proof.
  intros Hn. rewrite fmt_Sprint_nonneg by lia. pose proof (parseDigits_pretty (Z.to_N n)) as Hp.
  unfold pretty, pretty_N in *. case_decide as H0; [by replace n with 0 by lia|].
  destruct (pretty_go_head (Z.to_N n) "") as (c & t & He & Hc); [lia|]. rewrite He in *.
  unfold strconv_ParseInt0. rewrite decide_False, Hp by done. simpl. unfold signedValue.
  rewrite Z2N.id, (proj2 (Z.ltb_lt n _)) by lia. done.
Qed.

(** The suffixes of a unit. *)
Definition unitSuffixes (letter : string) : list string :=
  (λ tail, letter +:+ tail) <$> [""; "B"; "b"; "iB"; "i"; "ib"]%string.

Definition unitLetters : list string :=
  [""; "k"; "K"; "m"; "M"; "g"; "G"; "t"; "T"; "p"; "P"; "e"; "E"]%string.

Lemma sizeRegexp_number s letter suffix :
  allDigits s → s ≠ ""%string → letter ∈ unitLetters → suffix ∈ unitSuffixes letter →
  sizeRegexp (s +:+ suffix) = Some (s, letter).
Proof.
  intros Hs Hne Hl Hx. unfold sizeRegexp. rewrite spanString_digits; [|done|].
  - rewrite decide_False by done. unfold unitLetters in Hl. rewrite !elem_of_cons, elem_of_nil in Hl.
    destruct_or! Hl; subst letter; try done; unfold unitSuffixes in Hx; simpl in Hx;
      rewrite !elem_of_cons, elem_of_nil in Hx; destruct_or! Hx; subst suffix; done.
  - intros c u ->. unfold unitLetters in Hl. rewrite !elem_of_cons, elem_of_nil in Hl.
    destruct_or! Hl; subst letter; try done; unfold unitSuffixes in Hx; simpl in Hx;
      rewrite !elem_of_cons, elem_of_nil in Hx; destruct_or! Hx; try done;
      injection Hx as -> _; intros [v Hv]; done.
Qed.

Lemma TrimSpace_number s letter suffix :
  allDigits s → s ≠ ""%string → letter ∈ unitLetters → suffix ∈ unitSuffixes letter →
  strings_TrimSpace (s +:+ suffix) = s +:+ suffix ∧ IsBlank (s +:+ suffix) = false.
Proof.
  intros Hs Hne Hl Hx. destruct s as [|c s]; [done|]. destruct Hs as [Hc Hs].
  pose proof (isSpace_digit c Hc) as Hsp. change (String c s +:+ suffix) with (String c (s +:+ suffix)).
  split; [|simpl; by rewrite Hsp]. unfold strings_TrimSpace. rewrite trimLeft_id by done.
  assert (∀ t, (∀ d, trimRight isSpace (String d t) = String d t) ∨ t = ""%string →
    trimRight isSpace (String c (s +:+ t)) = String c (s +:+ t)) as Hgen.
  { intros t Ht. clear -Hs Ht Hsp. revert c Hsp. induction s as [|d s IH]; intros c Hsp.
    - destruct Ht as [Ht| ->]; [apply Ht|]. simpl. by rewrite Hsp.
    - destruct Hs as [Hd Hs]. change (String d s +:+ t) with (String d (s +:+ t)).
      cbn [trimRight]. specialize (IH Hs d (isSpace_digit d Hd)). cbn [trimRight] in IH.
      by rewrite IH. }
  apply Hgen. unfold unitLetters in Hl. rewrite !elem_of_cons, elem_of_nil in Hl.
  destruct_or! Hl; subst letter; try done; unfold unitSuffixes in Hx; simpl in Hx;
    rewrite !elem_of_cons, elem_of_nil in Hx; destruct_or! Hx; subst suffix; auto.
Qed.

(** The letters of the powers of 1024, in their order. *)
Definition prefixes : list (string * string) :=
  [("", ""); ("k", "K"); ("m", "M"); ("g", "G"); ("t", "T"); ("p", "P"); ("e", "E")]%string.

Lemma unitLetter_power i lower upper letter :
  prefixes !! i = Some (lower, upper) → letter = lower ∨ letter = upper →
  letter ∈ unitLetters ∧ unitLetter letter = 1024 ^ Z.of_nat i.
Proof.
  intros Hi Hl. unfold unitLetters. rewrite !elem_of_cons.
  do 7 (destruct i as [|i]; [injection Hi as <- <-; destruct Hl as [->| ->]; (split; [tauto|done])|]). done.
Qed.

(** C35: sizes in text.  A number with the letter of a unit, [k] to [e] in either
    case or none, and with or without [i] and [B], is the number times the power
    of 1024 that the place of the letter among the prefixes says, as long as the
    product fits in 63 bits. *)
Theorem parseSize_correct (n : Z) (i : nat) (lower upper letter suffix : string) :
  prefixes !! i = Some (lower, upper) → letter = lower ∨ letter = upper → suffix ∈ unitSuffixes letter →
  0 <= n → n * 1024 ^ Z.of_nat i < 2 ^ 63 →
  parseSize (fmt_Sprint n +:+ suffix) = inr (n * 1024 ^ Z.of_nat i).
Proof.
  intros Hi Hle Hx Hn. destruct (unitLetter_power i lower upper letter Hi Hle) as [Hl <-]. intros Hlt.
  assert (1 <= unitLetter letter) as Hu.
  { unfold unitLetters in Hl. rewrite !elem_of_cons, elem_of_nil in Hl.
    destruct_or! Hl; subst letter; done. }
  pose proof (allDigits_Sprint n Hn) as Hd.
  assert (fmt_Sprint n ≠ ""%string) as Hne by (rewrite fmt_Sprint_nonneg by done; apply pretty_nonempty).
  destruct (TrimSpace_number (fmt_Sprint n) letter suffix Hd Hne Hl Hx) as [Ht Hb].
  unfold parseSize. rewrite Ht, Hb, (sizeRegexp_number _ letter) by done.
  rewrite ParseInt0_Sprint by nia. rewrite int64_small by nia. done.
Qed.

Lemma parseSize_correct_witness :
  parseSize "10GiB" = inr (10 * 1024 * 1024 * 1024) ∧ parseSize "7" = inr 7.
Proof.
  split.
  - apply (parseSize_correct 10 3 "g" "G" "G" "GiB");
      [reflexivity|right; reflexivity|vm_compute; repeat constructor|lia|vm_compute; reflexivity].
  - apply (parseSize_correct 7 0 "" "" "" "");
      [reflexivity|left; reflexivity|vm_compute; repeat constructor|lia|vm_compute; reflexivity].
Defined.

(** Sizes that do not read as they are meant: a leading zero makes the number
    octal, and the product wraps around.  Sizes that are written and not read
    back: a fraction is printed but not accepted, or rounded away. *)
Lemma parseSize_surprises :
  parseSize "010M" = inr (8 * MB) ∧ parseSize "08M" = inl ErrSizeNumber ∧
  parseSize "8E" = inr (- 2 ^ 63) ∧
  Bytes_String 1536 = "1.5KB"%string ∧ parseSize (Bytes_String 1536) = inl ErrSizeFormat ∧
  parseSize (Bytes_String 1025) = inr 1024 ∧ parseSize (Bytes_String (3 * GB)) = inr (3 * GB).
Proof. split_and!; vm_compute; reflexivity. Qed.
