(* ===== verification/Evaluator.v ===== *)
(** * Evaluator: scheduler/core/evaluator

    The interface the basic scheduler ranks candidates with, and its built-in
    implementation [evaluatorBase].  The statistics package
    (github.com/montanaflynn/stats) is a parameter. *)

From S2P Require Import Prelude Containers World Supervisor GoFloat MathUtils.
From Stdlib Require Import SpecFloat Ascii.
From stdpp Require Import options.
Local Open Scope Z_scope.

(** ** The interface (evaluator.go) *)

Class Evaluator := {
  Evaluate : World → PeerRef → PeerRef → Z → Outcome float64;
  NeedAdjustParent : World → PeerRef → Outcome bool;
  IsBadNode : World → PeerRef → Outcome bool;
}.

(** github.com/montanaflynn/stats. *)
Class Stats := {
  LoadRawData : list Z → list float64;
  Mean : list float64 → float64;
  StandardDeviation : list float64 → float64;
}.

(** ** Scores (evaluator_base.go) *)

Definition finishedPieceWeight : float64 := fdiv (fofZ 4) (fofZ 10).
Definition freeLoadWeight : float64 := fdiv (fofZ 3) (fofZ 10).
Definition idcAffinityWeight : float64 := fdiv (fofZ 15) (fofZ 100).
Definition netTopologyAffinityWeight : float64 := fdiv (fofZ 1) (fofZ 10).
Definition locationAffinityWeight : float64 := fdiv (fofZ 5) (fofZ 100).
Definition maxScore : float64 := fofZ 1.
Definition minScore : float64 := fofZ 0.
Definition normalDistributionLen : Z := 10.
Definition minAvailableCostLen : Z := 2.
Definition maxElementLen : Z := 5.

Definition calculatePieceScore (w : World) (parent child : PeerRef) (taskPieceCount : Z)
    : float64 :=
  if 0 <? taskPieceCount then
    fdiv (fofZ (peer_TotalPieceCount (getPeer w parent))) (fofZ taskPieceCount)
  else
    fofZ (int32 (peer_TotalPieceCount (getPeer w parent)
                 - peer_TotalPieceCount (getPeer w child))).

(** The subtraction is on [uint32]. *)
Definition calculateFreeLoadScore (h : Host) : float64 :=
  let load := host_CurrentUploadLoad h in
  let totalLoad := host_TotalUploadLoad h in
  fdiv (fofZ (uint32 (totalLoad - load))) (fofZ totalLoad).

Definition calculateIDCAffinityScore (dst src : Host) : float64 :=
  if bool_decide (host_IDC dst ≠ "") && bool_decide (host_IDC src ≠ "")
       && bool_decide (host_IDC dst = host_IDC src)
  then maxScore else minScore.

(** The loop comparing the elements: [i] counts up to [elementLen], the
    lookups panic past the end of a slice, and the first difference stops. *)
Fixpoint matchElements (n : nat) (i : nat) (dstElements srcElements : list string) (score : Z)
    : Outcome Z :=
  match n with
  | O => Ok score
  | S n =>
      match dstElements !! i, srcElements !! i with
      | Some d, Some s =>
          if decide (d = s) then matchElements n (S i) dstElements srcElements (score + 1)
          else Ok score
      | _, _ => Panic IndexOutOfRange
      end
  end.

Definition calculateMultiElementAffinityScore (dst src : string) : Outcome float64 :=
  if bool_decide (dst = "") || bool_decide (src = "") then Ok minScore
  else if decide (dst = src) then Ok maxScore
  else
    let dstElements := strings_Split "|"%char dst in
    let srcElements := strings_Split "|"%char src in
    let elementLen := MaxInt (Z.of_nat (length dstElements)) (Z.of_nat (length srcElements)) in
    let elementLen := if maxElementLen <? elementLen then maxElementLen else elementLen in
    score ← matchElements (Z.to_nat elementLen) 0 dstElements srcElements 0;
    Ok (fdiv (fofZ score) (fofZ maxElementLen)).

Definition evaluatorBase_Evaluate (w : World) (parent child : PeerRef) (taskPieceCount : Z)
    : Outcome float64 :=
  let ph := hostOf w parent in
  let ch := hostOf w child in
  if bool_decide (host_SecurityDomain ph ≠ "") && bool_decide (host_SecurityDomain ch ≠ "")
       && bool_decide (host_SecurityDomain ph ≠ host_SecurityDomain ch)
  then Ok minScore
  else
    net ← calculateMultiElementAffinityScore (host_NetTopology ph) (host_NetTopology ch);
    location ← calculateMultiElementAffinityScore (host_Location ph) (host_Location ch);
    Ok (fadd (fadd (fadd (fadd
          (fmul finishedPieceWeight (calculatePieceScore w parent child taskPieceCount))
          (fmul freeLoadWeight (calculateFreeLoadScore ph)))
          (fmul idcAffinityWeight (calculateIDCAffinityScore ph ch)))
          (fmul netTopologyAffinityWeight net))
          (fmul locationAffinityWeight location)).

Section Base.
Context `{!Stats}.

(** [costs[len-1]], with [len] at least 2. *)
Definition lastCost (costs : list float64) : Outcome float64 :=
  match last costs with
  | Some c => Ok c
  | None => Panic IndexOutOfRange
  end.

(** A test [big.NewFloat(x).Cmp(big.NewFloat(y)) > 0]. *)
Definition exceeds (x y : float64) : Outcome bool :=
  c ← bigFloatCmp x y;
  Ok (match c with Gt => true | _ => false end).

Definition evaluatorBase_IsBadNode (w : World) (peer : PeerRef) : Outcome bool :=
  if Peer_IsBad w peer then Ok true
  else if host_IsCDN (hostOf w peer) then Ok false
  else
    let costs := LoadRawData (Peer_GetPieceCosts w peer) in
    if Z.of_nat (length costs) <? minAvailableCostLen then Ok false
    else
      lastCost ← lastCost costs;
      let mean := Mean (take (length costs - 1) costs) in
      exceeds lastCost (fmul mean (fofZ 40)).

Definition evaluatorBase_NeedAdjustParent (w : World) (peer : PeerRef) : Outcome bool :=
  if host_IsCDN (hostOf w peer) then Ok false
  else
    let parent := Peer_GetParent w peer in
    if bool_decide (parent = None) && negb (Peer_IsDone w peer) then Ok true
    else
      bad ← match parent with
            | Some parent => if Peer_IsLeave w parent then Ok true
                             else evaluatorBase_IsBadNode w parent
            | None => Ok false
            end;
      if bad : bool then Ok true
      else
        let costs := LoadRawData (Peer_GetPieceCosts w peer) in
        let len := length costs in
        if Z.of_nat len <? minAvailableCostLen then Ok false
        else
          lastCost ← lastCost costs;
          let mean := Mean (take (len - 1) costs) in
          if Z.of_nat len <? normalDistributionLen then exceeds lastCost (fmul mean (fofZ 5))
          else
            let stdev := StandardDeviation (take (len - 2) costs) in
            exceeds lastCost (fadd mean (fmul (fofZ 3) stdev)).

Definition NewEvaluatorBase : Evaluator := {|
  Evaluate := evaluatorBase_Evaluate;
  NeedAdjustParent := evaluatorBase_NeedAdjustParent;
  IsBadNode := evaluatorBase_IsBadNode;
|}.

(** [New]: [plugin] is what loading the plugin gives, if it loads. *)
Definition evaluator_New (algorithm : string) (plugin : option Evaluator) : Evaluator :=
  if decide (algorithm = "plugin") then
    match plugin with
    | Some e => e
    | None => NewEvaluatorBase
    end
  else NewEvaluatorBase.

End Base.

(** ** What the scheduler relies on *)

(** A host whose counters are in range: the load it serves is below [2^31]. *)
Definition host_sane (h : Host) : Prop :=
  0 <= host_TotalUploadLoad h < 2 ^ 32 ∧ 0 <= host_CurrentUploadLoad h < 2 ^ 31.

(** The situation a parent is scored in: it has a free upload slot and, when
    the piece count of the task is unknown, at least the child's pieces. *)
Definition score_pre (w : World) (parent child : PeerRef) (taskPieceCount : Z) : Prop :=
  host_sane (hostOf w parent) ∧ 0 < Host_GetFreeUploadLoad (hostOf w parent) ∧
  0 <= peer_TotalPieceCount (getPeer w parent) < 2 ^ 31 ∧
  0 <= peer_TotalPieceCount (getPeer w child) <= peer_TotalPieceCount (getPeer w parent) ∧
  taskPieceCount < 2 ^ 31.

Class EvaluatorLaws (E : Evaluator) : Prop := {
  IsBadNode_total : ∀ w p, ∃ b, IsBadNode w p = Ok b;
  Evaluate_number : ∀ w parent child n, score_pre w parent child n →
    ∃ f, Evaluate w parent child n = Ok f ∧ isNaN f = false;
}.

(** Documented behaviour of the statistics package on lists of integers. *)
Class StatsLaws (S : Stats) : Prop := {
  LoadRawData_number : ∀ raw x, x ∈ LoadRawData raw → isNaN x = false;
  Mean_number : ∀ raw k, (0 < k ≤ length (LoadRawData raw))%nat →
    isNaN (Mean (take k (LoadRawData raw))) = false;
}.

(** ** Lemmas *)

Section AffinityLemmas.

(** The elements compared lie in both slices, because the bound is the shorter
    of the two lengths. *)
Lemma matchElements_ok n i ds ss score :
  (i + n ≤ length ds)%nat → (i + n ≤ length ss)%nat →
  ∃ k, (k ≤ n)%nat ∧ matchElements n i ds ss score = Ok (score + Z.of_nat k) ∧
    (∀ j, (i ≤ j < i + k)%nat → ds !! j = ss !! j) ∧
    (k < n → ds !! (i + k)%nat ≠ ss !! (i + k)%nat)%nat.
Proof.
  revert i score. induction n as [|n IH]; intros i score Hd Hs; simpl.
  - exists 0%nat. repeat split; try lia. f_equal. lia.
  - destruct (lookup_lt_is_Some_2 ds i ltac:(lia)) as [d Hdi].
    destruct (lookup_lt_is_Some_2 ss i ltac:(lia)) as [s Hsi].
    rewrite Hdi, Hsi. case_decide as Heq.
    + destruct (IH (S i) (score + 1)) as (k & Hk & -> & Heqs & Hne); [lia..|].
      exists (S k). split; [lia|]. split; [f_equal; lia|]. split.
      * intros j Hj. destruct (decide (j = i)) as [->|]; [congruence|apply Heqs; lia].
      * intros Hlt. rewrite <-Nat.add_succ_comm. apply Hne. lia.
    + exists 0%nat. split; [lia|]. split; [f_equal; lia|]. split; [lia|].
      intros _. rewrite Nat.add_0_r, Hdi, Hsi. congruence.
Qed.

Definition fifths (k : Z) : float64 := fdiv (fofZ k) (fofZ maxElementLen).

Lemma fifths_unit k : 0 <= k <= 5 → fleb minScore (fifths k) = true ∧ fleb (fifths k) maxScore = true.
Proof.
  intros Hk. assert (k = 0 ∨ k = 1 ∨ k = 2 ∨ k = 3 ∨ k = 4 ∨ k = 5) as Hcases by lia.
  destruct Hcases as [->|[->|[->|[->|[->| ->]]]]]; vm_compute; done.
Qed.

Lemma affinity_ok dst src :
  ∃ f, calculateMultiElementAffinityScore dst src = Ok f ∧ fnonneg f = true ∧
    fleb minScore f = true ∧ fleb f maxScore = true.
Proof.
  unfold calculateMultiElementAffinityScore.
  case_match; [exists minScore; split_and!; [done|by vm_compute..]|].
  destruct (decide (dst = src)) as [_|_]; [exists maxScore; split_and!; [done|by vm_compute..]|].
  rewrite MaxInt_min. set (ds := strings_Split _ dst). set (ss := strings_Split _ src).
  set (n := if _ : bool then _ else _).
  assert (0 <= n ∧ n <= 5 ∧ n <= Z.of_nat (length ds) ∧ n <= Z.of_nat (length ss)) as Hn.
  { subst n. unfold maxElementLen. case_match; zbool; lia. }
  destruct (matchElements_ok (Z.to_nat n) 0 ds ss 0) as (k & Hk & -> & _); [lia..|].
  rewrite Z.add_0_l. exists (fifths (Z.of_nat k)). split; [done|].
  split; [|apply fifths_unit; lia].
  apply fdiv_nonneg; [apply fofZ_nonneg; lia|by vm_compute].
Qed.

End AffinityLemmas.

Section BaseLemmas.

Lemma free_load_bounds h :
  host_sane h → 0 < Host_GetFreeUploadLoad h →
  Host_GetFreeUploadLoad h = host_TotalUploadLoad h - host_CurrentUploadLoad h ∧
  0 < host_TotalUploadLoad h.
Proof.
  unfold host_sane, Host_GetFreeUploadLoad, int32, uint32, wrapS, wrapU. intros [Ht Hc] Hf.
  change (2 ^ (32 - 1)) with 2147483648 in *. change (2 ^ 31) with 2147483648 in *.
  change (2 ^ 32) with 4294967296 in *.
  set (t := host_TotalUploadLoad h) in *. set (c := host_CurrentUploadLoad h) in *.
  destruct (Z.le_gt_cases c t) as [Hle|Hgt].
  - rewrite (Z.mod_small (t - c)) in Hf |- * by lia.
    destruct (Z.le_gt_cases 2147483648 (t - c)).
    + rewrite <-(Z.mod_unique (t - c + 2147483648) 4294967296 1 (t - c - 2147483648)) in Hf;
        lia.
    + rewrite Z.mod_small in Hf |- * by lia. lia.
  - rewrite <-(Z.mod_unique (t - c) 4294967296 (-1) (t - c + 4294967296)) in Hf by lia.
    rewrite <-(Z.mod_unique (t - c + 4294967296 + 2147483648) 4294967296 1
                 (t - c + 2147483648)) in Hf by lia. lia.
Qed.

Lemma calculatePieceScore_nonneg w parent child n :
  score_pre w parent child n → fnonneg (calculatePieceScore w parent child n) = true.
Proof.
  intros (_ & _ & Hp & Hc & Hn). unfold calculatePieceScore. case_match; zbool.
  - apply fdiv_nonneg; [apply fofZ_nonneg; lia|apply fofZ_posfin; lia].
  - rewrite int32_small by lia. apply fofZ_nonneg. lia.
Qed.

Lemma calculateFreeLoadScore_nonneg h :
  host_sane h → 0 < Host_GetFreeUploadLoad h → fnonneg (calculateFreeLoadScore h) = true.
Proof.
  intros Hs Hf. destruct (free_load_bounds h Hs Hf) as [_ Ht]. destruct Hs as [? ?].
  unfold calculateFreeLoadScore. pose proof (uint32_range (host_TotalUploadLoad h -
    host_CurrentUploadLoad h)).
  apply fdiv_nonneg; [apply fofZ_nonneg; lia|apply fofZ_posfin; lia].
Qed.

Lemma evaluatorBase_Evaluate_nonneg w parent child n :
  score_pre w parent child n →
  ∃ f, evaluatorBase_Evaluate w parent child n = Ok f ∧ fnonneg f = true.
Proof.
  intros Hpre. pose proof (calculatePieceScore_nonneg _ _ _ _ Hpre) as Hpiece.
  destruct Hpre as (Hs & Hf & _). pose proof (calculateFreeLoadScore_nonneg _ Hs Hf) as Hload.
  unfold evaluatorBase_Evaluate. case_match; [exists minScore; split; [done|by vm_compute]|].
  destruct (affinity_ok (host_NetTopology (hostOf w parent)) (host_NetTopology (hostOf w child)))
    as (net & -> & Hnet & _).
  destruct (affinity_ok (host_Location (hostOf w parent)) (host_Location (hostOf w child)))
    as (loc & -> & Hloc & _).
  simpl. eexists. split; [done|].
  assert (fnonneg (calculateIDCAffinityScore (hostOf w parent) (hostOf w child)) = true)
    as Hidc by (unfold calculateIDCAffinityScore; case_match; by vm_compute).
  repeat apply fadd_nonneg; apply fmul_nonneg; first [assumption | by vm_compute].
Qed.

Context `{!Stats}.

Lemma exceeds_total x y : isNaN x = false → isNaN y = false → ∃ b, exceeds x y = Ok b.
Proof.
  intros Hx Hy. unfold exceeds, bigFloatCmp.
  assert (∃ c, SFcompare x y = Some c) as [c ->]; [|by eexists].
  destruct x as [[]|[]| |[]], y as [[]|[]| |[]]; try done; by eexists.
Qed.

Lemma evaluatorBase_IsBadNode_total `{!StatsLaws _} w p :
  ∃ b, evaluatorBase_IsBadNode w p = Ok b.
Proof.
  unfold evaluatorBase_IsBadNode. case_match; [by eexists|]. case_match; [by eexists|].
  set (raw := Peer_GetPieceCosts w p). case_match; [by eexists|].
  zbool. unfold minAvailableCostLen in *. unfold lastCost.
  destruct (last (LoadRawData raw)) as [c|] eqn:Hlast; simpl.
  - apply exceeds_total.
    + eapply LoadRawData_number. by eapply last_Some_elem_of.
    + apply fmul_not_NaN; [|by vm_compute]. apply Mean_number. lia.
  - apply last_None in Hlast. rewrite Hlast in *. simpl in *. lia.
Qed.

#[export] Instance NewEvaluatorBase_laws `{!StatsLaws _} : EvaluatorLaws NewEvaluatorBase.
Proof.
  split; simpl.
  - apply evaluatorBase_IsBadNode_total.
  - intros w parent child n Hpre.
    destruct (evaluatorBase_Evaluate_nonneg _ _ _ _ Hpre) as (f & -> & Hf).
    eauto with floats.
Qed.

End BaseLemmas.

(** ** Properties *)

(** the affinity of two element paths (network topology, location) always
    gets a score, between 0 and 1.  For two different non-empty paths it is a
    fifth for every leading element they share, at most five of them: no index
    is out of range although the bound is computed with [MaxInt]. *)
Theorem affinity_counts_shared_prefix dst src :
  dst ≠ ""%string → src ≠ ""%string → dst ≠ src →
  let ds := strings_Split "|"%char dst in
  let ss := strings_Split "|"%char src in
  ∃ k : nat, calculateMultiElementAffinityScore dst src = Ok (fdiv (fofZ (Z.of_nat k)) (fofZ 5)) ∧
    (k ≤ 5)%nat ∧ take k ds = take k ss ∧ (k ≤ length ds)%nat ∧ (k ≤ length ss)%nat ∧
    ((k < 5 ∧ k < length ds ∧ k < length ss)%nat → ds !! k ≠ ss !! k) ∧
    fleb minScore (fdiv (fofZ (Z.of_nat k)) (fofZ 5)) = true ∧
    fleb (fdiv (fofZ (Z.of_nat k)) (fofZ 5)) maxScore = true.
Proof.
  intros Hd Hs Hne ds ss. unfold calculateMultiElementAffinityScore.
  rewrite !bool_decide_eq_false_2 by done. simpl. destruct (decide (dst = src)) as [|_]; [done|].
  fold ds ss. rewrite MaxInt_min.
  set (n := if _ : bool then _ else _).
  assert (n = Z.min 5 (Z.min (Z.of_nat (length ds)) (Z.of_nat (length ss)))) as Hn.
  { subst n. unfold maxElementLen. case_match; zbool; lia. }
  destruct (matchElements_ok (Z.to_nat n) 0 ds ss 0) as (k & Hk & -> & Heqs & Hdiff); [lia..|].
  exists k. rewrite Z.add_0_l. cbn [mbind outcome_bind]. unfold maxElementLen.
  split; [done|]. split; [lia|]. split.
  { apply list_eq. intros i. destruct (decide (i < k)%nat) as [Hi|Hi].
    - rewrite !lookup_take_lt by done. apply Heqs. lia.
    - by rewrite !lookup_take_ge by lia. }
  split; [lia|]. split; [lia|]. split; [intros (?&?&?); apply Hdiff; lia|].
  apply fifths_unit. lia.
Qed.

Lemma affinity_counts_shared_prefix_witness :
  ∃ k : nat,
    calculateMultiElementAffinityScore "east|rack1|sw2" "east|rack1|sw3|p" =
      Ok (fdiv (fofZ (Z.of_nat k)) (fofZ 5)) ∧ (k ≤ 5)%nat.
Proof.
  destruct (affinity_counts_shared_prefix "east|rack1|sw2" "east|rack1|sw3|p")
    as (k & Hk & Hk5 & _); [discriminate..|].
  exists k. split; [exact Hk|exact Hk5].
Defined.

(** C39: in the situation the scheduler scores in - the parent has a free upload
    slot and at least the pieces of the child - the evaluation returns a number
    that is not NaN and not negative, so that sorting the scores is meaningful. *)
Theorem evaluate_is_a_number w parent child n :
  score_pre w parent child n →
  ∃ f, evaluatorBase_Evaluate w parent child n = Ok f ∧ fnonneg f = true ∧ isNaN f = false.
Proof.
  intros Hpre. destruct (evaluatorBase_Evaluate_nonneg _ _ _ _ Hpre) as (f & -> & Hf).
  eauto using fnonneg_not_NaN.
Qed.

(** Two peers of two client hosts, the first with a free slot. *)
Definition scoreWorld : World :=
  let w := (allocHost (emptyWorld 0) (NewClientHost "h1" "" "" 0 0 "" "" "" [])).1 in
  let w := (NewPeer w "p" 9 1).1 in
  let w := (NewPeer w "q" 9 1).1 in
  updPeer (set_peer_TotalPieceCount 7) 2%positive w.

Lemma evaluate_is_a_number_witness :
  ∃ f, evaluatorBase_Evaluate scoreWorld 2%positive 3%positive 10 = Ok f ∧ isNaN f = false.
Proof.
  destruct (evaluate_is_a_number scoreWorld 2%positive 3%positive 10) as (f & Hf & _ & Hn);
    [vm_compute; split_and!; congruence|].
  exists f. split; [exact Hf|exact Hn].
Defined.

(** Outside that situation the free-load score leaves the documented range
    0.0 to 1.0: a host that serves more uploads than its limit gets a score of
    about four billion (the difference wraps around), and a host without slots
    gets NaN. *)
Theorem free_load_score_out_of_range :
  fltb maxScore (calculateFreeLoadScore
    (set_host_CurrentUploadLoad 2 (NewClientHost "h" "" "" 0 0 "" "" "" [WithTotalUploadLoad 1])))
    = true ∧
  isNaN (calculateFreeLoadScore (NewClientHost "h" "" "" 0 0 "" "" "" [WithTotalUploadLoad 0])) = true.
Proof. split; by vm_compute. Qed.
