(* ===== verification/Searcher.v ===== *)
(** * Searcher: manager/searcher/searcher.go

    The choice of the scheduler cluster that serves a client daemon, with the
    scores on IEEE binary64.  The decoding of the scopes (mapstructure) is a
    parameter.  The cluster that is found is eligible and of the best score. *)

From S2P Require Import Prelude Containers World Supervisor GoFloat MathUtils Evaluator.
From Stdlib Require Import SpecFloat Ascii.
From stdpp Require Import options.
Local Open Scope Z_scope.

Definition ConditionSecurityDomain : string := "security_domain".
Definition ConditionIDC : string := "idc".
Definition ConditionNetTopology : string := "net_topology".
Definition ConditionLocation : string := "location".

Definition idcAffinityWeight : float64 := fdiv (fofZ 5) (fofZ 10).
Definition netTopologyAffinityWeight : float64 := fdiv (fofZ 3) (fofZ 10).
Definition locationAffinityWeight : float64 := fdiv (fofZ 2) (fofZ 10).
Definition maxScore : float64 := fofZ 1.
Definition minScore : float64 := fofZ 0.
Definition maxElementLen : Z := 5.

Record Scopes := mkScopes {
  sc_IDC : string;
  sc_Location : string;
  sc_NetTopology : string;
}.

Inductive SearchError :=
  | ErrEmptyConditions
  | ErrEmptyClusters
  | ErrSecurityDomain (domain : string).

(** The value of a key in a map, or the empty string. *)
Definition get (conditions : gmap string string) (key : string) : string := default ""%string (conditions !! key).

Definition calculateIDCAffinityScore (dst src : string) : float64 :=
  if bool_decide (dst = "") || bool_decide (src = "") then minScore
  else if decide (dst = src) then maxScore
  else if existsb (λ srcElement, bool_decide (dst = srcElement)) (strings_Split "|" src) then maxScore
  else minScore.

Definition calculateMultiElementAffinityScore (dst src : string) : Outcome float64 :=
  if bool_decide (dst = "") || bool_decide (src = "") then Ok minScore
  else if decide (dst = src) then Ok maxScore
  else
    let dstElements := strings_Split "|" dst in
    let srcElements := strings_Split "|" src in
    let elementLen := MaxInt (Z.of_nat (length dstElements)) (Z.of_nat (length srcElements)) in
    let elementLen := if maxElementLen <? elementLen then maxElementLen else elementLen in
    score ← matchElements (Z.to_nat elementLen) 0 dstElements srcElements 0;
    Ok (fdiv (fofZ score) (fofZ maxElementLen)).

Definition Evaluate (conditions : gmap string string) (scopes : Scopes) : Outcome float64 :=
  location ← calculateMultiElementAffinityScore (get conditions ConditionLocation) (sc_Location scopes);
  net ← calculateMultiElementAffinityScore (get conditions ConditionNetTopology) (sc_NetTopology scopes);
  Ok (fadd (fadd (fmul idcAffinityWeight (calculateIDCAffinityScore (get conditions ConditionIDC) (sc_IDC scopes)))
                 (fmul locationAffinityWeight location))
           (fmul netTopologyAffinityWeight net)).

Section Search.
Context {JSONMap : Type} (Decode : JSONMap → option Scopes).

(** model.SchedulerCluster, with the fields that are used. *)
Record SchedulerCluster := mkSchedulerCluster {
  cl_Name : string;
  cl_Scopes : JSONMap;
  cl_Schedulers : list string;
  cl_SecurityRules : list string;      (* the domains of its security group *)
}.

(** The clusters of the security domain, once for every rule that matches. *)
Definition matching (securityDomain : string) (schedulerClusters : list SchedulerCluster) : list SchedulerCluster :=
  concat ((λ c,
    if bool_decide (cl_Schedulers c = []) then []
    else if bool_decide (securityDomain = "") then [c]
    else (λ _, c) <$> filter (λ domain, domain = securityDomain) (cl_SecurityRules c)) <$> schedulerClusters).

(** The loop over the clusters. *)
Fixpoint best (conditions : gmap string string) (clusters : list SchedulerCluster) (max : float64)
    (result : SchedulerCluster) : Outcome SchedulerCluster :=
  match clusters with
  | [] => Ok result
  | cluster :: clusters =>
      match Decode (cl_Scopes cluster) with
      | None => best conditions clusters max result
      | Some scopes =>
          score ← Evaluate conditions scopes;
          if fltb max score then best conditions clusters score cluster
          else best conditions clusters max result
      end
  end.

Definition FindSchedulerCluster (schedulerClusters : list SchedulerCluster) (conditions : gmap string string)
    : Outcome (SearchError + SchedulerCluster) :=
  if bool_decide (conditions = ∅) then Ok (inl ErrEmptyConditions)
  else if bool_decide (schedulerClusters = []) then Ok (inl ErrEmptyClusters)
  else
    let securityDomain := get conditions ConditionSecurityDomain in
    match matching securityDomain schedulerClusters with
    | [] => Ok (inl (ErrSecurityDomain securityDomain))
    | [cluster] => Ok (inr cluster)
    | (result :: _) as clusters => inr <$> best conditions clusters (fofZ 0) result
    end.

(** ** The scores *)

Lemma Evaluate_ok conditions scopes : ∃ f, Evaluate conditions scopes = Ok f ∧ fnonneg f = true.
Proof.
  unfold Evaluate.
  destruct (affinity_ok (get conditions ConditionLocation) (sc_Location scopes)) as (l & Hl & Hln & _).
  change (calculateMultiElementAffinityScore (get conditions ConditionLocation) (sc_Location scopes) = Ok l) in Hl.
  destruct (affinity_ok (get conditions ConditionNetTopology) (sc_NetTopology scopes)) as (n & Hn & Hnn & _).
  change (calculateMultiElementAffinityScore (get conditions ConditionNetTopology) (sc_NetTopology scopes) = Ok n) in Hn.
  rewrite Hl. simpl. rewrite Hn. simpl. eexists. split; [done|].
  assert (fnonneg (calculateIDCAffinityScore (get conditions ConditionIDC) (sc_IDC scopes)) = true) as Hi.
  { unfold calculateIDCAffinityScore. repeat case_match; by vm_compute. }
  apply fadd_nonneg; [apply fadd_nonneg|]; by apply fmul_nonneg.
Qed.

(** The score of a cluster: none when its scopes cannot be decoded. *)
Definition scoreOf (conditions : gmap string string) (c : SchedulerCluster) : float64 :=
  match Decode (cl_Scopes c) with
  | None => fofZ 0
  | Some scopes => match Evaluate conditions scopes with Ok f => f | _ => fofZ 0 end
  end.

Lemma scoreOf_nonneg conditions c : fnonneg (scoreOf conditions c) = true.
Proof.
  unfold scoreOf. destruct (Decode _) as [scopes|]; [|by vm_compute].
  by destruct (Evaluate_ok conditions scopes) as (f & -> & Hf).
Qed.

(** A cluster that may serve the client. *)
Definition eligible (securityDomain : string) (c : SchedulerCluster) : Prop :=
  cl_Schedulers c ≠ [] ∧ (securityDomain = ""%string ∨ securityDomain ∈ cl_SecurityRules c).

Lemma matching_eligible securityDomain l c : c ∈ matching securityDomain l ↔ c ∈ l ∧ eligible securityDomain c.
Proof.
  unfold matching, eligible. rewrite list_elem_of_In, in_concat. split.
  - intros (l' & Hl' & Hc). apply list_elem_of_In in Hl', Hc. apply list_elem_of_fmap in Hl' as (c' & -> & Hc').
    case_bool_decide; [by apply elem_of_nil in Hc|]. case_bool_decide.
    + apply list_elem_of_singleton in Hc as ->. auto.
    + apply list_elem_of_fmap in Hc as (d & -> & [-> Hd]%list_elem_of_filter). auto.
  - intros [Hl [Hs Hd]]. eexists. split; apply list_elem_of_In.
    + apply list_elem_of_fmap. by exists c.
    + simpl. rewrite bool_decide_eq_false_2 by done. case_bool_decide as He; [apply list_elem_of_singleton; done|].
      destruct Hd as [|Hd]; [done|]. apply list_elem_of_fmap. exists securityDomain. split; [done|].
      by apply list_elem_of_filter.
Qed.

Lemma best_ok conditions clusters max result : fnonneg max = true → fge (scoreOf conditions result) max →
  ∃ r, best conditions clusters max result = Ok r ∧ (r = result ∨ r ∈ clusters) ∧
    fge (scoreOf conditions r) max ∧ ∀ c, c ∈ clusters → fge (scoreOf conditions r) (scoreOf conditions c).
Proof.
  revert max result. induction clusters as [|c clusters IH]; intros max result Hmax Hres; simpl.
  { exists result. split_and!; [done|by left|done|]. by intros c ?%elem_of_nil. }
  assert (∀ r, (∀ c, c ∈ clusters → fge (scoreOf conditions r) (scoreOf conditions c)) →
    fge (scoreOf conditions r) (scoreOf conditions c) →
    ∀ c', c' ∈ c :: clusters → fge (scoreOf conditions r) (scoreOf conditions c')) as Hcons.
  { intros r Hr Hrc c' [->|Hc']%elem_of_cons; auto. }
  pose proof (scoreOf_nonneg conditions c) as Hsc.
  assert (¬ fltb max (scoreOf conditions c) = true → fge max (scoreOf conditions c)) as Hnot.
  { intros Hn Hk. apply Hn. apply fltb_key; [by apply fnonneg_not_NaN..|done]. }
  destruct (Decode (cl_Scopes c)) as [scopes|] eqn:Hd.
  - destruct (Evaluate_ok conditions scopes) as (f & Hf & Hnn). rewrite Hf. simpl.
    assert (scoreOf conditions c = f) as Hcf by (unfold scoreOf; by rewrite Hd, Hf).
    destruct (fltb max f) eqn:Hlt.
    + destruct (IH f c Hnn) as (r & -> & Hr & Hrf & Hall); [rewrite Hcf; apply fge_refl|].
      exists r. split; [done|]. split; [right; destruct Hr as [->|?]; [by left|by right]|].
      assert (fge f max) as Hfm.
      { intros Hk. apply fltb_key in Hlt; [|by apply fnonneg_not_NaN..]. by eapply key_lt_irrefl, key_lt_trans. }
      split; [by trans f|]. apply Hcons; [done|]. by rewrite Hcf.
    + destruct (IH max result Hmax Hres) as (r & -> & Hr & Hrm & Hall). exists r. split; [done|].
      split; [destruct Hr as [->|?]; [by left|right; by right]|]. split; [done|]. apply Hcons; [done|].
      trans max; [done|]. apply Hnot. rewrite Hcf. congruence.
  - destruct (IH max result Hmax Hres) as (r & -> & Hr & Hrm & Hall). exists r. split; [done|].
    split; [destruct Hr as [->|?]; [by left|right; by right]|]. split; [done|]. apply Hcons; [done|].
    unfold scoreOf at 2. rewrite Hd. intros Hk. apply fltb_key in Hk; [|by apply fnonneg_not_NaN, scoreOf_nonneg|done].
    pose proof (scoreOf_nonneg conditions r) as Hn. destruct (scoreOf conditions r) as [[]|[]| |[] ? ?]; done.
Qed.

(** C40: For a request with conditions and a list with clusters, the search finds
    a cluster exactly when one is eligible, that is, has a scheduler and a rule
    of the client's security domain, or a scheduler alone when the client gives
    no domain; the cluster it finds is eligible and has the best score of all
    that are, where a cluster whose scopes cannot be decoded has the score 0. *)
Theorem FindSchedulerCluster_best schedulerClusters conditions :
  conditions ≠ ∅ → schedulerClusters ≠ [] →
  let domain := get conditions ConditionSecurityDomain in
  (∃ c, FindSchedulerCluster schedulerClusters conditions = Ok (inr c) ∧ c ∈ schedulerClusters ∧ eligible domain c ∧
     ∀ c', c' ∈ schedulerClusters → eligible domain c' → fltb (scoreOf conditions c) (scoreOf conditions c') = false) ∨
  FindSchedulerCluster schedulerClusters conditions = Ok (inl (ErrSecurityDomain domain)) ∧
    ∀ c, c ∈ schedulerClusters → ¬ eligible domain c.
Proof.
  intros Hc Hs domain. unfold FindSchedulerCluster. rewrite !bool_decide_eq_false_2 by done. fold domain.
  pose proof (matching_eligible domain schedulerClusters) as Hm.
  assert (∀ c, c ∈ matching domain schedulerClusters →
    (∀ c', c' ∈ matching domain schedulerClusters → fge (scoreOf conditions c) (scoreOf conditions c')) →
    c ∈ schedulerClusters ∧ eligible domain c ∧
    ∀ c', c' ∈ schedulerClusters → eligible domain c' → fltb (scoreOf conditions c) (scoreOf conditions c') = false) as Hall.
  { intros c [Hcl Hel]%Hm Hmax. split_and!; [done..|]. intros c' Hc' He'. apply not_true_is_false. intros Hlt.
    apply fltb_key in Hlt; [|apply fnonneg_not_NaN, scoreOf_nonneg..]. by apply (Hmax c'); [apply Hm|]. }
  destruct (matching domain schedulerClusters) as [|r [|r2 rest]] eqn:E.
  - right. split; [done|]. intros c Hcl He. apply (not_elem_of_nil c). by apply Hm.
  - left. exists r. split; [done|]. apply Hall; [by left|]. intros c' ->%list_elem_of_singleton. apply fge_refl.
  - left. destruct (best_ok conditions (r :: r2 :: rest) (fofZ 0) r) as (c & -> & Hin & _ & Hmax); [done| |].
    { intros Hk. apply fltb_key in Hk; [|by apply fnonneg_not_NaN, scoreOf_nonneg|done].
      pose proof (scoreOf_nonneg conditions r). by destruct (scoreOf conditions r) as [[]|[]| |[] ? ?]. }
    exists c. split; [done|]. apply Hall; [|done]. destruct Hin as [->|?]; [by left|done].
Qed.

End Search.

(** ** A witness: two clusters, the second of which is nearer *)

Definition demoClusters : list SchedulerCluster :=
  [mkSchedulerCluster "far" (mkScopes "nj" "asia|cn" "") ["s1"] ["d1"];
   mkSchedulerCluster "near" (mkScopes "hz|sh" "asia|cn|hz" "") ["s2"] ["d1"; "d2"];
   mkSchedulerCluster "closed" (mkScopes "hz" "asia|cn|hz" "") ["s3"] ["d2"]].

Definition demoConditions : gmap string string :=
  {[ ConditionSecurityDomain := "d1"; ConditionIDC := "hz"; ConditionLocation := "asia|cn|hz" ]}.

Lemma FindSchedulerCluster_best_witness :
  FindSchedulerCluster Some demoClusters demoConditions =
    Ok (inr (mkSchedulerCluster "near" (mkScopes "hz|sh" "asia|cn|hz" "") ["s2"] ["d1"; "d2"])) ∧
  ((∃ c, FindSchedulerCluster Some demoClusters demoConditions = Ok (inr c) ∧ c ∈ demoClusters ∧ eligible "d1" c ∧
      ∀ c', c' ∈ demoClusters → eligible "d1" c' → fltb (scoreOf Some demoConditions c) (scoreOf Some demoConditions c') = false) ∨
   FindSchedulerCluster Some demoClusters demoConditions = Ok (inl (ErrSecurityDomain "d1")) ∧
     ∀ c, c ∈ demoClusters → ¬ eligible "d1" c).
Proof.
  split; [vm_compute; reflexivity|].
  refine (FindSchedulerCluster_best Some demoClusters demoConditions _ _); [|discriminate].
  intros E. apply (f_equal (lookup ConditionIDC)) in E. vm_compute in E. discriminate E.
Defined.
