(* ===== verification/BasicScheduler.v ===== *)
(** * BasicScheduler: scheduler/core/scheduler/basic

    The rule-based scheduler: which peers of a task may serve as parents or
    children of a peer, and how the best ones are picked and linked.  It is
    parameterised by the evaluator interface of Evaluator.v and by the
    configured number of candidate parents. *)

From Stdlib Require Import SpecFloat.
From S2P Require Import Prelude Containers World Supervisor PeerTree Managers Invariant Scheduler.
From S2P Require Import GoFloat Evaluator.
From stdpp Require Import options.
Local Open Scope Z_scope.

Section Scheduler.
Context `{E : !Evaluator} (CandidateParentCount : Z).

(** ** Candidates *)

Definition childFilter (w : World) (peer : PeerRef) (blankChildren : gset string)
    (candidate : PeerRef) : Outcome bool :=
  if decide (peer_ID (getPeer w candidate) ∈ blankChildren) then Ok false
  else if Peer_IsDone w candidate then Ok false
  else if Peer_IsLeave w candidate then Ok false
  else if Peer_IsWaiting w candidate then Ok false
  else if decide (candidate = peer) then Ok false
  else
    ancestor ← Peer_IsAncestor w candidate (Some peer);
    if ancestor : bool then Ok false
    else if peer_TotalPieceCount (getPeer w peer)
              <=? peer_TotalPieceCount (getPeer w candidate) then Ok false
    else if host_IsCDN (hostOf w candidate) then Ok false
    else if negb (Peer_IsConnected w candidate) then Ok false
    else match Peer_GetParent w candidate with
         | None => Ok true
         | Some parent => _ ← IsBadNode w parent; Ok true
         end.

Definition selectCandidateChildren (w : World) (peer : PeerRef) (limit : Z)
    (blankChildren : gset string) : Outcome (list PeerRef) :=
  Task_Pick w (peer_Task (getPeer w peer)) limit (childFilter w peer blankChildren).

Definition parentFilter (w : World) (peer : PeerRef) (blankParents : gset string)
    (candidate : PeerRef) : Outcome bool :=
  if decide (peer_ID (getPeer w candidate) ∈ blankParents) then Ok false
  else
    bad ← IsBadNode w candidate;
    if bad : bool then Ok false
    else if Peer_IsLeave w candidate then Ok false
    else if decide (candidate = peer) then Ok false
    else
      descendant ← Peer_IsDescendant w candidate (Some peer);
      if descendant : bool then Ok false
      else if Host_GetFreeUploadLoad (hostOf w candidate) <=? 0 then Ok false
      else if Peer_IsWaiting w candidate then Ok false
      else if peer_TotalPieceCount (getPeer w candidate)
                <=? peer_TotalPieceCount (getPeer w peer) then Ok false
      else Ok true.

Definition selectCandidateParents (w : World) (peer : PeerRef) (limit : Z)
    (blankParents : gset string) : Outcome (list PeerRef) :=
  if negb (Task_CanSchedule w (peer_Task (getPeer w peer))) then Ok []
  else Task_PickReverse w (peer_Task (getPeer w peer)) limit (parentFilter w peer blankParents).

(** ** Ranking: [evalResult] and [evalScore] *)

Definition scoreStep (score : PeerRef → Outcome float64)
    (acc : list (float64 * list PeerRef) * list float64) (p : PeerRef)
    : Outcome (list (float64 * list PeerRef) * list float64) :=
  let '(evalResult, evalScore) := acc in
  s ← score p;
  Ok (fmapAppend s p evalResult, evalScore ++ [s]).

Definition scoreAll (score : PeerRef → Outcome float64) (l : list PeerRef)
    : Outcome (list (float64 * list PeerRef) * list float64) :=
  foldM (scoreStep score) l ([], []).

(** The groups by descending score: one group per entry of the sorted scores. *)
Definition rankedGroups (evalResult : list (float64 * list PeerRef)) (evalScore : list float64)
    : list (list PeerRef) :=
  (λ k, fmapGet k evalResult) <$> reverse (sortFloat64s evalScore).

(** ** ScheduleChildren *)

(** The inner loop over one group: stops when no upload slot is free, skips
    the peers already below [peer]. *)
Fixpoint takeChildren (w : World) (peer : PeerRef) (group : list PeerRef)
    (acc : list PeerRef * Z) : list PeerRef * Z :=
  match group with
  | [] => acc
  | child :: group =>
      let '(children, freeUpload) := acc in
      if freeUpload <=? 0 then acc
      else if decide (Peer_GetParent w child = Some peer)
      then takeChildren w peer group acc
      else takeChildren w peer group (children ++ [child], freeUpload - 1)
  end.

Fixpoint takeGroups (w : World) (peer : PeerRef) (groups : list (list PeerRef))
    (acc : list PeerRef * Z) : list PeerRef * Z :=
  match groups with
  | [] => acc
  | group :: groups =>
      if acc.2 <=? 0 then acc
      else takeGroups w peer groups (takeChildren w peer group acc)
  end.

Definition basic_ScheduleChildren (w : World) (peer : PeerRef) (blankChildren : gset string)
    : Outcome (World * list PeerRef) :=
  bad ← IsBadNode w peer;
  if bad : bool then Ok (w, [])
  else
    let freeUpload := Host_GetFreeUploadLoad (hostOf w peer) in
    candidateChildren ← selectCandidateChildren w peer (freeUpload * 2) blankChildren;
    if decide (candidateChildren = []) then Ok (w, [])
    else
      let taskTotalPieceCount := task_TotalPieceCount (taskOf w peer) in
      '(evalResult, evalScore) ←
        scoreAll (λ child, Evaluate w peer child taskTotalPieceCount) candidateChildren;
      let '(children, _) :=
        takeGroups w peer (rankedGroups evalResult evalScore) ([], freeUpload) in
      Ok (foldl (λ w child, Peer_ReplaceParent w child (Some peer)) w children, children).

(** ** ScheduleParent *)

Definition basic_ScheduleParent (w : World) (peer : PeerRef) (blankParents : gset string)
    : Outcome (World * option (PeerRef * list PeerRef)) :=
  candidateParents ← selectCandidateParents w peer CandidateParentCount blankParents;
  if decide (candidateParents = []) then Ok (w, None)
  else
    let taskTotalPieceCount := task_TotalPieceCount (taskOf w peer) in
    '(evalResult, evalScore) ←
      scoreAll (λ parent, Evaluate w parent peer taskTotalPieceCount) candidateParents;
    match concat (rankedGroups evalResult evalScore) with
    | [] => Panic IndexOutOfRange
    | primary :: rest =>
        let w := match Peer_GetParent w peer with
                 | Some parent =>
                     if decide (primary = parent) then w
                     else Peer_ReplaceParent w peer (Some primary)
                 | None => w
                 end in
        Ok (w, Some (primary, rest))
    end.

End Scheduler.

(** ** Picking: a bounded filter of the task's peers *)

Section Picking.
Context (limit : Z) (pickFn : PeerRef → Outcome bool).

(** The callback answers [true]. *)
Definition selected (x : PeerRef) : Prop := pickFn x = Ok true.

#[global] Instance selected_dec x : Decision (selected x).
Proof.
  unfold selected. destruct (pickFn x) as [[]|r|]; [by left|by right..].
Defined.

Lemma pick_Range_spec l acc r :
  sortedList_Range (pick_step limit pickFn) l acc = Ok r →
  r = acc ++ take (Z.to_nat limit - length acc) (filter selected l).
Proof.
  revert acc. induction l as [|x l IH]; intros acc; simpl.
  - intros [= <-]. by rewrite filter_nil, take_nil, app_nil_r.
  - destruct (pick_step limit pickFn acc x) as [[acc' go]|?|] eqn:Hstep; simpl; [|done..].
    revert Hstep. unfold pick_step. destruct (limit <=? Z.of_nat (length acc)) eqn:Hlim; zbool.
    + intros [= <- <-] [= <-]. replace (_ - _)%nat with 0%nat by lia.
      by rewrite take_0, app_nil_r.
    + destruct (pickFn x) as [b|?|] eqn:Hx; simpl; [|done..]. intros [= <- <-] ->%IH.
      rewrite filter_cons. destruct b.
      * rewrite decide_True by done. rewrite length_app, <-app_assoc. simpl.
        destruct (Z.to_nat limit - length acc)%nat as [|k] eqn:Hk; [lia|].
        simpl. do 3 f_equal. lia.
      * rewrite decide_False; [done|]. unfold selected. by rewrite Hx.
Qed.

Lemma pick_Range_total l acc :
  (∀ x, x ∈ l → ∃ b, pickFn x = Ok b) →
  ∃ r, sortedList_Range (pick_step limit pickFn) l acc = Ok r.
Proof.
  revert acc. induction l as [|x l IH]; intros acc Hl; simpl; [by eexists|].
  assert (∃ acc' go, pick_step limit pickFn acc x = Ok (acc', go)) as (acc' & go & ->).
  { unfold pick_step. destruct (limit <=? Z.of_nat (length acc)); [by eexists _, _|].
    destruct (Hl x) as [b ->]; [by left|]. by eexists _, _. }
  simpl. destruct go; [|by eexists]. apply IH. intros y Hy. apply Hl. by right.
Qed.

Lemma Task_Pick_spec w t :
  (∀ x, x ∈ ul_container (Task_GetPeers w t) → ∃ b, pickFn x = Ok b) →
  Task_Pick w t limit pickFn =
    Ok (take (Z.to_nat limit) (filter selected (ul_container (Task_GetPeers w t)))).
Proof.
  intros Hl. destruct (pick_Range_total _ [] Hl) as [r Hr].
  unfold Task_Pick, sortedUniqueList_Range. rewrite Hr. f_equal.
  apply pick_Range_spec in Hr as ->. simpl. by rewrite Nat.sub_0_r.
Qed.

Lemma Task_PickReverse_spec w t :
  (∀ x, x ∈ ul_container (Task_GetPeers w t) → ∃ b, pickFn x = Ok b) →
  Task_PickReverse w t limit pickFn =
    Ok (take (Z.to_nat limit) (filter selected (reverse (ul_container (Task_GetPeers w t))))).
Proof.
  intros Hl. destruct (pick_Range_total (reverse (ul_container (Task_GetPeers w t))) [])
    as [r Hr]; [intros x; rewrite elem_of_reverse; apply Hl|].
  unfold Task_PickReverse, sortedUniqueList_ReverseRange, sortedList_ReverseRange.
  rewrite Hr. f_equal. apply pick_Range_spec in Hr as ->. simpl. by rewrite Nat.sub_0_r.
Qed.

End Picking.

(** ** Ranking: candidates by descending score *)

Section Ranking.
Context (sc : PeerRef → float64).

Definition rank (l : list PeerRef) : list PeerRef :=
  concat (rankedGroups (groupByScore sc l) (sc <$> l)).

Definition with_score (l : list PeerRef) (k : float64) : list PeerRef :=
  filter (λ x, feqb k (sc x) = true) l.

Lemma rankedGroups_eq l :
  rankedGroups (groupByScore sc l) (sc <$> l) =
  with_score l <$> reverse (sortFloat64s (sc <$> l)).
Proof. apply list_fmap_ext. intros _ k _. apply fmapGet_groupByScore. Qed.

Lemma elem_of_scores l k : k ∈ reverse (sortFloat64s (sc <$> l)) ↔ k ∈ sc <$> l.
Proof. by rewrite elem_of_reverse, sortFloat64s_perm. Qed.

Lemma feqb_refl k : isNaN k = false → feqb k k = true.
Proof. intros Hk. by apply feqb_key. Qed.

Definition no_NaN (l : list PeerRef) : Prop := ∀ x, x ∈ l → isNaN (sc x) = false.

(** Ranking neither adds nor loses a candidate. *)
Lemma elem_of_rank l x : no_NaN l → x ∈ rank l ↔ x ∈ l.
Proof.
  intros Hn. unfold rank. rewrite rankedGroups_eq, list_elem_of_In, in_concat. split.
  - intros (g & Hg & Hx). rewrite <-list_elem_of_In in Hg; rewrite <-list_elem_of_In in Hx.
    apply list_elem_of_fmap in Hg as (k & -> & _).
    by apply list_elem_of_filter in Hx as [_ Hx].
  - intros Hx. exists (with_score l (sc x)). rewrite <-!list_elem_of_In. split.
    + apply list_elem_of_fmap. eexists. split; [done|].
      apply elem_of_scores. by apply list_elem_of_fmap_2.
    + apply list_elem_of_filter. split; [|done]. by apply feqb_refl, Hn.
Qed.

Lemma with_score_key l k x :
  no_NaN l → isNaN k = false → x ∈ with_score l k → x ∈ l ∧ fkey k = fkey (sc x).
Proof.
  intros Hn Hk [Heq Hx]%list_elem_of_filter. split; [done|].
  apply feqb_key; [done|by apply Hn|done].
Qed.

(** The ranking is by descending score. *)
Lemma rank_sorted l :
  no_NaN l → StronglySorted (λ x y, fge (sc x) (sc y)) (rank l).
Proof.
  intros Hn. unfold rank. rewrite rankedGroups_eq.
  assert (∀ k, k ∈ sc <$> l → isNaN k = false) as Hall.
  { intros k (x & -> & Hx)%list_elem_of_fmap. by apply Hn. }
  assert (Forall (λ k, isNaN k = false) (reverse (sortFloat64s (sc <$> l)))) as Hks.
  { apply Forall_forall. intros k. rewrite elem_of_scores. apply Hall. }
  assert (StronglySorted fge (reverse (sortFloat64s (sc <$> l)))) as Hs.
  { apply StronglySorted_reverse, sortFloat64s_sorted. by apply Forall_forall. }
  induction Hs as [|k ks Hs IH Hk]; simpl; [constructor|].
  apply Forall_cons in Hks as [Hnk Hks].
  apply StronglySorted_app_2; [| |by apply IH].
  - intros x y Hx Hy. apply with_score_key in Hx as [_ Hx]; [|done..].
    rewrite list_elem_of_In, in_concat in Hy. destruct Hy as (g & Hg & Hy).
    rewrite <-list_elem_of_In in Hg. rewrite <-list_elem_of_In in Hy.
    apply list_elem_of_fmap in Hg as (k' & -> & Hk').
    apply with_score_key in Hy as [_ Hy]; [|done|by eapply Forall_forall in Hks].
    unfold fge. rewrite <-Hx, <-Hy. by eapply Forall_forall in Hk.
  - clear IH. assert (∀ x, x ∈ with_score l k → fkey k = fkey (sc x)) as Hkey.
    { intros x Hx. by apply with_score_key in Hx as [_ ?]. }
    induction (with_score l k) as [|x g IHg]; constructor.
    + apply IHg. intros y Hy. apply Hkey. by right.
    + apply Forall_forall. intros y Hy. unfold fge.
      rewrite <-(Hkey x), <-(Hkey y) by (by left || by right). apply fge_refl with (x := k).
Qed.

(** A candidate occurs once for every candidate of its score. *)
Lemma rank_count l x :
  NoDup l → no_NaN l → x ∈ l →
  length (filter (.= x) (rank l)) = length (with_score l (sc x)).
Proof.
  intros Hnd Hn Hx. unfold rank. rewrite rankedGroups_eq.
  assert (∀ k, length (filter (.= x) (with_score l k)) =
    length (filter (λ k, feqb k (sc x) = true) [k])) as Hone.
  { intros k. unfold with_score. rewrite list_filter_filter.
    rewrite (list_filter_iff _ (λ y, feqb k (sc y) = true ∧ y = x)) by naive_solver.
    rewrite <-(list_filter_filter (λ y, feqb k (sc y) = true) (.= x)).
    rewrite (filter_eq_NoDup x l Hnd Hx), !filter_cons. repeat case_decide; done. }
  transitivity (length (filter (λ k, feqb k (sc x) = true) (reverse (sortFloat64s (sc <$> l))))).
  - induction (reverse (sortFloat64s (sc <$> l))) as [|k ks IH]; [done|].
    rewrite fmap_cons. simpl. rewrite (filter_app (.= x)), length_app, IH, Hone.
    rewrite (filter_app _ [k] ks : filter _ (k :: ks) = _), length_app. done.
  - rewrite reverse_Permutation, sortFloat64s_perm. unfold with_score.
    clear. induction l as [|y l IH]; [done|]. rewrite fmap_cons, !filter_cons.
    rewrite (feqb_sym (sc y)). case_decide; simpl; by rewrite IH.
Qed.

(** The first of a ranking has the maximal score. *)
Lemma rank_head l x rest :
  no_NaN l → rank l = x :: rest → x ∈ l ∧ ∀ y, y ∈ l → fge (sc x) (sc y).
Proof.
  intros Hn Hl. split; [apply elem_of_rank; [done|]; rewrite Hl; by left|].
  intros y Hy. pose proof (rank_sorted l Hn) as Hs. rewrite Hl in Hs.
  apply (elem_of_rank _ _ Hn) in Hy. rewrite Hl in Hy. apply elem_of_cons in Hy as [->|Hy].
  - apply fge_refl.
  - inversion Hs as [|?? _ Hall]; subst. by eapply Forall_forall in Hall.
Qed.

Lemma rank_nil l : no_NaN l → rank l = [] → l = [].
Proof.
  intros Hn Hl. destruct l as [|x l]; [done|].
  assert (x ∈ rank (x :: l)) as Hx by (apply elem_of_rank; [done|by left]).
  rewrite Hl in Hx. by apply elem_of_nil in Hx.
Qed.

(** The scores of a list, when every evaluation answers. *)
Definition scoreOf (score : PeerRef → Outcome float64) (x : PeerRef) : float64 :=
  match score x with Ok f => f | _ => S754_nan end.

Lemma scoreAll_spec score l :
  (∀ x, x ∈ l → score x = Ok (sc x)) →
  scoreAll score l = Ok (groupByScore sc l, sc <$> l).
Proof.
  unfold scoreAll, groupByScore. intros Hsc.
  assert (∀ m s, foldM (scoreStep score) l (m, s) =
    Ok (foldl (λ m x, fmapAppend (sc x) x m) m l, s ++ (sc <$> l))) as Hgen; [|by rewrite Hgen].
  induction l as [|x l IH]; intros m s; simpl; [by rewrite app_nil_r|].
  rewrite Hsc by (by left). simpl. rewrite IH; [by rewrite <-app_assoc|].
  intros y Hy. apply Hsc. by right.
Qed.

End Ranking.

(** ** Who may be picked *)

Set Default Proof Using "Type*".

Section Eligibility.
Context `{E : !Evaluator} `{EL : !EvaluatorLaws E}.
Implicit Types (w : World) (peer c : PeerRef) (blank : gset string).

Record eligible_parent w peer blank c : Prop := {
  ep_blank : peer_ID (getPeer w c) ∉ blank;
  ep_good : IsBadNode w c = Ok false;
  ep_stays : Peer_IsLeave w c = false;
  ep_other : c ≠ peer;
  ep_above : ¬ ∃ q, tc (parent_rel w) c q ∧ peer_ID (getPeer w q) = peer_ID (getPeer w peer);
  ep_free : 0 < Host_GetFreeUploadLoad (hostOf w c);
  ep_runs : Peer_IsWaiting w c = false;
  ep_ahead : peer_TotalPieceCount (getPeer w peer) < peer_TotalPieceCount (getPeer w c);
}.

Record eligible_child w peer blank c : Prop := {
  ec_blank : peer_ID (getPeer w c) ∉ blank;
  ec_busy : Peer_IsDone w c = false;
  ec_stays : Peer_IsLeave w c = false;
  ec_runs : Peer_IsWaiting w c = false;
  ec_other : c ≠ peer;
  ec_below : ¬ ∃ q, tc (parent_rel w) peer q ∧ peer_ID (getPeer w q) = peer_ID (getPeer w c);
  ec_behind : peer_TotalPieceCount (getPeer w c) < peer_TotalPieceCount (getPeer w peer);
  ec_client : host_IsCDN (hostOf w c) = false;
  ec_connected : Peer_IsConnected w c = true;
}.

(** The answer of a filter: [true] exactly on the eligible candidates. *)
Definition decides (o : Outcome bool) (P : Prop) : Prop :=
  ∃ b : bool, o = Ok b ∧ (b = true ↔ P).

Lemma decides_true o P : decides o P → o = Ok true ↔ P.
Proof. intros (b & -> & Hb). rewrite <-Hb. split; congruence. Qed.

Lemma decides_false (P : Prop) : ¬ P → decides (Ok false) P.
Proof. intros HP. exists false. split; [done|]. split; [done|]. by intros. Qed.

Lemma isDescendant_decides w a o :
  acyclic w →
  decides (isDescendant w (Some a) (Some o))
    (∃ q, tc (parent_rel w) o q ∧ peer_ID (getPeer w q) = peer_ID (getPeer w a)).
Proof.
  intros Hac. destruct (isDescendant_total w (Some a) (Some o) Hac) as [b Hb].
  exists b. split; [done|]. by eapply descendantLoop_spec.
Qed.

Lemma parentFilter_decides w peer blank c :
  acyclic w → decides (parentFilter w peer blank c) (eligible_parent w peer blank c).
Proof.
  intros Hac. unfold parentFilter.
  destruct (decide _) as [Hbl|Hbl]; [apply decides_false; by intros []|].
  destruct (IsBadNode_total w c) as [[] Hbad]; rewrite Hbad; simpl;
    [apply decides_false; intros []; congruence|].
  destruct (Peer_IsLeave w c) eqn:Hlv; [apply decides_false; intros []; congruence|].
  destruct (decide (c = peer)) as [Heq|Hne]; [apply decides_false; by intros []|].
  destruct (isDescendant_decides w peer c Hac) as (d & Hd & Hdesc).
  unfold Peer_IsDescendant. rewrite Hd. simpl.
  destruct d; [apply decides_false; intros []; naive_solver|].
  destruct (_ <=? 0) eqn:Hfree; zbool; [apply decides_false; intros []; lia|].
  destruct (Peer_IsWaiting w c) eqn:Hwt; [apply decides_false; intros []; congruence|].
  destruct (_ <=? _) eqn:Hcnt; zbool; [apply decides_false; intros []; lia|].
  exists true. split; [done|]. split; [|done]. intros _. split; try done; try lia.
  intros Hq. by apply Hdesc in Hq.
Qed.

Lemma childFilter_decides w peer blank c :
  acyclic w → decides (childFilter w peer blank c) (eligible_child w peer blank c).
Proof.
  intros Hac. unfold childFilter.
  destruct (decide _) as [Hbl|Hbl]; [apply decides_false; by intros []|].
  destruct (Peer_IsDone w c) eqn:Hdn; [apply decides_false; intros []; congruence|].
  destruct (Peer_IsLeave w c) eqn:Hlv; [apply decides_false; intros []; congruence|].
  destruct (Peer_IsWaiting w c) eqn:Hwt; [apply decides_false; intros []; congruence|].
  destruct (decide (c = peer)) as [Heq|Hne]; [apply decides_false; by intros []|].
  destruct (isDescendant_decides w c peer Hac) as (d & Hd & Hdesc).
  unfold Peer_IsAncestor. rewrite Hd. simpl.
  destruct d; [apply decides_false; intros []; naive_solver|].
  destruct (_ <=? _) eqn:Hcnt; zbool; [apply decides_false; intros []; lia|].
  destruct (host_IsCDN _) eqn:Hcdn; [apply decides_false; intros []; congruence|].
  destruct (Peer_IsConnected w c) eqn:Hcn; simpl; [|apply decides_false; intros []; congruence].
  assert (eligible_child w peer blank c) as Hc.
  { split; try done. intros Hq. by apply Hdesc in Hq. }
  destruct (Peer_GetParent w c) as [o|]; [|by exists true].
  destruct (IsBadNode_total w o) as [b ->]. simpl. by exists true.
Qed.

(** The guards exclude the links that would close a cycle. *)
Lemma eligible_parent_may_follow w peer blank c :
  eligible_parent w peer blank c → may_follow w peer c.
Proof. intros Hc. split; [apply Hc|]. intros Htc. apply (ep_above _ _ _ _ Hc). eauto. Qed.

Lemma eligible_child_may_follow w peer blank c :
  eligible_child w peer blank c → may_follow w c peer.
Proof.
  intros Hc. split; [intros ->; by apply (ec_other _ _ _ _ Hc)|].
  intros Htc. apply (ec_below _ _ _ _ Hc). eauto.
Qed.

(** The candidates: the first [limit] eligible peers of the task, from the
    most loaded end of its list for parents and from the other for children. *)
Definition peers_of_task w peer : list PeerRef :=
  ul_container (Task_GetPeers w (peer_Task (getPeer w peer))).

Lemma selectCandidateParents_spec w peer limit blank :
  acyclic w → Task_CanSchedule w (peer_Task (getPeer w peer)) = true →
  selectCandidateParents w peer limit blank =
    Ok (take (Z.to_nat limit)
         (filter (selected (parentFilter w peer blank)) (reverse (peers_of_task w peer)))).
Proof.
  intros Hac Hcan. unfold selectCandidateParents. rewrite Hcan. simpl.
  apply Task_PickReverse_spec. intros x _.
  destruct (parentFilter_decides w peer blank x Hac) as (b & -> & _). eauto.
Qed.

Lemma selectCandidateChildren_spec w peer limit blank :
  acyclic w →
  selectCandidateChildren w peer limit blank =
    Ok (take (Z.to_nat limit)
         (filter (selected (childFilter w peer blank)) (peers_of_task w peer))).
Proof.
  intros Hac. apply Task_Pick_spec. intros x _.
  destruct (childFilter_decides w peer blank x Hac) as (b & -> & _). eauto.
Qed.

End Eligibility.

(** ** The loop over the ranked groups *)

Section Taking.
Context (w : World) (peer : PeerRef).

Definition elsewhere (c : PeerRef) : Prop := Peer_GetParent w c ≠ Some peer.

#[global] Instance elsewhere_dec c : Decision (elsewhere c).
Proof. unfold elsewhere. apply _. Defined.

Lemma takeChildren_spec g acc free :
  0 <= free →
  takeChildren w peer g (acc, free) =
    (acc ++ take (Z.to_nat free) (filter elsewhere g),
     free - Z.of_nat (length (take (Z.to_nat free) (filter elsewhere g)))).
Proof.
  revert acc free. induction g as [|c g IH]; intros acc free Hf; simpl.
  - rewrite filter_nil, take_nil, app_nil_r. f_equal. simpl. lia.
  - destruct (free <=? 0) eqn:H0; zbool.
    + assert (free = 0) as -> by lia. by rewrite app_nil_r.
    + rewrite filter_cons.
      destruct (decide (Peer_GetParent w c = Some peer)) as [Hp|Hp].
      * rewrite !(decide_False (P := elsewhere c)) by naive_solver. by apply IH.
      * rewrite !(decide_True (P := elsewhere c)) by done. rewrite IH by lia.
        replace (Z.to_nat free) with (S (Z.to_nat (free - 1))) by lia. simpl.
        rewrite <-app_assoc. f_equal. lia.
Qed.

Lemma takeGroups_spec gs acc free :
  0 <= free →
  takeGroups w peer gs (acc, free) =
    (acc ++ take (Z.to_nat free) (filter elsewhere (concat gs)),
     free - Z.of_nat (length (take (Z.to_nat free) (filter elsewhere (concat gs))))).
Proof.
  revert acc free. induction gs as [|g gs IH]; intros acc free Hf; simpl.
  - rewrite filter_nil, take_nil, app_nil_r. f_equal. simpl. lia.
  - destruct (free <=? 0) eqn:H0; zbool.
    + assert (free = 0) as -> by lia. by rewrite app_nil_r.
    + rewrite takeChildren_spec, IH by (rewrite ?length_take; lia).
      rewrite filter_app, take_app, length_app, <-app_assoc, !length_take.
      replace (Z.to_nat (free - Z.of_nat (Z.to_nat free `min` length (filter elsewhere g))))
        with (Z.to_nat free - length (filter elsewhere g))%nat by lia.
      f_equal. lia.
Qed.

End Taking.

(** ** ScheduleParent and ScheduleChildren *)

(** The counters of the world are in the range the code stores them in. *)
Record counts_ok (w : World) : Prop := {
  counts_host : ∀ p, host_sane (hostOf w p);
  counts_peer : ∀ p, 0 <= peer_TotalPieceCount (getPeer w p) < 2 ^ 31;
  counts_task : ∀ p, task_TotalPieceCount (taskOf w p) < 2 ^ 31;
}.

Section Scheduling.
Context `{E : !Evaluator} `{EL : !EvaluatorLaws E} (CandidateParentCount : Z).
Implicit Types (w : World) (peer c : PeerRef) (blank : gset string).

Definition parent_candidates w peer blank : list PeerRef :=
  if Task_CanSchedule w (peer_Task (getPeer w peer)) then
    take (Z.to_nat CandidateParentCount)
      (filter (selected (parentFilter w peer blank)) (reverse (peers_of_task w peer)))
  else [].

Definition child_candidates w peer blank : list PeerRef :=
  take (Z.to_nat (Host_GetFreeUploadLoad (hostOf w peer) * 2))
    (filter (selected (childFilter w peer blank)) (peers_of_task w peer)).

Definition parent_score w peer c : float64 :=
  scoreOf (λ x, Evaluate w x peer (task_TotalPieceCount (taskOf w peer))) c.

Definition child_score w peer c : float64 :=
  scoreOf (λ x, Evaluate w peer x (task_TotalPieceCount (taskOf w peer))) c.

Lemma parent_candidates_eligible w peer blank c :
  acyclic w → c ∈ parent_candidates w peer blank →
  c ∈ peers_of_task w peer ∧ eligible_parent w peer blank c.
Proof.
  intros Hac. unfold parent_candidates. case_match; [|by intros ?%elem_of_nil].
  intros [Hs Hc]%elem_of_take_filter.
  rewrite elem_of_reverse in Hc. split; [done|].
  by apply (decides_true _ _ (parentFilter_decides w peer blank c Hac)).
Qed.

Lemma child_candidates_eligible w peer blank c :
  acyclic w → c ∈ child_candidates w peer blank →
  c ∈ peers_of_task w peer ∧ eligible_child w peer blank c.
Proof.
  intros Hac. intros [Hs Hc]%elem_of_take_filter. split; [done|].
  by apply (decides_true _ _ (childFilter_decides w peer blank c Hac)).
Qed.

Lemma scoreOf_Ok score (c : PeerRef) f :
  score c = Ok f ∧ isNaN f = false → score c = Ok (scoreOf score c) ∧ isNaN (scoreOf score c) = false.
Proof. unfold scoreOf. by intros [-> ?]. Qed.

Lemma parent_score_Ok w peer blank c :
  acyclic w → counts_ok w → c ∈ parent_candidates w peer blank →
  Evaluate w c peer (task_TotalPieceCount (taskOf w peer)) = Ok (parent_score w peer c) ∧
  isNaN (parent_score w peer c) = false.
Proof.
  intros Hac Hok [_ Hc]%parent_candidates_eligible; [|done].
  destruct (Evaluate_number w c peer (task_TotalPieceCount (taskOf w peer))) as [f Hf].
  - split_and!; [apply Hok|apply Hc|apply Hok..| |apply Hok].
    apply Z.lt_le_incl, Hc.
  - by apply (scoreOf_Ok (λ x, Evaluate w x peer _) c f).
Qed.

Lemma child_score_Ok w peer blank c :
  acyclic w → counts_ok w → c ∈ child_candidates w peer blank →
  Evaluate w peer c (task_TotalPieceCount (taskOf w peer)) = Ok (child_score w peer c) ∧
  isNaN (child_score w peer c) = false.
Proof.
  intros Hac Hok Hin. assert (0 < Host_GetFreeUploadLoad (hostOf w peer)) as Hfree.
  { unfold child_candidates in Hin.
    destruct (Z.to_nat (Host_GetFreeUploadLoad (hostOf w peer) * 2)) eqn:Hn; [|lia].
    rewrite take_0 in Hin. by apply elem_of_nil in Hin. }
  apply child_candidates_eligible in Hin as [_ Hc]; [|done].
  destruct (Evaluate_number w peer c (task_TotalPieceCount (taskOf w peer))) as [f Hf].
  - split_and!; [apply Hok|done|apply Hok..| |apply Hok].
    apply Z.lt_le_incl, Hc.
  - by apply (scoreOf_Ok (λ x, Evaluate w peer x _) c f).
Qed.

(** [ScheduleParent] returns: with no candidate it reports failure and changes
    nothing, otherwise it answers the ranking of the candidates, and moves the
    peer to the first unless the peer has no parent or already that one. *)
Lemma basic_ScheduleParent_eq w peer blank :
  acyclic w → counts_ok w →
  basic_ScheduleParent CandidateParentCount w peer blank = Ok
    match rank (parent_score w peer) (parent_candidates w peer blank) with
    | [] => (w, None)
    | primary :: rest =>
        (if decide (Peer_GetParent w peer = None ∨ Peer_GetParent w peer = Some primary) then w
         else Peer_ReplaceParent w peer (Some primary), Some (primary, rest))
    end.
Proof.
  intros Hac Hok. unfold basic_ScheduleParent.
  assert (selectCandidateParents w peer CandidateParentCount blank =
    Ok (parent_candidates w peer blank)) as ->.
  { unfold parent_candidates. destruct (Task_CanSchedule _ _) eqn:Hcan.
    - by apply selectCandidateParents_spec.
    - unfold selectCandidateParents. by rewrite Hcan. }
  cbn [mbind outcome_bind]. destruct (decide _) as [->|Hne]; [done|].
  rewrite (scoreAll_spec (parent_score w peer))
    by (intros x Hx; by apply (parent_score_Ok w peer blank)).
  cbn [mbind outcome_bind]. fold (rank (parent_score w peer) (parent_candidates w peer blank)).
  destruct (rank _ _) as [|primary rest] eqn:Hrank.
  - apply rank_nil in Hrank; [done|]. intros x Hx. by apply (parent_score_Ok w peer blank).
  - do 2 f_equal. destruct (Peer_GetParent w peer) as [o|]; repeat case_decide; naive_solver.
Qed.

(** The children [ScheduleChildren] picks. *)
Definition children_picked w peer blank : list PeerRef :=
  take (Z.to_nat (Host_GetFreeUploadLoad (hostOf w peer)))
    (filter (elsewhere w peer)
       (rank (child_score w peer) (child_candidates w peer blank))).

Lemma basic_ScheduleChildren_eq w peer blank :
  acyclic w → counts_ok w →
  basic_ScheduleChildren w peer blank = Ok
    match IsBadNode w peer with
    | Ok false =>
        (foldl (λ w c, Peer_ReplaceParent w c (Some peer)) w (children_picked w peer blank),
         children_picked w peer blank)
    | _ => (w, [])
    end.
Proof.
  intros Hac Hok. unfold basic_ScheduleChildren.
  destruct (IsBadNode_total w peer) as [[] ->]; cbn [mbind outcome_bind]; [done|].
  rewrite selectCandidateChildren_spec by done. cbn [mbind outcome_bind].
  fold (child_candidates w peer blank). unfold children_picked.
  destruct (decide _) as [->|Hne]; [unfold rank; simpl; by rewrite filter_nil, take_nil|].
  rewrite (scoreAll_spec (child_score w peer))
    by (intros x Hx; by apply (child_score_Ok w peer blank)).
  cbn [mbind outcome_bind].
  assert (0 <= Host_GetFreeUploadLoad (hostOf w peer)) as Hfree.
  { apply Z.nlt_ge. intros Hneg. apply Hne. unfold child_candidates.
    by replace (Z.to_nat _) with 0%nat by lia. }
  by rewrite takeGroups_spec by done.
Qed.

Lemma children_picked_eligible w peer blank c :
  acyclic w → counts_ok w → c ∈ children_picked w peer blank →
  c ∈ peers_of_task w peer ∧ eligible_child w peer blank c ∧ Peer_GetParent w c ≠ Some peer.
Proof.
  intros Hac Hok [Helse Hc]%elem_of_take_filter.
  apply elem_of_rank in Hc; [|intros x Hx; by apply (child_score_Ok w peer blank)].
  apply child_candidates_eligible in Hc as [? ?]; done.
Qed.

(** ** The laws of the scheduler interface *)

Lemma world_counts_ok w : world_ok w → counts_ok w.
Proof.
  intros Hok. split.
  - intros p. destruct (load_exact w (peer_Host (getPeer w p)) Hok) as [Heq Hb].
    split; [apply Hok|]. unfold hostOf. rewrite Heq. done.
  - apply Hok.
  - intros p. apply Hok.
Qed.

Lemma basic_ScheduleParent_law w p blank :
  world_ok w → alive w p →
  ∃ w' r, basic_ScheduleParent CandidateParentCount w p blank = Ok (w', r) ∧
    parent_scheduled w p blank w' r.
Proof.
  intros Hok Hal. pose proof (world_counts_ok w Hok) as Hcnt.
  assert (acyclic w) as Hac by apply Hok.
  rewrite basic_ScheduleParent_eq by done.
  destruct (rank _ _) as [|primary rest] eqn:Hrank; eexists _, _; (split; [done|]).
  { by split. }
  apply rank_head in Hrank as [Hin _]; [|intros x Hx; by apply (parent_score_Ok w p blank)].
  apply parent_candidates_eligible in Hin as [Hin Hel]; [|done].
  pose proof (scope_tasks _ (world_scope _ Hok) _ _ Hin) as Halp.
  pose proof (eligible_parent_may_follow _ _ _ _ Hel) as Hmf.
  assert (∀ q, Some primary = Some q → alive w q ∧ may_follow w p q) as Hq by (by intros q [= <-]).
  destruct (decide _) as [Hd|Hd].
  - split; [done..|]. intros q cs [= -> ->]. split_and!; [done|apply Hel|done|].
    by destruct Hd as [-> | ->].
  - split.
    + by apply world_ok_ReplaceParent.
    + apply Peer_ReplaceParent_links_only; [done..|]. intros q Hqq. by apply Hq.
    + intros x Hx. rewrite Peer_ReplaceParent_GetParent. by rewrite decide_False.
    + done.
    + intros q cs [= <- <-]. split_and!; [done|apply Hel|by apply Peer_ReplaceParent_may_follow|].
      rewrite Peer_ReplaceParent_GetParent, decide_True by done.
      destruct (Peer_GetParent w p); naive_solver.
Qed.

Lemma basic_ScheduleChildren_law w p blank :
  world_ok w → alive w p →
  ∃ w' cs, basic_ScheduleChildren w p blank = Ok (w', cs) ∧ children_scheduled w p blank w' cs.
Proof.
  intros Hok Hal. pose proof (world_counts_ok w Hok) as Hcnt.
  assert (acyclic w) as Hac by apply Hok.
  assert (children_scheduled w p blank w []) as Hnone.
  { split; [done..|set_solver]. }
  rewrite basic_ScheduleChildren_eq by done.
  destruct (IsBadNode w p) as [[]|?|]; [by eexists _, _| |by eexists _, _..].
  eexists _, _. split; [done|]. fold (link_children w p (children_picked w p blank)).
  assert (∀ c, c ∈ children_picked w p blank → alive w c ∧ eligible_child w p blank c) as Hcs.
  { intros c Hc. apply children_picked_eligible in Hc as (Hin & Hel & _); [|done..].
    split; [by eapply Hok|done]. }
  destruct (link_children_world_ok w p (children_picked w p blank)) as [Hok' Hlo]; [done..| |].
  { intros c Hc. apply Hcs in Hc as [? ?]. split; [done|by eapply eligible_child_may_follow]. }
  split; [done..| |].
  - apply link_children_GetParent.
  - intros c Hc. apply Hcs in Hc as [? Hel]. split_and!; [done|apply Hel..].
Qed.

(** The children fit in the free upload slots of the host. *)
Lemma basic_ScheduleChildren_load w p blank w' cs :
  world_ok w → basic_ScheduleChildren w p blank = Ok (w', cs) →
  host_CurrentUploadLoad (hostOf w p) <= host_TotalUploadLoad (hostOf w p) →
  uploads w' (peer_Host (getPeer w p)) <= host_TotalUploadLoad (hostOf w p).
Proof.
  intros Hok Heq Hfit. revert Heq. pose proof (world_counts_ok w Hok) as Hcnt.
  rewrite basic_ScheduleChildren_eq by (done || apply Hok).
  destruct (load_exact w (peer_Host (getPeer w p)) Hok) as [Hcur Hb]. fold (hostOf w p) in Hcur.
  destruct (IsBadNode w p) as [[]|?|]; intros [= <- <-]; try lia.
  fold (link_children w p (children_picked w p blank)).
  etrans; [apply link_children_uploads|].
  assert (Z.of_nat (length (children_picked w p blank)) <=
    Z.max 0 (Host_GetFreeUploadLoad (hostOf w p))) as Hlen.
  { unfold children_picked. rewrite length_take. lia. }
  destruct (Z.le_gt_cases (Host_GetFreeUploadLoad (hostOf w p)) 0); [lia|].
  destruct (free_load_bounds _ (counts_host _ Hcnt p)) as [Heq Ht]; [done|]. lia.
Qed.

End Scheduling.

Definition basicScheduler `{E : !Evaluator} (CandidateParentCount : Z) : Scheduler := {|
  ScheduleChildren := basic_ScheduleChildren;
  ScheduleParent := basic_ScheduleParent CandidateParentCount;
|}.

#[export] Instance basicScheduler_laws `{E : !Evaluator} `{!EvaluatorLaws E} n :
  SchedulerLaws (basicScheduler n).
Proof.
  split; simpl; intros.
  - by apply basic_ScheduleParent_law.
  - by apply basic_ScheduleChildren_law.
Qed.
