(* ===== verification/Events.v ===== *)
(** * Events: the event handlers of scheduler/core/events.go

    A worker applies one event at a time to the shared state.  The handlers
    are written against the scheduler interface of Scheduler.v.  A handler
    that ranges over the children of a peer ([sync.Map.Range]) takes the order
    of the visit as an argument and looks each child up when it comes to it. *)

From S2P Require Import Prelude Containers World Supervisor PeerTree Managers Invariant Scheduler.
From stdpp Require Import options.
Local Open Scope Z_scope.

Inductive event :=
  | reScheduleParentEvent (rs : RsPeer)
  | startReportPieceResultEvent (peer : PeerRef)
  | peerDownloadPieceSuccessEvent (peer : PeerRef) (pr : PieceResult)
  | peerDownloadPieceFailEvent (peer : PeerRef) (pr : PieceResult)
  | taskSeedFailEvent (task : TaskRef)
  | peerDownloadSuccessEvent (peer : PeerRef) (peerResult : option PeerResult)
  | peerDownloadFailEvent (peer : PeerRef) (peerResult : PeerResult)
  | peerLeaveEvent (peer : PeerRef).

Definition hashKey (w : World) (e : event) : string :=
  match e with
  | reScheduleParentEvent rs => task_ID (taskOf w (rs_peer rs))
  | startReportPieceResultEvent peer
  | peerDownloadPieceSuccessEvent peer _
  | peerDownloadPieceFailEvent peer _
  | peerDownloadSuccessEvent peer _
  | peerDownloadFailEvent peer _
  | peerLeaveEvent peer => task_ID (taskOf w peer)
  | taskSeedFailEvent task => task_ID (getTask w task)
  end.

(** ** The queue of peers waiting for a parent *)

Definition Millisecond : Z := 1000000.
Definition Second : Z := 1000 * Millisecond.

(** [AddAfter] and [Add] of the delaying queue: the entry and the time it is due. *)
Definition queue_AddAfter (w : World) (rs : RsPeer) (duration : Z) : World :=
  set_w_queue (w_queue w ++ [(rs, w_now w + duration)]) w.

Definition queue_Add (w : World) (rs : RsPeer) : World := queue_AddAfter w rs 0.

(** ** Helpers *)

Definition destPeer (w : World) (p : PeerRef) : DestPeer :=
  mkDestPeer (host_IP (hostOf w p)) (host_RPCPort (hostOf w p)) (peer_ID (getPeer w p)).

Definition constructSuccessPeerPacket (w : World) (peer parent : PeerRef)
    (candidates : list PeerRef) : PeerPacket :=
  {| packet_TaskId := task_ID (taskOf w peer);
     packet_SrcPid := peer_ID (getPeer w peer);
     packet_ParallelCount := 1;
     packet_MainPeer := destPeer w parent;
     packet_StealPeers := destPeer w <$> candidates;
     packet_Code := Code_Success |}.

Definition sendErrorHandler (err : GoError) (w : World) (p : PeerRef) : World :=
  if decide (err = ErrChannelBusy)
  then queue_AddAfter w (mkRsPeer 0 p ∅) (10 * Millisecond)
  else w.

(** The pattern of every handler: send the packet, handle the error. *)
Definition sendPacket (w : World) (peer parent : PeerRef) (candidates : list PeerRef) : World :=
  match Peer_SendSchedulePacket w peer (constructSuccessPeerPacket w peer parent candidates) with
  | (w, Some err) => sendErrorHandler err w peer
  | (w, None) => w
  end.

Definition needBackSource (w : World) (peer : PeerRef) : GoError :=
  DfError Code_SchedNeedBackSource
    ("peer " ++ peer_ID (getPeer w peer) ++ " need back source")%string.

Definition taskStatusFailed : GoError :=
  DfError Code_SchedTaskStatusError "schedule task status failed".

(** Close the stream with the order to download from the source; the peer
    becomes a back-to-source peer when its stream was there to close. *)
Definition orderBackSource (w : World) (peer : PeerRef) (t : TaskRef) (err : GoError) : World :=
  match Peer_CloseChannelWithError w peer err with
  | (w, None) => Task_AddBackToSourcePeer w t (peer_ID (getPeer w peer))
  | (w, Some _) => w
  end.

Definition seedFailBackSource (w : World) (peer : PeerRef) : GoError :=
  DfError Code_SchedNeedBackSource
    ("peer " ++ peer_ID (getPeer w peer) ++ " need back source because cdn seed task failed")%string.

Definition handleCDNSeedTaskFail (w : World) (task : TaskRef) : Outcome World :=
  if Task_CanBackToSource w task then
    sortedUniqueList_Range (λ w peer,
      if Task_CanBackToSource w task then
        Ok (if negb (Task_ContainsBackToSourcePeer w task (peer_ID (getPeer w peer)))
            then orderBackSource w peer task (seedFailBackSource w peer) else w, true)
      else Ok (w, false)) (Task_GetPeers w task) w
  else
    let w := Task_SetStatus w task TaskStatusFail in
    sortedUniqueList_Range (λ w peer,
      Ok ((Peer_CloseChannelWithError w peer taskStatusFailed).1, true)) (Task_GetPeers w task) w.

Section Handlers.
Context `{S : !Scheduler}.

Definition removePeerFromCurrentTree (w : World) (peer : PeerRef) : Outcome World :=
  let parent := Peer_GetParent w peer in
  let w := Peer_ReplaceParent w peer None in
  match parent with
  | None => Ok w
  | Some parent =>
      '(w, children) ← ScheduleChildren w parent {[peer_ID (getPeer w peer)]};
      Ok (foldl (λ w child, sendPacket w child peer []) w children)
  end.

(** ** The handlers *)

Definition reScheduleParentEvent_apply (w : World) (rs : RsPeer) : Outcome World :=
  let rs := set_rs_times (int32 (rs_times rs + 1)) rs in
  let peer := rs_peer rs in
  let task := peer_Task (getPeer w peer) in
  if Task_IsFail w task then Ok (Peer_CloseChannelWithError w peer taskStatusFailed).1
  else
    let blankParents := rs_blankParents rs in
    if match Peer_GetParent w peer with
       | Some oldParent => bool_decide (peer_ID (getPeer w oldParent) ∉ blankParents)
       | None => false
       end then Ok w
    else
      '(w, r) ← ScheduleParent w peer blankParents;
      match r with
      | None =>
          if Task_CanBackToSource w task
               && negb (Task_ContainsBackToSourcePeer w task (peer_ID (getPeer w peer)))
          then Ok (orderBackSource w peer task (needBackSource w peer))
          else Ok (queue_AddAfter w rs Second)
      | Some (parent, candidates) => Ok (sendPacket w peer parent candidates)
      end.

Definition startReportPieceResultEvent_apply (w : World) (peer : PeerRef) : Outcome World :=
  let task := peer_Task (getPeer w peer) in
  match Peer_GetParent w peer with
  | Some parent => Ok (sendPacket w peer parent [])
  | None =>
      if Task_ContainsBackToSourcePeer w task (peer_ID (getPeer w peer)) then Ok w
      else
        '(w, r) ← ScheduleParent w peer ∅;
        match r with
        | None =>
            if Task_CanBackToSource w task
                 && negb (Task_ContainsBackToSourcePeer w task (peer_ID (getPeer w peer)))
            then Ok (orderBackSource w peer task (needBackSource w peer))
            else Ok (queue_AddAfter w (mkRsPeer 0 peer ∅) Second)
        | Some (parent, candidates) => Ok (sendPacket w peer parent candidates)
        end
  end.

(** The second half of the handler of a downloaded piece, once the parent the
    piece came from, or its substitute, is known. *)
Definition adoptParent (w : World) (peer : PeerRef) (pr : PieceResult) (parentPeer : PeerRef)
    (candidates : list PeerRef) : World :=
  let w :=
    if bool_decide (pr_DstPid pr ≠ peer_ID (getPeer w peer))
       && match Peer_GetParent w peer with
          | None => true
          | Some oldParent => bool_decide (peer_ID (getPeer w oldParent) ≠ pr_DstPid pr)
          end
    then Peer_ReplaceParent w peer (Some parentPeer) else w in
  let w := Peer_Touch w parentPeer in
  if decide (peer_ID (getPeer w parentPeer) = pr_DstPid pr) then w
  else sendPacket w peer parentPeer candidates.

Definition peerDownloadPieceSuccessEvent_apply (w : World) (peer : PeerRef) (pr : PieceResult)
    : Outcome World :=
  let w := Peer_UpdateProgress w peer (pr_FinishedCount pr)
             (int64 (uint64 (pr_EndTime pr - pr_BeginTime pr))) in
  let task := peer_Task (getPeer w peer) in
  if Task_ContainsBackToSourcePeer w task (peer_ID (getPeer w peer)) then
    match pr_PieceInfo pr with
    | None => Panic NilDereference
    | Some pieceInfo =>
        let '(w, _) := Task_GetOrAddPiece w task pieceInfo in
        Ok (if negb (Task_CanSchedule w task) then Task_SetStatus w task TaskStatusSeeding else w)
    end
  else
    match peerManager_Get w (pr_DstPid pr) with
    | None => Ok w
    | Some parentPeer =>
        if Peer_IsLeave w parentPeer then
          let w := Peer_ReplaceParent w peer None in
          '(w, r) ← ScheduleParent w peer {[peer_ID (getPeer w parentPeer)]};
          match r with
          | None => Panic NilDereference
          | Some (parentPeer, candidates) => Ok (adoptParent w peer pr parentPeer candidates)
          end
        else Ok (adoptParent w peer pr parentPeer [])
    end.

Definition peerDownloadPieceFailEvent_apply (w : World) (peer : PeerRef) (pr : PieceResult)
    : World :=
  let task := peer_Task (getPeer w peer) in
  if Task_ContainsBackToSourcePeer w task (peer_ID (getPeer w peer)) then w
  else if pr_Code pr =? Code_ClientWaitPieceReady then w
  else
    let w :=
      if pr_Code pr =? Code_PeerTaskNotFound then peerManager_Delete w (pr_DstPid pr)
      else if (pr_Code pr =? Code_CDNTaskNotFound) || (pr_Code pr =? Code_CDNError)
              || (pr_Code pr =? Code_CDNTaskDownloadFail)
      then
        let w := peerManager_Delete w (pr_DstPid pr) in
        set_w_spawned (w_spawned w ++ [SpawnReseed task]) w
      else w in
    queue_Add w (mkRsPeer 0 peer {[pr_DstPid pr]}).

Definition peerDownloadSuccessEvent_apply (w : World) (peer : PeerRef)
    (peerResult : option PeerResult) : Outcome World :=
  let w := Peer_SetStatus w peer PeerStatusSuccess in
  let task := peer_Task (getPeer w peer) in
  w ← (if Task_ContainsBackToSourcePeer w task (peer_ID (getPeer w peer))
          && negb (Task_IsSuccess w task)
       then match peerResult with
            | None => Panic NilDereference
            | Some res =>
                Ok (Task_UpdateSuccess w task (res_TotalPieceCount res) (res_ContentLength res))
            end
       else Ok w);
  w ← removePeerFromCurrentTree w peer;
  '(w, children) ← ScheduleChildren w peer ∅;
  Ok (foldl (λ w child, sendPacket w child peer []) w children).

(** The visit of one child of a peer that goes away: a new parent, or the
    entry [waiting child] in the queue. *)
Definition rehomeChild (waiting : PeerRef → PeerRef) (peer : PeerRef) (w : World) (id : string)
    : Outcome World :=
  match Peer_GetChildren w peer !! id with
  | None => Ok w
  | Some child =>
      '(w, r) ← ScheduleParent w child {[peer_ID (getPeer w peer)]};
      match r with
      | None =>
          Ok (queue_AddAfter w (mkRsPeer 0 (waiting child) {[peer_ID (getPeer w peer)]}) Second)
      | Some (parent, candidates) => Ok (sendPacket w child parent candidates)
      end
  end.

Definition peerDownloadFailEvent_apply (order : list string) (w : World) (peer : PeerRef)
    : Outcome World :=
  let w := Peer_SetStatus w peer PeerStatusFail in
  let task := peer_Task (getPeer w peer) in
  if Task_ContainsBackToSourcePeer w task (peer_ID (getPeer w peer))
     && negb (Task_IsSuccess w task) then
    let w := Task_SetStatus w task TaskStatusFail in
    handleCDNSeedTaskFail w task
  else
    w ← removePeerFromCurrentTree w peer;
    foldM (rehomeChild (λ _, peer) peer) order w.

Definition peerLeaveEvent_apply (order : list string) (w : World) (peer : PeerRef)
    : Outcome World :=
  let w := Peer_Leave w peer in
  w ← removePeerFromCurrentTree w peer;
  w ← foldM (rehomeChild (λ child, child) peer) order w;
  Ok (peerManager_Delete w (peer_ID (getPeer w peer))).

(** [order] is the order in which the children of the peer are visited. *)
Definition event_apply (order : list string) (w : World) (e : event) : Outcome World :=
  match e with
  | reScheduleParentEvent rs => reScheduleParentEvent_apply w rs
  | startReportPieceResultEvent peer => startReportPieceResultEvent_apply w peer
  | peerDownloadPieceSuccessEvent peer pr => peerDownloadPieceSuccessEvent_apply w peer pr
  | peerDownloadPieceFailEvent peer pr => Ok (peerDownloadPieceFailEvent_apply w peer pr)
  | taskSeedFailEvent task => handleCDNSeedTaskFail w task
  | peerDownloadSuccessEvent peer res => peerDownloadSuccessEvent_apply w peer res
  | peerDownloadFailEvent peer _ => peerDownloadFailEvent_apply order w peer
  | peerLeaveEvent peer => peerLeaveEvent_apply order w peer
  end.

End Handlers.
