(* ===== verification/EventsInvariant.v ===== *)
(** * EventsInvariant: every event handler keeps the invariant

    [event_safe]: on a state that satisfies [world_ok] a handler returns a
    state that satisfies it, for every scheduler that obeys the interface, and
    the one way to crash is characterised exactly. *)

From S2P Require Import Prelude Containers World Supervisor PeerTree Managers Invariant Scheduler.
From S2P Require Import Events.
From stdpp Require Import options.
Local Open Scope Z_scope.
Set Default Proof Using "Type*".

(** ** Updates that keep the invariant *)

Definition keeps (w w' : World) : Prop :=
  world_ok w' ∧ ∀ q, alive w' q ↔ alive w q.

Definition returns (w : World) (o : Outcome World) : Prop := ∃ w', o = Ok w' ∧ keeps w w'.

Section Keeps.
Implicit Types (w : World) (p q : PeerRef) (t : TaskRef).

Lemma keeps_refl w : world_ok w → keeps w w.
Proof. done. Qed.

Lemma keeps_trans w1 w2 w3 : keeps w1 w2 → keeps w2 w3 → keeps w1 w3.
Proof. intros [_ H12] [Hok H23]. split; [done|]. intros q. by rewrite H23. Qed.

Lemma returns_Ok w w' : keeps w w' → returns w (Ok w').
Proof. intros Hk. by exists w'. Qed.

Lemma returns_bind w o k :
  returns w o → (∀ w', keeps w w' → returns w' (k w')) → returns w (o ≫= k).
Proof.
  intros (w1 & -> & H1) Hk. destruct (Hk w1 H1) as (w2 & Hk2 & H2). simpl.
  exists w2. split; [done|]. by eapply keeps_trans.
Qed.

Lemma returns_trans w w1 o : keeps w w1 → returns w1 o → returns w o.
Proof. intros H1 (w2 & -> & H2). exists w2. split; [done|]. by eapply keeps_trans. Qed.

Lemma keeps_same w w' :
  w_peerHeap w' = w_peerHeap w → w_taskHeap w' = w_taskHeap w → w_hostHeap w' = w_hostHeap w →
  w_peers w' = w_peers w → (w_next w <= w_next w')%positive →
  (∀ e, e ∈ w_queue w' → alive w (rs_peer e.1)) →
  (∀ id h, w_hosts w' !! id = Some h → (h < w_next w')%positive) → world_ok w → keeps w w'.
Proof.
  intros Hp Ht Hh Hr Hn Hq Hho Hok. split; [by apply (world_ok_same w)|].
  intros q. unfold alive. by rewrite Hp.
Qed.

Lemma keeps_updTask f t w :
  (∀ x, task_TotalPieceCount (f x) = task_TotalPieceCount x) →
  (∀ x, task_peers (f x) = task_peers x) → world_ok w → keeps w (updTask f t w).
Proof. intros Hc Hl Hok. split; [by apply world_ok_updTask|done]. Qed.

Lemma keeps_updPeer f p w :
  (∀ x, peer_ID (f x) = peer_ID x) → (∀ x, peer_parent (f x) = peer_parent x) →
  (∀ x, peer_children (f x) = peer_children x) → (∀ x, peer_Host (f x) = peer_Host x) →
  (∀ x, peer_TotalPieceCount (f x) = peer_TotalPieceCount x) →
  world_ok w → alive w p → keeps w (updPeer f p w).
Proof.
  intros ? ? ? ? Hc Hok Hal. split.
  - apply world_ok_updPeer; try done. rewrite Hc. apply Hok.
  - intros q. by apply alive_updPeer.
Qed.

Lemma keeps_ReplaceParent w p np :
  world_ok w → alive w p → (∀ q, np = Some q → alive w q ∧ may_follow w p q) →
  keeps w (Peer_ReplaceParent w p np).
Proof. intros. by apply world_ok_ReplaceParent. Qed.

Lemma keeps_Delete w id : world_ok w → keeps w (peerManager_Delete w id).
Proof. intros. by apply world_ok_peerManager_Delete. Qed.

Lemma keeps_UpdatePeer w t p : world_ok w → alive w p → keeps w (Task_UpdatePeer w t p).
Proof.
  intros [Hp Hs] Hal. split; [|done]. split; [by apply (peers_ok_ext w)|].
  by apply scope_ok_UpdatePeer.
Qed.

Lemma keeps_updChan f c w : world_ok w → keeps w (updChan f c w).
Proof. intros Hok. apply keeps_same; [done..|apply Hok|apply Hok|done]. Qed.

Lemma keeps_queue_AddAfter w rs d :
  world_ok w → alive w (rs_peer rs) → keeps w (queue_AddAfter w rs d).
Proof.
  intros Hok Hal. apply keeps_same; [done..| |apply Hok|done]. simpl.
  intros e [He|He%list_elem_of_singleton]%elem_of_app; [by apply Hok|by subst e].
Qed.

Lemma keeps_sendPacket w p q cs : world_ok w → alive w p → keeps w (sendPacket w p q cs).
Proof.
  intros Hok Hal. unfold sendPacket, Peer_SendSchedulePacket, sendErrorHandler.
  destruct (Peer_getConn w p) as [c|]; [|by apply keeps_refl].
  destruct (Channel_Send _ _) as [ch [e|]]; [|by apply keeps_updChan].
  case_decide; [|by apply keeps_updChan].
  eapply keeps_trans; [by apply keeps_updChan|]. apply keeps_queue_AddAfter; [|done].
  by apply keeps_updChan.
Qed.

Lemma keeps_sendPackets w q cs :
  world_ok w → (∀ c, c ∈ cs → alive w c) → keeps w (foldl (λ w c, sendPacket w c q []) w cs).
Proof.
  revert w. induction cs as [|c cs IH]; intros w Hok Hcs; simpl; [by apply keeps_refl|].
  assert (keeps w (sendPacket w c q [])) as Hk by (apply keeps_sendPacket; set_solver).
  eapply keeps_trans; [exact Hk|]. apply IH; [apply Hk|]. intros x Hx.
  apply Hk, Hcs. by right.
Qed.

Lemma keeps_CloseChannel w p e : world_ok w → keeps w (Peer_CloseChannelWithError w p e).1.
Proof.
  intros Hok. unfold Peer_CloseChannelWithError.
  destruct (Peer_getConn w p); [by apply keeps_updChan|by apply keeps_refl].
Qed.

Lemma keeps_AddBackToSourcePeer w t id :
  world_ok w → keeps w (Task_AddBackToSourcePeer w t id).
Proof.
  intros Hok. unfold Task_AddBackToSourcePeer.
  repeat case_match; [by apply keeps_refl..|by apply keeps_updTask].
Qed.

Lemma keeps_orderBackSource w p t e : world_ok w → keeps w (orderBackSource w p t e).
Proof.
  intros Hok. unfold orderBackSource. pose proof (keeps_CloseChannel w p e Hok) as Hk.
  destruct (Peer_CloseChannelWithError w p e) as [w1 [?|]]; simpl in Hk; [done|].
  eapply keeps_trans; [exact Hk|]. apply keeps_AddBackToSourcePeer, Hk.
Qed.

Lemma keeps_SetStatus w t s : world_ok w → keeps w (Task_SetStatus w t s).
Proof. intros Hok. by apply keeps_updTask. Qed.

Lemma keeps_PeerStatus w p s : world_ok w → alive w p → keeps w (Peer_SetStatus w p s).
Proof. intros Hok Hal. by apply keeps_updPeer. Qed.

Lemma keeps_Touch w p : world_ok w → alive w p → keeps w (Peer_Touch w p).
Proof.
  intros Hok Hal. unfold Peer_Touch, Task_Touch.
  assert (keeps w (updPeer (set_peer_lastAccessAt (w_now w)) p w)) as H1 by (by apply keeps_updPeer).
  eapply keeps_trans; [exact H1|]. set (w1 := updPeer _ _ _) in *.
  assert (keeps w1 (if bool_decide (Peer_GetStatus w1 p = PeerStatusZombie) &&
    negb (Peer_IsLeave w1 p) then Peer_SetStatus w1 p PeerStatusRunning else w1)) as H2.
  { case_match; [|apply keeps_refl, H1]. apply keeps_PeerStatus; [apply H1|by apply H1]. }
  eapply keeps_trans; [exact H2|]. apply keeps_updTask; [done..|apply H2].
Qed.

End Keeps.

#[export] Hint Resolve keeps_refl keeps_sendPacket keeps_sendPackets keeps_CloseChannel
  keeps_AddBackToSourcePeer keeps_orderBackSource keeps_SetStatus keeps_queue_AddAfter
  keeps_Delete : dfly.

(** ** The handlers *)

Section HandlersKeep.
Context `{S : !Scheduler} `{SL : !SchedulerLaws S}.
Implicit Types (w : World) (p q : PeerRef) (t : TaskRef).

Lemma handleCDNSeedTaskFail_returns w t : world_ok w → returns w (handleCDNSeedTaskFail w t).
Proof.
  assert (∀ fn l w, (∀ w p, world_ok w → ∃ w' b, fn w p = Ok (w', b) ∧ keeps w w') →
    world_ok w → returns w (sortedList_Range fn l w)) as Hrange.
  { intros fn l. induction l as [|p l IH]; intros w' Hfn Hok; simpl; [by apply returns_Ok|].
    destruct (Hfn w' p Hok) as (w1 & b & -> & Hk). simpl.
    eapply returns_trans; [exact Hk|]. destruct b; [apply IH; [done|apply Hk]|].
    apply returns_Ok, keeps_refl, Hk. }
  intros Hok. unfold handleCDNSeedTaskFail, sortedUniqueList_Range. destruct (Task_CanBackToSource w t).
  - apply Hrange; [|done]. intros w' p Hok'.
    destruct (Task_CanBackToSource w' t); eexists _, _; (split; [done|]); [|auto with dfly].
    case_match; auto with dfly.
  - eapply returns_trans; [by apply (keeps_SetStatus w t TaskStatusFail)|].
    apply Hrange; [|by apply keeps_SetStatus]. intros w' p Hok'. eexists _, _.
    split; [done|]. auto with dfly.
Qed.

Lemma ScheduleParent_returns w p blank :
  world_ok w → alive w p →
  ∃ w' r, ScheduleParent w p blank = Ok (w', r) ∧ keeps w w' ∧ parent_scheduled w p blank w' r.
Proof.
  intros Hok Hal. destruct (ScheduleParent_law w p blank Hok Hal) as (w' & r & -> & Hps).
  exists w', r. split_and!; [done| |done]. split; [apply Hps|]. apply (lo_alive _ _ (ps_links _ _ _ _ _ Hps)).
Qed.

Lemma ScheduleChildren_returns w p blank :
  world_ok w → alive w p →
  ∃ w' cs, ScheduleChildren w p blank = Ok (w', cs) ∧ keeps w w' ∧ ∀ c, c ∈ cs → alive w' c.
Proof.
  intros Hok Hal. destruct (ScheduleChildren_law w p blank Hok Hal) as (w' & cs & -> & Hcs).
  pose proof (lo_alive _ _ (cs_links _ _ _ _ _ Hcs)) as Hal'.
  exists w', cs. split; [done|]. split; [split; [apply Hcs|done]|].
  intros c Hc. by apply Hal', (cs_child _ _ _ _ _ Hcs).
Qed.

Lemma removePeerFromCurrentTree_returns w p :
  world_ok w → alive w p → returns w (removePeerFromCurrentTree w p).
Proof.
  intros Hok Hal. unfold removePeerFromCurrentTree.
  assert (keeps w (Peer_ReplaceParent w p None)) as Hk by (by apply keeps_ReplaceParent).
  destruct (Peer_GetParent w p) as [o|] eqn:Ho; [|by apply returns_Ok].
  destruct (parent_alive w p o) as [_ Halo]; [apply Hok|done|].
  eapply returns_trans; [exact Hk|].
  destruct (ScheduleChildren_returns (Peer_ReplaceParent w p None) o
    {[peer_ID (getPeer (Peer_ReplaceParent w p None) p)]}) as (w' & cs & -> & Hk' & Hcs);
    [apply Hk|by apply Hk|]. simpl.
  apply returns_Ok. eapply keeps_trans; [exact Hk'|]. apply keeps_sendPackets; [apply Hk'|done].
Qed.

Lemma reScheduleParentEvent_returns w rs :
  world_ok w → alive w (rs_peer rs) → returns w (reScheduleParentEvent_apply w rs).
Proof.
  intros Hok Hal. unfold reScheduleParentEvent_apply. simpl.
  destruct (Task_IsFail _ _); [apply returns_Ok; auto with dfly|].
  destruct (match Peer_GetParent w (rs_peer rs) with Some _ => _ | None => _ end);
    [by apply returns_Ok|].
  destruct (ScheduleParent_returns w (rs_peer rs) (rs_blankParents rs)) as (w' & r & -> & Hk & _);
    [done..|]. simpl. eapply returns_trans; [exact Hk|].
  assert (alive w' (rs_peer rs)) as Hal' by (by apply Hk). destruct Hk as [Hok' _].
  destruct r as [[q cs]|]; [apply returns_Ok; auto with dfly|].
  case_match; apply returns_Ok; auto with dfly.
Qed.

Lemma startReportPieceResultEvent_returns w p :
  world_ok w → alive w p → returns w (startReportPieceResultEvent_apply w p).
Proof.
  intros Hok Hal. unfold startReportPieceResultEvent_apply.
  destruct (Peer_GetParent w p); [apply returns_Ok; auto with dfly|].
  destruct (Task_ContainsBackToSourcePeer _ _ _); [by apply returns_Ok|].
  destruct (ScheduleParent_returns w p ∅) as (w' & r & -> & Hk & _); [done..|]. simpl.
  eapply returns_trans; [exact Hk|].
  assert (alive w' p) as Hal' by (by apply Hk). destruct Hk as [Hok' _].
  destruct r as [[q cs]|]; [apply returns_Ok; auto with dfly|].
  case_match; apply returns_Ok; auto with dfly.
Qed.

Lemma peerDownloadPieceFailEvent_keeps w p pr :
  world_ok w → alive w p → keeps w (peerDownloadPieceFailEvent_apply w p pr).
Proof.
  intros Hok Hal. unfold peerDownloadPieceFailEvent_apply, queue_Add.
  destruct (Task_ContainsBackToSourcePeer _ _ _); [done|].
  destruct (pr_Code pr =? Code_ClientWaitPieceReady); [done|].
  set (w1 := if pr_Code pr =? Code_PeerTaskNotFound then _ else _).
  assert (keeps w w1) as H1.
  { subst w1. case_match; [auto with dfly|]. case_match; [|done].
    pose proof (keeps_Delete w (pr_DstPid pr) Hok) as Hd.
    eapply keeps_trans; [exact Hd|]. apply keeps_same; [done..|apply Hd|apply Hd|apply Hd]. }
  eapply keeps_trans; [exact H1|]. apply keeps_queue_AddAfter; [apply H1|by apply H1].
Qed.

Lemma rehomeChild_returns f p w id :
  world_ok w → (∀ c, alive w c → alive w (f c)) → returns w (rehomeChild f p w id).
Proof.
  intros Hok Hf. unfold rehomeChild. destruct (Peer_GetChildren w p !! id) as [c|] eqn:Hc;
    [|by apply returns_Ok].
  assert (alive w c) as Hal.
  { apply (tree_child _ (peers_tree _ (world_peers _ Hok))) in Hc as [_ Hc].
    by apply (parent_alive w c p (peers_tree _ (world_peers _ Hok))). }
  destruct (ScheduleParent_returns w c {[peer_ID (getPeer w p)]}) as (w' & r & -> & Hk & _);
    [done..|]. simpl. eapply returns_trans; [exact Hk|]. destruct Hk as [Hok' Hal'].
  destruct r as [[q cs]|]; apply returns_Ok; [|apply keeps_queue_AddAfter]; try done.
  - apply keeps_sendPacket; [done|by apply Hal'].
  - by apply Hal', Hf.
Qed.

Lemma rehome_returns f p order w :
  world_ok w → (∀ c, alive w c → alive w (f c)) → returns w (foldM (rehomeChild f p) order w).
Proof.
  revert w. induction order as [|id order IH]; intros w Hok Hf; simpl; [by apply returns_Ok|].
  apply returns_bind; [by apply rehomeChild_returns|]. intros w' Hk. apply IH; [apply Hk|].
  intros c Hc. by apply Hk, Hf, Hk.
Qed.

Lemma peerDownloadFailEvent_returns order w p :
  world_ok w → alive w p → returns w (peerDownloadFailEvent_apply order w p).
Proof.
  intros Hok Hal. unfold peerDownloadFailEvent_apply.
  assert (keeps w (Peer_SetStatus w p PeerStatusFail)) as Hk by (by apply keeps_PeerStatus).
  eapply returns_trans; [exact Hk|]. set (w1 := Peer_SetStatus _ _ _) in *.
  case_match.
  - eapply returns_trans; [apply keeps_SetStatus, Hk|].
    apply handleCDNSeedTaskFail_returns, keeps_SetStatus, Hk.
  - apply returns_bind; [apply removePeerFromCurrentTree_returns; by apply Hk|].
    intros w' Hk'. apply rehome_returns; [apply Hk'|]. intros _ _. by apply Hk', Hk.
Qed.

Lemma peerLeaveEvent_returns order w p :
  world_ok w → alive w p → returns w (peerLeaveEvent_apply order w p).
Proof.
  intros Hok Hal. unfold peerLeaveEvent_apply.
  assert (keeps w (Peer_Leave w p)) as Hk by (by apply keeps_updPeer).
  eapply returns_trans; [exact Hk|].
  apply returns_bind; [apply removePeerFromCurrentTree_returns; by apply Hk|].
  intros w1 Hk1. apply returns_bind; [by apply rehome_returns; [apply Hk1|]|].
  intros w2 Hk2. apply returns_Ok, keeps_Delete, Hk2.
Qed.

Lemma piece_added_keeps w t pi :
  world_ok w →
  keeps w (let '(w, _) := Task_GetOrAddPiece w t pi in
    if negb (Task_CanSchedule w t) then Task_SetStatus w t TaskStatusSeeding else w).
Proof.
  intros Hok. unfold Task_GetOrAddPiece.
  destruct (task_pieces _ !! _); [case_match; auto with dfly|].
  assert (keeps w (updTask (λ x, set_task_pieces (<[PieceNum pi := pi]> (task_pieces x)) x) t w))
    as Hk by (by apply keeps_updTask).
  case_match; [|done]. eapply keeps_trans; [exact Hk|]. apply keeps_SetStatus, Hk.
Qed.

(** *** A downloaded piece *)

Lemma UpdateProgress_field {B} (g : Peer → B) w p n c q :
  (∀ v x, g (set_peer_TotalPieceCount v x) = g x) → (∀ v x, g (set_peer_pieceCosts v x) = g x) →
  g (getPeer (Peer_UpdateProgress w p n c) q) = g (getPeer w q).
Proof.
  intros H1 H2. unfold Peer_UpdateProgress. case_match; [|done].
  unfold Task_UpdatePeer, Peer_SetPieceCosts. autorewrite with heap.
  by rewrite !updPeer_field.
Qed.

Lemma UpdateProgress_peers w p n c : w_peers (Peer_UpdateProgress w p n c) = w_peers w.
Proof. unfold Peer_UpdateProgress. by case_match. Qed.

Lemma UpdateProgress_backSource w p n c q :
  Task_ContainsBackToSourcePeer (Peer_UpdateProgress w p n c)
    (peer_Task (getPeer (Peer_UpdateProgress w p n c) q)) (peer_ID (getPeer w q)) =
  Task_ContainsBackToSourcePeer w (peer_Task (getPeer w q)) (peer_ID (getPeer w q)).
Proof.
  rewrite (UpdateProgress_field peer_Task) by done. unfold Task_ContainsBackToSourcePeer.
  f_equal. unfold Peer_UpdateProgress. case_match; [|done]. unfold Task_UpdatePeer.
  by rewrite (updTask_field task_backToSourcePeers).
Qed.

Lemma keeps_UpdateProgress w p n c :
  world_ok w → alive w p → n < 2 ^ 31 → keeps w (Peer_UpdateProgress w p n c).
Proof.
  intros Hok Hal Hn. unfold Peer_UpdateProgress. case_match; [zbool|done].
  assert (keeps w (updPeer (set_peer_TotalPieceCount n) p w)) as H1.
  { split; [|intros q; by apply alive_updPeer]. apply world_ok_updPeer; try done. simpl.
    pose proof (scope_pieces _ (world_scope _ Hok) p). lia. }
  eapply keeps_trans; [exact H1|]. set (w1 := updPeer _ _ _) in *.
  assert (keeps w1 (Peer_SetPieceCosts w1 p [c])) as H2.
  { apply keeps_updPeer; [done..|apply H1|by apply H1]. }
  eapply keeps_trans; [exact H2|]. apply keeps_UpdatePeer; [apply H2|by apply H2, H1].
Qed.

Lemma may_follow_ext w w' p q :
  (∀ x, Peer_GetParent w' x = Peer_GetParent w x) → may_follow w p q → may_follow w' p q.
Proof.
  intros Hp [Hne Htc]. split; [done|]. intros Htc'. apply Htc. revert Htc'.
  apply (tc_congruence id). intros c d. unfold parent_rel. by rewrite Hp.
Qed.

Lemma adoptParent_keeps w p pr q cs :
  world_ok w → alive w p → alive w q →
  (pr_DstPid pr ≠ peer_ID (getPeer w p) → may_follow w p q) →
  keeps w (adoptParent w p pr q cs).
Proof.
  intros Hok Hp Hq Hmf. unfold adoptParent.
  set (w1 := if _ && _ then Peer_ReplaceParent w p (Some q) else w).
  assert (keeps w w1) as H1.
  { subst w1. case_match eqn:Hg; [|done]. apply andb_true_iff in Hg as [Hne%bool_decide_eq_true _].
    apply keeps_ReplaceParent; [done..|]. intros q' [= <-]. auto. }
  eapply keeps_trans; [exact H1|].
  assert (keeps w1 (Peer_Touch w1 q)) as H2 by (apply keeps_Touch; [apply H1|by apply H1]).
  eapply keeps_trans; [exact H2|]. destruct H2 as [H2 Hal2].
  case_decide; [done|]. apply keeps_sendPacket; [done|]. by apply Hal2, H1.
Qed.

(** What the report of a piece must satisfy: the pieces are counted in 31 bits,
    a back-to-source peer says which piece it has, and the peer the piece came
    from is not below the peer that reports it. *)
Record piece_report_ok w p (pr : PieceResult) : Prop := {
  report_alive : alive w p;
  report_count : pr_FinishedCount pr < 2 ^ 31;
  report_piece :
    Task_ContainsBackToSourcePeer w (peer_Task (getPeer w p)) (peer_ID (getPeer w p)) = true →
    pr_PieceInfo pr ≠ None;
  report_parent : ∀ q, w_peers w !! pr_DstPid pr = Some q → Peer_IsLeave w q = false →
    pr_DstPid pr ≠ peer_ID (getPeer w p) → may_follow w p q;
}.

(** A piece of a peer that does not download from the source came from a peer
    that has left, and no other parent is available. *)
Definition orphaned w p (pr : PieceResult) : Prop :=
  Task_ContainsBackToSourcePeer w (peer_Task (getPeer w p)) (peer_ID (getPeer w p)) = false ∧
  ∃ q w', w_peers w !! pr_DstPid pr = Some q ∧ Peer_IsLeave w q = true ∧
    ScheduleParent
      (Peer_ReplaceParent
         (Peer_UpdateProgress w p (pr_FinishedCount pr)
            (int64 (uint64 (pr_EndTime pr - pr_BeginTime pr)))) p None)
      p {[peer_ID (getPeer w q)]} = Ok (w', None).

Lemma peerDownloadPieceSuccessEvent_returns w p pr :
  world_ok w → piece_report_ok w p pr →
  returns w (peerDownloadPieceSuccessEvent_apply w p pr) ∨
  peerDownloadPieceSuccessEvent_apply w p pr = Panic NilDereference ∧ orphaned w p pr.
Proof.
  intros Hok [Hal Hcnt Hpiece Hpar]. unfold peerDownloadPieceSuccessEvent_apply, orphaned.
  set (cost := int64 _).
  pose proof (keeps_UpdateProgress w p (pr_FinishedCount pr) cost Hok Hal Hcnt) as H1.
  assert (∀ q, peer_ID (getPeer (Peer_UpdateProgress w p (pr_FinishedCount pr) cost) q) =
    peer_ID (getPeer w q)) as Hid by (intros; by rewrite (UpdateProgress_field peer_ID)).
  assert (∀ q, Peer_GetParent (Peer_UpdateProgress w p (pr_FinishedCount pr) cost) q =
    Peer_GetParent w q) as Hgp by (intros; by apply (UpdateProgress_field peer_parent)).
  assert (∀ q, Peer_IsLeave (Peer_UpdateProgress w p (pr_FinishedCount pr) cost) q =
    Peer_IsLeave w q) as Hlv by (intros; by apply (UpdateProgress_field peer_leave)).
  pose proof (UpdateProgress_peers w p (pr_FinishedCount pr) cost) as Hreg.
  pose proof (UpdateProgress_backSource w p (pr_FinishedCount pr) cost p) as Hbs.
  set (w1 := Peer_UpdateProgress _ _ _ _) in *. rewrite Hid, Hbs.
  destruct (Task_ContainsBackToSourcePeer w _ _) eqn:Hsrc.
  - left. destruct (pr_PieceInfo pr) as [pi|]; [|by destruct Hpiece].
    eapply returns_trans; [exact H1|].
    pose proof (piece_added_keeps w1 (peer_Task (getPeer w1 p)) pi (proj1 H1)) as Hk.
    destruct (Task_GetOrAddPiece _ _ _) as [w2 r]. by apply returns_Ok.
  - unfold peerManager_Get. rewrite Hreg.
    destruct (w_peers w !! pr_DstPid pr) as [q|] eqn:Hq; [|left; by apply returns_Ok].
    pose proof (scope_registry _ (world_scope _ Hok) _ _ Hq) as Halq.
    rewrite Hlv. destruct (Peer_IsLeave w q) eqn:Hlq.
    + assert (keeps w1 (Peer_ReplaceParent w1 p None)) as H2.
      { apply keeps_ReplaceParent; [apply H1|by apply H1|done]. }
      rewrite (Peer_ReplaceParent_ID w1 p None q), Hid.
      destruct (ScheduleParent_returns (Peer_ReplaceParent w1 p None) p {[peer_ID (getPeer w q)]})
        as (w3 & r & Hs & H3 & Hps); [apply H2|by apply H2, H1|].
      rewrite Hs. simpl. destruct r as [[q' cs]|]; [left|right; split; [done|split; [done|by exists q, w3]]].
      destruct (ps_some _ _ _ _ _ Hps q' cs eq_refl) as (Hq' & _ & Hmf & _).
      eapply returns_trans; [exact H1|]. eapply returns_trans; [exact H2|].
      eapply returns_trans; [exact H3|]. apply returns_Ok, adoptParent_keeps; [apply H3| | |done].
      * by apply H3, H2, H1.
      * by apply H3.
    + left. eapply returns_trans; [exact H1|]. apply returns_Ok, adoptParent_keeps;
        [apply H1|by apply H1..|]. rewrite Hid. intros Hne.
      apply (may_follow_ext w); [done|]. by apply Hpar.
Qed.

(** Such a report crashes the scheduler: the handler reads the ID of the nil
    parent it was just refused. *)
Lemma orphaned_panics w p pr :
  orphaned w p pr → peerDownloadPieceSuccessEvent_apply w p pr = Panic NilDereference.
Proof.
  intros (Hbs & q & w' & Hq & Hlv & Hs).  unfold peerDownloadPieceSuccessEvent_apply. set (cost := int64 _) in *.
  pose proof (UpdateProgress_backSource w p (pr_FinishedCount pr) cost p) as Hbs'.
  assert (∀ x, peer_ID (getPeer (Peer_UpdateProgress w p (pr_FinishedCount pr) cost) x) =
    peer_ID (getPeer w x)) as Hid by (intros; by rewrite (UpdateProgress_field peer_ID)).
  assert (Peer_IsLeave (Peer_UpdateProgress w p (pr_FinishedCount pr) cost) q = true) as Hlv'
    by (rewrite <-Hlv; by apply (UpdateProgress_field peer_leave)).
  pose proof (UpdateProgress_peers w p (pr_FinishedCount pr) cost) as Hreg.
  set (w1 := Peer_UpdateProgress _ _ _ _) in *.
  rewrite Hid, Hbs', Hbs. unfold peerManager_Get. rewrite Hreg, Hq, Hlv'.
  by rewrite (Peer_ReplaceParent_ID w1 p None q), Hid, Hs.
Qed.

(** *** A finished download *)

Definition result_ok w p (res : option PeerResult) : Prop :=
  match res with
  | Some r => res_TotalPieceCount r < 2 ^ 31
  | None => Task_ContainsBackToSourcePeer w (peer_Task (getPeer w p)) (peer_ID (getPeer w p)) = false
  end.

Lemma peerDownloadSuccessEvent_returns w p res :
  world_ok w → alive w p → result_ok w p res →
  returns w (peerDownloadSuccessEvent_apply w p res).
Proof.
  intros Hok Hal Hres. unfold peerDownloadSuccessEvent_apply.
  assert (keeps w (Peer_SetStatus w p PeerStatusSuccess)) as H1 by (by apply keeps_PeerStatus).
  assert (Task_ContainsBackToSourcePeer (Peer_SetStatus w p PeerStatusSuccess)
    (peer_Task (getPeer (Peer_SetStatus w p PeerStatusSuccess) p))
    (peer_ID (getPeer (Peer_SetStatus w p PeerStatusSuccess) p)) =
    Task_ContainsBackToSourcePeer w (peer_Task (getPeer w p)) (peer_ID (getPeer w p))) as ->.
  { unfold Peer_SetStatus. by rewrite (updPeer_field peer_Task), (updPeer_field peer_ID). }
  eapply returns_trans; [exact H1|]. set (w1 := Peer_SetStatus _ _ _) in *.
  apply returns_bind.
  { case_match eqn:Hb; [|apply returns_Ok, keeps_refl, H1].
    apply andb_true_iff in Hb as [Hb _]. destruct res as [r|]; simpl in Hres; [|congruence].
    apply returns_Ok. unfold Task_UpdateSuccess. case_decide; [apply keeps_refl, H1|].
    destruct H1 as [[Hp Hs] Hal1]. split; [|done]. split; [by apply (peers_ok_ext w1)|].
    apply scope_ok_updTask; simpl; [done|done|apply Hs|]. intros q. by apply Hs. }
  intros w2 H2. assert (alive w2 p) as Hal2 by (by apply H2, H1). apply returns_bind.
  { apply removePeerFromCurrentTree_returns; [apply H2|done]. }
  intros w3 H3. destruct (ScheduleChildren_returns w3 p ∅) as (w4 & cs & -> & H4 & Hcs);
    [apply H3|by apply H3|]. simpl.
  eapply returns_trans; [exact H4|]. apply returns_Ok, keeps_sendPackets; [apply H4|done].
Qed.

(** ** Every event *)

Definition event_ok w (e : event) : Prop :=
  match e with
  | reScheduleParentEvent rs => alive w (rs_peer rs)
  | peerDownloadPieceSuccessEvent p pr => piece_report_ok w p pr
  | taskSeedFailEvent _ => True
  | peerDownloadSuccessEvent p res => alive w p ∧ result_ok w p res
  | startReportPieceResultEvent p | peerDownloadPieceFailEvent p _
  | peerDownloadFailEvent p _ | peerLeaveEvent p => alive w p
  end.

Definition event_orphaned w (e : event) : Prop :=
  match e with
  | peerDownloadPieceSuccessEvent p pr => orphaned w p pr
  | _ => False
  end.

Lemma event_orphaned_panics order w e :
  event_orphaned w e → event_apply order w e = Panic NilDereference.
Proof. destruct e; simpl; try done. apply orphaned_panics. Qed.

Lemma event_apply_returns order w e :
  world_ok w → event_ok w e →
  returns w (event_apply order w e) ∨
  event_apply order w e = Panic NilDereference ∧ event_orphaned w e.
Proof.
  intros Hok He. destruct e as [rs|p|p pr|p pr|t|p res|p res|p]; simpl in *.
  - left. by apply reScheduleParentEvent_returns.
  - left. by apply startReportPieceResultEvent_returns.
  - by apply peerDownloadPieceSuccessEvent_returns.
  - left. by apply returns_Ok, peerDownloadPieceFailEvent_keeps.
  - left. by apply handleCDNSeedTaskFail_returns.
  - left. apply peerDownloadSuccessEvent_returns; naive_solver.
  - left. by apply peerDownloadFailEvent_returns.
  - left. by apply peerLeaveEvent_returns.
Qed.

End HandlersKeep.
