(* ===== verification/KeyMutex.v ===== *)
(** * KeyMutex: locks by key, pkg/synclock and pkg/sync

    [LockerPool] (key_locker.go, count_rwmutex.go), which the CDN serialises
    the work on a task with, as a transition system: any number of goroutines
    that lock a key, for reading or for writing, and unlock it later.  And
    [Krwmutex] (krwmutex.go), the lock of the scheduler's [GetOrAddTask], at
    the granularity of the calls of its [sync.Map] and of its mutexes. *)

From S2P Require Import Prelude.
From stdpp Require Import options.
Local Open Scope Z_scope.

(** ** sync.RWMutex: what it is held by *)

Record RWMutex := mkRWMutex { rw_writer : bool; rw_readers : nat }.

Definition newRWMutex : RWMutex := mkRWMutex false 0.

(** [Lock] and [RLock]; [None] while the call has to wait. *)
Definition RWMutex_lock (rLock : bool) (m : RWMutex) : option RWMutex :=
  if rw_writer m then None
  else if rLock then Some (mkRWMutex false (S (rw_readers m)))
  else if decide (rw_readers m = 0%nat) then Some (mkRWMutex true 0) else None.

(** [Unlock] and [RUnlock]; [None] for the fatal error of a mutex that is not
    held this way. *)
Definition RWMutex_unlock (rLock : bool) (m : RWMutex) : option RWMutex :=
  if rLock then
    match rw_readers m with
    | O => None
    | S n => if rw_writer m then None else Some (mkRWMutex false n)
    end
  else if rw_writer m then Some (mkRWMutex false (rw_readers m)) else None.

(** ** count_rwmutex.go *)

Record countRWMutex := mkCountRWMutex { cm_mutex : RWMutex; cm_count : Z }.   (* int32 *)

Definition newCountRWMutex : countRWMutex := mkCountRWMutex newRWMutex 0.

Definition countRWMutex_reset (m : countRWMutex) : countRWMutex := mkCountRWMutex (cm_mutex m) 0.

Definition countRWMutex_inc (m : countRWMutex) : countRWMutex :=
  mkCountRWMutex (cm_mutex m) (int32 (cm_count m + 1)).

Definition countRWMutex_dec (m : countRWMutex) : countRWMutex :=
  mkCountRWMutex (cm_mutex m) (int32 (cm_count m - 1)).

Definition countRWMutex_lock (rLock : bool) (m : countRWMutex) : option countRWMutex :=
  (λ x, mkCountRWMutex x (cm_count m)) <$> RWMutex_lock rLock (cm_mutex m).

Definition countRWMutex_unlock (rLock : bool) (m : countRWMutex) : option countRWMutex :=
  (λ x, mkCountRWMutex x (cm_count m)) <$> RWMutex_unlock rLock (cm_mutex m).

(** ** key_locker.go *)

Notation lockerId := positive (only parsing).

Record LockerPool := mkLockerPool {
  lp_syncPool : gset lockerId;
  lp_lockerMap : gmap string lockerId;
  lp_lockers : gmap lockerId countRWMutex;   (* the heap *)
}.

Definition NewLockerPool : LockerPool := mkLockerPool ∅ ∅ ∅.

(** [syncPool.Get] hands out some item of the pool, or a new one: [choice]. *)
Definition syncPool_Get (choice : lockerId) (l : LockerPool) : LockerPool :=
  if decide (choice ∈ lp_syncPool l)
  then mkLockerPool (lp_syncPool l ∖ {[ choice ]}) (lp_lockerMap l) (lp_lockers l)
  else mkLockerPool (lp_syncPool l) (lp_lockerMap l) (<[choice := newCountRWMutex]> (lp_lockers l)).

Definition updLocker (f : countRWMutex → countRWMutex) (id : lockerId) (l : LockerPool)
    : LockerPool := mkLockerPool (lp_syncPool l) (lp_lockerMap l) (alter f id (lp_lockers l)).

(** The critical section of [Lock]: the locker of the key, counted. *)
Definition LockerPool_Lock (choice : lockerId) (l : LockerPool) (key : string)
    : LockerPool * lockerId :=
  match lp_lockerMap l !! key with
  | Some id => (updLocker countRWMutex_inc id l, id)
  | None =>
      let l := syncPool_Get choice l in
      let l := mkLockerPool (lp_syncPool l) (<[key := choice]> (lp_lockerMap l)) (lp_lockers l) in
      (updLocker countRWMutex_inc choice l, choice)
  end.

(** [UnLock]; [None] when the mutex is not held this way. *)
Definition LockerPool_UnLock (l : LockerPool) (key : string) (rLock : bool) : option LockerPool :=
  match lp_lockerMap l !! key with
  | None => Some l
  | Some id =>
      m ← lp_lockers l !! id;
      m ← countRWMutex_unlock rLock m;
      let m := countRWMutex_dec m in
      if cm_count m <=? 0 then
        Some (mkLockerPool ({[ id ]} ∪ lp_syncPool l) (delete key (lp_lockerMap l))
                (<[id := countRWMutex_reset m]> (lp_lockers l)))
      else Some (mkLockerPool (lp_syncPool l) (lp_lockerMap l) (<[id := m]> (lp_lockers l)))
  end.

(** *** Goroutines *)

(** A goroutine between the start of [Lock] and the end of [UnLock]. *)
Record Goroutine := mkGoroutine {
  g_key : string;
  g_rLock : bool;
  g_locker : lockerId;
  g_holds : bool;    (* Lock has returned *)
}.

Record LockState := mkLockState {
  ls_pool : LockerPool;
  ls_goroutines : gmap nat Goroutine;
}.

Inductive lock_step : LockState → LockState → Prop :=
  | step_enter l cs t key rLock choice l' id :
      cs !! t = None → Z.of_nat (size cs) < 2 ^ 31 - 1 →
      (choice ∈ lp_syncPool l ∨ lp_lockers l !! choice = None) →
      LockerPool_Lock choice l key = (l', id) →
      lock_step (mkLockState l cs) (mkLockState l' (<[t := mkGoroutine key rLock id false]> cs))
  | step_acquire l cs t key rLock id m m' :
      cs !! t = Some (mkGoroutine key rLock id false) → lp_lockers l !! id = Some m →
      countRWMutex_lock rLock m = Some m' →
      lock_step (mkLockState l cs)
        (mkLockState (mkLockerPool (lp_syncPool l) (lp_lockerMap l) (<[id := m']> (lp_lockers l)))
           (<[t := mkGoroutine key rLock id true]> cs))
  | step_release l cs t key rLock id l' :
      cs !! t = Some (mkGoroutine key rLock id true) → LockerPool_UnLock l key rLock = Some l' →
      lock_step (mkLockState l cs) (mkLockState l' (delete t cs)).

Definition lock_start : LockState := mkLockState NewLockerPool ∅.

(** *** Counting goroutines *)

Definition cnt {A} (P : A → bool) (cs : gmap nat A) : nat :=
  size (filter (λ x, P x.2 = true) cs).

Lemma cnt_insert {A} (P : A → bool) cs t c :
  cs !! t = None → cnt P (<[t := c]> cs) = ((if P c then 1 else 0) + cnt P cs)%nat.
Proof.
  intros Ht. unfold cnt. destruct (P c) eqn:HP.
  - rewrite map_filter_insert_True by done. rewrite map_size_insert_None; [done|].
    apply map_lookup_filter_None. by left.
  - rewrite map_filter_insert_False by (simpl; congruence).
    rewrite delete_id by done. done.
Qed.

Lemma cnt_delete {A} (P : A → bool) cs t c :
  cs !! t = Some c → cnt P cs = ((if P c then 1 else 0) + cnt P (delete t cs))%nat.
Proof.
  intros Ht. rewrite <-(insert_delete_id cs t c Ht) at 1. apply cnt_insert, lookup_delete_eq.
Qed.

Lemma cnt_update {A} (P : A → bool) cs t c c' :
  cs !! t = Some c →
  (cnt P (<[t := c']> cs) + (if P c then 1 else 0) = cnt P cs + (if P c' then 1 else 0))%nat.
Proof.
  intros Ht. rewrite (cnt_delete P cs t c Ht), <-insert_delete_eq, cnt_insert by apply lookup_delete_eq.
  lia.
Qed.

Lemma cnt_pos {A} (P : A → bool) cs t c : cs !! t = Some c → P c = true → (0 < cnt P cs)%nat.
Proof. intros Ht HP. rewrite (cnt_delete P cs t c Ht), HP. lia. Qed.

Lemma cnt_two {A} (P : A → bool) cs t1 t2 c1 c2 :
  t1 ≠ t2 → cs !! t1 = Some c1 → cs !! t2 = Some c2 → P c1 = true → P c2 = true →
  (2 ≤ cnt P cs)%nat.
Proof.
  intros Hne H1 H2 HP1 HP2. rewrite (cnt_delete P cs t1 c1 H1), HP1.
  assert (0 < cnt P (delete t1 cs))%nat; [|lia]. apply (cnt_pos P _ t2 c2); [|done].
  by rewrite lookup_delete_ne.
Qed.

Lemma cnt_le_size {A} (P : A → bool) cs : (cnt P cs ≤ size cs)%nat.
Proof. unfold cnt. apply map_size_filter. Qed.

Lemma cnt_none {A} (P : A → bool) cs : (∀ t c, cs !! t = Some c → P c = false) → cnt P cs = 0%nat.
Proof.
  intros H. unfold cnt. apply map_size_empty_iff, map_eq. intros t. rewrite lookup_empty.
  apply map_lookup_filter_None. right. intros c Ht. simpl. by rewrite (H t c Ht).
Qed.

(** *** The invariant *)

Definition uses (k : string) (c : Goroutine) : bool := bool_decide (g_key c = k).
Definition writes (k : string) (c : Goroutine) : bool := uses k c && g_holds c && negb (g_rLock c).
Definition reads (k : string) (c : Goroutine) : bool := uses k c && g_holds c && g_rLock c.

(** The mutex is held by [w] writers and [r] readers. *)
Definition heldBy (m : RWMutex) (w r : nat) : Prop :=
  rw_readers m = r ∧ w = (if rw_writer m then 1 else 0)%nat ∧ (rw_writer m = true → r = 0%nat).

Definition locker_ok (cs : gmap nat Goroutine) (k : string) (m : countRWMutex) : Prop :=
  cm_count m = Z.of_nat (cnt (uses k) cs) ∧ (0 < cnt (uses k) cs)%nat ∧
  heldBy (cm_mutex m) (cnt (writes k) cs) (cnt (reads k) cs).

Record lock_ok (s : LockState) : Prop := {
  lo_inj : ∀ k1 k2 id, lp_lockerMap (ls_pool s) !! k1 = Some id →
    lp_lockerMap (ls_pool s) !! k2 = Some id → k1 = k2;
  lo_goroutine : ∀ t c, ls_goroutines s !! t = Some c →
    lp_lockerMap (ls_pool s) !! g_key c = Some (g_locker c);
  lo_locker : ∀ k id, lp_lockerMap (ls_pool s) !! k = Some id → ∃ m,
    lp_lockers (ls_pool s) !! id = Some m ∧ id ∉ lp_syncPool (ls_pool s) ∧
    locker_ok (ls_goroutines s) k m;
  lo_pool : ∀ id, id ∈ lp_syncPool (ls_pool s) →
    lp_lockers (ls_pool s) !! id = Some newCountRWMutex;
  lo_size : Z.of_nat (size (ls_goroutines s)) < 2 ^ 31;
}.

(** Goroutines of other keys do not count. *)
Lemma other_key k c : g_key c ≠ k → uses k c = false ∧ writes k c = false ∧ reads k c = false.
Proof. intros Hne. unfold writes, reads, uses. by rewrite bool_decide_eq_false_2. Qed.

Lemma locker_ok_insert_other cs t c k m :
  cs !! t = None → g_key c ≠ k → locker_ok cs k m → locker_ok (<[t := c]> cs) k m.
Proof.
  intros Ht Hne. destruct (other_key k c Hne) as (H1 & H2 & H3). unfold locker_ok.
  by rewrite !cnt_insert, H1, H2, H3 by done.
Qed.

Lemma locker_ok_delete_other cs t c k m :
  cs !! t = Some c → g_key c ≠ k → locker_ok cs k m → locker_ok (delete t cs) k m.
Proof.
  intros Ht Hne. destruct (other_key k c Hne) as (H1 & H2 & H3). unfold locker_ok.
  by rewrite !(cnt_delete _ cs t c Ht), H1, H2, H3.
Qed.

Lemma locker_ok_update_other cs t c c' k m :
  cs !! t = Some c → g_key c ≠ k → g_key c' ≠ k → locker_ok cs k m →
  locker_ok (<[t := c']> cs) k m.
Proof.
  intros Ht Hne Hne' Hok. rewrite <-insert_delete_eq.
  apply locker_ok_insert_other; [apply lookup_delete_eq|done|].
  by eapply locker_ok_delete_other.
Qed.

(** *** [Lock]: a goroutine more for the key *)

Lemma this_key key rLock id holds :
  let c := mkGoroutine key rLock id holds in
  uses key c = true ∧ writes key c = holds && negb rLock ∧ reads key c = holds && rLock.
Proof. unfold writes, reads, uses. simpl. by rewrite bool_decide_eq_true_2. Qed.

Lemma locker_ok_enter cs t key rLock id m :
  cs !! t = None → Z.of_nat (size cs) < 2 ^ 31 - 1 →
  cm_count m = Z.of_nat (cnt (uses key) cs) →
  heldBy (cm_mutex m) (cnt (writes key) cs) (cnt (reads key) cs) →
  locker_ok (<[t := mkGoroutine key rLock id false]> cs) key (countRWMutex_inc m).
Proof.
  intros Ht Hsz Hc Hh. pose proof (cnt_le_size (uses key) cs). unfold locker_ok, countRWMutex_inc.
  destruct (this_key key rLock id false) as (H1 & H2 & H3).
  rewrite !cnt_insert, H1, H2, H3 by done. simpl. rewrite Hc, int32_small by lia.
  split; [lia|]. split; [lia|]. done.
Qed.

Lemma enter_ok l cs t key rLock choice l' id :
  lock_ok (mkLockState l cs) → cs !! t = None → Z.of_nat (size cs) < 2 ^ 31 - 1 →
  (choice ∈ lp_syncPool l ∨ lp_lockers l !! choice = None) →
  LockerPool_Lock choice l key = (l', id) →
  lock_ok (mkLockState l' (<[t := mkGoroutine key rLock id false]> cs)).
Proof.
  intros [Hinj Hgo Hlk Hpool Hsize] Ht Hsz Hch Hl. simpl in *. unfold LockerPool_Lock in Hl.
  assert (Z.of_nat (size (<[t:=mkGoroutine key rLock id false]> cs)) < 2 ^ 31) as Hsize'
    by (rewrite map_size_insert_None by done; lia).
  destruct (lp_lockerMap l !! key) as [id'|] eqn:Hkey.
  - injection Hl as <- <-. destruct (Hlk key id' Hkey) as (m & Hm & Hnp & Hc & _ & Hh).
    split; simpl; try done.
    + intros t' c [[<- <-]|[_ Hc']]%lookup_insert_Some; [done|by eapply Hgo].
    + intros k i Hk. destruct (decide (k = key)) as [->|Hne].
      * assert (i = id') as -> by congruence. exists (countRWMutex_inc m).
        rewrite lookup_alter_eq, Hm. split; [done|]. split; [done|]. by apply locker_ok_enter.
      * assert (i ≠ id') as Hi by (intros ->; by apply Hne, (Hinj k key id')).
        destruct (Hlk k i Hk) as (m' & Hm' & Hnp' & Hok'). exists m'.
        rewrite lookup_alter_ne by done. split; [done|]. split; [done|].
        by apply locker_ok_insert_other.
    + intros i Hi. rewrite lookup_alter_ne; [by apply Hpool|]. by intros ->.
  - assert (∀ P : string → Goroutine → bool, (∀ c, P key c = true → uses key c = true) →
      cnt (P key) cs = 0%nat) as Hnone.
    { intros P HP. apply cnt_none. intros t' c Hc. apply not_true_is_false. intros Hu%HP.
      unfold uses in Hu. apply bool_decide_eq_true in Hu as <-. rewrite (Hgo t' c Hc) in Hkey. done. }
    assert (∀ k i, lp_lockerMap l !! k = Some i → i ≠ choice) as Hfresh.
    { intros k i Hk ->. destruct (Hlk k choice Hk) as (m & Hm & Hnp & _).
      destruct Hch; [done|congruence]. }
    set (l1 := syncPool_Get choice l) in *.
    assert (lp_lockers l1 !! choice = Some newCountRWMutex ∧ choice ∉ lp_syncPool l1 ∧
      lp_lockerMap l1 = lp_lockerMap l ∧
      (∀ i, i ≠ choice → lp_lockers l1 !! i = lp_lockers l !! i) ∧
      (∀ i, i ∈ lp_syncPool l1 → i ∈ lp_syncPool l)) as (H1 & H2 & H3 & H4 & H5).
    { unfold l1, syncPool_Get. case_decide as Hin; simpl.
      - split; [by apply Hpool|]. set_solver.
      - rewrite lookup_insert_eq. do 3 (split; [done|]). split; [|done].
        intros i Hi. by rewrite lookup_insert_ne. }
    injection Hl as <- <-. split; simpl; rewrite ?H3; try done.
    + intros k1 k2 i [[<- <-]|[Hn1 Hk1]]%lookup_insert_Some [[<- Hi]|[Hn2 Hk2]]%lookup_insert_Some;
        try done; [| |by eapply Hinj].
      * by apply Hfresh in Hk2.
      * subst i. by apply Hfresh in Hk1.
    + intros t' c [[<- <-]|[_ Hc']]%lookup_insert_Some; [by rewrite lookup_insert_eq|].
      pose proof (Hgo t' c Hc') as Hg. rewrite lookup_insert_ne; [done|]. congruence.
    + intros k i [[<- <-]|[Hne Hk]]%lookup_insert_Some.
      * exists (countRWMutex_inc newCountRWMutex). rewrite lookup_alter_eq, H1. split; [done|].
        split; [done|]. apply locker_ok_enter; [done|lia| |].
        -- by rewrite (Hnone uses).
        -- rewrite (Hnone writes), (Hnone reads); [done|..];
             intros c; unfold writes, reads; by destruct (uses key c).
      * pose proof (Hfresh k i Hk) as Hi. destruct (Hlk k i Hk) as (m' & Hm' & Hnp' & Hok').
        exists m'. rewrite lookup_alter_ne, H4 by done. split; [done|]. split; [naive_solver|].
        by apply locker_ok_insert_other.
    + intros i Hi. rewrite lookup_alter_ne, H4 by (by intros ->). auto.
Qed.

(** *** The mutex is taken *)

Lemma lock_heldBy rLock m m' w r :
  RWMutex_lock rLock m = Some m' → heldBy m w r →
  heldBy m' (w + (if rLock then 0 else 1)) (r + (if rLock then 1 else 0)).
Proof.
  unfold RWMutex_lock, heldBy. intros Hl (Hr & Hw & Hx).
  destruct (rw_writer m) eqn:Hwr; [done|]. destruct rLock; [|case_decide as H0; [|done]];
    injection Hl as <-; simpl; split_and!; try done; lia.
Qed.

Lemma acquire_ok l cs t key rLock id m m' :
  lock_ok (mkLockState l cs) → cs !! t = Some (mkGoroutine key rLock id false) →
  lp_lockers l !! id = Some m → countRWMutex_lock rLock m = Some m' →
  lock_ok (mkLockState (mkLockerPool (lp_syncPool l) (lp_lockerMap l) (<[id := m']> (lp_lockers l)))
             (<[t := mkGoroutine key rLock id true]> cs)).
Proof.
  intros [Hinj Hgo Hlk Hpool Hsize] Ht Hm Hl. simpl in *. pose proof (Hgo t _ Ht) as Hkey. simpl in Hkey.
  destruct (Hlk key id Hkey) as (m1 & Hm1 & Hnp & Hc & Hp & Hh). assert (m1 = m) as -> by congruence.
  destruct (this_key key rLock id false) as (A1 & A2 & A3).
  destruct (this_key key rLock id true) as (B1 & B2 & B3).
  split; simpl; try done.
  - intros t' c [[<- <-]|[_ Hc']]%lookup_insert_Some; [done|by eapply Hgo].
  - intros k i Hk. destruct (decide (k = key)) as [->|Hne].
    + assert (i = id) as -> by congruence. exists m'. rewrite lookup_insert_eq.
      do 2 (split; [done|]). unfold locker_ok.
      pose proof (cnt_update (uses key) cs t _ (mkGoroutine key rLock id true) Ht) as U1.
      pose proof (cnt_update (writes key) cs t _ (mkGoroutine key rLock id true) Ht) as U2.
      pose proof (cnt_update (reads key) cs t _ (mkGoroutine key rLock id true) Ht) as U3.
      rewrite A1, B1 in U1. rewrite A2, B2 in U2. rewrite A3, B3 in U3. simpl in U2, U3.
      unfold countRWMutex_lock in Hl. destruct (RWMutex_lock rLock (cm_mutex m)) as [x|] eqn:Hx; [|done].
      injection Hl as <-. simpl. rewrite Hc. split; [lia|]. split; [lia|].
      pose proof (lock_heldBy _ _ _ _ _ Hx Hh) as Hh'.
      replace (cnt (writes key) (<[t:=mkGoroutine key rLock id true]> cs)) with
        (cnt (writes key) cs + (if rLock then 0 else 1))%nat by (destruct rLock; simpl in *; lia).
      replace (cnt (reads key) (<[t:=mkGoroutine key rLock id true]> cs)) with
        (cnt (reads key) cs + (if rLock then 1 else 0))%nat by (destruct rLock; simpl in *; lia).
      done.
    + assert (i ≠ id) as Hi by (intros ->; by apply Hne, (Hinj k key id)).
      destruct (Hlk k i Hk) as (m2 & Hm2 & Hnp2 & Hok2). exists m2.
      rewrite lookup_insert_ne by done. do 2 (split; [done|]).
      eapply locker_ok_update_other; [done|simpl; congruence..|done].
  - intros i Hi. rewrite lookup_insert_ne; [by apply Hpool|]. by intros ->.
  - by rewrite map_size_insert_Some by (by rewrite Ht).
Qed.

(** *** [UnLock]: a goroutine less for the key *)

Lemma unlock_heldBy (rLock : bool) m w r :
  heldBy m (w + (if rLock then 0 else 1)) (r + (if rLock then 1 else 0)) →
  ∃ m', RWMutex_unlock rLock m = Some m' ∧ heldBy m' w r.
Proof.
  unfold RWMutex_unlock, heldBy. intros (Hr & Hw & Hx). destruct rLock.
  - destruct (rw_readers m) as [|n]; [lia|]. destruct (rw_writer m); [specialize (Hx eq_refl); lia|].
    eexists. split; [done|]. simpl. split_and!; try done; lia.
  - destruct (rw_writer m); [|lia]. eexists. split; [done|]. simpl.
    specialize (Hx eq_refl). split_and!; try done; lia.
Qed.

(** The locker has other users: it stays. *)
Lemma locker_stays l cs t c m :
  lock_ok (mkLockState l cs) → cs !! t = Some c → locker_ok (delete t cs) (g_key c) m →
  lock_ok (mkLockState (mkLockerPool (lp_syncPool l) (lp_lockerMap l)
    (<[g_locker c := m]> (lp_lockers l))) (delete t cs)).
Proof.
  intros [Hinj Hgo Hlk Hpool Hsize] Ht Hm. simpl in *. pose proof (Hgo t _ Ht) as Hkey.
  split; simpl; try done.
  - intros t' c' [_ Hc']%lookup_delete_Some. by eapply Hgo.
  - intros k i Hk. destruct (Hlk k i Hk) as (m2 & Hm2 & Hnp2 & Hok2).
    destruct (decide (k = g_key c)) as [->|Hne].
    + assert (i = g_locker c) as -> by congruence. exists m. by rewrite lookup_insert_eq.
    + exists m2. rewrite lookup_insert_ne.
      * do 2 (split; [done|]). by eapply locker_ok_delete_other.
      * intros <-. by apply Hne, (Hinj k (g_key c) (g_locker c)).
  - intros i Hi. rewrite lookup_insert_ne; [by apply Hpool|]. intros <-.
    destruct (Hlk _ _ Hkey) as (_ & _ & Hnp & _). done.
  - rewrite map_size_delete, Ht. lia.
Qed.

(** It has none: it goes back to the pool. *)
Lemma locker_returns l cs t c :
  lock_ok (mkLockState l cs) → cs !! t = Some c → cnt (uses (g_key c)) (delete t cs) = 0%nat →
  lock_ok (mkLockState (mkLockerPool ({[ g_locker c ]} ∪ lp_syncPool l)
    (delete (g_key c) (lp_lockerMap l)) (<[g_locker c := newCountRWMutex]> (lp_lockers l)))
    (delete t cs)).
Proof.
  intros [Hinj Hgo Hlk Hpool Hsize] Ht Hz. simpl in *. pose proof (Hgo t _ Ht) as Hkey.
  split; simpl.
  - intros k1 k2 i [_ H1]%lookup_delete_Some [_ H2]%lookup_delete_Some. by eapply Hinj.
  - intros t' c' Hc'. rewrite lookup_delete_ne.
    + apply lookup_delete_Some in Hc' as [_ Hc']. by eapply Hgo.
    + intros Heq. apply (cnt_pos (uses (g_key c))) in Hc'; [lia|]. by apply bool_decide_eq_true.
  - intros k i [Hne Hk]%lookup_delete_Some. destruct (Hlk k i Hk) as (m2 & Hm2 & Hnp2 & Hok2).
    assert (i ≠ g_locker c) as Hi by (intros ->; by apply Hne, (Hinj (g_key c) k (g_locker c))).
    exists m2. rewrite lookup_insert_ne by done. split; [done|]. split; [set_solver|].
    by eapply locker_ok_delete_other.
  - intros i Hi. destruct (decide (i = g_locker c)) as [->|Hne]; [by rewrite lookup_insert_eq|].
    rewrite lookup_insert_ne by done. apply Hpool. set_solver.
  - rewrite map_size_delete, Ht. lia.
Qed.

(** A mutex that nothing holds is a new one. *)
Lemma unused_new k cs x :
  cnt (uses k) cs = 0%nat → heldBy x (cnt (writes k) cs) (cnt (reads k) cs) → x = newRWMutex.
Proof.
  intros Hz. assert (∀ t c, cs !! t = Some c → g_key c ≠ k) as Hno.
  { intros t c Hc Heq. apply (cnt_pos (uses k)) in Hc; [lia|]. by apply bool_decide_eq_true. }
  rewrite !cnt_none by (intros t c Hc; by apply other_key, (Hno t)).
  intros (Hr & Hw & _). destruct x as [[] rd]; simpl in *; [done|]. by subst rd.
Qed.

Lemma release_ok l cs t key rLock id :
  lock_ok (mkLockState l cs) → cs !! t = Some (mkGoroutine key rLock id true) →
  ∃ l', LockerPool_UnLock l key rLock = Some l' ∧ lock_ok (mkLockState l' (delete t cs)).
Proof.
  intros Hok Ht. pose proof (lo_goroutine _ Hok t _ Ht) as Hkey. simpl in Hkey.
  destruct (lo_locker _ Hok key id Hkey) as (m & Hm & _ & Hc & _ & Hh). simpl in Hm, Hc, Hh.
  pose proof (lo_size _ Hok) as Hsize. simpl in Hsize.
  pose proof (cnt_le_size (uses key) cs) as Hle.
  destruct (this_key key rLock id true) as (B1 & B2 & B3).
  rewrite (cnt_delete (uses key) cs t _ Ht), B1 in Hc, Hle.
  rewrite (cnt_delete (writes key) cs t _ Ht), (cnt_delete (reads key) cs t _ Ht), B2, B3 in Hh.
  rewrite (Nat.add_comm _ (cnt (writes key) _)), (Nat.add_comm _ (cnt (reads key) _)) in Hh.
  destruct (unlock_heldBy rLock (cm_mutex m) (cnt (writes key) (delete t cs))
    (cnt (reads key) (delete t cs))) as (x & Hx & Hhx); [by destruct rLock|].
  unfold LockerPool_UnLock, countRWMutex_unlock, countRWMutex_dec. rewrite Hkey, Hm.
  cbn. rewrite Hx. cbn. rewrite Hc, int32_small by lia.
  destruct (Z.leb_spec (Z.of_nat (1 + cnt (uses key) (delete t cs)) - 1) 0) as [H0|H0];
    eexists; (split; [done|]).
  - assert (cnt (uses key) (delete t cs) = 0%nat) as Hz by lia.
    rewrite (unused_new key (delete t cs) x Hz Hhx).
    exact (locker_returns l cs t _ Hok Ht Hz).
  - refine (locker_stays l cs t _ _ Hok Ht _). unfold locker_ok. cbn [g_key cm_count].
    split; [lia|]. split; [lia|done].
Qed.

Lemma lock_step_ok s s' : lock_step s s' → lock_ok s → lock_ok s'.
Proof.
  destruct 1 as [| |l cs t key rLock id l' Ht Hu]; intros Hok.
  - by eapply enter_ok.
  - by eapply acquire_ok.
  - destruct (release_ok l cs t key rLock id Hok Ht) as (l2 & Hu2 & Hok2). congruence.
Qed.

Lemma lock_reachable_ok s : rtc lock_step lock_start s → lock_ok s.
Proof.
  assert (lock_ok lock_start) as H0 by (by split). intros Hreach.
  induction Hreach; eauto using lock_step_ok.
Qed.

Lemma cnt_witness {A} (P : A → bool) cs : (0 < cnt P cs)%nat → ∃ t c, cs !! t = Some c ∧ P c = true.
Proof.
  intros Hp. destruct (map_choose (filter (λ x, P x.2 = true) cs)) as (t & c & Hc).
  - intros He. unfold cnt in Hp. rewrite He, map_size_empty in Hp. lia.
  - apply map_lookup_filter_Some in Hc as [Hc HP]. eauto.
Qed.

(** A writer in the map excludes every other holder. *)
Lemma holders_read s t1 t2 c1 c2 :
  lock_ok s → ls_goroutines s !! t1 = Some c1 → ls_goroutines s !! t2 = Some c2 → t1 ≠ t2 →
  g_holds c1 = true → g_holds c2 = true → g_key c1 = g_key c2 →
  g_rLock c1 = true ∧ g_rLock c2 = true.
Proof.
  intros Hok H1 H2 Hne Hh1 Hh2 Hk.
  destruct (lo_locker _ Hok _ _ (lo_goroutine _ Hok _ _ H1)) as (m & _ & _ & _ & _ & Hr & Hw & Hx).
  destruct c1 as [k r1 i1 h1], c2 as [k2 r2 i2 h2]. simpl in *. subst k2 h1 h2.
  destruct (this_key k r1 i1 true) as (_ & W1 & R1), (this_key k r2 i2 true) as (_ & W2 & R2).
  destruct r1, r2; try done; simpl in *;
    first [pose proof (cnt_two _ _ _ _ _ _ Hne H1 H2 W1 W2)
          |pose proof (cnt_pos _ _ _ _ H1 W1); pose proof (cnt_pos _ _ _ _ H2 R2)
          |pose proof (cnt_pos _ _ _ _ H1 R1); pose proof (cnt_pos _ _ _ _ H2 W2)];
    destruct (rw_writer (cm_mutex m)); try specialize (Hx eq_refl); lia.
Qed.

(** C26: the locker pool excludes as promised, for any number of goroutines and
    keys and every interleaving: a goroutine that holds a key for writing holds
    it alone; an unlock of what is held never fails; and no locker stays in the
    map for a key that no goroutine uses. *)
Theorem LockerPool_excludes (s : LockState) :
  rtc lock_step lock_start s →
  (∀ t1 t2 c1 c2, ls_goroutines s !! t1 = Some c1 → ls_goroutines s !! t2 = Some c2 → t1 ≠ t2 →
     g_holds c1 = true → g_holds c2 = true → g_key c1 = g_key c2 →
     g_rLock c1 = true ∧ g_rLock c2 = true) ∧
  (∀ t c, ls_goroutines s !! t = Some c → g_holds c = true →
     is_Some (LockerPool_UnLock (ls_pool s) (g_key c) (g_rLock c))) ∧
  (∀ key, is_Some (lp_lockerMap (ls_pool s) !! key) →
     ∃ t c, ls_goroutines s !! t = Some c ∧ g_key c = key).
Proof.
  intros Hreach. assert (lock_ok s) as Hok by (by apply lock_reachable_ok).
  split_and!.
  - intros t1 t2 c1 c2 H1 H2 Hne Hh1 Hh2 Hk. by eapply holders_read.
  - intros t [key rLock id holds] Ht Hh. simpl in *. subst holds. destruct s as [l cs].
    destruct (release_ok l cs t key rLock id Hok Ht) as (l' & Hl' & _). by exists l'.
  - intros key [id Hid]. destruct (lo_locker _ Hok key id Hid) as (m & _ & _ & _ & Hp & _).
    destruct (cnt_witness _ _ Hp) as (t & c & Ht & Hu). exists t, c. split; [done|].
    by apply bool_decide_eq_true in Hu.
Qed.

(** Two goroutines read a task, a third waits to write it. *)
Definition lockDemo : LockState := mkLockState
  (mkLockerPool ∅ {[ "task"%string := 1%positive ]}
     {[ 1%positive := mkCountRWMutex (mkRWMutex false 2) 3 ]})
  {[ 0%nat := mkGoroutine "task" true 1 true; 1%nat := mkGoroutine "task" true 1 true;
     2%nat := mkGoroutine "task" false 1 false ]}.

Lemma LockerPool_excludes_witness :
  is_Some (LockerPool_UnLock (ls_pool lockDemo) "task" true) ∧
  ∃ t c, ls_goroutines lockDemo !! t = Some c ∧ g_key c = "task"%string.
Proof.
  assert (rtc lock_step lock_start lockDemo) as Hreach.
  { eapply rtc_l.
    { eapply (step_enter _ _ 0 "task" true 1); [..|right|]; vm_compute; reflexivity. }
    eapply rtc_l.
    { eapply (step_enter _ _ 1 "task" true 2); [..|right|]; vm_compute; reflexivity. }
    eapply rtc_l.
    { eapply (step_enter _ _ 2 "task" false 2); [..|right|]; vm_compute; reflexivity. }
    eapply rtc_l.
    { eapply (step_acquire _ _ 0); vm_compute; reflexivity. }
    eapply rtc_l.
    { eapply (step_acquire _ _ 1); vm_compute; reflexivity. }
    refine (eq_ind _ (rtc lock_step _) (rtc_refl _ _) _ _). vm_compute. reflexivity. }
  destruct (LockerPool_excludes lockDemo Hreach) as (_ & Hu & Hm). split.
  - exact (Hu 0%nat (mkGoroutine "task" true 1 true) eq_refl eq_refl).
  - apply Hm. vm_compute. by eexists.
Defined.

(** ** krwmutex.go

    A goroutine runs a list of calls.  What another goroutine can see between
    two steps of one call is what the code makes atomic: a call of the
    [sync.Map], a call of the mutex. *)

Record Krwmutex := mkKrwmutex {
  k_m : gmap string lockerId;             (* the sync.Map *)
  k_mutexes : gmap lockerId RWMutex;      (* the heap *)
  k_next : lockerId;
}.

Definition NewKrwmutex : Krwmutex := mkKrwmutex ∅ ∅ 1.

Inductive KCall :=
  | KLock (key : string) | KUnlock (key : string)
  | KRLock (key : string) | KRUnlock (key : string).

(** Where a goroutine is: between two calls, or in one with its [mu]. *)
Inductive KPoint :=
  | KBetween
  | KLocking (mu : lockerId) (rLock : bool)
  | KDeleting (key : string) (mu : lockerId) (rLock : bool)
  | KUnlocking (mu : lockerId) (rLock : bool).

Record KThread := mkKThread { kt_at : KPoint; kt_calls : list KCall }.

Inductive KStep :=
  | KNext (th : KThread) (k : Krwmutex)
  | KWait
  | KFatal.

(** [k.m.LoadOrStore(key, &m)] with [m := sync.RWMutex{}]. *)
Definition Krwmutex_LoadOrStore (k : Krwmutex) (key : string) : Krwmutex * lockerId :=
  match k_m k !! key with
  | Some mu => (k, mu)
  | None => (mkKrwmutex (<[key := k_next k]> (k_m k)) (<[k_next k := newRWMutex]> (k_mutexes k))
               (Pos.succ (k_next k)), k_next k)
  end.

Definition setMutex (k : Krwmutex) (mu : lockerId) (m : RWMutex) : Krwmutex :=
  mkKrwmutex (k_m k) (<[mu := m]> (k_mutexes k)) (k_next k).

(** The first step of [Lock] and [RLock], and of [Unlock] and [RUnlock]. *)
Definition Krwmutex_enter (rLock : bool) (key : string) (rest : list KCall) (k : Krwmutex) : KStep :=
  let '(k, mu) := Krwmutex_LoadOrStore k key in KNext (mkKThread (KLocking mu rLock) rest) k.

Definition Krwmutex_leave (rLock : bool) (key : string) (rest : list KCall) (k : Krwmutex) : KStep :=
  match k_m k !! key with
  | None => KNext (mkKThread KBetween rest) k
  | Some mu => KNext (mkKThread (KDeleting key mu rLock) rest) k
  end.

Definition Krwmutex_step (th : KThread) (k : Krwmutex) : KStep :=
  match kt_at th, kt_calls th with
  | KBetween, [] => KWait
  | KBetween, KLock key :: rest => Krwmutex_enter false key rest k
  | KBetween, KRLock key :: rest => Krwmutex_enter true key rest k
  | KBetween, KUnlock key :: rest => Krwmutex_leave false key rest k
  | KBetween, KRUnlock key :: rest => Krwmutex_leave true key rest k
  | KLocking mu rLock, rest =>
      match k_mutexes k !! mu ≫= RWMutex_lock rLock with
      | Some m => KNext (mkKThread KBetween rest) (setMutex k mu m)
      | None => KWait
      end
  | KDeleting key mu rLock, rest =>
      KNext (mkKThread (KUnlocking mu rLock) rest)
        (mkKrwmutex (delete key (k_m k)) (k_mutexes k) (k_next k))
  | KUnlocking mu rLock, rest =>
      match k_mutexes k !! mu ≫= RWMutex_unlock rLock with
      | Some m => KNext (mkKThread KBetween rest) (setMutex k mu m)
      | None => KFatal
      end
  end.

Inductive KResult :=
  | KState (ths : list KThread) (k : Krwmutex)
  | KCrash      (* fatal error: the process exits *)
  | KBlocked.   (* the schedule names a goroutine that cannot go on *)

(** The goroutines run in the order of a schedule. *)
Fixpoint Krwmutex_run (schedule : list nat) (ths : list KThread) (k : Krwmutex) : KResult :=
  match schedule with
  | [] => KState ths k
  | t :: rest =>
      match ths !! t with
      | None => KBlocked
      | Some th =>
          match Krwmutex_step th k with
          | KNext th' k' => Krwmutex_run rest (<[t := th']> ths) k'
          | KWait => KBlocked
          | KFatal => KCrash
          end
      end
  end.

(** The calls of [GetOrAddTask] for a task that it has to trigger; the trigger
    is what comes before the last one. *)
Definition GetOrAddTask_locks (key : string) : list KCall :=
  [KRLock key; KRUnlock key; KLock key; KUnlock key].

Definition GetOrAddTask_triggers (key : string) : KThread := mkKThread KBetween [KUnlock key].

Lemma Krwmutex_run_next t rest ths k th th' k' :
  ths !! t = Some th → Krwmutex_step th k = KNext th' k' →
  Krwmutex_run (t :: rest) ths k = Krwmutex_run rest (<[t := th']> ths) k'.
Proof. intros Ht Hs. simpl. by rewrite Ht, Hs. Qed.

Lemma Krwmutex_run_fatal t rest ths k th :
  ths !! t = Some th → Krwmutex_step th k = KFatal → Krwmutex_run (t :: rest) ths k = KCrash.
Proof. intros Ht Hs. simpl. by rewrite Ht, Hs. Qed.

(** One step of a run, the table's lookups resolved. *)
Ltac krw_eval :=
  unfold Krwmutex_step, Krwmutex_enter, Krwmutex_leave, Krwmutex_LoadOrStore, setMutex;
  cbn [kt_at kt_calls k_m k_mutexes k_next]; simplify_map_eq; reflexivity.
Ltac krw_next :=
  erewrite Krwmutex_run_next; [|reflexivity|krw_eval];
  cbn [insert list_insert replicate k_m k_mutexes k_next rw_readers].

(** Alone, a registration gets through and leaves the table as it was. *)
Lemma Krwmutex_alone k key :
  k_m k !! key = None →
  ∃ k', Krwmutex_run (replicate 10 0%nat) [mkKThread KBetween (GetOrAddTask_locks key)] k =
          KState [mkKThread KBetween []] k' ∧ k_m k' = k_m k.
Proof.
  intros Hk. eexists. unfold GetOrAddTask_locks. cbn [replicate]. split.
  - krw_next. krw_next. krw_next. krw_next. krw_next.
    krw_next. krw_next. krw_next. krw_next. krw_next. reflexivity.
  - simpl. rewrite !delete_insert_eq, !delete_id; [done..|apply lookup_delete_eq].
Qed.

(** two registrations of one task that run at the same time.  [RUnlock]
    removes the key from the table while the other registration still reads, so
    that there are schedules in which the second one unlocks a mutex that the
    first has locked for writing, which ends the process; and schedules in which
    both are past [Lock] and trigger the task at once. *)
Theorem GetOrAddTask_lock_fails (key : string) :
  let ths := [mkKThread KBetween (GetOrAddTask_locks key);
              mkKThread KBetween (GetOrAddTask_locks key)] in
  (∃ schedule, Krwmutex_run schedule ths NewKrwmutex = KCrash) ∧
  (∃ schedule k, Krwmutex_run schedule ths NewKrwmutex =
     KState [GetOrAddTask_triggers key; GetOrAddTask_triggers key] k).
Proof.
  unfold GetOrAddTask_locks, NewKrwmutex. split.
  - exists [0; 0; 1; 1; 0; 0; 0; 0; 0; 1; 1; 1]%nat. do 11 krw_next.
    eapply Krwmutex_run_fatal; [reflexivity|krw_eval].
  - exists [0; 0; 1; 1; 1; 0; 0; 0; 0; 0; 1; 1; 1; 1]%nat. eexists. do 14 krw_next. reflexivity.
Qed.
