(* ===== verification/Worker.v ===== *)
(** * Worker: the event loop group of scheduler/core/worker.go

    Events are dispatched by the CRC-32 of their task's ID, so that one worker
    sees all the events of a task, in the order they were sent. *)

From S2P Require Import Prelude.
From Stdlib Require Import Ascii.
From stdpp Require Import options.
Local Open Scope Z_scope.

(** ** hash/crc32, ChecksumIEEE *)

Definition crcPoly : Z := 0xEDB88320.

Definition crcBit (c : Z) : Z :=
  if Z.odd c then Z.lxor (Z.shiftr c 1) crcPoly else Z.shiftr c 1.

Definition crcByte (c b : Z) : Z := Nat.iter 8 crcBit (Z.lxor c b).

Definition stringBytes (s : string) : list Z :=
  (λ c, Z.of_N (N_of_ascii c)) <$> String.list_ascii_of_string s.

Definition ChecksumIEEE (data : list Z) : Z :=
  Z.lxor (foldl crcByte 0xFFFFFFFF data) 0xFFFFFFFF.

Section Workers.
Context {event : Type} (hashKey : event → string).

(** ** baseWorker: the events it accepted and has not applied yet *)

Record baseWorker := mkBaseWorker {
  bw_events : list event;
  bw_done : bool;
}.

Definition newWorker : baseWorker := mkBaseWorker [] false.

Definition baseWorker_stop (w : baseWorker) : baseWorker := mkBaseWorker (bw_events w) true.

(** The unbuffered send completes when the loop takes the event; it gives up
    when the worker is stopped. *)
Definition baseWorker_send (w : baseWorker) (e : event) : baseWorker * bool :=
  if bw_done w then (w, false) else (mkBaseWorker (bw_events w ++ [e]) false, true).

(** One turn of the loop: the next event, or the end. *)
Definition baseWorker_next (w : baseWorker) : baseWorker * option event :=
  if bw_done w then (w, None)
  else match bw_events w with
       | [] => (w, None)
       | e :: es => (mkBaseWorker es false, Some e)
       end.

(** ** workerGroup *)

Record workerGroup := mkWorkerGroup {
  workerNum : Z;               (* int *)
  workerList : list baseWorker;
}.

Definition newEventLoopGroup (n : Z) : workerGroup := mkWorkerGroup n [].

Definition workerGroup_start (g : workerGroup) : workerGroup :=
  mkWorkerGroup (workerNum g) (workerList g ++ replicate (Z.to_nat (workerNum g)) newWorker).

Definition choiceWorkerID (g : workerGroup) (e : event) : Z :=
  ChecksumIEEE (stringBytes (hashKey e)) mod uint32 (workerNum g).

Definition workerGroup_send (g : workerGroup) (e : event) : Outcome (workerGroup * bool) :=
  if uint32 (workerNum g) =? 0 then Panic DivideByZero
  else
    let i := Z.to_nat (choiceWorkerID g e) in
    match workerList g !! i with
    | None => Panic IndexOutOfRange
    | Some w =>
        let '(w, ok) := baseWorker_send w e in
        Ok (mkWorkerGroup (workerNum g) (<[i := w]> (workerList g)), ok)
    end.

Definition workerGroup_stop (g : workerGroup) : workerGroup :=
  mkWorkerGroup (workerNum g) (baseWorker_stop <$> workerList g).

(** ** Lemmas *)

(** The group runs: one worker per configured slot, none of them stopped. *)
Definition running (g : workerGroup) : Prop :=
  0 < workerNum g < 2 ^ 32 ∧ Z.of_nat (length (workerList g)) = workerNum g ∧
  Forall (λ w, bw_done w = false) (workerList g).

Lemma start_running n : 0 < n < 2 ^ 32 → running (workerGroup_start (newEventLoopGroup n)).
Proof.
  intros Hn. split; [done|]. simpl. rewrite length_replicate. split; [lia|].
  by apply Forall_replicate.
Qed.

Lemma choice_lt g e : running g → (Z.to_nat (choiceWorkerID g e) < length (workerList g))%nat.
Proof.
  intros (Hn & Hlen & _). unfold choiceWorkerID. rewrite uint32_small by lia.
  pose proof (Z.mod_pos_bound (ChecksumIEEE (stringBytes (hashKey e))) (workerNum g)). lia.
Qed.

(** A send on a running group is accepted by the worker of the event's key. *)
Lemma workerGroup_send_eq g e :
  running g →
  ∃ w, workerList g !! Z.to_nat (choiceWorkerID g e) = Some w ∧
    workerGroup_send g e =
      Ok (mkWorkerGroup (workerNum g)
            (<[Z.to_nat (choiceWorkerID g e) := mkBaseWorker (bw_events w ++ [e]) false]>
               (workerList g)), true).
Proof.
  intros Hrun. destruct (lookup_lt_is_Some_2 (workerList g) (Z.to_nat (choiceWorkerID g e)))
    as [w Hw]; [by apply choice_lt|].
  exists w. split; [done|]. unfold workerGroup_send.
  destruct Hrun as (Hn & _ & Hdone). rewrite uint32_small by lia.
  destruct (workerNum g =? 0) eqn:H0; zbool; [lia|]. rewrite Hw. unfold baseWorker_send.
  eapply Forall_lookup in Hdone as ->; done.
Qed.

Lemma workerGroup_send_running g e g' b :
  running g → workerGroup_send g e = Ok (g', b) → running g' ∧ workerNum g' = workerNum g.
Proof.
  intros Hrun Hs. destruct (workerGroup_send_eq g e Hrun) as (w & Hw & Heq).
  rewrite Heq in Hs. injection Hs as <- <-. destruct Hrun as (Hn & Hlen & Hdone).
  split; [|done]. split; [done|]. simpl. rewrite length_insert. split; [done|].
  by apply Forall_insert.
Qed.

(** The events of key [k] a worker holds. *)
Definition held (g : workerGroup) (i : nat) (k : string) : list event :=
  filter (λ e, hashKey e = k) (default [] (bw_events <$> workerList g !! i)).

Lemma held_send g e g' b i k :
  running g → workerGroup_send g e = Ok (g', b) →
  held g' i k = held g i k ++
    (if decide (i = Z.to_nat (choiceWorkerID g e)) then filter (λ e, hashKey e = k) [e] else []).
Proof.
  intros Hrun Hs. destruct (workerGroup_send_eq g e Hrun) as (w & Hw & Heq).
  rewrite Heq in Hs. injection Hs as <- <-. unfold held; simpl.
  case_decide as Hi.
  - subst i. rewrite list_lookup_insert_eq by (by apply choice_lt). rewrite Hw. simpl.
    apply filter_app.
  - rewrite list_lookup_insert_ne by done. by rewrite app_nil_r.
Qed.

(** Sending a list of events. *)
Definition sendAll (g : workerGroup) (es : list event) : Outcome workerGroup :=
  foldM (λ g e, '(g, _) ← workerGroup_send g e; Ok g) es g.

(** Every event of key [k] is at the worker of [k], in the order of sending. *)
Lemma sendAll_fifo g es k :
  running g →
  ∃ g', sendAll g es = Ok g' ∧ running g' ∧ workerNum g' = workerNum g ∧
    ∀ i, held g' i k = held g i k ++
      (if decide (Z.of_nat i = ChecksumIEEE (stringBytes k) mod workerNum g)
       then filter (λ e, hashKey e = k) es else []).
Proof.
  revert g. induction es as [|e es IH]; intros g Hrun; simpl.
  - exists g. split_and!; [done..|]. intros i. rewrite filter_nil. case_decide; by rewrite app_nil_r.
  - destruct (workerGroup_send_eq g e Hrun) as (w & _ & Heq).
    destruct (workerGroup_send g e) as [[g1 b]|?|] eqn:Hs; try done.
    destruct (workerGroup_send_running g e g1 b Hrun Hs) as [Hrun1 Hnum1].
    destruct (IH g1 Hrun1) as (g2 & Hg2 & Hrun2 & Hnum2 & Hh). unfold sendAll in Hg2. simpl.
    exists g2. split; [unfold sendAll; simpl; by rewrite Hs|]; split; [done|]; split; [congruence|]. intros i.
    rewrite Hh, (held_send g e g1 b) by done. rewrite Hnum1, <-app_assoc. f_equal.
    rewrite !filter_cons, filter_nil. unfold choiceWorkerID.
    destruct Hrun as (Hn & _ & _). rewrite uint32_small by lia.
    pose proof (Z.mod_pos_bound (ChecksumIEEE (stringBytes (hashKey e))) (workerNum g)).
    repeat case_decide; subst; try done; try lia; by rewrite app_nil_r.
Qed.

End Workers.
