(* ===== verification/Service.v ===== *)
(** * Service: scheduler/core/service.go and scheduler/rpcserver/rpcserver.go

    The requests of the peers: each touches the registries and sends events to
    the workers.  A request is one atomic step here; the lock that serialises
    [GetOrAddTask] is the subject of KeyMutex.v.  The events a request sends
    are part of its result. *)

From S2P Require Import Prelude Containers World Supervisor PeerTree Managers Invariant Scheduler.
From S2P Require Import Events.
From stdpp Require Import pretty.
From stdpp Require Import options.
Local Open Scope Z_scope.

Definition maxRescheduleTimes : Z := 8.

(** What the service reads of its configuration ([CDN = nil] when the CDN is
    disabled). *)
Record ServiceConfig := mkServiceConfig {
  cfg_BackSourceCount : Z;       (* int32 *)
  cfg_AccessWindow : Z;          (* ns *)
  cfg_CDN : bool;
  cfg_LoadLimit : option Z;      (* uint32, GetSchedulerClusterClientConfig *)
  cfg_EnablePeerHost : bool;     (* metrics *)
}.

Section Service.
Context `{S : !Scheduler} (cfg : ServiceConfig).

(** ** service.go *)

Definition SelectParent (w : World) (peer : PeerRef) : Outcome (World * (GoError + PeerRef)) :=
  '(w, r) ← ScheduleParent w peer ∅;
  match r with
  | None => Ok (w, inl (ErrOther ("no parent peer available for peer " ++
                                   peer_ID (getPeer w peer))))
  | Some (parent, _) => Ok (w, inr parent)
  end.

Definition getOrCreateHost (w : World) (peerHost : PeerHost) : World * HostRef :=
  match hostManager_Get w (ph_Uuid peerHost) with
  | Some host => (w, host)
  | None =>
      let options := match cfg_LoadLimit cfg with
                     | Some limit => [WithTotalUploadLoad limit]
                     | None => []
                     end in
      let '(w, host) := allocHost w
        (NewClientHost (ph_Uuid peerHost) (ph_Ip peerHost) (ph_HostName peerHost)
           (ph_RpcPort peerHost) (ph_DownPort peerHost) (ph_SecurityDomain peerHost)
           (ph_Location peerHost) (ph_Idc peerHost) options) in
      (hostManager_Add w host, host)
  end.

Definition RegisterTask (w : World) (req : PeerTaskRequest) (task : TaskRef)
    : Outcome (World * PeerRef) :=
  match req_PeerHost req with
  | None => Panic NilDereference
  | Some peerHost =>
      let '(w, host) := getOrCreateHost w peerHost in
      Ok match peerManager_Get w (req_PeerId req) with
         | Some peer => (w, peer)
         | None =>
             let '(w, peer) := NewPeer w (req_PeerId req) task host in
             (peerManager_Add w peer, peer)
         end
  end.

(** The last part of [GetOrAddTask], under the write lock. *)
Definition triggerTask (w : World) (task : TaskRef) : World :=
  if Task_IsHealth w task then w
  else
    let w := updTask (set_task_LastTriggerAt (w_now w)) task w in
    let w := Task_SetStatus w task TaskStatusRunning in
    if negb (cfg_CDN cfg)
    then updTask (set_task_BackToSourceWeight (cfg_BackSourceCount cfg)) task w
    else set_w_spawned (w_spawned w ++ [SpawnSeed task]) w.

Definition GetOrAddTask (w : World) (task : TaskRef) : World * TaskRef :=
  let '(w, (task, ok)) := taskManager_GetOrAdd w task in
  if ok && ((w_now w <? task_LastTriggerAt (getTask w task) + cfg_AccessWindow cfg)
            || Task_IsHealth w task)
  then (w, task)
  else (triggerTask w task, task).

(** The outcome of the goroutine [GetOrAddTask] starts, given the outcome of
    [StartSeedTask]: the state it leaves and the event it sends. *)
Definition seedTaskDone (w : World) (task : TaskRef) (r : GoError + PeerRef) : World * event :=
  match r with
  | inl _ => (updTask (set_task_BackToSourceWeight (cfg_BackSourceCount cfg)) task w,
              taskSeedFailEvent task)
  | inr cdnPeer => (w, peerDownloadSuccessEvent cdnPeer None)
  end.

Definition HandlePieceResult (w : World) (peer : PeerRef) (pieceResult : PieceResult)
    : Outcome (World * list event) :=
  let w := Peer_Touch w peer in
  if pr_Success pieceResult && cfg_EnablePeerHost cfg
     && bool_decide (pr_PieceInfo pieceResult = None) then Panic NilDereference
  else
    match pr_PieceInfo pieceResult with
    | Some info =>
        if PieceNum info =? EndOfPiece then Ok (w, [])
        else if PieceNum info =? ZeroOfPiece then Ok (w, [startReportPieceResultEvent peer])
        else if pr_Success pieceResult
        then Ok (w, [peerDownloadPieceSuccessEvent peer pieceResult])
        else if negb (pr_Code pieceResult =? Code_Success)
        then Ok (w, [peerDownloadPieceFailEvent peer pieceResult])
        else Ok (w, [])
    | None =>
        if pr_Success pieceResult
        then Ok (w, [peerDownloadPieceSuccessEvent peer pieceResult])
        else if negb (pr_Code pieceResult =? Code_Success)
        then Ok (w, [peerDownloadPieceFailEvent peer pieceResult])
        else Ok (w, [])
    end.

Definition HandlePeerResult (w : World) (peer : PeerRef) (peerResult : PeerResult)
    : World * list event :=
  let w := Peer_Touch w peer in
  (w, [if res_Success peerResult then peerDownloadSuccessEvent peer (Some peerResult)
       else peerDownloadFailEvent peer peerResult]).

Definition HandleLeaveTask (w : World) (peer : PeerRef) : World * list event :=
  (Peer_Touch w peer, [peerLeaveEvent peer]).

(** One turn of [runReScheduleParentLoop] on the entry it takes. *)
Definition rescheduleTurn (w : World) (rs : RsPeer) : World * list event :=
  let peer := rs_peer rs in
  let task := peer_Task (getPeer w peer) in
  if maxRescheduleTimes <? rs_times rs then
    (orderBackSource w peer task
       (DfError Code_SchedNeedBackSource
          ("reschedule parent for peer " ++ peer_ID (getPeer w peer) ++
           " already reaches max reschedule times")), [])
  else if Task_ContainsBackToSourcePeer w task (peer_ID (getPeer w peer)) then (w, [])
  else if Peer_IsDone w peer || Peer_IsLeave w peer then (w, [])
  else (w, [reScheduleParentEvent rs]).

(** ** rpcserver.go *)

Context (TaskID : string → option UrlMeta → string).

Definition singlePiece (w : World) (parent : PeerRef) (firstPiece : PieceInfo) : SinglePiece :=
  {| sp_DstPid := peer_ID (getPeer w parent);
     sp_DstAddr := host_IP (hostOf w parent) ++ ":" ++
                   pretty (host_DownloadPort (hostOf w parent));
     sp_PieceInfo := firstPiece |}.

Definition RegisterPeerTask (w : World) (req : PeerTaskRequest)
    : Outcome (World * (GoError + RegisterResult)) :=
  let taskID := TaskID (req_Url req) (req_UrlMeta req) in
  let '(w, task) := allocTask w (NewTask (w_now w) taskID (req_Url req) (req_UrlMeta req)) in
  let '(w, task) := GetOrAddTask w task in
  if Task_IsFail w task then
    Ok (w, inl (DfError Code_SchedTaskStatusError "task status is fail"))
  else if Task_IsSuccess w task then
    let sizeScope := Task_GetSizeScope w task in
    match sizeScope with
    | SizeScope_TINY =>
        Ok (w, inr (mkRegisterResult taskID sizeScope
                      (RegisterResult_PieceContent (task_DirectPiece (getTask w task)))))
    | SizeScope_SMALL =>
        '(w, peer) ← RegisterTask w req task;
        '(w, r) ← SelectParent w peer;
        match r, Task_GetPiece w task 0 with
        | inr parent, Some firstPiece =>
            Ok (w, inr (mkRegisterResult taskID sizeScope
                          (RegisterResult_SinglePiece (singlePiece w parent firstPiece))))
        | _, _ => Ok (w, inr (mkRegisterResult taskID sizeScope RegisterResult_None))
        end
    | SizeScope_NORMAL =>
        '(w, _) ← RegisterTask w req task;
        Ok (w, inr (mkRegisterResult taskID sizeScope RegisterResult_None))
    end
  else
    '(w, _) ← RegisterTask w req task;
    Ok (w, inr (mkRegisterResult taskID SizeScope_NORMAL RegisterResult_None)).

(** The opening of a report stream, up to its first message: [first] is what
    the first [Recv] answers.  The result is the error the call ends with, or
    the peer and connection whose messages [HandlePieceResult] takes next. *)
Definition ReportPieceResult_open (w : World) (first : GoError + PieceResult)
    : Outcome (World * list event * (option GoError + PeerRef * ChanRef)) :=
  match first with
  | inl ErrEOF => Ok (w, [], inl None)
  | inl err => Ok (w, [], inl (Some (DfError Code_SchedPeerPieceResultReportFail
                     ("receive an error from peer stream: " ++ GoError_Error err))))
  | inr pieceResult =>
      match peerManager_Get w (pr_SrcPid pieceResult) with
      | None => Ok (w, [], inl (Some (DfError Code_SchedPeerNotFound
                     ("peer " ++ pr_SrcPid pieceResult ++ " not found"))))
      | Some peer =>
          if Task_IsFail w (peer_Task (getPeer w peer)) then
            Ok (w, [], inl (Some (DfError Code_SchedTaskStatusError
                  ("peer's task status is fail, task status " ++
                   TaskStatus_String (Task_GetStatus w (peer_Task (getPeer w peer)))))))
          else
            match Peer_BindNewConn w peer with
            | (w, None) => Ok (w, [], inl (Some (DfError Code_SchedPeerPieceResultReportFail
                                                   "peer can not bind conn")))
            | (w, Some conn) =>
                '(w, events) ← HandlePieceResult w peer pieceResult;
                Ok (w, events, inr (peer, conn))
            end
      end
  end.

Definition ReportPeerResult (w : World) (result : PeerResult)
    : World * list event * option GoError :=
  match peerManager_Get w (res_PeerId result) with
  | None => (w, [], Some (DfError Code_SchedPeerNotFound
                            ("peer " ++ res_PeerId result ++ " not found")))
  | Some peer => (HandlePeerResult w peer result, None)
  end.

Definition LeaveTask (w : World) (peerID : string) : World * list event * option GoError :=
  match peerManager_Get w peerID with
  | None => (w, [], None)
  | Some peer => (HandleLeaveTask w peer, None)
  end.

End Service.
