(* ===== verification/SeedTask.v ===== *)
(** * SeedTask: scheduler/supervisor/cdn.go and pkg/idgen/host_id.go

    Seeding a task from the CDN: the stream of pieces the CDN answers creates
    the CDN peer, completes the task, and ends with its success or an error.
    The RPC client and the HTTP client are parameters: what they answer. *)

From S2P Require Import Prelude Containers World Supervisor PeerTree Managers.
From stdpp Require Import pretty.
From stdpp Require Import options.
Local Open Scope Z_scope.

(** ** pkg/idgen/host_id.go *)

Definition HostID (hostname : string) (port : Z) : string := hostname ++ "-" ++ pretty port.
Definition CDNHostID (hostname : string) (port : Z) : string := HostID hostname port ++ "_CDN".

(** ** The dynamic client: the hosts of the configured CDNs *)

(** [config.CDN]; [cdn_ClusterConfig] is what [GetCDNClusterConfig] decodes:
    the network topology and the load limit. *)
Record CDNConfig := mkCDNConfig {
  cdn_HostName : string;
  cdn_IP : string;
  cdn_Port : Z;
  cdn_DownloadPort : Z;
  cdn_SecurityGroup : string;
  cdn_Location : string;
  cdn_IDC : string;
  cdn_ClusterConfig : option (string * Z);
}.

#[export] Instance CDNConfig_eq_dec : EqDecision CDNConfig.
Proof. solve_decision. Defined.

Record cdnDynamicClient := mkCdnDynamicClient {
  dc_data : list CDNConfig;
  dc_hosts : gmap string HostRef;
  dc_addrs : list string;    (* the addresses the connection balances over *)
}.

Definition cdnHost (c : CDNConfig) : Host :=
  let id := CDNHostID (cdn_HostName c) (cdn_Port c) in
  let options := match cdn_ClusterConfig c with
                 | Some (netTopology, loadLimit) =>
                     [WithNetTopology netTopology; WithTotalUploadLoad loadLimit]
                 | None => []
                 end in
  NewCDNHost id (cdn_IP c) (cdn_HostName c) (cdn_Port c) (cdn_DownloadPort c)
    (cdn_SecurityGroup c) (cdn_Location c) (cdn_IDC c) options.

Definition cdnsToHosts (w : World) (cdns : list CDNConfig) : World * gmap string HostRef :=
  foldl (λ '(w, hosts) c,
           let '(w, h) := allocHost w (cdnHost c) in
           (w, <[CDNHostID (cdn_HostName c) (cdn_Port c) := h]> hosts)) (w, ∅) cdns.

Definition cdnsToNetAddrs (cdns : list CDNConfig) : list string :=
  (λ c, (cdn_IP c ++ ":" ++ pretty (cdn_Port c))%string) <$> cdns.

Definition NewCDNDynmaicClient (w : World) (cdns : list CDNConfig) : World * cdnDynamicClient :=
  let '(w, hosts) := cdnsToHosts w cdns in
  (w, mkCdnDynamicClient cdns hosts (cdnsToNetAddrs cdns)).

Definition cdnDynmaicClient_GetHost (dc : cdnDynamicClient) (id : string) : option HostRef :=
  dc_hosts dc !! id.

Definition cdnDynmaicClient_OnNotify (w : World) (dc : cdnDynamicClient) (cdns : list CDNConfig)
    : World * cdnDynamicClient :=
  if decide (dc_data dc = cdns) then (w, dc)
  else
    let '(w, hosts) := cdnsToHosts w cdns in
    (w, mkCdnDynamicClient cdns hosts (cdnsToNetAddrs cdns)).

Section Seed.
Context (httpGet : string → GoError + list Byte.byte).

(** ** downloadTinyFile *)

Definition downloadTinyFile (w : World) (task : TaskRef) (cdnHost : HostRef)
    : Outcome (GoError + list Byte.byte) :=
  let id := task_ID (getTask w task) in
  if decide (String.length id < 3)%nat then Panic SliceBoundsOutOfRange
  else
    let url := ("http://" ++ host_IP (getHost w cdnHost) ++ ":" ++
               pretty (host_DownloadPort (getHost w cdnHost)) ++ "/download/" ++
               String.substring 0 3 id ++ "/" ++ id ++ "?peerId=scheduler")%string in
    Ok (httpGet url).

(** ** initCDNPeer *)

Definition initCDNPeer (dc : cdnDynamicClient) (w : World) (task : TaskRef) (ps : PieceSeed)
    : World * (GoError + PeerRef) :=
  let found :=
    match peerManager_Get w (ps_PeerId ps) with
    | Some peer => inr (w, peer)
    | None =>
        match (match hostManager_Get w (ps_HostUuid ps) with
               | Some host => Some (w, host)
               | None =>
                   match cdnDynmaicClient_GetHost dc (ps_HostUuid ps) with
                   | Some host => Some (hostManager_Add w host, host)
                   | None => None
                   end
               end) with
        | Some (w, host) => inr (NewPeer w (ps_PeerId ps) task host)
        | None => inl ErrInitCDNPeerFail
        end
    end in
  match found with
  | inl err => (w, inl err)
  | inr (w, peer) =>
      let w := Peer_SetStatus w peer PeerStatusRunning in
      (peerManager_Add w peer, inr peer)
  end.

(** ** receivePiece *)

(** The errors of the two calls of the RPC client, by code. *)
Definition seedError (err : GoError) : GoError :=
  match err with
  | DfError code _ =>
      if code =? Code_CDNTaskRegistryFail then ErrCDNRegisterFail
      else if code =? Code_CDNTaskDownloadFail then ErrCDNDownloadFail
      else ErrCDNUnknown
  | _ => ErrCDNInvokeFail
  end.

(** The end of the stream. *)
Definition receiveError (w : World) (task : TaskRef) (cdnPeer : option PeerRef) (err : GoError)
    : GoError + PeerRef :=
  match err with
  | ErrEOF =>
      match cdnPeer with
      | Some p =>
          if decide (Task_GetStatus w task = TaskStatusSuccess) then inr p
          else inl (ErrOther ("cdn stream receive EOF but task status is " ++
                              TaskStatus_String (Task_GetStatus w task)))
      | None => inl (ErrOther ("cdn stream receive EOF but task status is " ++
                               TaskStatus_String (Task_GetStatus w task)))
      end
  | _ => inl (seedError err)
  end.

(** The last piece: the task and the CDN peer succeed, and a tiny file is
    fetched and kept when it has the announced length. *)
Definition seedDone (w : World) (task : TaskRef) (cdnPeer : PeerRef) (piece : PieceSeed)
    : Outcome World :=
  let w := updTask (set_task_TotalPieceCount (ps_TotalPieceCount piece)) task w in
  let w := updTask (set_task_ContentLength (ps_ContentLength piece)) task w in
  let w := Task_SetStatus w task TaskStatusSuccess in
  let w := Peer_SetStatus w cdnPeer PeerStatusSuccess in
  if task_ContentLength (getTask w task) <=? TinyFileSize then
    r ← downloadTinyFile w task (peer_Host (getPeer w cdnPeer));
    match r with
    | inr data =>
        Ok (if Z.of_nat (length data) =? task_ContentLength (getTask w task)
            then updTask (set_task_DirectPiece data) task w else w)
    | inl _ => Ok w
    end
  else Ok w.

(** One turn of the loop on a piece: the state, the CDN peer, and the result
    when the loop ends. *)
Definition receiveOne (dc : cdnDynamicClient) (w : World) (task : TaskRef)
    (cdnPeer : option PeerRef) (piece : PieceSeed)
    : Outcome (World * option PeerRef * option (GoError + PeerRef)) :=
  let '(w, r) :=
    match cdnPeer with
    | Some p => (w, inr p)
    | None =>
        match initCDNPeer dc w task piece with
        | (w, inl err) => (w, inl err)
        | (w, inr p) =>
            (if negb (Task_CanSchedule w task) then Task_SetStatus w task TaskStatusSeeding else w,
             inr p)
        end
    end in
  match r with
  | inl err => Ok (w, None, Some (inl err))
  | inr p =>
      let w := Peer_Touch w p in
      if ps_Done piece then
        w ← seedDone w task p piece;
        Ok (w, Some p, Some (inr p))
      else
        match ps_PieceInfo piece with
        | None => Panic NilDereference
        | Some info =>
            let w := Peer_UpdateProgress w p (int32 (PieceNum info + 1)) 0 in
            let '(w, _) := Task_GetOrAddPiece w task info in
            Ok (w, Some p, None)
        end
  end.

(** The loop over what [Recv] answers; without a result it still waits. *)
Fixpoint receiveLoop
    (onError : World → option PeerRef → GoError → GoError + PeerRef)
    (onPiece : World → option PeerRef → PieceSeed →
       Outcome (World * option PeerRef * option (GoError + PeerRef)))
    (w : World) (cdnPeer : option PeerRef) (stream : list (GoError + option PieceSeed))
    : Outcome (World * option (GoError + PeerRef)) :=
  match stream with
  | [] => Ok (w, None)
  | inl err :: _ => Ok (w, Some (onError w cdnPeer err))
  | inr None :: stream => receiveLoop onError onPiece w cdnPeer stream
  | inr (Some piece) :: stream =>
      '(w, cdnPeer, r) ← onPiece w cdnPeer piece;
      match r with
      | Some r => Ok (w, Some r)
      | None => receiveLoop onError onPiece w cdnPeer stream
      end
  end.

Definition receivePiece (dc : cdnDynamicClient) (w : World) (task : TaskRef)
    (stream : list (GoError + option PieceSeed)) : Outcome (World * option (GoError + PeerRef)) :=
  receiveLoop (λ w cdnPeer err, receiveError w task cdnPeer err)
    (λ w cdnPeer piece, receiveOne dc w task cdnPeer piece) w None stream.

(** ** StartSeedTask *)

Definition StartSeedTask (client : option cdnDynamicClient) (w : World) (task : TaskRef)
    (obtain : GoError + list (GoError + option PieceSeed))
    : Outcome (World * option (GoError + PeerRef)) :=
  match client with
  | None => Ok (w, Some (inl ErrCDNClientUninitialized))
  | Some dc =>
      match obtain with
      | inl err => Ok (w, Some (inl (seedError err)))
      | inr stream => receivePiece dc w task stream
      end
  end.

End Seed.
