(* ===== verification/System.v ===== *)
(** * System: the scheduler as a transition system

    The steps of the scheduler are the requests of the peers, the workers
    applying events, the turns of the re-schedule loop, the visits of the
    collection passes, the goroutines of the connections and of the CDN, and the
    clock.  Each of them runs to its end before the next one starts: the system
    is the set of serial executions.  The code serialises the events of one task,
    which all go to the same worker, and the re-schedule loop only sends such
    events; but it takes no lock between a registration that selects a parent, a
    collection and a worker.  Races.v says what their overlap can do.  The
    invariant of Invariant.v holds in every state reached by serial steps. *)

From S2P Require Import Prelude Containers World Supervisor PeerTree Managers Invariant Scheduler.
From S2P Require Import Events EventsInvariant Service SeedTask.
From stdpp Require Import options.
Local Open Scope Z_scope.
Set Default Proof Using "Type*".

(** ** Steps that may allocate *)

Definition grows (w w' : World) : Prop :=
  world_ok w' ∧ ∀ q, alive w q → alive w' q.

Section Grows.
Implicit Types (w : World) (p q : PeerRef).

Lemma keeps_grows w w' : keeps w w' → grows w w'.
Proof. intros [Hok Hal]. split; [done|]. intros q. by apply Hal. Qed.

Lemma grows_refl w : world_ok w → grows w w.
Proof. done. Qed.

Lemma grows_trans w1 w2 w3 : grows w1 w2 → grows w2 w3 → grows w1 w3.
Proof. intros [_ H12] [Hok H23]. split; [done|]. auto. Qed.

Lemma dead_next w : world_ok w → w_peerHeap w !! w_next w = None.
Proof.
  intros Hok. destruct (w_peerHeap w !! w_next w) eqn:Hp; [|done]. exfalso.
  destruct (scope_next _ (world_scope _ Hok) (w_next w)) as [Hlt _]; [by eexists|].
  by apply Pos.lt_irrefl in Hlt.
Qed.

(** The references of the peers stay below the allocator as it moves on. *)
Lemma next_succ w w' :
  w_peerHeap w' = w_peerHeap w → w_next w' = Pos.succ (w_next w) → world_ok w →
  ∀ p, alive w' p → (p < w_next w')%positive ∧ (peer_Host (getPeer w' p) < w_next w')%positive.
Proof.
  unfold alive, getPeer. intros -> -> Hok p Hal.
  destruct (scope_next _ (world_scope _ Hok) p Hal). unfold getPeer in *. lia.
Qed.

Lemma hosts_succ w w' :
  w_hosts w' = w_hosts w → w_next w' = Pos.succ (w_next w) → world_ok w →
  ∀ id h, w_hosts w' !! id = Some h → (h < w_next w')%positive.
Proof.
  intros -> -> Hok id h Hh. apply (scope_hosts _ (world_scope _ Hok)) in Hh. lia.
Qed.

Lemma grows_allocTask w x :
  world_ok w → ul_wf (task_peers x) → ul_container (task_peers x) = [] →
  task_TotalPieceCount x < 2 ^ 31 → grows w (allocTask w x).1.
Proof.
  intros Hok Hwf Hnil Hcnt. split; [|done]. split; [by apply (peers_ok_ext w), Hok|].
  assert (∀ t, getTask (allocTask w x).1 t = if decide (w_next w = t) then x else getTask w t) as Hget.
  { intros t. unfold getTask; simpl. rewrite lookup_insert. by case_decide. }
  split; try apply Hok.
  - by apply (next_succ w).
  - intros t p. unfold Task_GetPeers. rewrite Hget. case_decide; [|apply Hok].
    rewrite Hnil. by intros ?%elem_of_nil.
  - intros t. unfold Task_GetPeers. rewrite Hget. case_decide; [done|apply Hok].
  - by apply (hosts_succ w).
  - intros t. rewrite Hget. case_decide; [done|apply Hok].
Qed.

Lemma uploads_unused w h :
  (∀ p, alive w p → peer_Host (getPeer w p) ≠ h) → uploads w h = 0.
Proof.
  unfold uploads, alive, getPeer. generalize (w_peerHeap w) as m.
  refine (map_fold_weak_ind (λ r m, (∀ p, is_Some (m !! p) →
    peer_Host (default zeroPeer (m !! p)) ≠ h) → r = 0) _ _ _ _); [done|].
  intros p x m r Hp IH Hm. rewrite IH.
  - specialize (Hm p). rewrite lookup_insert_eq in Hm. simpl in Hm.
    unfold uploads_at. rewrite decide_False; [lia|]. apply Hm. by eexists.
  - intros q Hq. specialize (Hm q). rewrite lookup_insert_ne in Hm; [by apply Hm|].
    intros ->. rewrite Hp in Hq. by destruct Hq.
Qed.

Lemma grows_allocHost w x :
  world_ok w → host_CurrentUploadLoad x = 0 → 0 <= host_TotalUploadLoad x < 2 ^ 32 →
  grows w (allocHost w x).1.
Proof.
  intros Hok Hcur Htot. split; [|done].
  assert (∀ h, getHost (allocHost w x).1 h = if decide (w_next w = h) then x else getHost w h) as Hget.
  { intros h. unfold getHost; simpl. rewrite lookup_insert. by case_decide. }
  assert (uploads w (w_next w) = 0) as Hup.
  { apply uploads_unused. intros p Hal Heq.
    destruct (scope_next _ (world_scope _ Hok) p Hal) as [_ Hlt]. rewrite Heq in Hlt.
    by apply Pos.lt_irrefl in Hlt. }
  split.
  - apply (peers_ok_ext w); [done| |apply Hok]. intros h. rewrite Hget. case_decide; [|done].
    subst h. destruct (load_exact w (w_next w) Hok) as [-> _]. lia.
  - split; try apply Hok.
    + by apply (next_succ w).
    + by apply (hosts_succ w).
    + intros h. rewrite Hget. case_decide; [done|apply Hok].
Qed.

(** A new peer, with an ID no peer has, linked to nothing. *)
Lemma NewPeer_get w id t h q :
  getPeer (NewPeer w id t h).1 q =
  if decide (w_next w = q)
  then mkPeer id t h 0 (w_now w) (w_now w) None ∅ PeerStatusWaiting [] None false
  else getPeer w q.
Proof. unfold getPeer; simpl. rewrite lookup_insert. by case_decide. Qed.

Lemma NewPeer_parent w id t h q :
  world_ok w → Peer_GetParent (NewPeer w id t h).1 q = Peer_GetParent w q.
Proof.
  intros Hok. unfold Peer_GetParent. rewrite NewPeer_get. case_decide; [|done]. subst q.
  unfold getPeer. by rewrite dead_next.
Qed.

Lemma NewPeer_children w id t h q :
  world_ok w → Peer_GetChildren (NewPeer w id t h).1 q = Peer_GetChildren w q.
Proof.
  intros Hok. unfold Peer_GetChildren. rewrite NewPeer_get. case_decide; [|done]. subst q.
  unfold getPeer. by rewrite dead_next.
Qed.

Lemma NewPeer_peers_ok w id t h :
  world_ok w → id ≠ ""%string → (∀ p, alive w p → peer_ID (getPeer w p) ≠ id) →
  peers_ok (NewPeer w id t h).1.
Proof.
  intros Hok Hne Hfresh. pose proof (world_peers _ Hok) as Hp.
  assert (∀ q, alive w q → peer_ID (getPeer (NewPeer w id t h).1 q) = peer_ID (getPeer w q)) as Hid.
  { intros q Hal. rewrite NewPeer_get, decide_False; [done|]. intros <-.
    unfold alive in Hal. rewrite dead_next in Hal by done. by destruct Hal. }
  split.
  - split.
    + intros q i c. rewrite NewPeer_children, NewPeer_parent by done. intros Hc.
      apply (tree_child _ (peers_tree _ Hp)) in Hc as [Hi Hc]. rewrite Hid; [done|].
      by apply (parent_alive w c q), Hc; apply Hp.
    + intros c q. rewrite NewPeer_children, NewPeer_parent by done. intros Hc.
      rewrite Hid; [by apply (tree_parent _ (peers_tree _ Hp))|].
      by apply (parent_alive w c q), Hc; apply Hp.
  - intros k. assert (uploads (NewPeer w id t h).1 k = uploads w k) as ->; [|apply Hp].
    assert (∀ x, peer_children x = ∅ → uploads_at k x = 0) as H0.
    { intros x Hx. unfold uploads_at. rewrite Hx, map_size_empty. by case_decide. }
    unfold uploads; simpl. rewrite uploads_insert, dead_next by done.
    simpl. rewrite !H0 by done. lia.
  - intros q Hq. apply (peers_acyclic _ Hp q). revert Hq. apply (tc_congruence (λ x, x)).
    intros c d. unfold parent_rel. by rewrite NewPeer_parent.
  - intros p q. rewrite !NewPeer_get. repeat case_decide; simpl; try congruence.
    + subst p. intros Heq _. destruct (decide (alive w q)) as [Hal|Hal].
      * by destruct (Hfresh q).
      * unfold alive, getPeer in *. destruct (w_peerHeap w !! q); [by destruct Hal; eexists|done].
    + subst q. intros Heq Hnp. destruct (decide (alive w p)) as [Hal|Hal].
      * by destruct (Hfresh p).
      * unfold alive, getPeer in *. destruct (w_peerHeap w !! p); [by destruct Hal; eexists|done].
    + apply Hp.
Qed.

Lemma grows_NewPeer w id t h :
  world_ok w → id ≠ ""%string → (∀ p, alive w p → peer_ID (getPeer w p) ≠ id) →
  (h < w_next w)%positive → Z.of_nat (size (w_peerHeap w)) < 2 ^ 31 - 1 →
  grows w (NewPeer w id t h).1 ∧ alive (NewPeer w id t h).1 (w_next w).
Proof.
  intros Hok Hne Hfresh Hh Hsize.
  assert (∀ q, alive (NewPeer w id t h).1 q ↔ q = w_next w ∨ alive w q) as Hal.
  { intros q. unfold alive; simpl. rewrite lookup_insert. case_decide; [|naive_solver].
    subst q. split; [by left|by eexists]. }
  split; [|apply Hal; by left]. split; [|intros q Hq; apply Hal; by right].
  split; [by apply NewPeer_peers_ok|]. split; try apply Hok.
  - intros q Hq. rewrite NewPeer_get. case_decide; [done|].
    apply Hok. apply Hal in Hq as [->|?]; done.
  - intros q Hq. rewrite NewPeer_get. simpl. case_decide; simpl; [subst q; lia|].
    apply Hal in Hq as [->|Hq]; [done|]. destruct (scope_next _ (world_scope _ Hok) q Hq). lia.
  - simpl. rewrite map_size_insert_None by (by apply dead_next). lia.
  - intros u q Hq. apply Hal. right. by eapply (scope_tasks _ (world_scope _ Hok)).
  - intros i q Hq. apply Hal. right. by eapply (scope_registry _ (world_scope _ Hok)).
  - intros e He. apply Hal. right. by apply (scope_queue _ (world_scope _ Hok)).
  - by apply (hosts_succ w).
  - intros q. rewrite NewPeer_get. case_decide; [done|apply Hok].
Qed.

Lemma keeps_Add w p : world_ok w → alive w p → keeps w (peerManager_Add w p).
Proof.
  intros Hok Hal. unfold peerManager_Add.
  set (w1 := Host_AddPeer w (peer_Host (getPeer w p)) p).
  assert (world_ok w1) as H1.
  { split; [|apply scope_ok_updHost; [apply Hok|done]]. apply (peers_ok_ext w); [done| |apply Hok].
    intros h. subst w1. unfold Host_AddPeer. by rewrite (updHost_field host_CurrentUploadLoad). }
  assert (keeps w1 (Task_AddPeer w1 (peer_Task (getPeer w1 p)) p)) as H2.
  { by apply (keeps_UpdatePeer w1). }
  split; [|intros q; apply H2]. destruct H2 as [[Hp2 Hs2] _].
  split; [by eapply peers_ok_ext, Hp2|]. split; try apply Hs2.
  intros id q. simpl. rewrite lookup_insert_Some. intros [[_ <-]|[_ Hq]]; [done|].
  by eapply (scope_registry _ (world_scope _ Hok)).
Qed.

End Grows.

(** ** Requests *)

Section Requests.
Context `{S : !Scheduler} `{SL : !SchedulerLaws S} (cfg : ServiceConfig).
Context (TaskID : string → option UrlMeta → string).
Implicit Types (w : World) (p q : PeerRef).

Definition cfg_ok : Prop :=
  match cfg_LoadLimit cfg with Some l => 0 <= l < 2 ^ 32 | None => True end.

(** A request the scheduler can take: it names its host, the peer's ID is
    globally unique and not empty, and there is room for the peer. *)
Record request_ok w (req : PeerTaskRequest) : Prop := {
  req_host : is_Some (req_PeerHost req);
  req_named : req_PeerId req ≠ ""%string;
  req_fresh : w_peers w !! req_PeerId req = None →
    ∀ p, alive w p → peer_ID (getPeer w p) ≠ req_PeerId req;
  req_room : Z.of_nat (size (w_peerHeap w)) < 2 ^ 31 - 1;
}.

Lemma getOrCreateHost_grows w ph :
  cfg_ok → world_ok w →
  grows w (getOrCreateHost cfg w ph).1 ∧
  ((getOrCreateHost cfg w ph).2 < w_next (getOrCreateHost cfg w ph).1)%positive ∧
  w_peerHeap (getOrCreateHost cfg w ph).1 = w_peerHeap w ∧
  w_peers (getOrCreateHost cfg w ph).1 = w_peers w.
Proof.
  intros Hcfg Hok. unfold getOrCreateHost, hostManager_Get.
  destruct (w_hosts w !! ph_Uuid ph) as [h|] eqn:Hh.
  { simpl. split_and!; try done. by eapply (scope_hosts _ (world_scope _ Hok)). }
  set (x := NewClientHost _ _ _ _ _ _ _ _ _).
  assert (host_CurrentUploadLoad x = 0 ∧ 0 <= host_TotalUploadLoad x < 2 ^ 32) as [Hc Ht].
  { subst x. unfold cfg_ok in Hcfg. destruct (cfg_LoadLimit cfg); simpl; split; done || lia. }
  pose proof (grows_allocHost w x Hok Hc Ht) as [Hg Hal].
  destruct (allocHost w x) as [w1 h] eqn:Ha. unfold allocHost in Ha. injection Ha as <- <-.
  simpl in *. split_and!; try done.
  - split; [|done]. eapply world_ok_same; try exact Hg; try done; [apply Hg|].
    intros id h. simpl. rewrite lookup_insert_Some. intros [[_ <-]|[_ Hi]]; [lia|].
    apply (scope_hosts _ (world_scope _ Hok)) in Hi. lia.
  - lia.
Qed.

Lemma RegisterTask_grows w req t :
  cfg_ok → world_ok w → request_ok w req →
  ∃ w' p, RegisterTask cfg w req t = Ok (w', p) ∧ grows w w' ∧ alive w' p.
Proof.
  intros Hcfg Hok [[ph Hph] Hnamed Hfresh Hroom]. unfold RegisterTask. rewrite Hph.
  destruct (getOrCreateHost_grows w ph Hcfg Hok) as (Hg & Hlt & Hheap & Hreg).
  destruct (getOrCreateHost cfg w ph) as [w1 h]; simpl in *. unfold peerManager_Get.
  rewrite Hreg. destruct (w_peers w !! req_PeerId req) as [p|] eqn:Hp.
  { eexists _, _. do 2 (split; [done|]). apply Hg.
    by eapply (scope_registry _ (world_scope _ Hok)). }
  destruct (grows_NewPeer w1 (req_PeerId req) t h) as [Hg2 Hal2]; [apply Hg|done| |done|by rewrite Hheap|].
  { intros q. unfold alive, getPeer. rewrite Hheap. by apply Hfresh. }
  eexists _, _. split; [done|].
  assert (keeps (NewPeer w1 (req_PeerId req) t h).1
    (peerManager_Add (NewPeer w1 (req_PeerId req) t h).1 (w_next w1))) as Hk
    by (apply keeps_Add; [apply Hg2|done]).
  split; [split; [apply Hk|]|by apply Hk].
  intros q Hq. by apply Hk, Hg2, Hg.
Qed.

Lemma request_ok_ext w w' req :
  w_peerHeap w' = w_peerHeap w → w_peers w' = w_peers w → request_ok w req → request_ok w' req.
Proof.
  intros Hh Hp [? ? Hf ?]. split; [done..| |by rewrite Hh].
  unfold alive, getPeer. rewrite Hh, Hp. apply Hf.
Qed.

Lemma keeps_triggerTask w t : world_ok w → keeps w (triggerTask cfg w t).
Proof.
  intros Hok. unfold triggerTask. destruct (Task_IsHealth w t); [done|].
  assert (keeps w (updTask (set_task_LastTriggerAt (w_now w)) t w)) as H1 by (by apply keeps_updTask).
  eapply keeps_trans; [exact H1|]. set (w1 := updTask _ _ _) in *.
  assert (keeps w1 (Task_SetStatus w1 t TaskStatusRunning)) as H2 by (apply keeps_SetStatus, H1).
  eapply keeps_trans; [exact H2|]. destruct H2 as [H2 _].
  case_match; [by apply keeps_updTask|]. apply keeps_same; [done..|apply H2|apply H2|done].
Qed.

Lemma triggerTask_frame w t :
  w_peerHeap (triggerTask cfg w t) = w_peerHeap w ∧ w_peers (triggerTask cfg w t) = w_peers w.
Proof. unfold triggerTask. repeat case_match; done. Qed.

Lemma GetOrAddTask_keeps w t :
  world_ok w →
  keeps w (GetOrAddTask cfg w t).1 ∧ w_peerHeap (GetOrAddTask cfg w t).1 = w_peerHeap w ∧
  w_peers (GetOrAddTask cfg w t).1 = w_peers w.
Proof.
  intros Hok. unfold GetOrAddTask, taskManager_GetOrAdd.
  assert (∀ w', keeps w w' → w_peerHeap w' = w_peerHeap w → w_peers w' = w_peers w → ∀ t b,
    keeps w (if b : bool then (w', t) else (triggerTask cfg w' t, t)).1 ∧
    w_peerHeap (if b then (w', t) else (triggerTask cfg w' t, t)).1 = w_peerHeap w ∧
    w_peers (if b then (w', t) else (triggerTask cfg w' t, t)).1 = w_peers w) as Hgen.
  { intros w' Hk Hh Hp u b. destruct b; simpl; [done|]. destruct (triggerTask_frame w' u) as [-> ->].
    split; [|done]. eapply keeps_trans; [exact Hk|]. apply keeps_triggerTask, Hk. }
  destruct (w_tasks w !! _) as [old|].
  - by apply (Hgen w).
  - apply Hgen; [|done..]. apply keeps_same; [done..|apply Hok|apply Hok|done].
Qed.

Lemma SelectParent_keeps w p :
  world_ok w → alive w p → ∃ w' r, SelectParent w p = Ok (w', r) ∧ keeps w w'.
Proof.
  intros Hok Hal. unfold SelectParent.
  destruct (ScheduleParent_returns w p ∅ Hok Hal) as (w' & r & -> & Hk & _). simpl.
  destruct r as [[q cs]|]; eexists _, _; done.
Qed.

Lemma RegisterPeerTask_grows w req :
  cfg_ok → world_ok w → request_ok w req →
  ∃ w' r, RegisterPeerTask cfg TaskID w req = Ok (w', r) ∧ grows w w'.
Proof.
  intros Hcfg Hok Hreq. unfold RegisterPeerTask.
  set (x := NewTask _ _ _ _).
  assert (grows w (allocTask w x).1) as Hg1 by (by apply grows_allocTask; [|apply ul_New_wf|..]).
  destruct (allocTask w x) as [w1 t1] eqn:Ha. simpl in Hg1.
  assert (w_peerHeap w1 = w_peerHeap w ∧ w_peers w1 = w_peers w) as [Hh1 Hp1]
    by (unfold allocTask in Ha; by injection Ha as <- <-).
  destruct (GetOrAddTask_keeps w1 t1) as (Hk2 & Hh2 & Hp2); [apply Hg1|].
  destruct (GetOrAddTask cfg w1 t1) as [w2 t]. simpl in *.
  assert (grows w w2) as Hg2 by (eapply grows_trans; [exact Hg1|by apply keeps_grows]).
  assert (request_ok w2 req) as Hreq2
    by (apply (request_ok_ext w); [by rewrite Hh2|by rewrite Hp2|done]).
  destruct (RegisterTask_grows w2 req t Hcfg) as (w3 & p & Hr & Hg3 & Hal3); [apply Hg2|done|].
  assert (grows w w3) as Hg by (by eapply grows_trans).
  destruct (Task_IsFail w2 t); [by eexists _, _|].
  destruct (Task_IsSuccess w2 t); [|rewrite Hr; by eexists _, _].
  destruct (Task_GetSizeScope w2 t); rewrite ?Hr; simpl; try by eexists _, _.
  destruct (SelectParent_keeps w3 p) as (w4 & r & -> & Hk4); [apply Hg|done|]. simpl.
  assert (grows w w4) by (eapply grows_trans; [exact Hg|by apply keeps_grows]).
  destruct r as [?|q]; [by eexists _, _|]. destruct (Task_GetPiece w4 t 0); by eexists _, _.
Qed.

Lemma keeps_BindNewConn w p :
  world_ok w → alive w p → keeps w (Peer_BindNewConn w p).1.
Proof.
  intros Hok Hal. unfold Peer_BindNewConn.
  set (w1 := if decide _ then _ else _).
  assert (keeps w w1) as H1 by (subst w1; case_decide; [by apply keeps_PeerStatus|done]).
  assert (keeps w1 (allocChan w1 newChannel).1) as H2.
  { apply keeps_same; try done; [simpl; lia|apply H1| |apply H1].
    intros id h Hh. apply (scope_hosts _ (world_scope _ (proj1 H1))) in Hh. simpl. lia. }
  destruct (allocChan w1 newChannel) as [w2 c]. simpl in *.
  eapply keeps_trans; [exact H1|]. eapply keeps_trans; [exact H2|].
  apply keeps_updPeer; try done; [apply H2|by apply H2, H1].
Qed.

(** The events a request sends are about peers that exist. *)
Definition event_alive w (e : event) : Prop :=
  match e with
  | reScheduleParentEvent rs => alive w (rs_peer rs)
  | taskSeedFailEvent _ => True
  | startReportPieceResultEvent p | peerDownloadPieceSuccessEvent p _
  | peerDownloadPieceFailEvent p _ | peerDownloadSuccessEvent p _
  | peerDownloadFailEvent p _ | peerLeaveEvent p => alive w p
  end.

Lemma event_alive_mono w w' e : (∀ q, alive w q → alive w' q) → event_alive w e → event_alive w' e.
Proof. intros Hal. destruct e; simpl; auto. Qed.

Lemma HandlePieceResult_keeps w p pr :
  world_ok w → alive w p →
  (∃ w' es, HandlePieceResult cfg w p pr = Ok (w', es) ∧ keeps w w' ∧ Forall (event_alive w') es) ∨
  (HandlePieceResult cfg w p pr = Panic NilDereference ∧
   pr_PieceInfo pr = None ∧ pr_Success pr = true ∧ cfg_EnablePeerHost cfg = true).
Proof.
  intros Hok Hal. unfold HandlePieceResult.
  pose proof (keeps_Touch w p Hok Hal) as Hk. assert (alive (Peer_Touch w p) p) as Hal' by (by apply Hk).
  destruct (pr_Success pr) eqn:Hs, (cfg_EnablePeerHost cfg) eqn:He, (pr_PieceInfo pr) eqn:Hi;
    simpl; try (by right); left; repeat case_match; eexists _, _; split; try done; split; try done;
    repeat constructor; done.
Qed.

Lemma rescheduleTurn_keeps w rs :
  world_ok w → alive w (rs_peer rs) →
  keeps w (rescheduleTurn w rs).1 ∧ Forall (event_alive (rescheduleTurn w rs).1) (rescheduleTurn w rs).2.
Proof.
  intros Hok Hal. unfold rescheduleTurn.
  case_match; [split; [by apply keeps_orderBackSource|constructor]|].
  case_match; [split; [done|constructor]|]. case_match; (split; [done|]); repeat constructor. done.
Qed.

(** *** The collection passes *)

Lemma keeps_RunGC_visit ttl tti w id :
  world_ok w → keeps w (peerManager_RunGC_visit ttl tti w id).
Proof.
  intros Hok. unfold peerManager_RunGC_visit. destruct (w_peers w !! id) as [p|] eqn:Hp; [|done].
  pose proof (scope_registry _ (world_scope _ Hok) _ _ Hp) as Hal. cbv zeta.
  assert (keeps w (RunGC_age tti (w_now w - peer_lastAccessAt (getPeer w p)) w p)) as H1.
  { unfold RunGC_age. case_match; [|done].
    set (w1 := if negb _ then _ else _).
    assert (keeps w w1) as Hw1 by (subst w1; case_match; [by apply keeps_updPeer|done]).
    case_match; [|done]. eapply keeps_trans; [exact Hw1|].
    apply keeps_PeerStatus; [apply Hw1|by apply Hw1]. }
  case_match; [|done]. eapply keeps_trans; [exact H1|]. destruct H1 as [H1 _].
  unfold RunGC_collect. set (w1 := RunGC_age _ _ _ _) in *.
  pose proof (keeps_Delete w1 id H1) as H2. eapply keeps_trans; [exact H2|]. destruct H2 as [H2 _].
  set (w2 := peerManager_Delete w1 id) in *. set (w3 := if _ =? 0 then _ else w2).
  assert (keeps w2 w3) as H3.
  { subst w3. case_match; [|done]. apply keeps_same; [done..|apply H2| |done].
    intros k h. simpl. intros [_ Hk]%lookup_delete_Some. by eapply (scope_hosts _ (world_scope _ H2)). }
  eapply keeps_trans; [exact H3|]. case_match; [apply keeps_SetStatus, H3|apply keeps_refl, H3].
Qed.

Lemma keeps_foldl {A} (f : World → A → World) l w :
  (∀ w x, world_ok w → keeps w (f w x)) → world_ok w → keeps w (foldl f w l).
Proof.
  intros Hf. revert w. induction l as [|x l IH]; intros w Hok; simpl; [done|].
  pose proof (Hf w x Hok) as Hk. eapply keeps_trans; [exact Hk|]. apply IH, Hk.
Qed.

Lemma keeps_task_RunGC_visit ttl tti po w id :
  world_ok w → keeps w (taskManager_RunGC_visit ttl tti po w id).
Proof.
  intros Hok.
  unfold taskManager_RunGC_visit. destruct (w_tasks w !! id) as [t|]; [|done]. cbv zeta.
  set (w1 := if (_ <? _) && _ then _ else w).
  assert (keeps w w1) as H1 by (subst w1; case_match; auto with dfly).
  set (w2 := if _ =? 0 then _ else w1).
  assert (keeps w1 w2) as H2 by (subst w2; destruct H1 as [H1 _]; case_match; auto with dfly).
  eapply keeps_trans; [exact H1|]. eapply keeps_trans; [exact H2|]. destruct H2 as [H2 _].
  case_match; [|done].
  set (w3 := foldl _ _ _).
  assert (keeps w2 w3) as H3 by (apply keeps_foldl; auto with dfly).
  eapply keeps_trans; [exact H3|]. apply keeps_same; [done..|apply H3|apply H3|apply H3].
Qed.

End Requests.

(** ** Seeding *)

Section Seeding.
Context (httpGet : string → GoError + list Byte.byte).
Implicit Types (w : World) (p q : PeerRef).

Definition client_ok w (dc : cdnDynamicClient) : Prop :=
  ∀ id h, dc_hosts dc !! id = Some h → (h < w_next w)%positive.

(** A message of the CDN the scheduler can take. *)
Record seed_ok w (ps : PieceSeed) : Prop := {
  seed_named : ps_PeerId ps ≠ ""%string;
  seed_fresh : w_peers w !! ps_PeerId ps = None →
    ∀ p, alive w p → peer_ID (getPeer w p) ≠ ps_PeerId ps;
  seed_room : Z.of_nat (size (w_peerHeap w)) < 2 ^ 31 - 1;
  seed_count : ps_TotalPieceCount ps < 2 ^ 31;
  seed_info : ps_Done ps = false → is_Some (ps_PieceInfo ps);
}.

Lemma initCDNPeer_grows dc w t ps :
  world_ok w → client_ok w dc → seed_ok w ps →
  grows w (initCDNPeer dc w t ps).1 ∧
  ∀ p, (initCDNPeer dc w t ps).2 = inr p → alive (initCDNPeer dc w t ps).1 p.
Proof.
  intros Hok Hdc Hps. unfold initCDNPeer, peerManager_Get, hostManager_Get, cdnDynmaicClient_GetHost.
  set (fin := λ r, match r with
    | inl err => (w, inl err)
    | inr (w, peer) =>
        (peerManager_Add (Peer_SetStatus w peer PeerStatusRunning) peer, inr peer) end
    : World * (GoError + PeerRef)).
  assert (∀ w1 p, grows w w1 → alive w1 p → grows w (fin (inr (w1, p))).1 ∧
    ∀ q, (fin (inr (w1, p))).2 = inr q → alive (fin (inr (w1, p))).1 q) as Hfin.
  { intros w1 p Hg Hal. simpl.
    assert (keeps w1 (Peer_SetStatus w1 p PeerStatusRunning)) as H2
      by (apply keeps_PeerStatus; [apply Hg|done]).
    assert (keeps w1 (peerManager_Add (Peer_SetStatus w1 p PeerStatusRunning) p)) as H3
      by (eapply keeps_trans; [exact H2|]; apply keeps_Add; [apply H2|by apply H2]).
    split; [eapply grows_trans; [exact Hg|by apply keeps_grows]|]. intros q [= <-]. by apply H3. }
  fold fin. destruct (w_peers w !! ps_PeerId ps) as [p|] eqn:Hp.
  { apply Hfin; [done|]. by eapply (scope_registry _ (world_scope _ Hok)). }
  assert (∀ w1 h, grows w w1 → w_peerHeap w1 = w_peerHeap w → (h < w_next w1)%positive →
    grows w (NewPeer w1 (ps_PeerId ps) t h).1 ∧
    alive (NewPeer w1 (ps_PeerId ps) t h).1 (w_next w1)) as Hnew.
  { intros w1 h Hg Hheap Hlt. destruct Hps as [Hne Hfresh Hroom _ _].
    destruct (grows_NewPeer w1 (ps_PeerId ps) t h) as [Hg' Hal]; [apply Hg|done| |done|by rewrite Hheap|].
    - intros q. unfold alive, getPeer. rewrite Hheap. by apply Hfresh.
    - split; [by eapply grows_trans|done]. }
  destruct (w_hosts w !! ps_HostUuid ps) as [h|] eqn:Hh.
  { destruct (Hnew w h) as [Hg Hal]; [done..|by eapply (scope_hosts _ (world_scope _ Hok))|].
    by apply (Hfin (NewPeer w (ps_PeerId ps) t h).1 (w_next w)). }
  destruct (dc_hosts dc !! ps_HostUuid ps) as [h|] eqn:Hd; [|by simpl].
  assert (keeps w (hostManager_Add w h)) as Hk.
  { apply keeps_same; [done..|apply Hok| |done]. intros id k. simpl.
    rewrite lookup_insert_Some. intros [[_ <-]|[_ Hi]]; [by eapply Hdc|].
    by eapply (scope_hosts _ (world_scope _ Hok)). }
  destruct (Hnew (hostManager_Add w h) h) as [Hg Hal]; [by apply keeps_grows|done|by eapply Hdc|].
  by apply (Hfin (NewPeer (hostManager_Add w h) (ps_PeerId ps) t h).1 (w_next w)).
Qed.

Lemma seedDone_returns w t p ps w' :
  world_ok w → alive w p → ps_TotalPieceCount ps < 2 ^ 31 →
  seedDone httpGet w t p ps = Ok w' → keeps w w'.
Proof.
  intros Hok Hal Hcnt. unfold seedDone.
  set (w1 := updTask (set_task_TotalPieceCount _) t w).
  assert (keeps w w1) as H1.
  { split; [|done]. split; [by apply (peers_ok_ext w), Hok|].
    apply scope_ok_updTask; simpl; [apply Hok|done|apply Hok|]. intros q. by apply Hok. }
  set (w2 := updTask (set_task_ContentLength _) t w1).
  assert (keeps w1 w2) as H2 by (apply keeps_updTask; [done..|apply H1]).
  assert (keeps w2 (Task_SetStatus w2 t TaskStatusSuccess)) as H3 by (apply keeps_SetStatus, H2).
  set (w3 := Task_SetStatus _ _ _) in *.
  assert (keeps w3 (Peer_SetStatus w3 p PeerStatusSuccess)) as H4.
  { apply keeps_PeerStatus; [apply H3|]. by apply H3, H2, H1. }
  set (w4 := Peer_SetStatus _ _ _) in *.
  assert (keeps w w4) as Hk.
  { eapply keeps_trans; [exact H1|]. eapply keeps_trans; [exact H2|]. exact (keeps_trans _ _ _ H3 H4). }
  case_match; [|by intros [= <-]]. intros Hd. ok_inv. destruct a as [?|data]; ok_inv; subst; [done|].
  case_match; [|done]. eapply keeps_trans; [exact Hk|]. apply keeps_updTask; [done..|apply Hk].
Qed.

Lemma receiveOne_grows dc w t o ps w' o' r :
  world_ok w → client_ok w dc → seed_ok w ps → (∀ p, o = Some p → alive w p) →
  receiveOne httpGet dc w t o ps = Ok (w', o', r) →
  grows w w' ∧ (∀ p, o' = Some p → alive w' p) ∧ (∀ p, r = Some (inr p) → alive w' p).
Proof.
  intros Hok Hdc Hps Ho. unfold receiveOne.
  set (found := match o with Some p => _ | None => _ end).
  assert (grows w found.1 ∧ ∀ p, found.2 = inr p → alive found.1 p) as [Hg Hal].
  { subst found. destruct o as [p|]; [split; [done|]; intros q [= <-]; auto|].
    destruct (initCDNPeer_grows dc w t ps Hok Hdc Hps) as [Hg Hal].
    destruct (initCDNPeer dc w t ps) as [w1 [e|p]]; simpl in *; [done|].
    set (w2 := if _ : bool then _ else w1).
    assert (keeps w1 w2) as Hk by (subst w2; destruct Hg as [Hg _]; case_match; auto with dfly).
    split; [eapply grows_trans; [exact Hg|by apply keeps_grows]|]. intros q [= <-].
    apply Hk. auto. }
  clearbody found. destruct found as [w1 [e|p]]; cbn [fst snd] in *; [by intros [= <- <- <-]|].
  assert (keeps w1 (Peer_Touch w1 p)) as H2 by (apply keeps_Touch; [apply Hg|auto]).
  set (w2 := Peer_Touch w1 p) in *.
  assert (grows w w2) as Hg2 by (eapply grows_trans; [exact Hg|by apply keeps_grows]).
  assert (alive w2 p) as Hal2 by (apply H2; auto).
  destruct (ps_Done ps).
  - intros Hd. ok_inv. simplify_eq.
    apply seedDone_returns in Ha; [|apply H2|done|apply Hps].
    split; [eapply grows_trans; [exact Hg2|by apply keeps_grows]|].
    split; intros q [= <-]; by apply Ha.
  - destruct (ps_PieceInfo ps) as [info|]; [|done]. 
    set (w3 := Peer_UpdateProgress _ _ _ _).
    assert (keeps w2 w3) as H3.
    { apply keeps_UpdateProgress; [apply H2|done|]. pose proof (int32_range (PieceNum info + 1)). lia. }
    destruct (Task_GetOrAddPiece w3 t info) as [w4 x] eqn:Hp. intros [= <- <- <-].
    assert (keeps w3 w4) as H4.
    { unfold Task_GetOrAddPiece in Hp. destruct (task_pieces _ !! _); injection Hp as <- <-;
        [apply keeps_refl, H3|apply keeps_updTask; [done..|apply H3]]. }
    split; [eapply grows_trans; [exact Hg2|]; apply keeps_grows; by eapply keeps_trans|].
    split; intros q; [|done]. intros [= <-]. by apply H4, H3.
Qed.

End Seeding.

(** ** The transition system *)

Record System := mkSystem {
  sys_world : World;
  sys_events : list event;      (* sent to the workers, not applied yet *)
}.

Section Reachability.
Context `{S : !Scheduler} `{SL : !SchedulerLaws S} (cfg : ServiceConfig).
Context (TaskID : string → option UrlMeta → string).
Context (httpGet : string → GoError + list Byte.byte).
Context (peerTTL peerTTI taskTTL taskTTI : Z).
Implicit Types (w : World) (es : list event).

Inductive sys_step : System → System → Prop :=
  | step_register w es req w' r :
      request_ok w req → RegisterPeerTask cfg TaskID w req = Ok (w', r) →
      sys_step (mkSystem w es) (mkSystem w' es)
  | step_report w es first w' new r :
      ReportPieceResult_open cfg w first = Ok (w', new, r) →
      sys_step (mkSystem w es) (mkSystem w' (es ++ new))
  | step_piece w es p pr w' new :
      alive w p → HandlePieceResult cfg w p pr = Ok (w', new) →
      sys_step (mkSystem w es) (mkSystem w' (es ++ new))
  | step_result w es res :
      sys_step (mkSystem w es)
        (mkSystem (ReportPeerResult w res).1.1 (es ++ (ReportPeerResult w res).1.2))
  | step_leave w es id :
      sys_step (mkSystem w es) (mkSystem (LeaveTask w id).1.1 (es ++ (LeaveTask w id).1.2))
  | step_apply w es1 e es2 order w' :
      event_ok w e → event_apply order w e = Ok w' →
      sys_step (mkSystem w (es1 ++ e :: es2)) (mkSystem w' (es1 ++ es2))
  | step_reschedule w es q1 rs due q2 :
      w_queue w = q1 ++ (rs, due) :: q2 → due <= w_now w →
      let r := rescheduleTurn (set_w_queue (q1 ++ q2) w) rs in
      sys_step (mkSystem w es) (mkSystem r.1 (es ++ r.2))
  | step_gc w es id :
      sys_step (mkSystem w es) (mkSystem (peerManager_RunGC_visit peerTTL peerTTI w id) es)
  | step_task_gc w es peerOrder id :
      sys_step (mkSystem w es)
        (mkSystem (taskManager_RunGC_visit taskTTL taskTTI peerOrder w id) es)
  | step_channel w es c s :
      sys_step (mkSystem w es) (mkSystem (updChan (Channel_step s) c w) es)
  | step_seed dc w es t o ps w' o' r :
      client_ok w dc → seed_ok w ps → (∀ p, o = Some p → alive w p) →
      receiveOne httpGet dc w t o ps = Ok (w', o', r) →
      sys_step (mkSystem w es) (mkSystem w' es)
  | step_seed_done w es t r :
      (∀ p, r = inr p → alive w p) →
      sys_step (mkSystem w es)
        (mkSystem (seedTaskDone cfg w t r).1 (es ++ [(seedTaskDone cfg w t r).2]))
  | step_tick w es d :
      0 <= d → sys_step (mkSystem w es) (mkSystem (set_w_now (w_now w + d) w) es).

Definition sys_ok (s : System) : Prop :=
  world_ok (sys_world s) ∧ Forall (event_alive (sys_world s)) (sys_events s).

Lemma sys_ok_grows w w' es new :
  grows w w' → Forall (event_alive w) es → Forall (event_alive w') new →
  sys_ok (mkSystem w' (es ++ new)).
Proof.
  intros [Hok Hal] Hes Hnew. split; [done|]. simpl. apply Forall_app. split; [|done].
  eapply Forall_impl; [exact Hes|]. intros e. by apply event_alive_mono.
Qed.

Lemma sys_ok_keeps w w' es new :
  keeps w w' → Forall (event_alive w) es → Forall (event_alive w') new →
  sys_ok (mkSystem w' (es ++ new)).
Proof. intros Hk. by apply sys_ok_grows, keeps_grows. Qed.

Lemma sys_ok_keeps_nil w w' es :
  keeps w w' → Forall (event_alive w) es → sys_ok (mkSystem w' es).
Proof. intros Hk Hes. rewrite <-(app_nil_r es). by apply (sys_ok_keeps w). Qed.

Lemma Touch_event w p e :
  world_ok w → alive w p → event_alive w e →
  keeps w (Peer_Touch w p) ∧ Forall (event_alive (Peer_Touch w p)) [e].
Proof.
  intros Hok Hal He. pose proof (keeps_Touch w p Hok Hal) as Hk. split; [done|].
  repeat constructor. eapply event_alive_mono, He. intros q Hq. by apply Hk.
Qed.

Lemma ReportPieceResult_open_keeps w first w' new r :
  world_ok w → ReportPieceResult_open cfg w first = Ok (w', new, r) →
  keeps w w' ∧ Forall (event_alive w') new.
Proof.
  intros Hok. unfold ReportPieceResult_open.
  destruct first as [[]|pr]; try (by intros [= <- <- <-]).
  destruct (peerManager_Get w (pr_SrcPid pr)) as [p|] eqn:Hp; [|by intros [= <- <- <-]].
  pose proof (scope_registry _ (world_scope _ Hok) _ _ Hp) as Hal.
  destruct (Task_IsFail _ _); [by intros [= <- <- <-]|].
  pose proof (keeps_BindNewConn w p Hok Hal) as Hk.
  destruct (Peer_BindNewConn w p) as [w1 [c|]]; cbn [fst snd] in *; [|by intros [= <- <- <-]].
  intros H. apply outcome_bind_Ok in H as ([w2 es] & Ha & H). injection H as <- <- <-.
  destruct (HandlePieceResult_keeps cfg w1 p pr) as [(w3 & es' & Heq & Hk' & Hes)|[Heq _]];
    [apply Hk|by apply Hk| |congruence].
  rewrite Heq in Ha. injection Ha as <- <-. split; [by eapply keeps_trans|done].
Qed.

Lemma sys_step_ok s s' : cfg_ok cfg → sys_step s s' → sys_ok s → sys_ok s'.
Proof.
  intros Hcfg Hstep [Hok Hes].
  destruct Hstep as [w es req w' r Hreq Hr|w es first w' new r Hr|w es p pr w' new Hal Hr|w es res
    |w es id|w es1 e es2 order w' He Hr|w es q1 rs due q2 Hq Hdue r|w es order|w es po order|w es c s
    |dc w es t o ps w' o' r Hdc Hps Ho Hr|w es t r Hp|w es d Hd]; cbn [sys_world sys_events] in *.
  - destruct (RegisterPeerTask_grows cfg TaskID w req Hcfg Hok Hreq) as (w1 & r1 & Heq & Hg).
    rewrite Heq in Hr. injection Hr as <- <-. rewrite <-(app_nil_r es).
    by apply (sys_ok_grows w).
  - destruct (ReportPieceResult_open_keeps w first w' new r Hok Hr). by apply (sys_ok_keeps w).
  - destruct (HandlePieceResult_keeps cfg w p pr Hok Hal) as [(w1 & es1 & Heq & Hk & Hnew)|[Heq _]];
      rewrite Heq in Hr; [|done]. injection Hr as <- <-. by apply (sys_ok_keeps w).
  - unfold ReportPeerResult. destruct (peerManager_Get w (res_PeerId res)) as [p|] eqn:Hp;
      cbn [fst snd]; [|rewrite app_nil_r; by apply (sys_ok_keeps_nil w)].
    pose proof (scope_registry _ (world_scope _ Hok) _ _ Hp) as Hal. unfold HandlePeerResult.
    edestruct (Touch_event w p) as [Hk Hnew]; [done|done|shelve|].
    apply (sys_ok_keeps w); [done|done|exact Hnew].
    Unshelve. by case_match.
  - unfold LeaveTask. destruct (peerManager_Get w id) as [p|] eqn:Hp;
      cbn [fst snd]; [|rewrite app_nil_r; by apply (sys_ok_keeps_nil w)].
    pose proof (scope_registry _ (world_scope _ Hok) _ _ Hp) as Hal. unfold HandleLeaveTask.
    destruct (Touch_event w p (peerLeaveEvent p)) as [Hk Hnew]; [done..|].
    by apply (sys_ok_keeps w).
  - destruct (event_apply_returns order w e Hok He) as [(w1 & Heq & Hk)|[Heq _]];
      rewrite Heq in Hr; [|done]. injection Hr as <-. apply (sys_ok_keeps_nil w); [done|].
    apply Forall_app in Hes as [H1 H2]. apply Forall_cons in H2 as [_ H2]. by apply Forall_app.
  - subst r. set (w1 := set_w_queue (q1 ++ q2) w).
    assert (alive w (rs_peer rs)) as Hal.
    { apply (scope_queue _ (world_scope _ Hok) (rs, due)). rewrite Hq. set_solver. }
    assert (keeps w w1) as Hk1.
    { apply keeps_same; [done..| |apply Hok|done]. intros e He. apply Hok. rewrite Hq.
      subst w1. simpl in He. set_solver. }
    destruct (rescheduleTurn_keeps w1 rs) as [Hk2 Hnew]; [apply Hk1|done|].
    apply (sys_ok_keeps w); [exact (keeps_trans _ _ _ Hk1 Hk2)|done|exact Hnew].
  - apply (sys_ok_keeps_nil w); [by apply keeps_RunGC_visit|done].
  - apply (sys_ok_keeps_nil w); [by apply keeps_task_RunGC_visit|done].
  - apply (sys_ok_keeps_nil w); [by apply keeps_updChan|done].
  - apply receiveOne_grows in Hr as (Hg & _ & _); [|done..]. rewrite <-(app_nil_r es).
    by apply (sys_ok_grows w).
  - apply (sys_ok_keeps w); [|done|].
    + destruct r; cbn [seedTaskDone fst]; [by apply keeps_updTask|done].
    + repeat constructor. destruct r as [e|p]; cbn; [done|]. by apply Hp.
  - apply (sys_ok_keeps_nil w); [|done]. apply keeps_same; [done..|apply Hok|apply Hok|done].
Qed.

Lemma emptyWorld_ok now : world_ok (emptyWorld now).
Proof.
  assert (∀ p, ¬ alive (emptyWorld now) p) as Hdead by (intros p [x Hx]; done).
  split; split; try done.
  - intros p Hp. by inversion Hp.
  - intros p q _ Hne. by destruct Hne.
  - intros p Hp. by destruct (Hdead p).
  - intros p Hp. by destruct (Hdead p).
  - intros t p. by intros ?%elem_of_nil.
  - intros t. apply ul_New_wf.
  - intros e. by intros ?%elem_of_nil.
Qed.

Lemma reachable_sys_ok now s :
  cfg_ok cfg → rtc sys_step (mkSystem (emptyWorld now) []) s → sys_ok s.
Proof.
  intros Hcfg Hr. remember (mkSystem (emptyWorld now) []) as s0 eqn:Hs0.
  assert (sys_ok s0) as H0 by (subst s0; split; [apply emptyWorld_ok|constructor]).
  clear Hs0. induction Hr as [|s1 s2 s3 Hstep _ IH]; [done|].
  apply IH. by apply (sys_step_ok s1).
Qed.

End Reachability.
