(* ===== verification/Demo.v ===== *)
(** * Demo: a concrete state

    One task seeded by a CDN peer, with three client peers on three hosts, all
    of them connected: [a] downloads from the seed, [b] and [c] from [a].  The
    state is built with the operations of the model; the examples of the other
    files start from it. *)

From S2P Require Import Prelude Containers World Supervisor PeerTree Managers Invariant Scheduler.
From S2P Require Import GoFloat Evaluator BasicScheduler Events EventsInvariant Service SeedTask.
From S2P Require Import System.
From stdpp Require Import options.
Local Open Scope Z_scope.

(** ** A statistics package *)

Definition demoStats : Stats := {|
  LoadRawData := fmap fofZ;
  Mean l := default (fofZ 0) (head l);
  StandardDeviation l := fofZ 0;
|}.

#[export] Instance demoStats_laws : StatsLaws demoStats.
Proof.
  split; simpl.
  - intros raw x (z & -> & _)%list_elem_of_fmap. apply fofZ_not_NaN.
  - intros raw k _. destruct (take k (fofZ <$> raw)) as [|x l] eqn:Ht; simpl; [apply fofZ_not_NaN|].
    assert (x ∈ take k (fofZ <$> raw)) as Hx by (rewrite Ht; by left).
    apply elem_of_take in Hx as (i & Hi & _). apply list_elem_of_lookup_2 in Hi.
    apply list_elem_of_fmap in Hi as (z & -> & _). apply fofZ_not_NaN.
Qed.

Definition demoEvaluator : Evaluator := @NewEvaluatorBase demoStats.
Definition demoScheduler : Scheduler := @basicScheduler demoEvaluator 10.

#[export] Instance demoScheduler_laws : SchedulerLaws demoScheduler.
Proof. apply (@basicScheduler_laws demoEvaluator). apply NewEvaluatorBase_laws. Qed.

Definition demoConfig : ServiceConfig := mkServiceConfig 3 (300 * Second) true (Some 2) false.

(** ** The state *)

Definition demoTask : TaskRef := 1%positive.

Definition demoHosts : World :=
  let w := (allocTask (emptyWorld 1000) (NewTask 1000 "task-0001" "http://origin/blob" None)).1 in
  let w := taskManager_Add w demoTask in
  let w := hostManager_Add (allocHost w (NewCDNHost "h0" "10.0.0.1" "cdn" 8001 8002
             "" "" "idc" [WithTotalUploadLoad 2])).1 2%positive in
  let w := hostManager_Add (allocHost w (NewClientHost "h1" "10.0.0.2" "a" 8001 8002
             "" "" "idc" [WithTotalUploadLoad 3])).1 3%positive in
  let w := hostManager_Add (allocHost w (NewClientHost "h2" "10.0.0.3" "b" 8001 8002
             "" "" "idc" [WithTotalUploadLoad 3])).1 4%positive in
  hostManager_Add (allocHost w (NewClientHost "h3" "10.0.0.4" "c" 8001 8002
             "" "" "other" [WithTotalUploadLoad 3])).1 5%positive.

(** A registered peer that runs, is connected, and has [n] pieces. *)
Definition demoPeer (w : World) (id : string) (h : HostRef) (n : Z) : World :=
  let '(w, p) := NewPeer w id demoTask h in
  let w := peerManager_Add w p in
  let w := Peer_SetStatus w p PeerStatusRunning in
  let '(w, c) := Peer_BindNewConn w p in
  let w := updChan (Channel_step SendLoopPark) (default 1%positive c) w in
  Peer_UpdateProgress w p n 100.

Definition demoPeers : World :=
  let w := Task_SetStatus demoHosts demoTask TaskStatusSeeding in
  let w := demoPeer w "seed" 2%positive 10 in
  let w := demoPeer w "a" 3%positive 5 in
  let w := demoPeer w "b" 4%positive 2 in
  demoPeer w "c" 5%positive 1.

Definition seed : PeerRef := 6%positive.
Definition peerA : PeerRef := 8%positive.
Definition peerB : PeerRef := 10%positive.
Definition peerC : PeerRef := 12%positive.

Definition demo : World :=
  let w := Peer_ReplaceParent demoPeers peerA (Some seed) in
  let w := Peer_ReplaceParent w peerB (Some peerA) in
  Peer_ReplaceParent w peerC (Some peerA).

(** ** It satisfies the invariant *)

Lemma fresh_id_check w id :
  bool_decide (map_Forall (λ _ x, peer_ID x ≠ id) (w_peerHeap w)) = true →
  ∀ p, alive w p → peer_ID (getPeer w p) ≠ id.
Proof.
  intros Hall%bool_decide_eq_true p [x Hx]. unfold getPeer. rewrite Hx. by eapply Hall.
Qed.

Lemma demoPeer_ok w id h n :
  world_ok w → id ≠ ""%string →
  bool_decide (map_Forall (λ _ x, peer_ID x ≠ id) (w_peerHeap w)) = true →
  (h < w_next w)%positive → Z.of_nat (size (w_peerHeap w)) < 2 ^ 31 - 1 → n < 2 ^ 31 →
  world_ok (demoPeer w id h n).
Proof.
  intros Hok Hid Hfresh Hh Hsize Hn. unfold demoPeer.
  destruct (grows_NewPeer w id demoTask h) as [[H1 _] A1];
    [done|done|by apply fresh_id_check|done|done|].
  cbn [NewPeer] in *. set (w1 := set_w_next _ _) in *.
  pose proof (keeps_Add w1 (w_next w) H1 A1) as [H2 A2].
  set (w2 := peerManager_Add w1 (w_next w)) in *.
  assert (alive w2 (w_next w)) as A2' by (by apply A2).
  pose proof (keeps_PeerStatus w2 (w_next w) PeerStatusRunning H2 A2') as [H3 A3].
  set (w3 := Peer_SetStatus w2 _ _) in *. assert (alive w3 (w_next w)) as A3' by (by apply A3).
  pose proof (keeps_BindNewConn w3 (w_next w) H3 A3') as [H4 A4].
  destruct (Peer_BindNewConn w3 (w_next w)) as [w4 c]. cbn [fst] in *.
  apply keeps_UpdateProgress; [by apply keeps_updChan|by apply A4|done].
Qed.

Lemma world_ok_allocHost w x :
  world_ok w → host_CurrentUploadLoad x = 0 → 0 <= host_TotalUploadLoad x < 2 ^ 32 →
  world_ok (hostManager_Add (allocHost w x).1 (w_next w)).
Proof.
  intros Hok Hc Ht. destruct (grows_allocHost w x Hok Hc Ht) as [Hg _].
  eapply world_ok_same; try exact Hg; try done; [apply Hg|].
  intros id h. cbn. rewrite lookup_insert_Some. intros [[_ <-]|[_ Hi]]; [lia|].
  apply (scope_hosts _ (world_scope _ Hok)) in Hi. lia.
Qed.

Lemma demoHosts_ok : world_ok demoHosts.
Proof.
  unfold demoHosts. repeat (apply world_ok_allocHost; [|done|done]).
  set (x := NewTask _ _ _ _).
  assert (world_ok (allocTask (emptyWorld 1000) x).1) as H.
  { apply grows_allocTask; [apply emptyWorld_ok|apply ul_New_wf|done..]. }
  eapply world_ok_same; try exact H; try done; apply H.
Qed.

Lemma demoPeers_ok : world_ok demoPeers.
Proof.
  unfold demoPeers.
  repeat (apply demoPeer_ok; [|done|by vm_compute|by vm_compute|by vm_compute|done]).
  apply keeps_SetStatus, demoHosts_ok.
Qed.

(** Decide that a reference of a concrete state is allocated. *)
Ltac is_alive := apply (bool_decide_eq_true_1 (is_Some _)); vm_compute; reflexivity.

(** A peer without parent is below nobody. *)
Lemma root_may_follow w p q : q ≠ p → Peer_GetParent w q = None → may_follow w p q.
Proof.
  intros Hne Hq. split; [done|]. intros Htc. inversion Htc; unfold parent_rel in *; congruence.
Qed.

Lemma demo_ok : world_ok demo.
Proof.
  unfold demo. set (w1 := Peer_ReplaceParent demoPeers peerA (Some seed)).
  assert (world_ok w1) as H1.
  { apply world_ok_ReplaceParent; [apply demoPeers_ok|is_alive|].
    intros q [= <-]. split; [is_alive|]. apply root_may_follow; [done|by vm_compute]. }
  set (w2 := Peer_ReplaceParent w1 peerB (Some peerA)).
  assert (may_follow w1 peerB peerA ∧ may_follow w1 peerC peerA) as [HB HC].
  { split; split; try done; intros Htc; inversion Htc as [? ? H|? y ? H Hy]; subst;
      unfold parent_rel in *; vm_compute in H; try done; injection H as <-;
      inversion Hy as [? ? H'|? ? ? H' _]; subst; unfold parent_rel in *; by vm_compute in H'. }
  assert (world_ok w2) as H2.
  { apply world_ok_ReplaceParent; [done|is_alive|]. intros q [= <-]. split; [is_alive|done]. }
  apply world_ok_ReplaceParent; [done|is_alive|]. intros q [= <-]. split; [is_alive|].
  by apply Peer_ReplaceParent_may_follow.
Qed.
