(* ===== verification/EventProperties.v ===== *)
(** * EventProperties: what the event handlers guarantee

    Safety of every handler, the fate of the children of a peer that leaves or
    fails, and the behaviours of the handlers that differ from their intent. *)

From S2P Require Import Prelude Containers World Supervisor PeerTree Managers Invariant Scheduler.
From S2P Require Import GoFloat Evaluator BasicScheduler Events EventsInvariant Service SeedTask.
From S2P Require Import System Demo.
From stdpp Require Import options.
Local Open Scope Z_scope.
Set Default Proof Using "Type*".

(** ** The children of a peer that goes away *)

Section Rehoming.
Context `{S : !Scheduler} `{SL : !SchedulerLaws S}.
Implicit Types (w : World) (p x : PeerRef).

Lemma sendPacket_getPeer w p q cs x : getPeer (sendPacket w p q cs) x = getPeer w x.
Proof.
  unfold sendPacket, Peer_SendSchedulePacket, sendErrorHandler.
  destruct (Peer_getConn w p); [destruct (Channel_Send _ _) as [ch [e|]]|]; repeat case_decide; done.
Qed.

Lemma sendPacket_queue w p q cs : ∃ l, w_queue (sendPacket w p q cs) = w_queue w ++ l.
Proof.
  unfold sendPacket, Peer_SendSchedulePacket, sendErrorHandler.
  destruct (Peer_getConn w p); [destruct (Channel_Send _ _) as [ch [e|]]|]; repeat case_decide;
    cbn; eauto; by exists []; rewrite app_nil_r.
Qed.

(** What one visit, or a whole round of visits, does to the children of [p]:
    nobody is put below [p], and every child in [visited] is moved or queued. *)
Record rehomed (f : PeerRef → PeerRef) p (visited : list string) w w' : Prop := {
  rh_ok : world_ok w';
  rh_ID : ∀ x, peer_ID (getPeer w' x) = peer_ID (getPeer w x);
  rh_status : ∀ x, Peer_GetStatus w' x = Peer_GetStatus w x;
  rh_below : ∀ x, Peer_GetParent w' x = Some p → Peer_GetParent w x = Some p;
  rh_queue : ∃ l, w_queue w' = w_queue w ++ l;
  rh_child : ∀ x, Peer_GetParent w' x = Some p → peer_ID (getPeer w x) ∈ visited →
    ∃ due, (mkRsPeer 0 (f x) {[peer_ID (getPeer w p)]}, due) ∈ w_queue w';
}.

Lemma rehomed_trans f p l1 l2 w1 w2 w3 :
  rehomed f p l1 w1 w2 → rehomed f p l2 w2 w3 → rehomed f p (l1 ++ l2) w1 w3.
Proof.
  intros [_ Hi Hs Hb [q1 Hq1] Hc] [Hok Hi' Hs' Hb' [q2 Hq2] Hc']. split; [done| | | | |].
  - intros x. by rewrite Hi'.
  - intros x. by rewrite Hs'.
  - intros x Hx. by apply Hb, Hb'.
  - exists (q1 ++ q2). by rewrite Hq2, Hq1, app_assoc.
  - intros x Hx [Hv|Hv]%elem_of_app.
    + destruct (Hc x) as [d Hd]; [by apply Hb'|done|]. exists d. rewrite Hq2. apply elem_of_app. by left.
    + rewrite <-Hi in Hv. rewrite <-Hi. by apply Hc'.
Qed.

Lemma rehomeChild_rehomed f p w id w' :
  world_ok w → (∀ c, alive w c → alive w (f c)) →
  rehomeChild f p w id = Ok w' → rehomed f p [id] w w'.
Proof.
  intros Hok Hf Hr. pose proof (rehomeChild_returns f p w id Hok Hf) as (w1 & Hr1 & [Hok1 _]).
  rewrite Hr in Hr1. injection Hr1 as <-. revert Hr. unfold rehomeChild.
  pose proof (peers_tree _ (world_peers _ Hok)) as Htree.
  destruct (Peer_GetChildren w p !! id) as [c|] eqn:Hc.
  - apply (tree_child _ Htree) in Hc as [Hcid Hcp].
    destruct (parent_alive w c p Htree Hcp) as [Halc _].
    destruct (ScheduleParent_law w c {[peer_ID (getPeer w p)]} Hok Halc) as (w2 & r & -> & Hps).
    cbn [mbind outcome_bind]. pose proof (ps_links _ _ _ _ _ Hps) as Hlo.
    assert (∀ x, peer_ID (getPeer w2 x) = peer_ID (getPeer w x)) as HID
      by (intros x; by apply (lo_peer _ _ Hlo _ peer_ID)).
    assert (∀ x, Peer_GetStatus w2 x = Peer_GetStatus w x) as HST
      by (intros x; by apply (lo_peer _ _ Hlo _ peer_status)).
    destruct r as [[q cs]|]; intros [= <-].
    + destruct (ps_some _ _ _ _ _ Hps q cs eq_refl) as (_ & Hqb & _ & Hcpar).
      rewrite Hcp in Hcpar. cbn in Hcpar.
      assert (∀ x, Peer_GetParent w2 x = Some p → Peer_GetParent w x = Some p ∧ x ≠ c) as Hbelow.
      { intros x Hx. destruct (decide (x = c)) as [->|Hne].
        - rewrite Hcpar in Hx. injection Hx as ->. set_solver.
        - by rewrite <-(ps_others _ _ _ _ _ Hps x Hne). }
      split; [done|..].
      * intros x. by rewrite sendPacket_getPeer.
      * intros x. rewrite <-HST. unfold Peer_GetStatus. by rewrite sendPacket_getPeer.
      * intros x. unfold Peer_GetParent at 1. rewrite sendPacket_getPeer. apply Hbelow.
      * destruct (sendPacket_queue w2 c q cs) as [l Hl]. exists l. rewrite Hl. f_equal.
        apply (lo_queue _ _ Hlo).
      * intros x. unfold Peer_GetParent at 1. rewrite sendPacket_getPeer.
        intros [Hx Hne]%Hbelow Hid%list_elem_of_singleton. destruct Hne.
        apply (peers_ids _ (world_peers _ Hok)); [congruence|].
        apply (scope_named _ (world_scope _ Hok)). by apply (parent_alive w x p Htree).
    + pose proof (ps_none _ _ _ _ _ Hps eq_refl) as ->. split; [done..| |].
      * cbn. eauto.
      * intros x Hx Hid%list_elem_of_singleton. assert (x = c) as ->.
        { apply (peers_ids _ (world_peers _ Hok)); [congruence|].
          apply (scope_named _ (world_scope _ Hok)). by apply (parent_alive w x p Htree). }
        cbn. eexists. apply elem_of_app. right. by left.
  - intros [= <-]. split; [done..|by exists []; rewrite app_nil_r|].
    intros x Hx Hid%list_elem_of_singleton. apply (tree_parent _ Htree) in Hx. congruence.
Qed.

Lemma rehome_rehomed f p order w w' :
  world_ok w → (∀ c, alive w c → alive w (f c)) →
  foldM (rehomeChild f p) order w = Ok w' → rehomed f p order w w'.
Proof.
  revert w. induction order as [|id order IH]; intros w Hok Hf; cbn [foldM].
  - intros [= <-]. split; [done..|by exists []; rewrite app_nil_r|].
    intros x _ Hn. by apply elem_of_nil in Hn.
  - intros H. apply outcome_bind_Ok in H as (w1 & Hr & H).
    pose proof (rehomeChild_returns f p w id Hok Hf) as (w1' & Hr' & Hk).
    rewrite Hr in Hr'. injection Hr' as <-.
    apply (rehomed_trans f p [id] order w w1); [by apply rehomeChild_rehomed|].
    apply IH; [apply Hk| |done]. intros c Hc. by apply Hk, Hf, Hk.
Qed.

End Rehoming.

Section Leaving.
Context `{S : !Scheduler} `{SL : !SchedulerLaws S}.
Implicit Types (w : World) (p x : PeerRef).

Lemma sendPackets_frame w p cs :
  (∀ x, getPeer (foldl (λ w c, sendPacket w c p []) w cs) x = getPeer w x) ∧
  ∃ l, w_queue (foldl (λ w c, sendPacket w c p []) w cs) = w_queue w ++ l.
Proof.
  revert w. induction cs as [|c cs IH]; intros w; cbn [foldl].
  - split; [done|]. exists []. by rewrite app_nil_r.
  - destruct (IH (sendPacket w c p [])) as [Hg [l Hl]]. split.
    + intros x. by rewrite Hg, sendPacket_getPeer.
    + destruct (sendPacket_queue w c p []) as [l' Hl']. exists (l' ++ l).
      by rewrite Hl, Hl', app_assoc.
Qed.

(** Taking a peer out of the tree puts nobody below it. *)
Lemma removePeer_rehomed f w p w' :
  world_ok w → alive w p → removePeerFromCurrentTree w p = Ok w' → rehomed f p [] w w'.
Proof.
  intros Hok Hal Hr. pose proof (removePeerFromCurrentTree_returns w p Hok Hal) as (w1 & Hr1 & [Hok1 _]).
  rewrite Hr in Hr1. injection Hr1 as <-. revert Hr. unfold removePeerFromCurrentTree.
  assert (keeps w (Peer_ReplaceParent w p None)) as Hk by (by apply keeps_ReplaceParent).
  assert (links_only w (Peer_ReplaceParent w p None)) as Hlo0
    by (by apply Peer_ReplaceParent_links_only).
  assert (∀ x, Peer_GetParent (Peer_ReplaceParent w p None) x = Some p →
    Peer_GetParent w x = Some p) as Hb0.
  { intros x. rewrite Peer_ReplaceParent_GetParent. by case_decide. }
  assert (∀ w2, world_ok w' → links_only w w2 →
    (∀ x, Peer_GetParent w2 x = Some p → Peer_GetParent w x = Some p) →
    (∀ x, getPeer w' x = getPeer w2 x) → (∃ l, w_queue w' = w_queue w2 ++ l) →
    rehomed f p [] w w') as Hfin.
  { intros w2 Hok' Hlo Hb Hg [l Hl]. split; [done|..].
    - intros x. rewrite Hg. by apply (lo_peer _ _ Hlo _ peer_ID).
    - intros x. unfold Peer_GetStatus. rewrite Hg. by apply (lo_peer _ _ Hlo _ peer_status).
    - intros x. unfold Peer_GetParent at 1. rewrite Hg. apply Hb.
    - exists l. rewrite Hl. f_equal. apply (lo_queue _ _ Hlo).
    - intros x _ Hn. by apply elem_of_nil in Hn. }
  destruct (Peer_GetParent w p) as [o|] eqn:Ho.
  - destruct (parent_alive w p o) as [_ Halo]; [apply Hok|done|].
    destruct (ScheduleChildren_law (Peer_ReplaceParent w p None) o
      {[peer_ID (getPeer (Peer_ReplaceParent w p None) p)]}) as (w2 & cs & -> & Hcs);
      [apply Hk|by apply Hk|]. cbn [mbind outcome_bind]. intros [= <-].
    destruct (sendPackets_frame w2 p cs) as [Hg Hl]. apply (Hfin w2); [done|..|done|done].
    + etrans; [exact Hlo0|]. apply (cs_links _ _ _ _ _ Hcs).
    + intros x. rewrite (cs_parent _ _ _ _ _ Hcs). case_decide; [|apply Hb0].
      intros [= ->]. exfalso. apply (peers_acyclic _ (world_peers _ Hok) p).
      by apply tc_once.
  - intros [= <-]. apply (Hfin (Peer_ReplaceParent w p None)); [done..|].
    exists []. by rewrite app_nil_r.
Qed.

Lemma Delete_parent w id x :
  world_ok w → Peer_GetParent (peerManager_Delete w id) x =
  if decide (w_peers w !! id = Some x) then None else Peer_GetParent w x.
Proof.
  intros Hok. unfold peerManager_Delete, peerManager_Get.
  destruct (w_peers w !! id) as [p|] eqn:Hp; [|by rewrite decide_False].
  etrans; [apply (Peer_ReplaceParent_GetParent _ p None x)|]. repeat case_decide; naive_solver.
Qed.

Lemma Delete_queue w id : w_queue (peerManager_Delete w id) = w_queue w.
Proof.
  unfold peerManager_Delete. destruct (peerManager_Get w id); [|done].
  etrans; [apply (Peer_ReplaceParent_queue _ _ None)|done].
Qed.

(** C29: when a peer leaves (and the visit covers its children), it is out of
    the registry, and every peer that still has it as parent was its child
    before and waits in the queue for another parent, with the peer that left
    excluded: no child is forgotten, whatever the scheduler answers. *)
Theorem peerLeave_no_child_forgotten order w p w' :
  world_ok w → alive w p →
  (∀ x, Peer_GetParent w x = Some p → peer_ID (getPeer w x) ∈ order) →
  event_apply order w (peerLeaveEvent p) = Ok w' →
  w_peers w' !! peer_ID (getPeer w p) = None ∧
  ∀ x, Peer_GetParent w' x = Some p →
    Peer_GetParent w x = Some p ∧
    ∃ due, (mkRsPeer 0 x {[peer_ID (getPeer w p)]}, due) ∈ w_queue w'.
Proof.
  intros Hok Hal Hcov. cbn [event_apply]. unfold peerLeaveEvent_apply. intros H.
  assert (keeps w (Peer_Leave w p)) as Hk0 by (by apply keeps_updPeer).
  assert (∀ x, Peer_GetParent (Peer_Leave w p) x = Peer_GetParent w x) as Hp0
    by (intros x; by apply (updPeer_field peer_parent)).
  assert (∀ x, peer_ID (getPeer (Peer_Leave w p) x) = peer_ID (getPeer w x)) as Hi0
    by (intros x; by apply (updPeer_field peer_ID)).
  apply outcome_bind_Ok in H as (w1 & H1 & H). apply outcome_bind_Ok in H as (w2 & H2 & H).
  injection H as <-.
  apply (removePeer_rehomed (λ c, c)) in H1; [|apply Hk0|by apply Hk0].
  apply rehome_rehomed in H2; [|apply H1|done].
  pose proof (rehomed_trans _ _ _ _ _ _ _ H1 H2) as Hr.
  pose proof (rh_ok _ _ _ _ _ Hr) as Hok2. rewrite (rh_ID _ _ _ _ _ Hr), Hi0.
  split; [rewrite peerManager_Delete_peers; apply lookup_delete_eq|].
  intros x. rewrite Delete_parent, Delete_queue by done. case_decide; [done|]. intros Hx.
  pose proof (rh_below _ _ _ _ _ Hr x Hx) as Hb. rewrite Hp0 in Hb. split; [done|].
  rewrite <-(Hi0 p). apply (rh_child _ _ _ _ _ Hr x Hx). rewrite Hi0. by apply Hcov.
Qed.

(** when a download fails, a child left below the failed peer is not
    queued for a new parent: the queue gets an entry for the failed peer
    itself, which the re-schedule loop drops without sending an event. *)
Theorem peerFail_strands_children order w p res w' x :
  world_ok w → alive w p →
  Task_ContainsBackToSourcePeer w (peer_Task (getPeer w p)) (peer_ID (getPeer w p)) = false →
  peer_ID (getPeer w x) ∈ order →
  event_apply order w (peerDownloadFailEvent p res) = Ok w' →
  Peer_GetParent w' x = Some p →
  let rs := mkRsPeer 0 p {[peer_ID (getPeer w p)]} in
  (∃ due, (rs, due) ∈ w_queue w') ∧ rescheduleTurn w' rs = (w', []).
Proof.
  intros Hok Hal Hbs Hcov. cbn [event_apply]. unfold peerDownloadFailEvent_apply.
  assert (keeps w (Peer_SetStatus w p PeerStatusFail)) as Hk0 by (by apply keeps_PeerStatus).
  assert (∀ x, peer_ID (getPeer (Peer_SetStatus w p PeerStatusFail) x) = peer_ID (getPeer w x)) as Hi0
    by (intros y; by apply (updPeer_field peer_ID)).
  assert (Peer_GetStatus (Peer_SetStatus w p PeerStatusFail) p = PeerStatusFail) as Hst
    by (unfold Peer_GetStatus, Peer_SetStatus; by rewrite getPeer_updPeer_eq).
  assert (peer_Task (getPeer (Peer_SetStatus w p PeerStatusFail) p) = peer_Task (getPeer w p)) as ->
    by (by apply (updPeer_field peer_Task)).
  rewrite Hi0. set (w0 := Peer_SetStatus w p PeerStatusFail) in *.
  change (Task_ContainsBackToSourcePeer w0 (peer_Task (getPeer w p)) (peer_ID (getPeer w p)))
    with (Task_ContainsBackToSourcePeer w (peer_Task (getPeer w p)) (peer_ID (getPeer w p))).
  rewrite Hbs. cbn [andb]. intros H Hx. apply outcome_bind_Ok in H as (w1 & H1 & H2).
  apply (removePeer_rehomed (λ _, p)) in H1; [|apply Hk0|by apply Hk0].
  assert (alive w1 p) as Hal1.
  { apply alive_named.
    rewrite (rh_ID _ _ _ _ _ H1), Hi0. by apply Hok. }
  apply rehome_rehomed in H2; [|apply H1|done].
  pose proof (rehomed_trans _ _ _ _ _ _ _ H1 H2) as Hr. cbv zeta. split.
  - rewrite <-(Hi0 p). apply (rh_child _ _ _ _ _ Hr x Hx). by rewrite Hi0.
  - unfold rescheduleTurn. cbn [rs_times rs_peer]. change (maxRescheduleTimes <? 0) with false.
    cbv iota. case_match; [done|]. unfold Peer_IsDone. rewrite (rh_status _ _ _ _ _ Hr), Hst. done.
Qed.

End Leaving.

(** ** Safety *)

(** C2: on every state that satisfies the invariant, a handler that runs alone,
    whose peer is allocated and whose message is in range returns, and the state
    it leaves satisfies the invariant (links agree in both directions, no cycle,
    exact upload loads, unique IDs, no dangling reference) and allocates
    nothing.  In range means: the counts fit 32 bits, a back-to-source peer says
    which piece it has and ends with a result, and the peer that a piece is
    reported to come from is not below the reporting peer, which the handler
    does not check.  A handler panics exactly for the report of a piece, by a
    peer that does not download from the source, from a peer that has left when
    no other parent is available; it then dereferences nil.  It holds for every
    scheduler that obeys the interface and every order of visit. *)
Theorem event_safety `{S : !Scheduler} `{SL : !SchedulerLaws S} order w e :
  world_ok w → event_ok w e →
  (event_apply order w e = Panic NilDereference ↔ event_orphaned w e) ∧
  (¬ event_orphaned w e →
   ∃ w', event_apply order w e = Ok w' ∧ world_ok w' ∧ ∀ q, alive w' q ↔ alive w q).
Proof.
  intros Hok He. pose proof (event_orphaned_panics order w e) as Hp.
  destruct (event_apply_returns order w e Hok He) as [(w' & Hw & Hr)|[Hw Ho]].
  - split; [split; [congruence|done]|]. intros _. by exists w'.
  - split; [done|]. intros Hn. by destruct Hn.
Qed.

Lemma event_safety_witness :
  ∃ w', @event_apply demoScheduler ["b"; "c"] demo (peerLeaveEvent peerA) = Ok w' ∧
    world_ok w' ∧ w_peers w' !! "a" = None.
Proof.
  destruct (@event_safety demoScheduler demoScheduler_laws ["b"; "c"] demo (peerLeaveEvent peerA))
    as [_ Hret]; [apply demo_ok|is_alive|]. destruct Hret as (w' & Hw & Hok & _); [intros []|].
  exists w'. split; [done|]. split; [done|].
  assert ((λ o, match o with Ok w => bool_decide (w_peers w !! "a" = None) | _ => false end)
    (@event_apply demoScheduler ["b"; "c"] demo (peerLeaveEvent peerA)) = true) as Hb by by vm_compute.
  rewrite Hw in Hb. by apply bool_decide_eq_true in Hb.
Defined.

(** In the demo state without the links of the seed, and the seed gone: [b]
    has no other parent than [a]. *)
Definition demoOrphans : World :=
  let w := Peer_ReplaceParent demoPeers peerB (Some peerA) in
  Peer_Leave w seed.

Lemma demoOrphans_ok : world_ok demoOrphans.
Proof.
  assert (world_ok (Peer_ReplaceParent demoPeers peerB (Some peerA))) as H.
  { apply world_ok_ReplaceParent; [apply demoPeers_ok|is_alive|]. intros q [= <-].
    split; [is_alive|]. apply root_may_follow; [done|by vm_compute]. }
  apply keeps_updPeer; try done. is_alive.
Qed.

Definition demoResult : PeerResult := mkPeerResult "task-0001" "a" 0 false Code_CDNError (-1).

(** The states the handlers leave, by evaluation. *)
Definition outcomeWorld (o : Outcome World) : World :=
  match o with Ok w => w | _ => emptyWorld 0 end.

Definition demoLeft : World :=
  outcomeWorld (@event_apply demoScheduler ["b"] demoOrphans (peerLeaveEvent peerA)).
Definition demoFailed : World :=
  outcomeWorld (@event_apply demoScheduler ["b"] demoOrphans (peerDownloadFailEvent peerA demoResult)).

(** The only child of [peerA] in [demoOrphans]. *)
Lemma demoOrphans_children x : Peer_GetParent demoOrphans x = Some peerA → x = peerB.
Proof.
  intros Hx%(tree_parent _ (peers_tree _ (world_peers _ demoOrphans_ok))).
  apply elem_of_map_to_list in Hx. revert Hx.
  assert (map_to_list (Peer_GetChildren demoOrphans peerA) = [("b"%string, peerB)]) as -> by by vm_compute.
  intros Heq%list_elem_of_singleton. exact (f_equal snd Heq).
Qed.

Lemma peerLeave_no_child_forgotten_witness :
  Peer_GetParent demoLeft peerB = Some peerA ∧
  ∃ due, (mkRsPeer 0 peerB {[ "a" ]}, due) ∈ w_queue demoLeft.
Proof.
  assert (Peer_GetParent demoLeft peerB = Some peerA) as Hp by by vm_compute.
  destruct (@peerLeave_no_child_forgotten demoScheduler demoScheduler_laws ["b"] demoOrphans peerA
    demoLeft) as [_ Hq]; [apply demoOrphans_ok|is_alive| |by vm_compute|].
  - intros x ->%demoOrphans_children. assert (peer_ID (getPeer demoOrphans peerB) = "b"%string) as ->
      by by vm_compute. apply list_elem_of_here.
  - split; [done|]. apply Hq in Hp as [_ Hp].
    by assert (peer_ID (getPeer demoOrphans peerA) = "a"%string) as <- by by vm_compute.
Defined.

Lemma peerFail_strands_children_witness :
  Peer_GetParent demoFailed peerB = Some peerA ∧
  rescheduleTurn demoFailed (mkRsPeer 0 peerA {[ "a" ]}) = (demoFailed, []).
Proof.
  assert (Peer_GetParent demoFailed peerB = Some peerA) as Hp by by vm_compute.
  split; [done|].
  destruct (@peerFail_strands_children demoScheduler demoScheduler_laws ["b"] demoOrphans peerA
    demoResult demoFailed peerB) as [_ Hq]; [apply demoOrphans_ok|is_alive|by vm_compute| |by vm_compute|done|].
  - assert (peer_ID (getPeer demoOrphans peerB) = "b"%string) as -> by by vm_compute. apply list_elem_of_here.
  - by assert (peer_ID (getPeer demoOrphans peerA) = "a"%string) as <- by by vm_compute.
Defined.

(** ** Where the handlers differ from their intent *)

(** [a] reports a piece of the seed after the seed has left. *)
Definition demoSeedLeft : World := Peer_Leave demo seed.
Definition demoPieceInfo : PieceInfo := mkPieceInfo 5 0 4096 "md5" 0 0.
Definition demoReport (dst : string) : PieceResult :=
  mkPieceResult "task-0001" "a" dst (Some demoPieceInfo) 0 1 true Code_Success 6.

Lemma orphaned_report_example :
  @event_apply demoScheduler [] demoSeedLeft
    (peerDownloadPieceSuccessEvent peerA (demoReport "seed")) = Panic NilDereference.
Proof.
  apply (@event_orphaned_panics demoScheduler demoScheduler_laws [] demoSeedLeft). split; [by vm_compute|].
  exists seed, (Peer_ReplaceParent (Peer_UpdateProgress demoSeedLeft peerA 6 1) peerA None).
  split; [by vm_compute|]. split; by vm_compute.
Qed.

(** the report of a piece that came from a peer's own child makes the child
    its parent: the links form a cycle, on which the walks up and down the
    tree, and with them the descendant test of every later scheduling, do not
    return. *)
Theorem piece_report_can_close_cycle :
  let w' := outcomeWorld (@event_apply demoScheduler [] demo
              (peerDownloadPieceSuccessEvent peerA (demoReport "b"))) in
  @event_apply demoScheduler [] demo
    (peerDownloadPieceSuccessEvent peerA (demoReport "b")) = Ok w' ∧
  Peer_GetParent w' peerA = Some peerB ∧ Peer_GetParent w' peerB = Some peerA ∧ ¬ acyclic w' ∧
  Peer_GetTreeDepth w' peerA = Diverge ∧ Peer_GetRoot w' peerA = Diverge ∧
  Peer_GetTreeNodeCount w' peerA = Diverge ∧ Peer_IsDescendant w' peerA (Some peerC) = Diverge.
Proof.
  intros w'.
  assert (Peer_GetParent w' peerA = Some peerB ∧ Peer_GetParent w' peerB = Some peerA) as [HA HB]
    by (by vm_compute).
  split; [by vm_compute|]. split; [done|]. split; [done|].
  split; [|split_and!; vm_compute; reflexivity].
  intros Hac. apply (Hac peerA). eapply tc_l, tc_once; [exact HA|exact HB].
Qed.

(** a peer that is taken out of the tree is named as the main peer in the
    packets to the children its former parent gets: [b] and [c] move from [a]
    to the seed when [a] finishes, and are told to download from [a]. *)
Theorem removed_peer_named_as_parent :
  let w' := outcomeWorld (@removePeerFromCurrentTree demoScheduler demo peerA) in
  @removePeerFromCurrentTree demoScheduler demo peerA = Ok w' ∧
  Peer_GetParent w' peerB = Some seed ∧ Peer_GetParent w' peerC = Some seed ∧
  (dest_PeerId ∘ packet_MainPeer <$> ch_packet (getChan w' 11%positive)) = Some "a"%string ∧
  (dest_PeerId ∘ packet_MainPeer <$> ch_packet (getChan w' 13%positive)) = Some "a"%string ∧
  peer_conn (getPeer w' peerB) = Some 11%positive ∧ peer_conn (getPeer w' peerC) = Some 13%positive.
Proof. split_and!; vm_compute; reflexivity. Qed.
