(* ===== verification/SchedulerProperties.v ===== *)
(** * SchedulerProperties: the tree of peers and the basic scheduler

    What re-parenting keeps, that the walks of the tree return, which parents
    and children the basic scheduler picks, and that it never oversubscribes a
    host. *)

From S2P Require Import Prelude Containers World Supervisor PeerTree Managers Invariant Scheduler.
From S2P Require Import GoFloat Evaluator BasicScheduler Events EventsInvariant Service SeedTask.
From S2P Require Import System Demo.
From stdpp Require Import options.
Local Open Scope Z_scope.
Set Default Proof Using "Type*".

(** ** The tree *)

(** C21: [ReplaceParent] moves a peer and nothing else: afterwards the peer has
    the new parent, every other peer keeps its own, the parent and children
    links still agree, the upload load of every host still counts its uploads,
    and no cycle appears, provided the new parent is neither the peer nor below
    it and has no other child of that ID. *)
Theorem ReplaceParent_keeps_tree w p np :
  tree_ok w → load_ok w → acyclic w → child_slot_free w p np →
  (∀ q, np = Some q → may_follow w p q) →
  (∀ x, Peer_GetParent (Peer_ReplaceParent w p np) x =
    if decide (p = x) then np else Peer_GetParent w x) ∧
  tree_ok (Peer_ReplaceParent w p np) ∧ load_ok (Peer_ReplaceParent w p np) ∧
  acyclic (Peer_ReplaceParent w p np).
Proof.
  intros Htree Hload Hac Hfree Hnp. split; [|split; [|split]].
  - intros x. apply Peer_ReplaceParent_GetParent.
  - by apply Peer_ReplaceParent_tree_ok.
  - by apply Peer_ReplaceParent_load_ok.
  - by apply Peer_ReplaceParent_acyclic.
Qed.

Lemma ReplaceParent_keeps_tree_witness :
  let w' := Peer_ReplaceParent demo peerC (Some seed) in
  Peer_GetParent w' peerC = Some seed ∧ Peer_GetParent w' peerB = Some peerA ∧ acyclic w' ∧
  host_CurrentUploadLoad (hostOf w' seed) = 2 ∧ host_CurrentUploadLoad (hostOf w' peerA) = 1.
Proof.
  intros w'. pose proof (world_peers _ demo_ok) as Hok.
  destruct (ReplaceParent_keeps_tree demo peerC (Some seed)) as (Hp & _ & _ & Hac);
    [apply Hok..|apply ids_slot_free; [done|by vm_compute]| |].
  - intros q [= <-]. apply root_may_follow; [done|by vm_compute].
  - split; [rewrite Hp; by vm_compute|]. split; [rewrite Hp; by vm_compute|].
    split; [done|]. split; vm_compute; reflexivity.
Defined.

(** C22: on a tree without cycles the descendant test returns, and answers
    whether a peer with the ancestor's ID lies strictly above the offspring. *)
Theorem isDescendant_correct w a o :
  acyclic w →
  ∃ b, isDescendant w (Some a) (Some o) = Ok b ∧
    (b = true ↔ ∃ q, tc (parent_rel w) o q ∧ peer_ID (getPeer w q) = peer_ID (getPeer w a)).
Proof. apply isDescendant_decides. Qed.

Lemma isDescendant_correct_witness :
  isDescendant demo (Some seed) (Some peerB) = Ok true ∧
  (∃ q, tc (parent_rel demo) peerB q ∧ peer_ID (getPeer demo q) = "seed"%string).
Proof.
  destruct (isDescendant_correct demo seed peerB) as (b & Hb & Hs); [apply demo_ok|].
  assert (isDescendant demo (Some seed) (Some peerB) = Ok true) as Ht by by vm_compute.
  split; [done|]. rewrite Ht in Hb. injection Hb as <-. destruct (proj1 Hs eq_refl) as (q & Hq & Hid).
  exists q. split; [done|]. by rewrite Hid.
Defined.

Section Walks.
Implicit Types (w : World) (p : PeerRef).

Lemma getRoot_spec fuel w p r :
  getRoot fuel w p = Ok r →
  rtc (parent_rel w) p r ∧ (Peer_GetParent w r = None ∨ host_IsCDN (hostOf w r) = true).
Proof.
  revert p. induction fuel as [|fuel IH]; intros p; simpl; [done|].
  destruct (Peer_GetParent w p) as [o|] eqn:Ho; [|intros [= <-]; split; [apply rtc_refl|by left]].
  destruct (host_IsCDN (hostOf w p)) eqn:Hc; [intros [= <-]; split; [apply rtc_refl|by right]|].
  intros [Hr Hend]%IH. split; [|done]. by eapply rtc_l.
Qed.

Lemma walk_no_panic w p :
  (∀ fuel deep r, treeDepth fuel w p deep ≠ Panic r) ∧ (∀ fuel r, getRoot fuel w p ≠ Panic r).
Proof.
  split; intros fuel; revert p; (induction fuel as [|fuel IH]; intros p *; simpl; [done|]);
    destruct (Peer_GetParent w p); try done; case_match; auto; done.
Qed.

(** C23: when the links agree and have no cycle, the three walks of the tree
    return: the depth, the size of the subtree, and the root, which lies above
    the peer and is a peer without parent or of a CDN host. *)
Theorem tree_walks_return w p :
  tree_ok w → acyclic w →
  (∃ d, Peer_GetTreeDepth w p = Ok d) ∧ (∃ n, Peer_GetTreeNodeCount w p = Ok n) ∧
  ∃ r, Peer_GetRoot w p = Ok r ∧ rtc (parent_rel w) p r ∧
    (Peer_GetParent w r = None ∨ host_IsCDN (hostOf w r) = true).
Proof.
  intros Htree Hac. unfold Peer_GetTreeDepth, Peer_GetTreeNodeCount, Peer_GetRoot.
  destruct (walk_no_panic w p) as [Hdp Hrp]. split; [|split].
  - destruct (treeDepth (treeFuel w) w p 0) as [d|r|] eqn:Hd; [eauto|by apply Hdp in Hd|].
    apply treeDepth_Diverge in Hd as [q Hq%parent_chain_bound]; [lia|done].
  - destruct (treeNodeCount (treeFuel w) w p) as [n|r|] eqn:Hn;
      [eauto|by apply treeNodeCount_no_panic in Hn|].
    apply treeNodeCount_Diverge in Hn as [q Hq%parent_chain_bound]; [lia|done|done].
  - destruct (getRoot (treeFuel w) w p) as [r|r|] eqn:Hr; [|by apply Hrp in Hr|].
    + exists r. split; [done|]. by eapply getRoot_spec.
    + apply getRoot_Diverge in Hr as [q Hq%parent_chain_bound]; [lia|done].
Qed.

Lemma tree_walks_return_witness :
  (∃ d, Peer_GetTreeDepth demo peerB = Ok d ∧ d = 3) ∧ Peer_GetTreeNodeCount demo seed = Ok 4.
Proof.
  destruct (tree_walks_return demo peerB) as ((d & Hd) & _); [apply demo_ok..|].
  split; [|by vm_compute]. exists d. split; [done|]. 
  assert (Peer_GetTreeDepth demo peerB = Ok 3) as H3 by by vm_compute.
  rewrite Hd in H3. by injection H3.
Defined.

End Walks.

(** ** The basic scheduler *)

Section Basic.
Context `{E : !Evaluator} `{EL : !EvaluatorLaws E}.
Implicit Types (w : World) (peer c : PeerRef) (blank : gset string).

(** C11: [ScheduleParent] returns on every state of the invariant.  Without a
    candidate it reports failure and changes nothing; otherwise it answers an
    eligible parent of maximal score, followed by the candidates in descending
    order of score, none lost and none added; a peer that has a parent now has
    that one, a peer without parent stays without. *)
Theorem ScheduleParent_best n w peer blank :
  world_ok w → alive w peer →
  ∃ w' r, basic_ScheduleParent n w peer blank = Ok (w', r) ∧
  match r with
  | None => w' = w ∧ parent_candidates n w peer blank = []
  | Some (best, rest) =>
      best ∈ peers_of_task w peer ∧ eligible_parent w peer blank best ∧
      (∀ c, c ∈ parent_candidates n w peer blank →
         fge (parent_score w peer best) (parent_score w peer c)) ∧
      StronglySorted (λ x y, fge (parent_score w peer x) (parent_score w peer y)) (best :: rest) ∧
      (∀ c, c ∈ best :: rest ↔ c ∈ parent_candidates n w peer blank) ∧
      Peer_GetParent w' peer = (Peer_GetParent w peer ≫= λ _, Some best)
  end.
Proof.
  intros Hok Hal. pose proof (world_counts_ok w Hok) as Hcnt.
  assert (acyclic w) as Hac by apply Hok.
  destruct (basic_ScheduleParent_law n w peer blank Hok Hal) as (w' & r & Heq & Hps).
  exists w', r. split; [done|]. revert Heq. rewrite basic_ScheduleParent_eq by done.
  assert (no_NaN (parent_score w peer) (parent_candidates n w peer blank)) as Hn
    by (intros x Hx; by apply (parent_score_Ok n w peer blank)).
  destruct (rank _ _) as [|best rest] eqn:Hrank; intros [= Hw <-].
  - split; [by subst|]. by apply rank_nil in Hrank.
  - pose proof Hrank as Hhead. apply rank_head in Hhead as [Hin Hmax]; [|done].
    apply parent_candidates_eligible in Hin as [Hin Hel]; [|done].
    split_and!; [done|done|done|by rewrite <-Hrank; apply rank_sorted| |].
    + intros c. rewrite <-Hrank. by apply elem_of_rank.
    + by destruct (ps_some _ _ _ _ _ Hps best rest eq_refl) as (_ & _ & _ & ->).
Qed.

Lemma candidates_NoDup w peer (P : PeerRef → Prop) `{!∀ x, Decision (P x)} k :
  world_ok w → NoDup (take k (filter P (reverse (peers_of_task w peer)))).
Proof.
  intros Hok. apply NoDup_take, NoDup_filter. rewrite reverse_Permutation. apply Hok.
Qed.

(** the candidate parents are at most [limit] eligible peers of the task
    (not excluded, not bad, not left or waiting, not the peer or below it, with
    a free upload slot and more pieces), and all of them when fewer than
    [limit] are picked. *)
Theorem candidate_parents_sound_complete w peer limit blank :
  world_ok w → Task_CanSchedule w (peer_Task (getPeer w peer)) = true →
  ∃ l, selectCandidateParents w peer limit blank = Ok l ∧ NoDup l ∧
    (length l ≤ Z.to_nat limit)%nat ∧
    (∀ c, c ∈ l → c ∈ peers_of_task w peer ∧ eligible_parent w peer blank c) ∧
    ((length l < Z.to_nat limit)%nat →
     ∀ c, c ∈ peers_of_task w peer → eligible_parent w peer blank c → c ∈ l).
Proof.
  intros Hok Hcan. assert (acyclic w) as Hac by apply Hok.
  rewrite selectCandidateParents_spec by done. eexists. split; [done|]. split_and!.
  - by apply candidates_NoDup.
  - rewrite length_take. lia.
  - intros c [Hs Hc]%elem_of_take_filter. rewrite elem_of_reverse in Hc. split; [done|].
    by apply (decides_true _ _ (parentFilter_decides w peer blank c Hac)).
  - rewrite length_take. intros Hlt c Hc Hel. rewrite take_ge by lia.
    apply list_elem_of_filter. split; [|by rewrite elem_of_reverse].
    by apply (decides_true _ _ (parentFilter_decides w peer blank c Hac)).
Qed.

(** C12: every child [ScheduleChildren] picks is an eligible peer of the task
    (behind the peer, connected, not done, not above it), ends up below the
    peer, and nobody else moves; the uploads of the peer's host stay within its
    limit. *)
Theorem ScheduleChildren_fits w peer blank :
  world_ok w → alive w peer →
  host_CurrentUploadLoad (hostOf w peer) <= host_TotalUploadLoad (hostOf w peer) →
  ∃ w' cs, basic_ScheduleChildren w peer blank = Ok (w', cs) ∧
    (∀ c, c ∈ cs → c ∈ peers_of_task w peer ∧ eligible_child w peer blank c) ∧
    (∀ x, Peer_GetParent w' x = if decide (x ∈ cs) then Some peer else Peer_GetParent w x) ∧
    world_ok w' ∧
    host_CurrentUploadLoad (hostOf w' peer) <= host_TotalUploadLoad (hostOf w' peer).
Proof.
  intros Hok Hal Hfit. pose proof (world_counts_ok w Hok) as Hcnt.
  destruct (basic_ScheduleChildren_law w peer blank Hok Hal) as (w' & cs & Heq & Hcs).
  exists w', cs. pose proof (basic_ScheduleChildren_load w peer blank w' cs Hok Heq Hfit) as Hload.
  split; [done|]. split; [|split; [apply Hcs|split; [apply Hcs|]]].
  - intros c Hc. revert Heq. rewrite basic_ScheduleChildren_eq by (done || apply Hok).
    destruct (IsBadNode w peer) as [[]|?|]; intros [= <- <-]; try (by apply elem_of_nil in Hc).
    apply children_picked_eligible in Hc as (? & ? & _); [done|apply Hok|done].
  - pose proof (cs_links _ _ _ _ _ Hcs) as Hlo.
    assert (peer_Host (getPeer w' peer) = peer_Host (getPeer w peer)) as Hho
      by (by apply (lo_peer _ _ Hlo _ peer_Host)).
    unfold hostOf in *. rewrite Hho. rewrite (lo_host _ _ Hlo _ host_TotalUploadLoad) by done.
    destruct (load_exact w' (peer_Host (getPeer w peer)) (cs_ok _ _ _ _ _ Hcs)) as [-> _]. done.
Qed.

(** candidates of equal score are repeated: in the answer of
    [ScheduleParent] a candidate occurs once for every candidate of its score,
    because the groups are appended once per score entry. *)
Theorem equal_scores_repeat_candidates n w peer blank w' best rest c :
  world_ok w → basic_ScheduleParent n w peer blank = Ok (w', Some (best, rest)) →
  c ∈ parent_candidates n w peer blank →
  length (filter (.= c) (best :: rest)) =
  length (filter (λ x, feqb (parent_score w peer c) (parent_score w peer x) = true)
            (parent_candidates n w peer blank)).
Proof.
  intros Hok Heq Hc. pose proof (world_counts_ok w Hok) as Hcnt.
  assert (acyclic w) as Hac by apply Hok. revert Heq. rewrite basic_ScheduleParent_eq by done.
  destruct (rank _ _) as [|b r] eqn:Hrank; [done|]. intros [= _ <- <-]. rewrite <-Hrank.
  apply rank_count; [| |done].
  - unfold parent_candidates. case_match; [|constructor].
    by apply candidates_NoDup.
  - intros x Hx. by apply (parent_score_Ok n w peer blank).
Qed.

(** C19: the basic scheduler implements the interface the event handlers rely
    on, for every evaluator that answers numbers: [ScheduleParent] and
    [ScheduleChildren] return on every state of the invariant, keep it, change
    links only, never answer an excluded peer and never one that would close a
    cycle. *)
Theorem basicScheduler_refines_interface n : SchedulerLaws (basicScheduler n).
Proof. apply basicScheduler_laws. Qed.

End Basic.

#[local] Existing Instance demoEvaluator.

#[local] Instance demoEvaluator_laws : EvaluatorLaws demoEvaluator.
Proof. apply NewEvaluatorBase_laws. Qed.

Lemma ScheduleParent_best_witness :
  ∃ w' rest, basic_ScheduleParent 10 demo peerC ∅ = Ok (w', Some (seed, rest)) ∧
    eligible_parent demo peerC ∅ seed ∧ Peer_GetParent w' peerC = Some seed.
Proof.
  destruct (ScheduleParent_best 10 demo peerC ∅) as (w' & r & Heq & Hr); [apply demo_ok|is_alive|].
  assert ((λ o, match o with Ok (_, Some (b, _)) => bool_decide (b = seed) | _ => false end)
    (basic_ScheduleParent 10 demo peerC ∅) = true) as Hb by by vm_compute.
  rewrite Heq in Hb. destruct r as [[b rest]|]; [|done]. apply bool_decide_eq_true in Hb as ->.
  exists w', rest. split; [done|]. destruct Hr as (_ & Hel & _ & _ & _ & ->).
  split; [done|]. by vm_compute.
Defined.

Lemma candidate_parents_sound_complete_witness :
  ∃ l, selectCandidateParents demo peerC 10 ∅ = Ok l ∧ NoDup l ∧
    (∀ c, c ∈ l → eligible_parent demo peerC ∅ c) ∧ length l = 3%nat.
Proof.
  destruct (candidate_parents_sound_complete demo peerC 10 ∅) as (l & Heq & Hnd & _ & Hel & _);
    [apply demo_ok|by vm_compute|].
  exists l. split; [done|]. split; [done|]. split; [intros c Hc; by apply Hel|].
  assert ((λ o, match o with Ok l => length l | _ => 0%nat end)
    (selectCandidateParents demo peerC 10 ∅) = 3%nat) as Hb by by vm_compute.
  by rewrite Heq in Hb.
Defined.

Lemma ScheduleChildren_fits_witness :
  ∃ w' cs, basic_ScheduleChildren demo seed {[ "a" ]} = Ok (w', cs) ∧
    host_CurrentUploadLoad (hostOf w' seed) <= host_TotalUploadLoad (hostOf w' seed) ∧
    length cs = 1%nat.
Proof.
  destruct (ScheduleChildren_fits demo seed {[ "a" ]}) as (w' & cs & Heq & _ & _ & _ & Hload);
    [apply demo_ok|is_alive|by vm_compute|].
  exists w', cs. split; [done|]. split; [done|].
  assert ((λ o, match o with Ok (_, l) => length l | _ => 0%nat end)
    (basic_ScheduleChildren demo seed {[ "a" ]}) = 1%nat) as Hb by by vm_compute.
  by rewrite Heq in Hb.
Defined.

(** Two peers of one host with the same pieces. *)
Definition demoTwins : World := demoPeer demoPeers "d" 4%positive 2.

Lemma equal_scores_repeat_candidates_witness :
  ∃ w' best rest, basic_ScheduleParent 10 demoTwins peerC ∅ = Ok (w', Some (best, rest)) ∧
    length (filter (.= peerB) (best :: rest)) = 2%nat.
Proof.
  destruct (basic_ScheduleParent 10 demoTwins peerC ∅) as [[w' [[best rest]|]]|r|] eqn:Heq;
    try (by vm_compute in Heq).
  exists w', best, rest. split; [done|].
  rewrite (equal_scores_repeat_candidates 10 demoTwins peerC ∅ w' best rest peerB); [| |done|].
  - by vm_compute.
  - apply demoPeer_ok; [apply demoPeers_ok|done|by vm_compute..].
  - apply (bool_decide_eq_true_1 (_ ∈ _)). by vm_compute.
Defined.

Lemma basicScheduler_refines_interface_witness :
  SchedulerLaws (basicScheduler 10) ∧
  ∃ w', @ScheduleParent (basicScheduler 10) demo peerC ∅ = Ok w'.
Proof.
  assert (SchedulerLaws (basicScheduler 10)) as HL by (apply basicScheduler_refines_interface; apply _).
  split; [done|]. destruct (@ScheduleParent_law _ HL demo peerC ∅) as (w' & r & Heq & _);
    [apply demo_ok|is_alive|]. by exists (w', r).
Defined.
