(* ===== verification/SystemProperties.v ===== *)
(** * SystemProperties: what holds in every reachable state of the scheduler *)

From S2P Require Import Prelude Containers World Supervisor PeerTree Managers Invariant Scheduler.
From S2P Require Import GoFloat Evaluator BasicScheduler Events EventsInvariant Service SeedTask.
From S2P Require Import System Demo.
From stdpp Require Import options.
Local Open Scope Z_scope.

(** C1: in every state that a serial execution of the scheduler reaches from
    the empty one - registrations, reports, leaves, events applied by the
    workers, turns of the re-schedule loop, visits of the collection passes,
    seeds from the CDN, steps of the connections and of the clock, in any order,
    each run to its end before the next - the parent and children links agree,
    there is no cycle, IDs are unique, the load of every host is exactly the
    number of its uploads and far from wrapping around, and every registered or
    queued peer and every peer of an event exists.  The clients register a peer
    ID only once and report pieces only from peers that are not below them in
    the tree.  Overlapping parent changes of different goroutines are outside:
    for them the exact load and the absence of cycles fail. *)
Theorem reachable_invariant `{S : !Scheduler} `{SL : !SchedulerLaws S} cfg TaskID httpGet
    peerTTL peerTTI taskTTL taskTTI now s :
  cfg_ok cfg →
  rtc (sys_step cfg TaskID httpGet peerTTL peerTTI taskTTL taskTTI)
    (mkSystem (emptyWorld now) []) s →
  let w := sys_world s in
  tree_ok w ∧ acyclic w ∧ ids_inj w ∧
  (∀ h, host_CurrentUploadLoad (getHost w h) = uploads w h ∧ uploads w h < 2 ^ 31) ∧
  (∀ id p, w_peers w !! id = Some p → alive w p) ∧
  (∀ e, e ∈ w_queue w → alive w (rs_peer e.1)) ∧
  (∀ t, ul_wf (Task_GetPeers w t)) ∧
  Forall (event_alive w) (sys_events s).
Proof.
  intros Hcfg Hr. destruct (reachable_sys_ok cfg TaskID httpGet peerTTL peerTTI taskTTL taskTTI
    now s Hcfg Hr) as [Hok Hes].
  pose proof (world_peers _ Hok) as Hp. pose proof (world_scope _ Hok) as Hs.
  do 3 (split; [apply Hp|]). split; [intros h; destruct (load_exact _ h Hok); lia|].
  do 3 (split; [apply Hs|]). done.
Qed.

Definition demoRequest : PeerTaskRequest :=
  mkPeerTaskRequest "http://origin/blob" None "peer-1"
    (Some (mkPeerHost "h1" "10.0.0.2" 8001 8002 "a" "" "" "idc" "")).

Definition demoTaskID (url : string) (_ : option UrlMeta) : string := url.

Definition demoRegistered : World :=
  match @RegisterPeerTask demoScheduler demoConfig demoTaskID (emptyWorld 0) demoRequest with
  | Ok (w, _) => w
  | _ => emptyWorld 0
  end.

(** A peer registers, asks to leave, and the worker applies the event. *)
Lemma reachable_invariant_witness :
  ∃ s, w_peers (sys_world s) !! "peer-1" = None ∧ alive (sys_world s) 3%positive ∧
    acyclic (sys_world s) ∧ sys_events s = [].
Proof.
  set (s1 := mkSystem demoRegistered []).
  set (s2 := mkSystem (LeaveTask demoRegistered "peer-1").1.1 ([] ++ (LeaveTask demoRegistered "peer-1").1.2)).
  set (w3 := match @event_apply demoScheduler [] (sys_world s2) (peerLeaveEvent 3%positive) with
             | Ok w => w | _ => emptyWorld 0 end).
  exists (mkSystem w3 ([] ++ [])).
  split; [by vm_compute|]. split; [is_alive|]. split; [|done].
  eapply (@reachable_invariant demoScheduler demoScheduler_laws demoConfig demoTaskID
    (λ _, inl ErrEOF) 0 0 0 0 0 (mkSystem w3 ([] ++ []))); [by vm_compute|].
  apply (rtc_l _ _ s1); [|apply (rtc_l _ _ s2); [|apply rtc_once]].
  - eapply (step_register _ _ _ _ _ _ _ (emptyWorld 0) [] demoRequest); [|by vm_compute].
    split; [by eexists|done| |by vm_compute]. intros _ p [x Hx]. exfalso. exact (lookup_empty_Some p x Hx).
  - apply (step_leave _ _ _ _ _ _ _ demoRegistered [] "peer-1").
  - apply (step_apply _ _ _ _ _ _ _ (sys_world s2) [] (peerLeaveEvent 3%positive) [] []);
      [is_alive|by vm_compute].
Defined.
