(* ===== verification/Races.v ===== *)
(** * Races: parent changes that overlap

    The peers carry no lock, and the descendant test of [ScheduleParent] is not
    repeated when the link is changed.  The workers serialise the events of one
    task, but a registration that selects a parent and the collector run in
    goroutines of their own.  [ReplaceParent] is taken apart into its accesses
    here; run alone they are the [Peer_ReplaceParent] of Supervisor.v.  When two
    goroutines overlap, a host loses two units of its load for one child, and
    two tests that were both right close a cycle. *)

From S2P Require Import Prelude Containers World Supervisor PeerTree Managers Invariant Scheduler.
From S2P Require Import GoFloat Evaluator BasicScheduler Events EventsInvariant Service SeedTask.
From S2P Require Import System Demo EventProperties.
From stdpp Require Import options.
Local Open Scope Z_scope.

(** ** The accesses of ReplaceParent *)

Inductive ReplacePC :=
  | RpRead                        (* before [peer.GetParent()] *)
  | RpDelete (oldParent : PeerRef)
  | RpSet
  | RpInsert (parent : PeerRef)
  | RpDone.

Definition replaceStep (peer : PeerRef) (parent : option PeerRef) (w : World) (pc : ReplacePC)
    : World * ReplacePC :=
  match pc with
  | RpRead => (w, match Peer_GetParent w peer with Some oldParent => RpDelete oldParent | None => RpSet end)
  | RpDelete oldParent => (Peer_deleteChild w oldParent peer, RpSet)
  | RpSet => (Peer_SetParent w peer parent, match parent with Some parent => RpInsert parent | None => RpDone end)
  | RpInsert parent => (Peer_insertChild w parent peer, RpDone)
  | RpDone => (w, RpDone)
  end.

(** Two goroutines that change the parent of [peer]; the schedule says which of
    them moves, [false] the first one. *)
Fixpoint raceReplace (peer : PeerRef) (np1 np2 : option PeerRef) (sched : list bool)
    (w : World) (pc1 pc2 : ReplacePC) : World * ReplacePC * ReplacePC :=
  match sched with
  | [] => (w, pc1, pc2)
  | false :: sched =>
      let '(w, pc1) := replaceStep peer np1 w pc1 in raceReplace peer np1 np2 sched w pc1 pc2
  | true :: sched =>
      let '(w, pc2) := replaceStep peer np2 w pc2 in raceReplace peer np1 np2 sched w pc1 pc2
  end.

(** Alone, the accesses are [ReplaceParent]. *)
Lemma replace_alone peer np1 np2 w pc2 :
  raceReplace peer np1 np2 (replicate 4 false) w RpRead pc2 = (Peer_ReplaceParent w peer np1, RpDone, pc2).
Proof.
  unfold Peer_ReplaceParent. simpl. destruct (Peer_GetParent w peer), np1; reflexivity.
Qed.

(** ** Two removals of one link *)

(** Removing a child that is not there changes the load alone. *)
Lemma deleteChild_again w q p :
  alive w q → Peer_GetChildren w q !! peer_ID (getPeer w p) = None →
  w_peerHeap (Peer_deleteChild w q p) = w_peerHeap w ∧
  host_CurrentUploadLoad (getHost (Peer_deleteChild w q p) (peer_Host (getPeer w q))) =
    uint32 (host_CurrentUploadLoad (getHost w (peer_Host (getPeer w q))) - 1).
Proof.
  intros [x Hx] Hc. unfold Peer_deleteChild, Task_UpdatePeer. split.
  - assert (getPeer w q = x) as Hg by (unfold getPeer; by rewrite Hx).
    simpl. unfold Peer_GetChildren in Hc. rewrite Hg in *. rewrite delete_id by done.
    apply insert_id. rewrite Hx. by destruct x.
  - by autorewrite with heap.
Qed.

Lemma SetParent_again w p np :
  alive w p → Peer_GetParent w p = np → w_peerHeap (Peer_SetParent w p np) = w_peerHeap w.
Proof.
  intros [x Hx] <-. unfold Peer_GetParent, getPeer. rewrite Hx. simpl. unfold getPeer. rewrite Hx.
  apply insert_id. rewrite Hx. by destruct x.
Qed.

(** A collection and a worker that both take a peer away from its parent, both
    having read the parent before either changed it, decrement the load of the
    parent's host twice: it ends below the number of its uploads, and wraps
    around to [2^32 - 1] when there is no other upload. *)
Theorem racing_detach w p q :
  world_ok w → alive w p → alive w q → Peer_GetParent w p = Some q →
  let '(w', pc1, pc2) := raceReplace p None None [false; true; false; false; true; true] w RpRead RpRead in
  let h := peer_Host (getPeer w q) in
  pc1 = RpDone ∧ pc2 = RpDone ∧
  host_CurrentUploadLoad (getHost w' h) = uint32 (uploads w' h - 1).
Proof.
  intros Hok Hp Hq Hpar. simpl. rewrite Hpar. simpl. split; [done|]. split; [done|].
  destruct (world_ok_ReplaceParent w p None Hok Hp) as [Hok1 Hal1]; [done|].
  assert (Peer_ReplaceParent w p None = Peer_SetParent (Peer_deleteChild w q p) p None) as Heq
    by (unfold Peer_ReplaceParent; by rewrite Hpar).
  pose proof (Peer_ReplaceParent_GetChildren w p None q) as Hch. unfold detach in Hch.
  rewrite Hpar in Hch. rewrite decide_False, decide_True in Hch by done.
  pose proof (Peer_ReplaceParent_ID w p None p) as Hid.
  pose proof (Peer_ReplaceParent_Host w p None q) as Hh.
  pose proof (Peer_ReplaceParent_GetParent w p None p) as Hnp. rewrite decide_True in Hnp by done.
  rewrite <-Heq in *. set (w1 := Peer_ReplaceParent w p None) in *.
  destruct (deleteChild_again w1 q p) as [Hheap Hload]; [by apply Hal1| |].
  { rewrite Hch, Hid. apply lookup_delete_eq. }
  assert (w_peerHeap (Peer_SetParent (Peer_deleteChild w1 q p) p None) = w_peerHeap w1) as Hheap'.
  { rewrite <-Hheap. apply SetParent_again; [|by unfold Peer_GetParent, getPeer; rewrite Hheap].
    unfold alive. rewrite Hheap. by apply Hal1. }
  unfold uploads. rewrite Hheap'. fold (uploads w1 (peer_Host (getPeer w q))).
  rewrite Hh in Hload. rewrite <-(proj1 (load_exact w1 _ Hok1)). exact Hload.
Qed.

(** The first state of the demo: the seed uploads to [a] alone. *)
Definition demoRaced : World :=
  (raceReplace peerA None None [false; true; false; false; true; true] demo RpRead RpRead).1.1.

Lemma racing_detach_example :
  host_CurrentUploadLoad (hostOf demoRaced seed) = 2 ^ 32 - 1 ∧
  uploads demoRaced (peer_Host (getPeer demo seed)) = 0.
Proof. split; vm_compute; reflexivity. Qed.

(** ** A choice that is out of date *)

(** [a] and the seed have left; [b] has two pieces, [c] one. *)
Definition demoStale : World := Peer_Leave (Peer_Leave demo seed) peerA.

Lemma keeps_Leave w p : world_ok w → alive w p → keeps w (Peer_Leave w p).
Proof. intros Hok Hp. by apply keeps_updPeer. Qed.

Lemma demoStale_ok : world_ok demoStale.
Proof.
  assert (keeps demo (Peer_Leave demo seed)) as H by (apply keeps_Leave; [exact demo_ok|is_alive]).
  apply (keeps_Leave _ peerA (proj1 H)). apply H. is_alive.
Qed.

(** A goroutine selects [b] as the parent of [c], which has fewer pieces, and
    is stopped before it changes the link.  A worker then hears that [c] has
    three pieces and moves [b] below [c].  When the first goroutine goes on,
    [b] and [c] are each other's parents, and the walks up the tree do not
    return. *)
Theorem stale_choice_closes_cycle :
  let w1 := Peer_UpdateProgress demoStale peerC 3 1 in
  let w2 := Peer_ReplaceParent w1 peerB (Some peerC) in
  let w3 := Peer_ReplaceParent w2 peerC (Some peerB) in
  world_ok demoStale ∧
  @ScheduleParent demoScheduler demoStale peerC ∅ =
    Ok (Peer_ReplaceParent demoStale peerC (Some peerB), Some (peerB, [])) ∧
  @ScheduleParent demoScheduler w1 peerB ∅ = Ok (w2, Some (peerC, [])) ∧
  ¬ acyclic w3 ∧ Peer_GetRoot w3 peerB = Diverge.
Proof.
  intros w1 w2 w3. split; [exact demoStale_ok|].
  split; [vm_compute; reflexivity|]. split; [vm_compute; reflexivity|].
  split; [|vm_compute; reflexivity].
  assert (Peer_GetParent w3 peerB = Some peerC ∧ Peer_GetParent w3 peerC = Some peerB) as [HB HC]
    by (split; vm_compute; reflexivity).
  intros Hac. apply (Hac peerB). eapply tc_l, tc_once; [exact HB|exact HC].
Qed.
