(* ===== verification/SupervisorProperties.v ===== *)
(** * SupervisorProperties: peers, tasks and connections

    The order of the peers of a task, the protocol of a report stream, the
    accounting of back-to-source peers, and the collection of dead peers. *)

From S2P Require Import Prelude Containers World Supervisor PeerTree Managers Invariant Scheduler.
From S2P Require Import GoFloat Evaluator BasicScheduler Events EventsInvariant Service SeedTask.
From S2P Require Import System Demo.
From stdpp Require Import options.
Local Open Scope Z_scope.

(** ** The key of the peer list *)

(** The ranges in which the key does not overflow. *)
Definition sortable (w : World) (p : PeerRef) : Prop :=
  0 <= peer_TotalPieceCount (getPeer w p) <= 429495 ∧ 0 <= Peer_getFreeLoad w p < HostMaxLoad.

Lemma sortable_value w p :
  sortable w p →
  Peer_SortedValue w p = peer_TotalPieceCount (getPeer w p) * 5000 +
    (if host_IsCDN (hostOf w p) then 0 else Peer_getFreeLoad w p).
Proof.
  unfold sortable, Peer_SortedValue. change HostMaxLoad with 5000. intros [Hc Hf].
  rewrite (int32_small (peer_TotalPieceCount (getPeer w p) * 5000)) by lia.
  case_match; [lia|]. by rewrite int32_small by lia.
Qed.

(** within range, the peers of a task are ordered by their pieces first;
    among peers with the same pieces a CDN peer comes first (the lowest
    priority) and the others by their free upload load. *)
Theorem SortedValue_lexicographic w p q :
  sortable w p → sortable w q →
  (peer_TotalPieceCount (getPeer w p) < peer_TotalPieceCount (getPeer w q) →
     Peer_SortedValue w p < Peer_SortedValue w q) ∧
  (peer_TotalPieceCount (getPeer w p) = peer_TotalPieceCount (getPeer w q) →
   host_IsCDN (hostOf w q) = false →
   (host_IsCDN (hostOf w p) = true → Peer_SortedValue w p <= Peer_SortedValue w q) ∧
   (host_IsCDN (hostOf w p) = false →
      Peer_SortedValue w p < Peer_SortedValue w q ↔ Peer_getFreeLoad w p < Peer_getFreeLoad w q)).
Proof.
  intros Hp Hq. rewrite !sortable_value by done. unfold sortable in *. change HostMaxLoad with 5000 in *.
  split; [intros Hlt; repeat case_match; lia|]. intros Heq Hcdn. rewrite Hcdn, Heq.
  split; intros ->; lia.
Qed.

Lemma SortedValue_lexicographic_witness :
  Peer_SortedValue demo peerC < Peer_SortedValue demo seed.
Proof.
  destruct (SortedValue_lexicographic demo peerC seed) as [Hlt _];
    [vm_compute; split; split; congruence..|]. by apply Hlt; vm_compute.
Defined.

(** Out of range the key overflows: a peer with more pieces than another
    comes before it in the list. *)
Theorem SortedValue_overflows :
  let w := updPeer (set_peer_TotalPieceCount 429497) peerA demo in
  peer_TotalPieceCount (getPeer w peerB) < peer_TotalPieceCount (getPeer w peerA) ∧
  Peer_SortedValue w peerA < 0 < Peer_SortedValue w peerB.
Proof. vm_compute. done. Qed.

(** ** The report stream *)

(** What happens to a channel: the steps of its goroutines, [Close], also with
    an error, and [Send]. *)
Inductive ChannelOp :=
  | OpStep (s : ChannelStep)
  | OpClose (err : option GoError)
  | OpSend (p : PeerPacket).

(** The channel, and the packets whose [Send] returned nil. *)
Definition channelOp (s : Channel * list PeerPacket) (op : ChannelOp) : Channel * list PeerPacket :=
  let '(c, accepted) := s in
  match op with
  | OpStep s => (Channel_step s c, accepted)
  | OpClose err => (Channel_Close (match err with Some e => set_ch_err (Some e) c | None => c end), accepted)
  | OpSend p =>
      match Channel_Send c p with
      | (c, None) => (c, accepted ++ [p])
      | (c, Some _) => (c, accepted)
      end
  end.

Definition runChannel (ops : list ChannelOp) : Channel * list PeerPacket := foldl channelOp (newChannel, []) ops.

(** [lost] is the packet that went down with the send loop. *)
Definition channel_inv (s : Channel * list PeerPacket) : Prop :=
  let '(c, accepted) := s in
  (ch_ready c = true → ch_sending c = true ∧ ch_done c = false ∧ ch_packet c = None) ∧
  (ch_packet c ≠ None → ch_sending c = true) ∧
  ∃ lost, accepted = ch_sent c ++ option_list (ch_packet c) ++ option_list lost ∧
    (lost ≠ None → ch_sending c = false ∧ ch_closed c = true ∧ ch_err c ≠ None).

Lemma channel_inv_frame c c' accepted :
  channel_inv (c, accepted) →
  ch_sending c' = ch_sending c → ch_packet c' = ch_packet c → ch_sent c' = ch_sent c →
  (ch_closed c = true → ch_closed c' = true) → (ch_err c ≠ None → ch_err c' ≠ None) →
  (ch_ready c' = true → ch_done c' = false ∧ (ch_ready c = true ∨ ch_packet c = None ∧ ch_sending c = true)) →
  channel_inv (c', accepted).
Proof.
  intros (Hr & Hp & lost & Ha & Hl) E1 E2 E3 Hc He Hrd. unfold channel_inv. rewrite E1, E2, E3.
  split; [|split; [done|]].
  - intros Hr'. destruct (Hrd Hr') as [Hd [H|H]]; [|naive_solver]. destruct (Hr H) as (?&?&?). done.
  - exists lost. split; [done|]. intros (?&?&?)%Hl. auto.
Qed.

Lemma Channel_Close_inv c accepted : channel_inv (c, accepted) → channel_inv (Channel_Close c, accepted).
Proof.
  intros H. unfold Channel_Close. destruct (ch_closed c) eqn:Hc; [done|].
  apply (channel_inv_frame c); try done. intros Hr. simpl in *. destruct H as (H & _). naive_solver.
Qed.

Lemma set_ch_err_inv c e accepted : channel_inv (c, accepted) → channel_inv (set_ch_err (Some e) c, accepted).
Proof.
  intros H. apply (channel_inv_frame c); try done. intros Hr. simpl in *. destruct H as (H & _). naive_solver.
Qed.

Lemma Channel_step_inv st c accepted : channel_inv (c, accepted) → channel_inv (Channel_step st c, accepted).
Proof.
  intros H. destruct st as [| |err| |[e|]]; cbn [Channel_step].
  - destruct (ch_closed c) eqn:Hc; [|done]. by apply (channel_inv_frame c).
  - destruct (ch_packet c) eqn:Hp; [done|]. destruct (ch_done c) eqn:Hd; [done|].
    destruct (ch_sending c) eqn:Hs; [|done]. apply (channel_inv_frame c); try done. intros _. by auto.
  - destruct (ch_packet c) as [p|] eqn:Hp; [|done]. destruct H as (Hr & Hps & lost & -> & Hl).
    rewrite Hp in *. assert (ch_sending c = true) as Hs by (by apply Hps).
    assert (lost = None) as -> by (destruct lost; [|done]; destruct Hl as [? _]; [done|congruence]).
    assert (ch_ready c = false) as Hrd by (destruct (ch_ready c); naive_solver).
    destruct err as [e|].
    + assert (channel_inv (set_ch_closed true (set_ch_sending false (set_ch_packet None (set_ch_err (Some e) c))),
        ch_sent c ++ option_list (Some p) ++ option_list None)) as Hinv.
      { split; [simpl; congruence|]. split; [done|]. by exists (Some p). }
      unfold Channel_Close. case_match; [|exact Hinv]. destruct c; simpl in *. by subst.
    + split; [simpl; congruence|]. split; [done|]. exists None. split; [|done]. simpl. by rewrite !app_nil_r.
  - destruct (ch_packet c) eqn:Hp; [done|]. destruct (ch_done c) eqn:Hd; [|done]. apply Channel_Close_inv.
    destruct H as (Hr & _ & lost & -> & Hl). split; [|split; [done|]].
    + simpl. intros (_ & Hd' & _)%Hr. congruence.
    + exists lost. simpl. split; [by rewrite Hp|]. naive_solver.
  - by apply Channel_Close_inv, set_ch_err_inv.
  - by apply Channel_Close_inv.
Qed.

Lemma channelOp_inv s op : channel_inv s → channel_inv (channelOp s op).
Proof.
  destruct s as [c acc]. intros H. destruct op as [st|[e|]|p]; cbn [channelOp].
  - by apply Channel_step_inv.
  - by apply Channel_Close_inv, set_ch_err_inv.
  - by apply Channel_Close_inv.
  - unfold Channel_Send. destruct (ch_done c) eqn:Hd; [done|]. destruct (ch_ready c) eqn:Hr; [|done].
    destruct H as (Hrd & _ & lost & -> & Hl). destruct (Hrd Hr) as (Hs & _ & Hp). rewrite Hp.
    assert (lost = None) as -> by (destruct lost; [|done]; destruct Hl as [? _]; [done|congruence]).
    split; [done|]. split; [done|]. exists None. split; [|done]. simpl. by rewrite !app_nil_r.
Qed.

Lemma runChannel_inv ops : channel_inv (runChannel ops).
Proof.
  unfold runChannel. assert (channel_inv (newChannel, [])) as H.
  { split; [done|]. split; [done|]. by exists None. }
  revert H. generalize (newChannel, @nil PeerPacket). induction ops as [|op ops IH]; intros s Hs; simpl; [done|].
  by apply IH, channelOp_inv.
Qed.

(** C37: whatever the interleaving of the goroutines of a report stream with its
    callers, the packets whose [Send] returned nil reach the stream in their
    order and once: those that [stream.Send] took are a prefix of them, and
    besides the packet that the send loop is sending at most one is missing,
    the last, whose [stream.Send] failed; then the loop is over, and the channel
    closed with an error. *)
Theorem channel_delivers ops :
  let '(c, accepted) := runChannel ops in
  ∃ missing, accepted = ch_sent c ++ missing ∧ (length missing ≤ 1)%nat ∧
    (ch_packet c = None → missing ≠ [] → ch_sending c = false ∧ ch_closed c = true ∧ ch_err c ≠ None) ∧
    (∀ p, ch_packet c = Some p → missing = [p] ∧ ch_sending c = true).
Proof.
  pose proof (runChannel_inv ops) as Hinv. destruct (runChannel ops) as [c accepted].
  destruct Hinv as (_ & Hp & lost & -> & Hl). eexists. split; [done|].
  destruct (ch_packet c) as [p|].
  - assert (lost = None) as ->.
    { destruct lost; [|done]. destruct Hl as [Hs _]; [done|]. by rewrite Hp in Hs. }
    split; [done|]. split; [done|]. intros q [= ->]. auto.
  - destruct lost; (split; [simpl; lia|]); split; try done; naive_solver.
Qed.

(** A packet that was accepted is lost when the stream breaks under it. *)
Lemma channel_last_lost p q e :
  let '(c, accepted) := runChannel [OpStep SendLoopPark; OpSend p; OpStep (SendLoopSend None);
    OpStep SendLoopPark; OpSend q; OpStep (SendLoopSend (Some e))] in
  accepted = [p; q] ∧ ch_sent c = [p] ∧ ch_packet c = None ∧ ch_closed c = true.
Proof. done. Qed.

(** ** Back-to-source peers *)

Section BackToSource.
Implicit Types (w : World) (t : TaskRef) (p : PeerRef).

(** The account of a task: the peers told to go to the source and the orders
    still allowed sum up to [k]. *)
Definition account w t (k : Z) : Prop :=
  NoDup (Task_GetBackToSourcePeers w t) ∧ 0 <= task_BackToSourceWeight (getTask w t) < 2 ^ 31 ∧
  task_BackToSourceWeight (getTask w t) + Z.of_nat (length (Task_GetBackToSourcePeers w t)) = k.

Lemma ContainsBackToSourcePeer_spec w t id :
  Task_ContainsBackToSourcePeer w t id = true ↔ id ∈ Task_GetBackToSourcePeers w t.
Proof.
  unfold Task_ContainsBackToSourcePeer, Task_GetBackToSourcePeers.
  rewrite existsb_exists. setoid_rewrite bool_decide_eq_true. setoid_rewrite <-list_elem_of_In.
  naive_solver.
Qed.

Lemma AddBackToSourcePeer_account w t id k :
  account w t k → account (Task_AddBackToSourcePeer w t id) t k.
Proof.
  intros (Hnd & Hw & Hk). unfold Task_AddBackToSourcePeer.
  destruct (Task_ContainsBackToSourcePeer w t id) eqn:Hc; [done|].
  destruct (_ <=? 0) eqn:H0; [done|]. zbool. unfold account, Task_GetBackToSourcePeers in *.
  rewrite getTask_updTask_eq. simpl. rewrite int32_small by lia. split_and!.
  - apply NoDup_app. split; [done|]. split; [|apply NoDup_singleton].
    intros x Hx ->%list_elem_of_singleton.
    by apply (ContainsBackToSourcePeer_spec w t id) in Hx; rewrite Hc in Hx.
  - lia.
  - lia.
  - rewrite length_app. simpl. lia.
Qed.

(** The connection of a peer was closed with the order to go to the source. *)
Definition orderedBack w p : Prop :=
  ∃ c msg, Peer_getConn w p = Some c ∧ ch_closed (getChan w c) = true ∧
    ch_err (getChan w c) = Some (DfError Code_SchedNeedBackSource msg).

(** What the loop over the peers keeps, and whom it orders. *)
Record ordered (l : list PeerRef) w w' t : Prop := {
  ord_conn : ∀ p, Peer_getConn w' p = Peer_getConn w p;
  ord_ID : ∀ p, peer_ID (getPeer w' p) = peer_ID (getPeer w p);
  ord_more : ∀ id, id ∈ Task_GetBackToSourcePeers w t → id ∈ Task_GetBackToSourcePeers w' t;
  ord_less : Task_CanBackToSource w t = false → Task_CanBackToSource w' t = false;
  ord_back : ∀ p, orderedBack w p → orderedBack w' p;
  ord_new : ∀ id, id ∈ Task_GetBackToSourcePeers w' t →
    id ∈ Task_GetBackToSourcePeers w t ∨ ∃ p, p ∈ l ∧ peer_ID (getPeer w p) = id ∧ orderedBack w' p;
}.

Lemma ordered_refl w t : ordered [] w w t.
Proof. split; auto. Qed.

Lemma CloseChannel_orders w p c msg :
  Peer_getConn w p = Some c →
  let w1 := (Peer_CloseChannelWithError w p (DfError Code_SchedNeedBackSource msg)).1 in
  orderedBack w1 p ∧ ∀ q, orderedBack w q → orderedBack w1 q.
Proof.
  intros Hc. unfold Peer_CloseChannelWithError. rewrite Hc. simpl.
  assert (∀ x, ch_closed (Channel_Close x) = true ∧ ch_err (Channel_Close x) = ch_err x) as Hcl.
  { intros x. unfold Channel_Close. by destruct (ch_closed x) eqn:?. }
  assert (∀ q d, Peer_getConn w q = Some d → d = c ∨ orderedBack w q →
    orderedBack (updChan (λ x, Channel_Close (set_ch_err (Some (DfError Code_SchedNeedBackSource msg)) x)) c w) q) as Hq.
  { intros q d Hd Ho. destruct (decide (c = d)) as [<-|Hne].
    - exists c, msg. split; [exact Hd|]. rewrite getChan_updChan, decide_True by done. by destruct (Hcl (set_ch_err (Some (DfError Code_SchedNeedBackSource msg)) (getChan w c))) as [-> ->].
    - destruct Ho as [->|(d' & m & Hd' & Ho)]; [done|]. exists d', m. split; [exact Hd'|].
      rewrite getChan_updChan, decide_False; [exact Ho|congruence]. }
  split; [by eapply Hq; [|left]|]. intros q Ho. pose proof Ho as (d & m & Hd & _). eapply Hq; [exact Hd|by right].
Qed.

Lemma orderBackSource_ordered w p t msg k :
  account w t k → Task_CanBackToSource w t = true →
  let w' := orderBackSource w p t (DfError Code_SchedNeedBackSource msg) in
  account w' t k ∧ ordered [p] w w' t ∧
  (Peer_getConn w p ≠ None → peer_ID (getPeer w p) ∈ Task_GetBackToSourcePeers w' t).
Proof.
  intros Hacc Hcan. unfold orderBackSource.
  destruct (Peer_getConn w p) as [c|] eqn:Hc; unfold Peer_CloseChannelWithError; rewrite Hc.
  2: { split; [done|]. split; [split; auto|by intros []]. }
  pose proof (CloseChannel_orders w p c msg Hc) as Hback. unfold Peer_CloseChannelWithError in Hback.
  rewrite Hc in Hback. cbn [fst] in Hback. destruct Hback as [Hp Hback].
  set (w1 := updChan _ c w) in *. assert (account w1 t k) as Hacc1 by done.
  split; [by apply AddBackToSourcePeer_account|].
  unfold Task_AddBackToSourcePeer. destruct (Task_ContainsBackToSourcePeer w1 t _) eqn:Hin.
  { split; [split; auto|]. intros _. by apply (ContainsBackToSourcePeer_spec w t). }
  unfold Task_CanBackToSource in Hcan. change (getTask w1 t) with (getTask w t).
  destruct (_ <=? 0) eqn:H0; zbool; [lia|]. unfold Task_GetBackToSourcePeers.
  split; [split; [done|done| | |done|]|].
  - intros id. unfold Task_GetBackToSourcePeers. rewrite getTask_updTask_eq. simpl. set_solver.
  - unfold Task_CanBackToSource. intros Hf. zbool. lia.
  - intros id. unfold Task_GetBackToSourcePeers. rewrite getTask_updTask_eq. simpl.
    intros [Hid|Hid]%elem_of_app; [by left|]. apply list_elem_of_singleton in Hid as ->.
    right. exists p. split; [by left|done].
  - intros _. rewrite getTask_updTask_eq. simpl. set_solver.
Qed.

Lemma ordered_trans l1 l2 w1 w2 w3 t : ordered l1 w1 w2 t → ordered l2 w2 w3 t → ordered (l1 ++ l2) w1 w3 t.
Proof.
  intros [Hc Hi Hm Hl Hb Hn] [Hc' Hi' Hm' Hl' Hb' Hn']. split; [| |by auto..|].
  - intros p. by rewrite Hc'.
  - intros p. by rewrite Hi'.
  - intros id [[Hid|(p & Hp & Hpi & Ho)]%Hn|(p & Hp & Hpi & Ho)]%Hn'; [by left|right; exists p..].
    + split; [apply elem_of_app; by left|]. auto.
    + split; [apply elem_of_app; by right|]. by rewrite <-Hi.
Qed.

Definition seedFailVisit t (w : World) (peer : PeerRef) : Outcome (World * bool) :=
  if Task_CanBackToSource w t then
    Ok (if negb (Task_ContainsBackToSourcePeer w t (peer_ID (getPeer w peer)))
        then orderBackSource w peer t (seedFailBackSource w peer) else w, true)
  else Ok (w, false).

Lemma seedFail_loop t k l w :
  account w t k →
  ∃ w', sortedList_Range (seedFailVisit t) l w = Ok w' ∧ account w' t k ∧ ordered l w w' t ∧
    ∀ p, p ∈ l → Peer_getConn w p ≠ None →
      peer_ID (getPeer w p) ∈ Task_GetBackToSourcePeers w' t ∨ Task_CanBackToSource w' t = false.
Proof.
  revert w. induction l as [|p l IH]; intros w Hacc; simpl.
  { exists w. split; [done|]. split; [done|]. split; [apply ordered_refl|]. intros p Hp. by apply elem_of_nil in Hp. }
  destruct (Task_CanBackToSource w t) eqn:Hcan.
  2: { exists w. split; [unfold seedFailVisit; by rewrite Hcan|]. split; [done|].
       split; [split; auto|by right]. }
  set (w1 := if negb (Task_ContainsBackToSourcePeer w t (peer_ID (getPeer w p)))
             then orderBackSource w p t (seedFailBackSource w p) else w).
  assert (seedFailVisit t w p = Ok (w1, true)) as -> by (unfold seedFailVisit; by rewrite Hcan).
  simpl.
  assert (account w1 t k ∧ ordered [p] w w1 t ∧ (Peer_getConn w p ≠ None →
    peer_ID (getPeer w p) ∈ Task_GetBackToSourcePeers w1 t)) as (Hacc1 & Hord1 & Hin1).
  { subst w1. destruct (Task_ContainsBackToSourcePeer w t _) eqn:Hc; simpl.
    - split; [done|]. split; [split; auto|]. intros _. by apply ContainsBackToSourcePeer_spec.
    - by apply orderBackSource_ordered. }
  destruct (IH w1 Hacc1) as (w2 & -> & Hacc2 & Hord2 & Hl). exists w2.
  split; [done|]. split; [done|]. split; [by apply (ordered_trans [p] l w w1 w2)|].
  intros q [->|Hq]%elem_of_cons Hconn.
  - left. apply (ord_more _ _ _ _ Hord2). auto.
  - rewrite <-(ord_ID _ _ _ _ Hord1). apply Hl; [done|]. by rewrite (ord_conn _ _ _ _ Hord1).
Qed.

(** C30: when the CDN fails to seed a task that may go back to the source, the
    handler returns, the number of back-to-source peers and the orders still
    allowed keep their sum and stay in range, and no peer is counted twice.
    Every peer of the task with a connection is counted, unless the orders are
    used up; and whoever is counted anew is a peer of the task whose connection
    was closed with the code that orders it back to the source. *)
Theorem seedFail_back_to_source `{S : !Scheduler} order w t k :
  account w t k → Task_CanBackToSource w t = true →
  ∃ w', event_apply order w (taskSeedFailEvent t) = Ok w' ∧ account w' t k ∧
    (∀ p, p ∈ ul_container (Task_GetPeers w t) → Peer_getConn w p ≠ None →
      peer_ID (getPeer w p) ∈ Task_GetBackToSourcePeers w' t ∨ Task_CanBackToSource w' t = false) ∧
    ∀ id, id ∈ Task_GetBackToSourcePeers w' t →
      id ∈ Task_GetBackToSourcePeers w t ∨
      ∃ p, p ∈ ul_container (Task_GetPeers w t) ∧ peer_ID (getPeer w p) = id ∧ orderedBack w' p.
Proof.
  intros Hacc Hcan. cbn [event_apply]. unfold handleCDNSeedTaskFail, sortedUniqueList_Range.
  rewrite Hcan. destruct (seedFail_loop t k (ul_container (Task_GetPeers w t)) w Hacc)
    as (w' & Hr & Hacc' & Hord & Hl).
  exists w'. split; [exact Hr|]. split; [done|]. split; [done|]. apply Hord.
Qed.

Lemma seedFail_back_to_source_witness :
  let w := updTask (set_task_BackToSourceWeight 2) demoTask demo in
  ∃ w', event_apply (S := demoScheduler) [] w (taskSeedFailEvent demoTask) = Ok w' ∧
    account w' demoTask 2 ∧ Task_GetBackToSourcePeers w' demoTask = ["c"%string; "b"%string].
Proof.
  intros w. destruct (seedFail_back_to_source (S := demoScheduler) [] w demoTask 2) as (w' & Hw & Hacc & _).
  - split; [apply (bool_decide_eq_true_1 (NoDup _)); by vm_compute|].
    split; [split; [by vm_compute|by vm_compute]|by vm_compute].
  - by vm_compute.
  - exists w'. split; [done|]. split; [done|].
    assert ((λ o, match o with Ok w => Task_GetBackToSourcePeers w demoTask | _ => [] end)
      (event_apply (S := demoScheduler) [] w (taskSeedFailEvent demoTask)) =
      ["c"%string; "b"%string]) as Hb by by vm_compute.
    by rewrite Hw in Hb.
Defined.

End BackToSource.

(** ** Collection *)

(** one pass of the peer collection, visiting the registry in any order,
    removes exactly the visited peers that have left, failed, been idle for
    longer than the TTL, or been idle for longer than the TTI while running on
    a client without a live connection; every other peer stays registered. *)
Theorem peer_RunGC_exact peerTTL peerTTI w order id p :
  registry_inj w → NoDup order → w_peers w !! id = Some p →
  w_peers (peerManager_RunGC peerTTL peerTTI w order) !! id =
  if decide (id ∈ order) then (if gc_dead peerTTL peerTTI w p then None else Some p) else Some p.
Proof. apply RunGC_invariant. Qed.

Lemma peer_RunGC_exact_witness :
  let w := Peer_Leave demo peerC in
  w_peers (peerManager_RunGC 1000 100 w ["c"; "b"; "a"]%string) !! "c"%string = None ∧
  w_peers (peerManager_RunGC 1000 100 w ["c"; "b"; "a"]%string) !! "a"%string = Some peerA.
Proof.
  intros w. assert (registry_inj w) as Hinj.
  { assert (∀ id p, w_peers w !! id = Some p → peer_ID (getPeer w p) = id) as Hid.
    { apply (bool_decide_eq_true_1 (map_Forall (λ id p, peer_ID (getPeer w p) = id) (w_peers w))).
      by vm_compute. }
    intros i j p Hi%Hid Hj%Hid. congruence. }
  assert (NoDup ["c"; "b"; "a"]%string) as Hnd by (apply (bool_decide_eq_true_1 (NoDup _)); by vm_compute).
  split.
  - rewrite (peer_RunGC_exact 1000 100 w _ "c" peerC); [by vm_compute|done|done|by vm_compute].
  - rewrite (peer_RunGC_exact 1000 100 w _ "a" peerA); [by vm_compute|done|done|by vm_compute].
Defined.
