(* ===== verification/FileSystem.v ===== *)
(** * FileSystem: what the storage code uses of Go's os and io packages

    A file system of directories, regular files (by inode, so that hard links
    share their data and an open file survives its removal) and symbolic
    links, with the calls the storage of the client and of the CDN makes.  Paths are the lists of
    their elements; the errors are those of a missing, existing or non-empty
    target, a disk never fails otherwise. *)

From S2P Require Import Prelude.
From stdpp Require Import options.
Local Open Scope Z_scope.

Notation byte := Byte.byte.
Notation fpath := (list string) (only parsing).
Notation inode := positive (only parsing).

Inductive IOError :=
  | ENOENT
  | EEXIST
  | ENOTEMPTY
  | EISDIR
  | ENOTDIR
  | EINVAL
  | EBADF
  | EXDEV
  | ELOOP.

#[export] Instance IOError_eq_dec : EqDecision IOError.
Proof. solve_decision. Defined.

Inductive Node :=
  | NodeDir
  | NodeFile (ino : inode)
  | NodeSymlink (dest : fpath).

#[export] Instance Node_eq_dec : EqDecision Node.
Proof. solve_decision. Defined.

Record FS := mkFS {
  fs_nodes : gmap fpath Node;
  fs_data : gmap inode (list byte);
  fs_next : inode;
}.

Definition set_fs_nodes (v : gmap fpath Node) (fs : FS) : FS :=
  mkFS v (fs_data fs) (fs_next fs).
Definition set_fs_data (v : gmap inode (list byte)) (fs : FS) : FS :=
  mkFS (fs_nodes fs) v (fs_next fs).

(** ** Files *)

Definition fileData (fs : FS) (ino : inode) : list byte := default [] (fs_data fs !! ino).

(** Bytes written at an offset; a gap before it reads as zeros.  Without bytes
    nothing is written. *)
Definition splice (data : list byte) (off : nat) (bs : list byte) : list byte :=
  match bs with
  | [] => data
  | _ => take off data ++ replicate (off - length data) Byte.x00 ++ bs ++ drop (off + length bs) data
  end.

Definition writeAt (fs : FS) (ino : inode) (off : nat) (bs : list byte) : FS :=
  set_fs_data (<[ino := splice (fileData fs ino) off bs]> (fs_data fs)) fs.

Definition readAt (fs : FS) (ino : inode) (off n : nat) : list byte :=
  take n (drop off (fileData fs ino)).

(** ** Names *)

Definition os_Lstat (fs : FS) (p : fpath) : option Node := fs_nodes fs !! p.

(** The file a name stands for: symbolic links are followed, forty at most. *)
Fixpoint follow (fuel : nat) (fs : FS) (p : fpath) : option (fpath * Node) :=
  match os_Lstat fs p with
  | Some (NodeSymlink dest) =>
      match fuel with O => None | S fuel => follow fuel fs dest end
  | Some n => Some (p, n)
  | None => None
  end.

Definition os_Stat (fs : FS) (p : fpath) : option Node := snd <$> follow 40 fs p.

(** [os.Open] and [os.OpenFile] with [O_RDWR]: the open file. *)
Definition os_Open (fs : FS) (p : fpath) : IOError + inode :=
  match os_Stat fs p with
  | Some (NodeFile ino) => inr ino
  | Some _ => inl EISDIR
  | None => inl ENOENT
  end.

Definition parentIsDir (fs : FS) (p : fpath) : bool :=
  match os_Stat fs (removelast p) with Some NodeDir => true | _ => false end.

Definition addFile (fs : FS) (p : fpath) : FS :=
  mkFS (<[p := NodeFile (fs_next fs)]> (fs_nodes fs)) (<[fs_next fs := []]> (fs_data fs))
    (Pos.succ (fs_next fs)).

(** The name that is created through [p]: the last one of a chain of links. *)
Fixpoint linkTarget (fuel : nat) (fs : FS) (p : fpath) : option fpath :=
  match os_Lstat fs p with
  | Some (NodeSymlink dest) =>
      match fuel with O => None | S fuel => linkTarget fuel fs dest end
  | _ => Some p
  end.

(** [os.OpenFile] with [O_CREATE]. *)
Definition os_OpenCreate (fs : FS) (p : fpath) : FS * (IOError + inode) :=
  match os_Stat fs p with
  | Some (NodeFile ino) => (fs, inr ino)
  | Some _ => (fs, inl EISDIR)
  | None =>
      match linkTarget 40 fs p with
      | Some q => if parentIsDir fs q then (addFile fs q, inr (fs_next fs)) else (fs, inl ENOENT)
      | None => (fs, inl ELOOP)
      end
  end.

Definition truncate (fs : FS) (ino : inode) : FS :=
  set_fs_data (<[ino := []]> (fs_data fs)) fs.

(** The names in a directory, sorted. *)
Definition entries (fs : FS) (dir : fpath) : list string :=
  merge_sort (λ a b, Is_true (String.leb a b)) $ omap (λ p, match last p with
             | Some name => if decide (removelast p = dir) then Some name else None
             | None => None
             end) (elements (dom (fs_nodes fs))).

Definition os_ReadDir (fs : FS) (dir : fpath) : IOError + list string :=
  match os_Stat fs dir with
  | Some NodeDir => inr (entries fs dir)
  | Some _ => inl ENOTDIR
  | None => inl ENOENT
  end.

Definition os_Remove (fs : FS) (p : fpath) : FS * option IOError :=
  match os_Lstat fs p with
  | None => (fs, Some ENOENT)
  | Some NodeDir =>
      if decide (entries fs p = []) then (set_fs_nodes (delete p (fs_nodes fs)) fs, None)
      else (fs, Some ENOTEMPTY)
  | Some _ => (set_fs_nodes (delete p (fs_nodes fs)) fs, None)
  end.

Definition os_Link (fs : FS) (old new : fpath) : FS * option IOError :=
  match os_Lstat fs old, os_Lstat fs new with
  | None, _ => (fs, Some ENOENT)
  | _, Some _ => (fs, Some EEXIST)
  | Some NodeDir, _ => (fs, Some EISDIR)
  | Some n, None =>
      if parentIsDir fs new then (set_fs_nodes (<[new := n]> (fs_nodes fs)) fs, None)
      else (fs, Some ENOENT)
  end.

Definition os_Symlink (fs : FS) (dest new : fpath) : FS * option IOError :=
  match os_Lstat fs new with
  | Some _ => (fs, Some EEXIST)
  | None =>
      if parentIsDir fs new then (set_fs_nodes (<[new := NodeSymlink dest]> (fs_nodes fs)) fs, None)
      else (fs, Some ENOENT)
  end.

(** [os.MkdirAll]: every missing directory on the way. *)
Fixpoint mkdirs (fs : FS) (done : fpath) (rest : list string) : FS * option IOError :=
  match rest with
  | [] => (fs, None)
  | name :: rest =>
      let p := done ++ [name] in
      match os_Stat fs p with
      | Some NodeDir => mkdirs fs p rest
      | Some _ => (fs, Some ENOTDIR)
      | None =>
          match os_Lstat fs p with
          | Some _ => (fs, Some EEXIST)
          | None => mkdirs (set_fs_nodes (<[p := NodeDir]> (fs_nodes fs)) fs) p rest
          end
      end
  end.

Definition os_MkdirAll (fs : FS) (p : fpath) : FS * option IOError := mkdirs fs [] p.

(** [os.OpenFile] with [O_CREATE|O_TRUNC], and [os.Create]. *)
Definition os_OpenTrunc (fs : FS) (p : fpath) : FS * (IOError + inode) :=
  match os_OpenCreate fs p with
  | (fs, inr ino) => (truncate fs ino, inr ino)
  | r => r
  end.

(** [file.Truncate(size)] *)
Definition truncateTo (fs : FS) (ino : inode) (size : nat) : FS :=
  let data := fileData fs ino in
  set_fs_data (<[ino := take size data ++ replicate (size - length data) Byte.x00]> (fs_data fs)) fs.

Definition isUnder (p q : fpath) : bool := bool_decide (p `prefix_of` q).

(** [os.RemoveAll]: no error when there is nothing to remove. *)
Definition os_RemoveAll (fs : FS) (p : fpath) : FS :=
  set_fs_nodes (filter (λ '(q, _), isUnder p q = false) (fs_nodes fs)) fs.

Definition os_Readlink (fs : FS) (p : fpath) : IOError + fpath :=
  match os_Lstat fs p with
  | Some (NodeSymlink dest) => inr dest
  | Some _ => inl EINVAL
  | None => inl ENOENT
  end.

(** [os.Rename] of a file or a link. *)
Definition os_Rename (fs : FS) (old new : fpath) : FS * option IOError :=
  match os_Lstat fs old with
  | None => (fs, Some ENOENT)
  | Some n =>
      if parentIsDir fs new then
        match os_Lstat fs new with
        | Some NodeDir => (fs, Some EEXIST)
        | _ => (set_fs_nodes (<[new := n]> (delete old (fs_nodes fs))) fs, None)
        end
      else (fs, Some ENOENT)
  end.

(** The size [Lstat] tells: of a link, the length of its text. *)
Definition lstatSize (fs : FS) (n : Node) : Z :=
  match n with
  | NodeDir => 4096
  | NodeFile ino => Z.of_nat (length (fileData fs ino))
  | NodeSymlink dest => Z.of_nat (sum_list (S ∘ String.length <$> dest))
  end.

(** [filepath.Walk]: the names below a root with what they are, the names of a
    directory in lexical order, after the directory. *)
Fixpoint pathLeb (p q : fpath) : bool :=
  match p, q with
  | [], _ => true
  | _, [] => false
  | x :: p, y :: q => if decide (x = y) then pathLeb p q else String.leb x y
  end.

Definition walk (fs : FS) (root : fpath) : list (fpath * Node) :=
  merge_sort (λ a b, Is_true (pathLeb a.1 b.1))
    (map_to_list (filter (λ '(q, _), isUnder root q = true) (fs_nodes fs))).

(** ** Streams: the readers *)

Section Streams.
Context {E : Type}.

(** The bytes a reader will deliver, and how it ends: [None] for io.EOF. *)
Record Stream := mkStream { s_data : list byte; s_err : option E }.

(** [io.Copy(dst, io.LimitReader(s, n))]: what is copied, what is left, and
    the error.  When the limit is reached the end of [s] is not seen. *)
Definition copyLimited (s : Stream) (n : Z) : list byte * Stream * option E :=
  let k := Z.to_nat n in
  (take k (s_data s), mkStream (drop k (s_data s)) (s_err s),
   if decide (k ≤ length (s_data s))%nat then None else s_err s).

End Streams.
Arguments Stream _ : clear implicits.
Arguments copyLimited : simpl never.
Arguments splice : simpl never.

(** ** Lemmas *)

Lemma fileData_writeAt fs ino off bs :
  fileData (writeAt fs ino off bs) ino = splice (fileData fs ino) off bs.
Proof. unfold fileData at 1, writeAt. simpl. by rewrite lookup_insert_eq. Qed.

Lemma fileData_writeAt_ne fs ino ino' off bs :
  ino ≠ ino' → fileData (writeAt fs ino off bs) ino' = fileData fs ino'.
Proof. intros. unfold fileData, writeAt. simpl. by rewrite lookup_insert_ne. Qed.

Lemma splice_eq data off bs : bs ≠ [] →
  splice data off bs =
    take off data ++ replicate (off - length data) Byte.x00 ++ bs ++ drop (off + length bs) data.
Proof. by destruct bs. Qed.

Lemma splice_length data off bs : bs ≠ [] →
  length (splice data off bs) = Nat.max (length data) (off + length bs).
Proof.
  intros. rewrite splice_eq by done.
  rewrite !length_app, length_take, length_replicate, length_drop. lia.
Qed.

(** The bytes written are read back. *)
Lemma read_splice data off bs : take (length bs) (drop off (splice data off bs)) = bs.
Proof.
  destruct (decide (bs = [])) as [->|Hne]; [done|].
  rewrite splice_eq, (assoc_L (++) (take _ _)) by done.
  assert (length (take off data ++ replicate (off - length data) Byte.x00) = off) as Hlen.
  { rewrite length_app, length_take, length_replicate. lia. }
  by rewrite drop_app_length', take_app_length by done.
Qed.

(** The bytes outside the range are the old ones. *)
Lemma lookup_splice_outside data off bs i :
  (i < length data)%nat → (i < off ∨ off + length bs ≤ i)%nat →
  splice data off bs !! i = data !! i.
Proof.
  intros Hi Ho. destruct (decide (bs = [])) as [->|Hne]; [done|]. rewrite splice_eq by done.
  destruct Ho as [Ho|Ho].
  - rewrite lookup_app_l by (rewrite length_take; lia). by apply lookup_take_lt.
  - rewrite (assoc_L (++) (take _ _)), (assoc_L (++) (take _ _ ++ _)).
    rewrite lookup_app_r by (rewrite !length_app, length_take, length_replicate; lia).
    rewrite lookup_drop. f_equal. rewrite !length_app, length_take, length_replicate. lia.
Qed.

Lemma read_splice_other data off bs off' n :
  (off' + n ≤ length data)%nat → (off' + n ≤ off ∨ off + length bs ≤ off')%nat →
  take n (drop off' (splice data off bs)) = take n (drop off' data).
Proof.
  intros Hlen Ho. apply list_eq. intros i.
  destruct (decide (i < n)%nat) as [Hi|Hi]; [|by rewrite !lookup_take_ge by lia].
  rewrite !lookup_take_lt, !lookup_drop by done. apply lookup_splice_outside; lia.
Qed.

(** Bytes written just behind the data are appended. *)
Lemma splice_append data bs : splice data (length data) bs = data ++ bs.
Proof.
  destruct (decide (bs = [])) as [->|Hne]; [by rewrite app_nil_r|]. rewrite splice_eq by done.
  rewrite take_ge, Nat.sub_diag, drop_ge by lia. simpl. by rewrite app_nil_r.
Qed.

Lemma copyLimited_enough {E} (s : Stream E) n :
  (Z.to_nat n ≤ length (s_data s))%nat →
  copyLimited s n = (take (Z.to_nat n) (s_data s),
                     mkStream (drop (Z.to_nat n) (s_data s)) (s_err s), None).
Proof. intros Hn. unfold copyLimited. by rewrite decide_True by done. Qed.

Lemma copyLimited_short {E} (s : Stream E) n :
  (length (s_data s) < Z.to_nat n)%nat →
  copyLimited s n = (s_data s, mkStream [] (s_err s), s_err s).
Proof.
  intros Hn. unfold copyLimited. rewrite decide_False by lia.
  by rewrite take_ge, drop_ge by lia.
Qed.

(** Writing in two parts. *)
Lemma splice_splice data off b1 b2 :
  splice (splice data off b1) (off + length b1) b2 = splice data off (b1 ++ b2).
Proof.
  destruct (decide (b1 = [])) as [->|H1]; [simpl; by rewrite Nat.add_0_r|].
  destruct (decide (b2 = [])) as [->|H2]; [by rewrite app_nil_r|].
  rewrite (splice_eq _ _ b2), (splice_eq _ _ (b1 ++ b2)) by (done || by destruct b1).
  set (d1 := splice data off b1).
  assert (length d1 = Nat.max (length data) (off + length b1)) as Hd1 by (by apply splice_length).
  assert ((off + length b1 - length d1)%nat = 0%nat) as -> by lia. simpl.
  assert (take (off + length b1) d1 =
    take off data ++ replicate (off - length data) Byte.x00 ++ b1) as ->.
  { unfold d1. rewrite splice_eq by done. rewrite !(assoc_L (++)). apply take_app_length'.
    rewrite !length_app, length_take, length_replicate. lia. }
  rewrite <-!(assoc_L (++)). rewrite length_app, Nat.add_assoc.
  do 3 f_equal. unfold d1. rewrite splice_eq by done. rewrite !(assoc_L (++)).
  rewrite drop_app_ge by (rewrite !length_app, length_take, length_replicate; lia).
  rewrite drop_drop. do 2 f_equal. rewrite !length_app, length_take, length_replicate. lia.
Qed.

(** Names do not depend on the data. *)
Lemma follow_nodes fuel fs fs' p :
  fs_nodes fs' = fs_nodes fs → follow fuel fs' p = follow fuel fs p.
Proof.
  intros Hn. revert p. induction fuel as [|fuel IH]; intros p; simpl; unfold os_Lstat;
    rewrite Hn; repeat case_match; simplify_eq; auto.
Qed.

Lemma os_Stat_nodes fs fs' p : fs_nodes fs' = fs_nodes fs → os_Stat fs' p = os_Stat fs p.
Proof. intros Hn. unfold os_Stat. by rewrite (follow_nodes _ fs). Qed.

Lemma os_Open_nodes fs fs' p : fs_nodes fs' = fs_nodes fs → os_Open fs' p = os_Open fs p.
Proof. intros Hn. unfold os_Open. by rewrite (os_Stat_nodes fs). Qed.

Lemma linkTarget_absent fuel fs p : os_Lstat fs p = None → linkTarget fuel fs p = Some p.
Proof. intros Hp. destruct fuel; simpl; by rewrite Hp. Qed.

Arguments follow : simpl never.
Arguments linkTarget : simpl never.
