(* ===== verification/LocalStorage.v ===== *)
(** * LocalStorage: client/daemon/storage/local_storage.go and metadata.go

    The store of one task of one peer in the client daemon: its data file, the
    metadata of its pieces, and their collection.  The operations take the
    file system and the clock and return them with the store; the locks make
    each of them one step, except that [WritePiece] releases its lock while it
    writes, which the theorems account for by what they assume of the data
    file.  MD5 and SHA-256 are parameters of which nothing is assumed; the JSON
    codec of the metadata is a class with the documented behaviour. *)

From S2P Require Import Prelude World FileSystem.
From stdpp Require Import options.
Local Open Scope Z_scope.

(** ** client/clientutil/range.go and metadata.go: data *)

Record Range := mkRange { Start : Z; Length : Z }.   (* int64 *)

#[export] Instance Range_eq_dec : EqDecision Range.
Proof. solve_decision. Defined.

Record PieceMetadata := mkPieceMetadata {
  pm_Num : Z;        (* int32 *)
  pm_Md5 : string;
  pm_Offset : Z;     (* uint64 *)
  pm_Range : Range;
  pm_Style : Z;
}.

#[export] Instance PieceMetadata_eq_dec : EqDecision PieceMetadata.
Proof. solve_decision. Defined.

Record persistentMetadata := mkPersistentMetadata {
  md_StoreStrategy : string;
  md_TaskID : string;
  md_TaskMeta : gmap string string;
  md_ContentLength : Z;    (* int64 *)
  md_TotalPieces : Z;      (* int32 *)
  md_PeerID : string;
  md_Pieces : gmap Z PieceMetadata;
  md_PieceMd5Sign : string;
  md_DataFilePath : fpath;
  md_Done : bool;
}.

Definition set_md_ContentLength (v : Z) (m : persistentMetadata) : persistentMetadata :=
  mkPersistentMetadata (md_StoreStrategy m) (md_TaskID m) (md_TaskMeta m) v (md_TotalPieces m)
    (md_PeerID m) (md_Pieces m) (md_PieceMd5Sign m) (md_DataFilePath m) (md_Done m).
Definition set_md_TotalPieces (v : Z) (m : persistentMetadata) : persistentMetadata :=
  mkPersistentMetadata (md_StoreStrategy m) (md_TaskID m) (md_TaskMeta m) (md_ContentLength m) v
    (md_PeerID m) (md_Pieces m) (md_PieceMd5Sign m) (md_DataFilePath m) (md_Done m).
Definition set_md_Pieces (v : gmap Z PieceMetadata) (m : persistentMetadata)
    : persistentMetadata :=
  mkPersistentMetadata (md_StoreStrategy m) (md_TaskID m) (md_TaskMeta m) (md_ContentLength m)
    (md_TotalPieces m) (md_PeerID m) v (md_PieceMd5Sign m) (md_DataFilePath m) (md_Done m).
Definition set_md_PieceMd5Sign (v : string) (m : persistentMetadata) : persistentMetadata :=
  mkPersistentMetadata (md_StoreStrategy m) (md_TaskID m) (md_TaskMeta m) (md_ContentLength m)
    (md_TotalPieces m) (md_PeerID m) (md_Pieces m) v (md_DataFilePath m) (md_Done m).
Definition set_md_Done (v : bool) (m : persistentMetadata) : persistentMetadata :=
  mkPersistentMetadata (md_StoreStrategy m) (md_TaskID m) (md_TaskMeta m) (md_ContentLength m)
    (md_TotalPieces m) (md_PeerID m) (md_Pieces m) (md_PieceMd5Sign m) (md_DataFilePath m) v.

Inductive StoreError :=
  | ErrTaskNotFound
  | ErrPieceNotFound
  | ErrPieceCountNotSet
  | ErrDigestNotSet
  | ErrInvalidDigest
  | ErrShortRead
  | ErrDigestNotMatch
  | ErrUnmarshal
  | ErrIO (e : IOError)
  | ErrReader (message : string).

#[export] Instance StoreError_eq_dec : EqDecision StoreError.
Proof. solve_decision. Defined.

Definition IOError_Error (e : IOError) : string :=
  match e with
  | ENOENT => "no such file or directory"
  | EEXIST => "file exists"
  | ENOTEMPTY => "directory not empty"
  | EISDIR => "is a directory"
  | ENOTDIR => "not a directory"
  | EINVAL => "invalid argument"
  | EBADF => "bad file descriptor"
  | EXDEV => "invalid cross-device link"
  | ELOOP => "too many levels of symbolic links"
  end.

(** The text of an error; for the errors of the system, the text of the cause. *)
Definition StoreError_Error (e : StoreError) : string :=
  match e with
  | ErrTaskNotFound => "task not found"
  | ErrPieceNotFound => "piece not found"
  | ErrPieceCountNotSet => "total piece count not set"
  | ErrDigestNotSet => "piece digest not set"
  | ErrInvalidDigest => "invalid digest"
  | ErrShortRead => "short read"
  | ErrDigestNotMatch => "digest not match"
  | ErrUnmarshal => "invalid metadata"
  | ErrIO e => IOError_Error e
  | ErrReader message => message
  end.

Record CommonTaskRequest := mkCommonTaskRequest {
  ct_PeerID : string;
  ct_TaskID : string;
  ct_Destination : fpath;
}.

(** The reader of a piece, by the kinds [WritePiece] tells apart: a limited
    reader, a limited reader over a buffered one (the bytes in its buffer, and
    the connection behind), a digest reader (the bytes it has seen), or any
    other. *)
Inductive Reader :=
  | PlainReader (s : Stream StoreError)
  | LimitedReader (s : Stream StoreError) (n : Z)
  | LimitedBuffered (buffered : list byte) (s : Stream StoreError) (n : Z)
  | DigestReader (seen : list byte) (s : Stream StoreError).

Record WritePieceRequest := mkWritePieceRequest {
  wp_Piece : PieceMetadata;
  wp_UnknownLength : bool;
  wp_Reader : Reader;
}.

Record UpdateTaskRequest := mkUpdateTaskRequest {
  ut_ContentLength : Z;
  ut_TotalPieces : Z;
  ut_PieceMd5Sign : string;
  ut_GenPieceDigest : bool;
}.

Record StoreRequest := mkStoreRequest {
  sr_Destination : fpath;
  sr_MetadataOnly : bool;
  sr_StoreOnly : bool;
  sr_TotalPieces : Z;
}.

(** What [GetPieces] reads of a request, and its answer. *)
Record PieceTaskRequest := mkPieceTaskRequest {
  pt_TaskId : string;
  pt_StartNum : Z;   (* uint32 *)
  pt_Limit : Z;      (* uint32 *)
}.

Record PiecePacket := mkPiecePacket {
  pp_TaskId : string;
  pp_DstPid : string;
  pp_TotalPiece : Z;
  pp_ContentLength : Z;
  pp_PieceMd5Sign : string;
  pp_PieceInfos : list PieceInfo;
}.

(** ** The store *)

Record localTaskStore := mkLocalTaskStore {
  ts_meta : persistentMetadata;
  ts_dataDir : fpath;
  ts_metadataFile : inode;
  ts_metadataRW : bool;   (* opened for writing *)
  ts_metadataFilePath : fpath;
  ts_expireTime : Z;      (* ns *)
  ts_lastAccess : Z;      (* ns *)
  ts_reclaimMarked : bool;
  ts_invalid : bool;
}.

Definition set_ts_meta (v : persistentMetadata) (t : localTaskStore) : localTaskStore :=
  mkLocalTaskStore v (ts_dataDir t) (ts_metadataFile t) (ts_metadataRW t) (ts_metadataFilePath t) (ts_expireTime t)
    (ts_lastAccess t) (ts_reclaimMarked t) (ts_invalid t).
Definition set_ts_lastAccess (v : Z) (t : localTaskStore) : localTaskStore :=
  mkLocalTaskStore (ts_meta t) (ts_dataDir t) (ts_metadataFile t) (ts_metadataRW t) (ts_metadataFilePath t)
    (ts_expireTime t) v (ts_reclaimMarked t) (ts_invalid t).
Definition set_ts_reclaimMarked (v : bool) (t : localTaskStore) : localTaskStore :=
  mkLocalTaskStore (ts_meta t) (ts_dataDir t) (ts_metadataFile t) (ts_metadataRW t) (ts_metadataFilePath t)
    (ts_expireTime t) (ts_lastAccess t) v (ts_invalid t).
Definition set_ts_invalid (v : bool) (t : localTaskStore) : localTaskStore :=
  mkLocalTaskStore (ts_meta t) (ts_dataDir t) (ts_metadataFile t) (ts_metadataRW t) (ts_metadataFilePath t)
    (ts_expireTime t) (ts_lastAccess t) (ts_reclaimMarked t) v.

Notation ts_Pieces t := (md_Pieces (ts_meta t)).
Notation ts_DataFilePath t := (md_DataFilePath (ts_meta t)).

Definition touch (now : Z) (t : localTaskStore) : localTaskStore := set_ts_lastAccess now t.

Definition updMeta (f : persistentMetadata → persistentMetadata) (t : localTaskStore)
    : localTaskStore := set_ts_meta (f (ts_meta t)) t.

(** The bytes and the end a reader delivers, for the plain [Read]. *)
Definition readerStream (r : Reader) : Stream StoreError :=
  match r with
  | PlainReader s | DigestReader _ s => s
  | LimitedReader s n =>
      let '(bs, _, err) := copyLimited s n in mkStream bs err
  | LimitedBuffered b s n =>
      let '(bs, _, err) := copyLimited (mkStream (b ++ s_data s) (s_err s)) n in mkStream bs err
  end.

Section Store.
Context (md5 : list byte → string) (sha256 : string → string).

(** *** WritePiece *)

(** A piece that is there already: its data are read and dropped. *)
Definition discardPiece (piece : PieceMetadata) (req : WritePieceRequest)
    : Z * option StoreError * Stream StoreError :=
  let '(bs, rest, err) := copyLimited (readerStream (wp_Reader req)) (Length (pm_Range (wp_Piece req))) in
  let n := Z.of_nat (length bs) in
  match err with
  | Some e => (n, Some e, rest)
  | None =>
      if n =? Length (pm_Range piece) then (Length (pm_Range piece), None, rest)
      else (n, Some ErrShortRead, rest)
  end.

(** The copy to the file, from offset [off]: the count [n] of the last
    [io.Copy].  The count of the bytes from a buffer stays in a variable of
    the inner scope. *)
Definition copyPiece (fs : FS) (file : inode) (off : nat) (req : WritePieceRequest)
    : FS * Z * option StoreError * Stream StoreError :=
  let copy fs off s limit :=
    let '(bs, rest, err) := copyLimited s limit in
    (writeAt fs file off bs, Z.of_nat (length bs), err, rest) in
  match wp_Reader req with
  | LimitedBuffered b s n =>
      copy (writeAt fs file off b) (off + length b)%nat s (n - Z.of_nat (length b))
  | LimitedReader s n => copy fs off s n
  | PlainReader s | DigestReader _ s => copy fs off s (Length (pm_Range (wp_Piece req)))
  end.

(** The MD5 to record, read from the reader when the request has none. *)
Definition pieceMd5 (req : WritePieceRequest) (n : Z) : string :=
  if decide (pm_Md5 (wp_Piece req) = ""%string) then
    match wp_Reader req with
    | DigestReader seen s => md5 (seen ++ take (Z.to_nat n) (s_data s))
    | _ => ""
    end
  else pm_Md5 (wp_Piece req).

Definition recordPiece (t : localTaskStore) (piece : PieceMetadata) : localTaskStore :=
  match ts_Pieces t !! pm_Num piece with
  | Some _ => t
  | None => updMeta (λ m, set_md_Pieces (<[pm_Num piece := piece]> (md_Pieces m)) m) t
  end.

(** The result: the written count and the error, and what the reader has left. *)
Definition localTaskStore_WritePiece (fs : FS) (now : Z) (t : localTaskStore)
    (req : WritePieceRequest)
    : FS * localTaskStore * (Z * option StoreError) * Stream StoreError :=
  let t := touch now t in
  let piece := wp_Piece req in
  match ts_Pieces t !! pm_Num piece with
  | Some old => let '(n, err, rest) := discardPiece old req in (fs, t, (n, err), rest)
  | None =>
      match os_Open fs (ts_DataFilePath t) with
      | inl e => (fs, t, (0, Some (ErrIO e)), readerStream (wp_Reader req))
      | inr file =>
          if Start (pm_Range piece) <? 0
          then (fs, t, (0, Some (ErrIO EINVAL)), readerStream (wp_Reader req))
          else
            let '(fs, n, err, rest) := copyPiece fs file (Z.to_nat (Start (pm_Range piece))) req in
            match err with
            | Some e => (fs, t, (0, Some e), rest)
            | None =>
                if wp_UnknownLength req && (n =? 0) then (fs, t, (0, None), rest)
                else if negb (n =? Length (pm_Range piece)) && negb (wp_UnknownLength req)
                then (fs, t, (n, Some ErrShortRead), rest)
                else
                  (fs, recordPiece t (mkPieceMetadata (pm_Num piece) (pieceMd5 req n)
                         (pm_Offset piece) (mkRange (Start (pm_Range piece)) n) (pm_Style piece)),
                   (n, None), rest)
            end
      end
  end.

(** *** The digest of the pieces *)

(** digestutils.Sha256 *)
Definition Sha256 (values : list string) : string :=
  match values with
  | [] => ""
  | _ => sha256 (String.concat "" values)
  end.

Definition pieceDigests (m : persistentMetadata) : list string :=
  (λ i, match md_Pieces m !! i with Some p => pm_Md5 p | None => ""%string end)
    <$> seqZ 0 (md_TotalPieces m).

Definition localTaskStore_UpdateTask (now : Z) (t : localTaskStore) (req : UpdateTaskRequest)
    : localTaskStore :=
  let t := touch now t in
  let t := updMeta (set_md_ContentLength (ut_ContentLength req)) t in
  let t := if 0 <? ut_TotalPieces req
           then updMeta (set_md_TotalPieces (ut_TotalPieces req)) t else t in
  let t := if decide (md_PieceMd5Sign (ts_meta t) = ""%string)
           then updMeta (set_md_PieceMd5Sign (ut_PieceMd5Sign req)) t else t in
  if ut_GenPieceDigest req
  then updMeta (set_md_PieceMd5Sign (Sha256 (pieceDigests (ts_meta t)))) t else t.

Definition localTaskStore_ValidateDigest (t : localTaskStore)
    : localTaskStore * option StoreError :=
  let m := ts_meta t in
  if decide (md_PieceMd5Sign m = ""%string) then (set_ts_invalid true t, Some ErrDigestNotSet)
  else if md_TotalPieces m <=? 0 then (set_ts_invalid true t, Some ErrPieceCountNotSet)
  else if decide (Sha256 (pieceDigests m) = md_PieceMd5Sign m) then (t, None)
  else (set_ts_invalid true t, Some ErrInvalidDigest).

Definition localTaskStore_IsInvalid (t : localTaskStore) : bool := ts_invalid t.

(** *** Reading *)

(** The bytes the reader of the answer delivers when it is read now. *)
Definition localTaskStore_ReadPiece (fs : FS) (now : Z) (t : localTaskStore) (num : Z) (r : Range)
    : localTaskStore * (StoreError + list byte) :=
  if ts_invalid t then (t, inl ErrInvalidDigest)
  else
    let t := touch now t in
    match os_Open fs (ts_DataFilePath t) with
    | inl e => (t, inl (ErrIO e))
    | inr file =>
        let range := if num =? -1 then Some r else pm_Range <$> ts_Pieces t !! num in
        match range with
        | None => (t, inl ErrPieceNotFound)
        | Some r =>
            if Start r <? 0 then (t, inl (ErrIO EINVAL))
            else (t, inr (readAt fs file (Z.to_nat (Start r)) (Z.to_nat (Length r))))
        end
    end.

Definition localTaskStore_ReadAllPieces (fs : FS) (now : Z) (t : localTaskStore)
    : localTaskStore * (StoreError + list byte) :=
  if ts_invalid t then (t, inl ErrInvalidDigest)
  else
    let t := touch now t in
    match os_Open fs (ts_DataFilePath t) with
    | inl e => (t, inl (ErrIO e))
    | inr file => (t, inr (fileData fs file))
    end.

Definition toPieceInfo (piece : PieceMetadata) : PieceInfo :=
  mkPieceInfo (pm_Num piece) (uint64 (Start (pm_Range piece)))
    (uint32 (Length (pm_Range piece))) (pm_Md5 piece) (pm_Offset piece) (pm_Style piece).

Definition localTaskStore_GetPieces (now : Z) (t : localTaskStore) (req : PieceTaskRequest)
    : localTaskStore * (StoreError + PiecePacket) :=
  if ts_invalid t then (t, inl ErrInvalidDigest)
  else
    let t := touch now t in
    let m := ts_meta t in
    (t, inr (mkPiecePacket (pt_TaskId req) (md_PeerID m) (md_TotalPieces m) (md_ContentLength m)
               (md_PieceMd5Sign m)
               (omap (λ i, toPieceInfo <$> md_Pieces m !! int32 (int32 (pt_StartNum req) + i))
                  (seqZ 0 (int32 (pt_Limit req)))))).

(** *** Saving and storing *)

(** The JSON codec: what is written is read back, and a JSON value followed by
    anything but white space is not a JSON value ([json.Unmarshal] reports an
    error after the top-level value). *)
Class MetadataCodec := {
  json_Marshal : persistentMetadata → list byte;
  json_Unmarshal : list byte → option persistentMetadata;
}.

Class MetadataCodecLaws (C : MetadataCodec) := {
  Unmarshal_Marshal m : json_Unmarshal (json_Marshal m) = Some m;
  Unmarshal_trailing m b rest :
    b ≠ Byte.x20 → b ≠ Byte.x09 → b ≠ Byte.x0a → b ≠ Byte.x0d →
    json_Unmarshal (json_Marshal m ++ b :: rest) = None;
}.

Context {C : MetadataCodec}.

(** The file is written from its start, and not truncated. *)
Definition saveMetadata (fs : FS) (t : localTaskStore) : FS * option StoreError :=
  if ts_metadataRW t then (writeAt fs (ts_metadataFile t) 0 (json_Marshal (ts_meta t)), None)
  else (fs, Some (ErrIO EBADF)).

(** [canLink] says whether the system links the two names (same device). *)
Definition localTaskStore_Store (canLink : bool) (fs : FS) (now : Z) (t : localTaskStore)
    (req : StoreRequest) : FS * localTaskStore * option StoreError :=
  let t := touch now (updMeta (set_md_Done true) t) in
  let t := if 0 <? sr_TotalPieces req
           then updMeta (set_md_TotalPieces (sr_TotalPieces req)) t else t in
  let '(fs, err) := if sr_StoreOnly req then (fs, None) else saveMetadata fs t in
  match err with
  | Some e => (fs, t, Some e)
  | None =>
      if sr_MetadataOnly req then (fs, t, None)
      else
        let fs := match os_Stat fs (sr_Destination req) with
                  | Some _ => (os_Remove fs (sr_Destination req)).1
                  | None => fs
                  end in
        match (if canLink then os_Link fs (ts_DataFilePath t) (sr_Destination req)
               else (fs, Some EXDEV)) with
        | (fs, None) => (fs, t, None)
        | (fs, Some _) =>
            match os_Open fs (ts_DataFilePath t) with
            | inl e => (fs, t, Some (ErrIO e))
            | inr file =>
                match os_OpenCreate fs (sr_Destination req) with
                | (fs, inl e) => (fs, t, Some (ErrIO e))
                | (fs, inr dst) =>
                    let fs := truncate fs dst in
                    (writeAt fs dst 0 (fileData fs file), t, None)
                end
            end
        end
  end.

End Store.

(** *** Collection *)

Definition taskData : string := "data".
Definition taskMetadata : string := "metadata".

Definition CanReclaim (now : Z) (t : localTaskStore) : bool :=
  ts_lastAccess t + ts_expireTime t <? now.

(** The request handed to the callback, when the store was not marked before. *)
Definition MarkReclaim (t : localTaskStore) : localTaskStore * list CommonTaskRequest :=
  if ts_reclaimMarked t then (t, [])
  else (set_ts_reclaimMarked true t,
        [mkCommonTaskRequest (md_PeerID (ts_meta t)) (md_TaskID (ts_meta t)) []]).

Definition notExist (e : option IOError) : bool := bool_decide (e = Some ENOENT).
Definition realError (e : option IOError) : bool := bool_decide (e ≠ None) && negb (notExist e).

Definition reclaimData (fs : FS) (t : localTaskStore) : FS * option IOError :=
  let data := ts_dataDir t ++ [taskData] in
  match os_Lstat fs data with
  | None => (fs, Some ENOENT)
  | Some n =>
      let '(fs, err) :=
        match n with
        | NodeSymlink dest => ((os_Remove fs dest).1, None)
        | _ => os_Remove fs (ts_DataFilePath t)
        end in
      if realError err then (fs, err)
      else
        let '(fs, err) := os_Remove fs data in
        if realError err then (fs, err) else (fs, None)
  end.

Definition reclaimMeta (fs : FS) (t : localTaskStore) : FS * option IOError :=
  let '(fs, err) := os_Remove fs (ts_metadataFilePath t) in
  if realError err then (fs, err) else (fs, None).

Definition Reclaim (fs : FS) (t : localTaskStore) : FS * option StoreError :=
  let '(fs, err) := reclaimData fs t in
  if realError err then (fs, ErrIO <$> err)
  else
    let '(fs, err) := reclaimMeta fs t in
    if realError err then (fs, ErrIO <$> err)
    else
      let '(fs, err) := os_Remove fs (ts_dataDir t) in
      if realError err then (fs, ErrIO <$> err)
      else
        let taskDir := removelast (ts_dataDir t) in
        match os_ReadDir fs taskDir with
        | inr [] => ((os_Remove fs taskDir).1, None)
        | _ => (fs, None)
        end.

(** ** What the data file holds *)

(** The file agrees with [content] on every recorded piece, and is not longer. *)
Definition agrees (content : list byte) (data : list byte) (pieces : gmap Z PieceMetadata) : Prop :=
  (length data ≤ length content)%nat ∧
  ∀ num p, pieces !! num = Some p →
    0 <= Start (pm_Range p) ∧ 0 <= Length (pm_Range p) ∧
    ∀ i : nat, Start (pm_Range p) <= Z.of_nat i < Start (pm_Range p) + Length (pm_Range p) →
      data !! i = content !! i ∧ is_Some (data !! i).

Lemma splice_agrees content data pieces off bs :
  agrees content data pieces → bs `prefix_of` drop off content → (off ≤ length content)%nat →
  agrees content (splice data off bs) pieces ∧
  (∀ i, (off ≤ i < off + length bs)%nat →
     splice data off bs !! i = content !! i ∧ is_Some (splice data off bs !! i)).
Proof.
  intros [Hlen Hp] Hpre Hoff. assert (length bs ≤ length content - off)%nat as Hbs.
  { apply prefix_length in Hpre. by rewrite length_drop in Hpre. }
  assert (∀ i, (off ≤ i < off + length bs)%nat →
    splice data off bs !! i = content !! i ∧ is_Some (splice data off bs !! i)) as Hin.
  { intros i Hi.
    assert (splice data off bs !! i = bs !! (i - off)%nat) as ->.
    { rewrite <-(read_splice data off bs) at 2.
      rewrite lookup_take_lt, lookup_drop by lia. f_equal. lia. }
    destruct (bs !! (i - off)%nat) as [b|] eqn:Hb; [|apply lookup_ge_None in Hb; lia].
    split; [|by eexists]. apply (prefix_lookup_Some _ _ _ _ Hb) in Hpre.
    rewrite lookup_drop in Hpre. rewrite <-Hpre. f_equal. lia. }
  split; [|done]. split; [destruct (decide (bs = [])) as [->|Hne]; [done|]; rewrite splice_length by done; lia|].
  intros num p Hnp. destruct (Hp num p Hnp) as (H1 & H2 & H3). do 2 (split; [done|]).
  intros i Hi. destruct (decide (off ≤ i < off + length bs)%nat) as [Hr|Hr]; [by apply Hin|].
  destruct (H3 i Hi) as [Heq [b Hb]]. pose proof (lookup_lt_Some _ _ _ Hb).
  rewrite lookup_splice_outside by lia. by rewrite <-Heq, Hb.
Qed.

(** Covered by its pieces, the file is the content. *)
Lemma agrees_covered content data pieces :
  agrees content data pieces →
  (∀ i : nat, (i < length content)%nat → ∃ num p, pieces !! num = Some p ∧
     Start (pm_Range p) <= Z.of_nat i < Start (pm_Range p) + Length (pm_Range p)) →
  data = content.
Proof.
  intros [Hlen Hp] Hcov. apply list_eq. intros i.
  destruct (decide (i < length content)%nat) as [Hi|Hi].
  - destruct (Hcov i Hi) as (num & p & Hnp & Hr). by apply (Hp num p Hnp).
  - by rewrite !lookup_ge_None_2 by lia.
Qed.

(** *** Writing *)

Definition delivered (r : Reader) : list byte :=
  match r with
  | PlainReader s | DigestReader _ s | LimitedReader s _ => s_data s
  | LimitedBuffered b s _ => b ++ s_data s
  end.

Section Writing.
Context (md5 : list byte → string).

(** The copy writes a prefix of what the reader delivers; its count leaves out
    the bytes [pre] of a buffer. *)
Lemma copyPiece_spec fs file off req fs' n err rest :
  copyPiece fs file off req = (fs', n, err, rest) →
  ∃ pre bs, fileData fs' file = splice (fileData fs file) off (pre ++ bs) ∧
    pre ++ bs `prefix_of` delivered (wp_Reader req) ∧ n = Z.of_nat (length bs) ∧
    fs_nodes fs' = fs_nodes fs.
Proof.
  unfold copyPiece. destruct (wp_Reader req) as [s|s k|b s k|seen s]; simpl;
    intros [= <- <- <- <-]; rewrite ?fileData_writeAt.
  3: { exists b, (take (Z.to_nat (k - Z.of_nat (length b))) (s_data s)).
       split; [by rewrite splice_splice|].
       split; [apply prefix_app, prefix_take|done]. }
  all: eexists [], _; simpl; split; [done|]; split; [apply prefix_take|done].
Qed.

Lemma recordPiece_agrees content data t p :
  agrees content data (ts_Pieces t) → 0 <= Start (pm_Range p) → 0 <= Length (pm_Range p) →
  (∀ i : nat, Start (pm_Range p) <= Z.of_nat i < Start (pm_Range p) + Length (pm_Range p) →
     data !! i = content !! i ∧ is_Some (data !! i)) →
  agrees content data (ts_Pieces (recordPiece t p)).
Proof.
  intros [Hlen Hp] Hs Hl Hin. unfold recordPiece. case_match; [done|]. split; [done|].
  intros num q. simpl. rewrite lookup_insert_Some. intros [[<- <-]|[_ Hq]]; [done|]. by apply (Hp num).
Qed.

Lemma recordPiece_path t p : ts_DataFilePath (recordPiece t p) = ts_DataFilePath t.
Proof. unfold recordPiece. by case_match. Qed.

(** Whatever its outcome, [WritePiece] from a reader that delivers the content
    from the piece's offset keeps the agreement. *)
Lemma WritePiece_agrees fs now t req content file fs' t' r rest :
  localTaskStore_WritePiece md5 fs now t req = (fs', t', r, rest) →
  os_Open fs (ts_DataFilePath t) = inr file → agrees content (fileData fs file) (ts_Pieces t) →
  delivered (wp_Reader req) `prefix_of`
    drop (Z.to_nat (Start (pm_Range (wp_Piece req)))) content →
  Start (pm_Range (wp_Piece req)) <= Z.of_nat (length content) →
  os_Open fs' (ts_DataFilePath t') = inr file ∧ agrees content (fileData fs' file) (ts_Pieces t').
Proof.
  intros Hw Hopen Hag Hpre Hoff. unfold localTaskStore_WritePiece in Hw. simpl in Hw.
  rewrite Hopen in Hw. destruct (ts_Pieces t !! _).
  { destruct (discardPiece _ _) as [[? ?] ?]. by injection Hw as <- <- _ _. }
  destruct (Start _ <? 0) eqn:Hneg; [by injection Hw as <- <- _ _|]. zbool.
  destruct (copyPiece _ _ _ _) as [[[fs1 n] err] rest'] eqn:Hc.
  apply copyPiece_spec in Hc as (pre & bs & Hdata & Hbs & -> & Hnodes).
  destruct (splice_agrees content (fileData fs file) (ts_Pieces t)
    (Z.to_nat (Start (pm_Range (wp_Piece req)))) (pre ++ bs) Hag) as [Hag1 Hin];
    [by trans (delivered (wp_Reader req))|lia|].
  rewrite <-Hdata in Hag1, Hin. rewrite length_app in Hin.
  assert (os_Open fs1 (ts_DataFilePath t) = inr file) as Hopen1
    by (by rewrite (os_Open_nodes fs)).
  destruct err; [by injection Hw as <- <- _ _|].
  destruct (wp_UnknownLength req && _); [by injection Hw as <- <- _ _|].
  destruct (negb _ && negb _); injection Hw as <- <- _ _; [done|].
  rewrite recordPiece_path. split; [done|]. apply recordPiece_agrees; simpl; [done|lia|lia|].
  intros i Hi. apply Hin. lia.
Qed.

End Writing.
