(* ===== verification/HttpRange.v ===== *)
(** * HttpRange: client/clientutil/range.go

    The Range header of a request to the daemon's proxy and upload server, per
    RFC 7233, and the Content-Range header of its answer. *)

From S2P Require Import Prelude Text LocalStorage.
From Stdlib Require Import Ascii.
From stdpp Require Import options.
Local Open Scope Z_scope.

Inductive HttpRangeError := ErrInvalidRange | ErrNoOverlap.

(** What one element of the header amounts to. *)
Inductive SpecResult :=
  | SpecSkip
  | SpecNoOverlap
  | SpecRange (r : Range)
  | SpecInvalid.

Definition parseSpec (ra : string) (size : Z) : SpecResult :=
  let ra := textproto_TrimString ra in
  if decide (ra = ""%string) then SpecSkip
  else
    match strings_Cut "-" ra with
    | None => SpecInvalid
    | Some (start, end') =>
        let start := textproto_TrimString start in
        let end' := textproto_TrimString end' in
        if decide (start = ""%string) then
          match strconv_ParseInt 64 end' with
          | None => SpecInvalid
          | Some i =>
              let i := if size <? i then size else i in
              let rStart := int64 (size - i) in
              SpecRange (mkRange rStart (int64 (size - rStart)))
          end
        else
          match strconv_ParseInt 64 start with
          | None => SpecInvalid
          | Some i =>
              if i <? 0 then SpecInvalid
              else if size <=? i then SpecNoOverlap
              else if decide (end' = ""%string) then SpecRange (mkRange i (int64 (size - i)))
              else
                match strconv_ParseInt 64 end' with
                | None => SpecInvalid
                | Some j =>
                    if j <? i then SpecInvalid
                    else
                      let j := if size <=? j then int64 (size - 1) else j in
                      SpecRange (mkRange i (int64 (int64 (j - i) + 1)))
                end
          end
    end.

Fixpoint parseSpecs (specs : list string) (size : Z) (ranges : list Range) (noOverlap : bool)
    : HttpRangeError + list Range :=
  match specs with
  | [] => if noOverlap && bool_decide (ranges = []) then inl ErrNoOverlap else inr ranges
  | ra :: specs =>
      match parseSpec ra size with
      | SpecSkip => parseSpecs specs size ranges noOverlap
      | SpecNoOverlap => parseSpecs specs size ranges true
      | SpecRange r => parseSpecs specs size (ranges ++ [r]) noOverlap
      | SpecInvalid => inl ErrInvalidRange
      end
  end.

Definition http_ParseRange (s : string) (size : Z) : HttpRangeError + list Range :=
  if decide (s = ""%string) then inr []
  else
    match strings_CutPrefix "bytes=" s with
    | None => inl ErrInvalidRange
    | Some rest => parseSpecs (strings_Split "," rest) size [] false
    end.

Definition GetContentRange (start end' total : Z) : string :=
  "bytes " +:+ fmt_Sprint start +:+ "-" +:+ fmt_Sprint end' +:+ "/" +:+
  (if total =? -1 then "*" else fmt_Sprint total).

(** [None] for its panics. *)
Definition MustParseRange (s : string) (size : Z) : option Range :=
  match http_ParseRange s size with inr [r] => Some r | _ => None end.

(** ** The headers of the RFC *)

Inductive ByteSpec :=
  | FromTo (a b : Z)
  | From (a : Z)
  | Last (n : Z).

(** In 64 bits, and without the suffix of length 0. *)
Definition spec_ok (s : ByteSpec) : Prop :=
  match s with
  | FromTo a b => 0 <= a <= b ∧ b < 2 ^ 63
  | From a => 0 <= a < 2 ^ 63
  | Last n => 0 < n < 2 ^ 63
  end.

Definition printSpec (s : ByteSpec) : string :=
  match s with
  | FromTo a b => fmt_Sprint a +:+ String "-" (fmt_Sprint b)
  | From a => fmt_Sprint a +:+ "-"
  | Last n => String "-" (fmt_Sprint n)
  end.

(** The positions a specification stands for in a content of [size] bytes. *)
Definition denotes (size : Z) (s : ByteSpec) (p : Z) : Prop :=
  0 <= p < size ∧
  match s with
  | FromTo a b => a <= p <= b
  | From a => a <= p
  | Last n => size - n <= p
  end.

(** Satisfiable, by the RFC: the first position is inside, or the suffix is not
    of length 0. *)
Definition satisfiable (size : Z) (s : ByteSpec) : bool :=
  match s with
  | FromTo a _ | From a => a <? size
  | Last n => 0 <? n
  end.

Definition specRange (size : Z) (s : ByteSpec) : Range :=
  match s with
  | FromTo a b => mkRange a (Z.min b (size - 1) - a + 1)
  | From a => mkRange a (size - a)
  | Last n => mkRange (size - Z.min n size) (Z.min n size)
  end.

(** ** Lemmas *)

Fixpoint noneOf (p : ascii → bool) (s : string) : Prop :=
  match s with
  | EmptyString => True
  | String c s => p c = false ∧ noneOf p s
  end.

Lemma trimRight_none p s : noneOf p s → trimRight p s = s.
Proof.
  induction s as [|c s IH]; [done|]. intros [Hc Hs]. simpl. rewrite IH, Hc by done. by destruct s.
Qed.

Lemma trimLeft_none p s : noneOf p s → trimLeft p s = s.
Proof. destruct s as [|c s]; [done|]. intros [Hc Hs]. simpl. by rewrite Hc. Qed.

Lemma noneOf_digits s : allDigits s → noneOf isASCIISpace s.
Proof.
  induction s as [|c s IH]; [done|]. intros [Hc Hs]. split; [|by apply IH].
  pose proof (isSpace_digit c Hc) as Hsp. unfold isSpace, isASCIISpace in *.
  destruct (N.eqb_spec (N_of_ascii c) 32) as [->|]; [done|].
  repeat match goal with |- context [N.eqb ?a ?b] => destruct (N.eqb_spec a b) as [Heq|] end; try done;
    rewrite Heq in Hsp; done.
Qed.

Lemma noneOf_app p s t : noneOf p s → noneOf p t → noneOf p (s +:+ t).
Proof. induction s as [|c s IH]; [done|]. intros [Hc Hs] Ht. split; [done|]. by apply IH. Qed.

Lemma Cut_digits s t : allDigits s → strings_Cut "-" (s +:+ String "-" t) = Some (s, t).
Proof.
  induction s as [|c s IH]; intros Hs; [done|]. destruct Hs as [[v Hv] Hs].
  change (String c s +:+ String "-" t) with (String c (s +:+ String "-" t)). simpl.
  rewrite decide_False by (by intros ->). by rewrite IH.
Qed.

Lemma TrimString_digits s : allDigits s → textproto_TrimString s = s.
Proof.
  intros Hs%noneOf_digits. unfold textproto_TrimString.
  by rewrite trimLeft_none, trimRight_none.
Qed.

Lemma Sprint_nonempty z : 0 <= z → fmt_Sprint z ≠ ""%string.
Proof. intros Hz. rewrite fmt_Sprint_nonneg by done. apply pretty_nonempty. Qed.

Lemma printSpec_shape s : spec_ok s → ∃ x y,
  printSpec s = x +:+ String "-" y ∧ allDigits x ∧ allDigits y.
Proof.
  destruct s as [a b|a|n]; simpl; intros Hs.
  - exists (fmt_Sprint a), (fmt_Sprint b). split_and!; [done|apply allDigits_Sprint; lia..].
  - exists (fmt_Sprint a), ""%string. split_and!; [done|apply allDigits_Sprint; lia|done].
  - exists ""%string, (fmt_Sprint n). split_and!; [done..|apply allDigits_Sprint; lia].
Qed.

Lemma TrimString_printSpec s :
  spec_ok s → textproto_TrimString (printSpec s) = printSpec s ∧ printSpec s ≠ ""%string.
Proof.
  intros (x & y & -> & Hx & Hy)%printSpec_shape. split; [|by destruct x].
  assert (noneOf isASCIISpace (x +:+ String "-" y)) as Hn.
  { apply noneOf_app; [by apply noneOf_digits|]. split; [done|]. by apply noneOf_digits. }
  unfold textproto_TrimString. by rewrite trimLeft_none, trimRight_none.
Qed.

(** One specification. *)
Lemma parseSpec_print s size :
  spec_ok s → 0 <= size < 2 ^ 63 →
  parseSpec (printSpec s) size =
    if satisfiable size s then SpecRange (specRange size s) else SpecNoOverlap.
Proof.
  intros Hs Hsz. unfold parseSpec. destruct (TrimString_printSpec s Hs) as [-> Hne].
  rewrite decide_False by done. clear Hne. destruct s as [a b|a|n]; simpl in Hs |- *.
  - pose proof (allDigits_Sprint a ltac:(lia)). pose proof (allDigits_Sprint b ltac:(lia)).
    rewrite Cut_digits, !TrimString_digits by done.
    rewrite !decide_False by (apply Sprint_nonempty; lia). rewrite !ParseInt_Sprint by lia.
    rewrite (proj2 (Z.ltb_ge a 0)) by lia.
    destruct (Z.leb_spec size a), (Z.ltb_spec a size); try lia; [done|].
    rewrite decide_False by (apply Sprint_nonempty; lia).
    rewrite (proj2 (Z.ltb_ge b a)) by lia. destruct (Z.leb_spec size b).
    + rewrite (int64_small (size - 1)), (int64_small (size - 1 - a)), int64_small by lia.
      do 2 f_equal. lia.
    + rewrite (int64_small (b - a)), int64_small by lia. do 2 f_equal. lia.
  - pose proof (allDigits_Sprint a ltac:(lia)). rewrite Cut_digits, TrimString_digits by done.
    rewrite decide_False by (apply Sprint_nonempty; lia). rewrite ParseInt_Sprint by lia.
    rewrite (proj2 (Z.ltb_ge a 0)) by lia.
    destruct (Z.leb_spec size a), (Z.ltb_spec a size); try lia; [done|].
    simpl.
    by rewrite int64_small by lia.
  - pose proof (allDigits_Sprint n ltac:(lia)). rewrite TrimString_digits by done.
    rewrite (proj2 (Z.ltb_lt 0 n)) by lia. simpl.
    rewrite ParseInt_Sprint by lia. destruct (Z.ltb_spec size n).
    + rewrite (int64_small (size - size)), int64_small by lia. do 2 f_equal; lia.
    + rewrite (int64_small (size - n)), int64_small by lia. do 2 f_equal; lia.
Qed.

Lemma parseSpecs_print specs size ranges noOverlap :
  Forall spec_ok specs → 0 <= size < 2 ^ 63 →
  parseSpecs (printSpec <$> specs) size ranges noOverlap =
    let rs := ranges ++ (specRange size <$> filter (satisfiable size) specs) in
    if (noOverlap || existsb (λ s, negb (satisfiable size s)) specs) && bool_decide (rs = [])
    then inl ErrNoOverlap else inr rs.
Proof.
  intros Hall Hsz. revert ranges noOverlap.
  induction Hall as [|s specs Hs Hall IH]; intros ranges noOverlap.
  - cbn -[bool_decide]. by rewrite app_nil_r, orb_false_r.
  - rewrite fmap_cons. cbn [parseSpecs]. rewrite parseSpec_print by done. rewrite filter_cons.
    cbn [existsb]. destruct (satisfiable size s) eqn:Hsat; simpl negb.
    + rewrite decide_True by done. rewrite IH, fmap_cons, <-(assoc_L (++)). done.
    + rewrite decide_False by (by intros ?). rewrite IH. by rewrite orb_true_r.
Qed.

Lemma specRange_denotes size s p :
  spec_ok s → 0 <= size →
  (satisfiable size s = true → Start (specRange size s) <= p < Start (specRange size s) +
     Length (specRange size s) ↔ denotes size s p) ∧
  (satisfiable size s = false → ¬ denotes size s p).
Proof.
  destruct s as [a b|a|n]; unfold denotes; simpl; intros Hs Hsz; split;
    intros Hsat; zbool; try done; try split; lia.
Qed.

Lemma CutPrefix_app p s : strings_CutPrefix p (p +:+ s) = Some s.
Proof.
  induction p as [|c p IH]; [done|]. change (String c p +:+ s) with (String c (p +:+ s)).
  simpl. by rewrite decide_True.
Qed.

(** C34: the Range header.  For every non-empty list of byte-range specifications
    in 64 bits, written as the RFC writes them, without the suffix [-0], and a
    content whose size is known, the parser answers one range for each of them
    that is satisfiable by the RFC, in their order, and every range holds exactly
    the positions that its specification stands for; when none is satisfiable it
    reports that there is no overlap. *)
Theorem http_ParseRange_correct (specs : list ByteSpec) (size : Z) :
  specs ≠ [] → Forall spec_ok specs → 0 <= size < 2 ^ 63 →
  let header := "bytes=" +:+ strings_Join "," (printSpec <$> specs) in
  let satisfied := filter (satisfiable size) specs in
  http_ParseRange header size =
    (if decide (satisfied = []) then inl ErrNoOverlap else inr (specRange size <$> satisfied)) ∧
  (∀ s p, s ∈ satisfied →
     Start (specRange size s) <= p < Start (specRange size s) + Length (specRange size s)
     ↔ denotes size s p) ∧
  (∀ s p, s ∈ specs → s ∉ satisfied → ¬ denotes size s p).
Proof.
  intros Hne Hall Hsz header satisfied. split_and!.
  - unfold http_ParseRange, header. rewrite decide_False by done.
    rewrite CutPrefix_app.
    rewrite strings_Split_Join.
    + rewrite parseSpecs_print by done. cbn zeta. fold satisfied. simpl app.
      case_decide as H0.
      * rewrite H0. cbn [fmap list_fmap].
        replace (bool_decide ([] = [])) with true by done. rewrite andb_true_r.
        destruct specs as [|s specs]; [done|]. unfold satisfied in H0. rewrite filter_cons in H0.
        case_decide as Hsat; [done|]. simpl. destruct (satisfiable size s); [by destruct Hsat|done].
      * rewrite bool_decide_eq_false_2; [by rewrite andb_false_r|]. by intros ?%fmap_nil_inv.
    + by intros ?%fmap_nil_inv.
    + apply Forall_fmap. eapply Forall_impl; [exact Hall|]. intros s Hs.
      destruct (printSpec_shape s Hs) as (x & y & Heq & Hx & Hy). simpl. rewrite Heq.
      rewrite strings_Contains_app. rewrite allDigits_notIn by done.
      simpl. by apply allDigits_notIn.
  - intros s p [Hsat Hs]%list_elem_of_filter. rewrite Forall_forall in Hall.
    apply specRange_denotes; [by apply Hall|lia|]. by destruct (satisfiable size s).
  - intros s p Hs Hns. rewrite Forall_forall in Hall. apply specRange_denotes; [by apply Hall|lia|].
    apply not_true_is_false. intros Hsat. apply Hns, list_elem_of_filter. by rewrite Hsat.
Qed.

Lemma http_ParseRange_correct_witness :
  http_ParseRange "bytes=0-9,90-,-5,200-300" 100 = inr [mkRange 0 10; mkRange 90 10; mkRange 95 5].
Proof.
  apply (http_ParseRange_correct [FromTo 0 9; From 90; Last 5; FromTo 200 300] 100);
    [done| |lia]. repeat constructor; simpl; lia.
Defined.

(** The suffix of length 0, which the RFC calls unsatisfiable, is answered by a
    range without bytes instead of [ErrNoOverlap]. *)
Theorem http_ParseRange_zero_suffix size : 0 <= size < 2 ^ 63 →
  satisfiable size (Last 0) = false ∧ http_ParseRange "bytes=-0" size = inr [mkRange size 0].
Proof.
  intros Hs. split; [done|].
  assert (parseSpec "-0" size = SpecRange (mkRange size 0)) as Hp.
  { unfold parseSpec. change (textproto_TrimString "-0") with "-0"%string. rewrite decide_False by done.
    change (strings_Cut "-" "-0") with (Some (""%string, "0"%string)). cbv iota zeta.
    change (textproto_TrimString "") with ""%string. change (textproto_TrimString "0") with "0"%string.
    rewrite decide_True by done. change (strconv_ParseInt 64 "0") with (Some 0). cbv iota zeta.
    rewrite (proj2 (Z.ltb_ge size 0)) by lia. rewrite Z.sub_0_r, (int64_small size), Z.sub_diag by lia. done. }
  unfold http_ParseRange. rewrite decide_False by done. change (strings_CutPrefix "bytes=" "bytes=-0") with (Some "-0"%string).
  cbv iota. change (strings_Split "," "-0") with ["-0"%string].
  unfold parseSpecs. rewrite Hp. done.
Qed.

(** A negative suffix is accepted: the range lies behind the content and has a
    negative length. *)
Lemma http_ParseRange_negative :
  http_ParseRange "bytes=--5" 100 = inr [mkRange 105 (-5)].
Proof. vm_compute. reflexivity. Qed.
