(* ===== verification/StorageManager.v ===== *)
(** * StorageManager: client/daemon/storage/storage_manager.go and
    client/clientutil/keepalive.go

    The stores of all the tasks of a daemon: their registration, the index by
    task that finds a completed store for reuse, the dispatch of the storage
    calls, the reload from disk, and the collection in two rounds.  The stores
    are on a heap, since the map of tasks and the index share them.  A
    [sync.Map] is visited in any order, which [Range] calls take as a list of
    its keys.  The use of the disk is what gopsutil answers, the devices of
    directories what the system says: both are arguments. *)

From S2P Require Import Prelude World FileSystem LocalStorage GoFloat.
From Stdlib Require Import SpecFloat.
From stdpp Require Import options.
Local Open Scope Z_scope.

(** ** keepalive.go *)

Record keepAlive := mkKeepAlive { ka_access : Z }.   (* ns *)

Definition NewKeepAlive (now : Z) : keepAlive := mkKeepAlive now.

(** The receiver is a copy: what is assigned to it is lost. *)
Definition keepAlive_Keep (now : Z) (k : keepAlive) : keepAlive :=
  let copy := k in
  let copy := mkKeepAlive now in
  k.

Definition keepAlive_Alive (now alive : Z) (k : keepAlive) : bool := now <? ka_access k + alive.

(** ** Data *)

Record PeerTaskMetadata := mkPeerTaskMetadata { k_PeerID : string; k_TaskID : string }.

#[export] Instance PeerTaskMetadata_eq_dec : EqDecision PeerTaskMetadata.
Proof. solve_decision. Defined.

#[export] Instance PeerTaskMetadata_countable : Countable PeerTaskMetadata.
Proof.
  refine (inj_countable' (λ k, (k_PeerID k, k_TaskID k)) (λ p, mkPeerTaskMetadata p.1 p.2) _).
  by intros [].
Defined.

Record RegisterTaskRequest := mkRegisterTaskRequest {
  rq_Common : CommonTaskRequest;
  rq_ContentLength : Z;    (* int64 *)
  rq_TotalPieces : Z;      (* int32 *)
  rq_PieceMd5Sign : string;
}.

Record ReusePeerTask := mkReusePeerTask {
  ru_key : PeerTaskMetadata;
  ru_ContentLength : Z;
  ru_TotalPieces : Z;
}.

(** client/config/constants.go *)
Definition SimpleLocalTaskStoreStrategy : string := "io.d7y.storage.v2.simple".
Definition AdvanceLocalTaskStoreStrategy : string := "io.d7y.storage.v2.advance".

Record StorageOption := mkStorageOption {
  so_DataPath : fpath;
  so_TaskExpireTime : Z;               (* ns *)
  so_DiskGCThreshold : Z;              (* bytes *)
  so_DiskGCThresholdPercent : float64;
}.

Notation storeId := positive (only parsing).

Record storageManager := mkStorageManager {
  sm_keepAlive : keepAlive;
  sm_storeStrategy : string;
  sm_storeOption : StorageOption;
  sm_heap : gmap storeId localTaskStore;
  sm_next : storeId;
  sm_tasks : gmap PeerTaskMetadata storeId;
  sm_markedReclaimTasks : list PeerTaskMetadata;
  sm_gcInterval : Z;  (* ns *)
  sm_index : gmap string (list storeId);  (* indexTask2PeerTask *)
  sm_called : list CommonTaskRequest;  (* the calls of gcCallback *)
}.

Definition set_sm_keepAlive (v : keepAlive) (r : storageManager) : storageManager :=
  {| sm_keepAlive := v; sm_storeStrategy := sm_storeStrategy r;
     sm_storeOption := sm_storeOption r; sm_heap := sm_heap r; sm_next := sm_next r;
     sm_tasks := sm_tasks r; sm_markedReclaimTasks := sm_markedReclaimTasks r;
     sm_gcInterval := sm_gcInterval r; sm_index := sm_index r; sm_called := sm_called r |}.

Definition set_sm_heap (v : gmap storeId localTaskStore) (r : storageManager) : storageManager :=
  {| sm_keepAlive := sm_keepAlive r; sm_storeStrategy := sm_storeStrategy r;
     sm_storeOption := sm_storeOption r; sm_heap := v; sm_next := sm_next r;
     sm_tasks := sm_tasks r; sm_markedReclaimTasks := sm_markedReclaimTasks r;
     sm_gcInterval := sm_gcInterval r; sm_index := sm_index r; sm_called := sm_called r |}.

Definition set_sm_tasks (v : gmap PeerTaskMetadata storeId) (r : storageManager) : storageManager :=
  {| sm_keepAlive := sm_keepAlive r; sm_storeStrategy := sm_storeStrategy r;
     sm_storeOption := sm_storeOption r; sm_heap := sm_heap r; sm_next := sm_next r;
     sm_tasks := v; sm_markedReclaimTasks := sm_markedReclaimTasks r;
     sm_gcInterval := sm_gcInterval r; sm_index := sm_index r; sm_called := sm_called r |}.

Definition set_sm_markedReclaimTasks (v : list PeerTaskMetadata) (r : storageManager) : storageManager :=
  {| sm_keepAlive := sm_keepAlive r; sm_storeStrategy := sm_storeStrategy r;
     sm_storeOption := sm_storeOption r; sm_heap := sm_heap r; sm_next := sm_next r;
     sm_tasks := sm_tasks r; sm_markedReclaimTasks := v; sm_gcInterval := sm_gcInterval r;
     sm_index := sm_index r; sm_called := sm_called r |}.

Definition set_sm_index (v : gmap string (list storeId)) (r : storageManager) : storageManager :=
  {| sm_keepAlive := sm_keepAlive r; sm_storeStrategy := sm_storeStrategy r;
     sm_storeOption := sm_storeOption r; sm_heap := sm_heap r; sm_next := sm_next r;
     sm_tasks := sm_tasks r; sm_markedReclaimTasks := sm_markedReclaimTasks r;
     sm_gcInterval := sm_gcInterval r; sm_index := v; sm_called := sm_called r |}.

Definition set_sm_called (v : list CommonTaskRequest) (r : storageManager) : storageManager :=
  {| sm_keepAlive := sm_keepAlive r; sm_storeStrategy := sm_storeStrategy r;
     sm_storeOption := sm_storeOption r; sm_heap := sm_heap r; sm_next := sm_next r;
     sm_tasks := sm_tasks r; sm_markedReclaimTasks := sm_markedReclaimTasks r;
     sm_gcInterval := sm_gcInterval r; sm_index := sm_index r; sm_called := v |}.

Definition setStore (id : storeId) (t : localTaskStore) (s : storageManager) : storageManager :=
  set_sm_heap (<[id := t]> (sm_heap s)) s.

(** A new store on the heap. *)
Definition newStore (t : localTaskStore) (s : storageManager) : storageManager * storeId :=
  ({| sm_keepAlive := sm_keepAlive s; sm_storeStrategy := sm_storeStrategy s;
      sm_storeOption := sm_storeOption s; sm_heap := <[sm_next s := t]> (sm_heap s);
      sm_next := Pos.succ (sm_next s); sm_tasks := sm_tasks s;
      sm_markedReclaimTasks := sm_markedReclaimTasks s; sm_gcInterval := sm_gcInterval s;
      sm_index := sm_index s; sm_called := sm_called s |}, sm_next s).

Definition Keep (now : Z) (s : storageManager) : storageManager :=
  set_sm_keepAlive (keepAlive_Keep now (sm_keepAlive s)) s.

(** ** Tasks *)

Definition lookupTask (s : storageManager) (k : PeerTaskMetadata)
    : option (storeId * localTaskStore) :=
  id ← sm_tasks s !! k; t ← sm_heap s !! id; Some (id, t).

Definition storageManager_LoadTask (now : Z) (s : storageManager) (k : PeerTaskMetadata)
    : storageManager * option (storeId * localTaskStore) :=
  (Keep now s, lookupTask s k).

(** Both the map and the index get the store. *)
Definition storeTask (k : PeerTaskMetadata) (id : storeId) (s : storageManager) : storageManager :=
  set_sm_index (<[k_TaskID k := default [] (sm_index s !! k_TaskID k) ++ [id]]> (sm_index s))
    (set_sm_tasks (<[k := id]> (sm_tasks s)) s).

Definition keyOf (t : localTaskStore) : PeerTaskMetadata :=
  mkPeerTaskMetadata (md_PeerID (ts_meta t)) (md_TaskID (ts_meta t)).

Section Manager.
Context (md5 : list byte → string) (sha256 : string → string) {C : MetadataCodec}.
(** Whether a directory is on the device of the data path. *)
Context (sameDev : fpath → bool).

(** The data file of the advanced strategy: next to the destination, and
    linked from the directory of the store. *)
Definition advancedData (fs : FS) (req : CommonTaskRequest) (data : fpath)
    : FS * (StoreError + fpath) :=
  let dir := removelast (ct_Destination req) in
  let file := default "" (last (ct_Destination req)) in
  match os_Stat fs dir with
  | None => (fs, inl (ErrIO ENOENT))
  | Some _ =>
      let p := dir ++ ["." +:+ file +:+ ".dfget.cache." +:+ ct_PeerID req] in
      match os_OpenCreate fs p with
      | (fs, inl e) => (fs, inl (ErrIO e))
      | (fs, inr _) =>
          let symlink fs := match os_Symlink fs p data with
                            | (fs, Some e) => (fs, inl (ErrIO e))
                            | (fs, None) => (fs, inr p)
                            end in
          if sameDev dir then
            match os_Link fs p data with
            | (fs, None) => (fs, inr p)
            | (fs, Some _) => symlink fs
            end
          else symlink fs
      end
  end.

Definition storageManager_CreateTask (fs : FS) (now : Z) (s : storageManager)
    (req : RegisterTaskRequest) : FS * storageManager * option StoreError :=
  let s := Keep now s in
  let c := rq_Common req in
  let dataDir := so_DataPath (sm_storeOption s) ++ [ct_TaskID c; ct_PeerID c] in
  let '(fs, err) := os_MkdirAll fs dataDir in
  match (if decide (err = Some EEXIST) then None else err) with
  | Some e => (fs, s, Some (ErrIO e))
  | None =>
      match os_OpenCreate fs (dataDir ++ [taskMetadata]) with
      | (fs, inl e) => (fs, s, Some (ErrIO e))
      | (fs, inr metadata) =>
          let strategy := if decide (ct_Destination c = []) then SimpleLocalTaskStoreStrategy
                          else sm_storeStrategy s in
          let data := dataDir ++ [taskData] in
          let '(fs, path) :=
            if decide (strategy = SimpleLocalTaskStoreStrategy) then
              match os_OpenCreate fs data with
              | (fs, inl e) => (fs, inl (ErrIO e))
              | (fs, inr _) => (fs, inr data)
              end
            else if decide (strategy = AdvanceLocalTaskStoreStrategy) then advancedData fs c data
            else (fs, inr []) in
          match path with
          | inl e => (fs, s, Some e)
          | inr path =>
              let meta :=
                {| md_StoreStrategy := strategy; md_TaskID := ct_TaskID c; md_TaskMeta := ∅;
                   md_ContentLength := rq_ContentLength req; md_TotalPieces := rq_TotalPieces req;
                   md_PeerID := ct_PeerID c; md_Pieces := ∅;
                   md_PieceMd5Sign := rq_PieceMd5Sign req; md_DataFilePath := path;
                   md_Done := false |} in
              let t :=
                {| ts_meta := meta; ts_dataDir := dataDir; ts_metadataFile := metadata;
                   ts_metadataRW := true; ts_metadataFilePath := dataDir ++ [taskMetadata];
                   ts_expireTime := so_TaskExpireTime (sm_storeOption s); ts_lastAccess := now;
                   ts_reclaimMarked := false; ts_invalid := false |} in
              let '(s, id) := newStore t s in
              (fs, storeTask (mkPeerTaskMetadata (ct_PeerID c) (ct_TaskID c)) id s, None)
          end
      end
  end.

Definition storageManager_RegisterTask (fs : FS) (now : Z) (s : storageManager)
    (req : RegisterTaskRequest) : FS * storageManager * option StoreError :=
  let k := mkPeerTaskMetadata (ct_PeerID (rq_Common req)) (ct_TaskID (rq_Common req)) in
  match storageManager_LoadTask now s k with
  | (s, Some _) => (fs, s, None)
  | (s, None) => storageManager_CreateTask fs now s req
  end.

(** ** The calls of one task *)

Definition storageManager_WritePiece (fs : FS) (now : Z) (s : storageManager)
    (k : PeerTaskMetadata) (req : WritePieceRequest)
    : FS * storageManager * (Z * option StoreError) * Stream StoreError :=
  match storageManager_LoadTask now s k with
  | (s, None) => (fs, s, (0, Some ErrTaskNotFound), readerStream (wp_Reader req))
  | (s, Some (id, t)) =>
      let '(fs, t, r, rest) := localTaskStore_WritePiece md5 fs now t req in
      (fs, setStore id t s, r, rest)
  end.

Definition storageManager_ReadPiece (fs : FS) (now : Z) (s : storageManager)
    (k : PeerTaskMetadata) (num : Z) (range : Range) : storageManager * (StoreError + list byte) :=
  match storageManager_LoadTask now s k with
  | (s, None) => (s, inl ErrTaskNotFound)
  | (s, Some (id, t)) =>
      let '(t, r) := localTaskStore_ReadPiece fs now t num range in (setStore id t s, r)
  end.

Definition storageManager_ReadAllPieces (fs : FS) (now : Z) (s : storageManager)
    (k : PeerTaskMetadata) : storageManager * (StoreError + list byte) :=
  match storageManager_LoadTask now s k with
  | (s, None) => (s, inl ErrTaskNotFound)
  | (s, Some (id, t)) =>
      let '(t, r) := localTaskStore_ReadAllPieces fs now t in (setStore id t s, r)
  end.

Definition storageManager_Store (canLink : bool) (fs : FS) (now : Z) (s : storageManager)
    (k : PeerTaskMetadata) (req : StoreRequest) : FS * storageManager * option StoreError :=
  match storageManager_LoadTask now s k with
  | (s, None) => (fs, s, Some ErrTaskNotFound)
  | (s, Some (id, t)) =>
      let '(fs, t, err) := localTaskStore_Store canLink fs now t req in (fs, setStore id t s, err)
  end.

Definition storageManager_GetPieces (now : Z) (s : storageManager) (k : PeerTaskMetadata)
    (req : PieceTaskRequest) : storageManager * (StoreError + PiecePacket) :=
  match storageManager_LoadTask now s k with
  | (s, None) => (s, inl ErrTaskNotFound)
  | (s, Some (id, t)) =>
      let '(t, r) := localTaskStore_GetPieces now t req in (setStore id t s, r)
  end.

Definition storageManager_UpdateTask (now : Z) (s : storageManager) (k : PeerTaskMetadata)
    (req : UpdateTaskRequest) : storageManager * option StoreError :=
  match storageManager_LoadTask now s k with
  | (s, None) => (s, Some ErrTaskNotFound)
  | (s, Some (id, t)) => (setStore id (localTaskStore_UpdateTask sha256 now t req) s, None)
  end.

Definition storageManager_ValidateDigest (now : Z) (s : storageManager) (k : PeerTaskMetadata)
    : storageManager * option StoreError :=
  match storageManager_LoadTask now s k with
  | (s, None) => (s, Some ErrTaskNotFound)
  | (s, Some (id, t)) =>
      let '(t, err) := localTaskStore_ValidateDigest sha256 t in (setStore id t s, err)
  end.

Definition storageManager_IsInvalid (now : Z) (s : storageManager) (k : PeerTaskMetadata)
    : storageManager * (StoreError + bool) :=
  match storageManager_LoadTask now s k with
  | (s, None) => (s, inl ErrTaskNotFound)
  | (s, Some (_, t)) => (s, inr (localTaskStore_IsInvalid t))
  end.

(** ** The index *)

(** The search touches the valid stores it passes. *)
Fixpoint findCompleted (now : Z) (taskID : string) (ids : list storeId) (s : storageManager)
    : storageManager * option ReusePeerTask :=
  match ids with
  | [] => (s, None)
  | id :: ids =>
      match sm_heap s !! id with
      | None => findCompleted now taskID ids s
      | Some t =>
          if ts_invalid t then findCompleted now taskID ids s
          else
            let s := setStore id (touch now t) s in
            if ts_reclaimMarked t then findCompleted now taskID ids s
            else if negb (md_Done (ts_meta t)) then findCompleted now taskID ids s
            else (s, Some (mkReusePeerTask (mkPeerTaskMetadata (md_PeerID (ts_meta t)) taskID)
                             (md_ContentLength (ts_meta t)) (md_TotalPieces (ts_meta t))))
      end
  end.

Definition storageManager_FindCompletedTask (now : Z) (s : storageManager) (taskID : string)
    : storageManager * option ReusePeerTask :=
  match sm_index s !! taskID with
  | None => (s, None)
  | Some ids => findCompleted now taskID ids s
  end.

Definition peerOf (s : storageManager) (id : storeId) : string :=
  match sm_heap s !! id with Some t => md_PeerID (ts_meta t) | None => "" end.

Definition storageManager_cleanIndex (taskID peerID : string) (s : storageManager)
    : storageManager :=
  match sm_index s !! taskID with
  | None => s
  | Some ids =>
      set_sm_index (<[taskID := filter (λ id, peerOf s id ≠ peerID) ids]> (sm_index s)) s
  end.

(** ** Reload *)

(** The store of a peer's directory, when its metadata can be read. *)
Definition loadPeer (fs : FS) (now : Z) (taskID peerID : string)
    (acc : storageManager * list fpath) : storageManager * list fpath :=
  let '(s, bad) := acc in
  let dataDir := so_DataPath (sm_storeOption s) ++ [taskID; peerID] in
  match os_Open fs (dataDir ++ [taskMetadata]) with
  | inl _ => (s, bad ++ [dataDir])
  | inr file =>
      match json_Unmarshal (fileData fs file) with
      | None => (s, bad ++ [dataDir])
      | Some meta =>
          let t :=
            {| ts_meta := meta; ts_dataDir := dataDir; ts_metadataFile := file;
               ts_metadataRW := false; ts_metadataFilePath := dataDir ++ [taskMetadata];
               ts_expireTime := so_TaskExpireTime (sm_storeOption s); ts_lastAccess := now;
               ts_reclaimMarked := false; ts_invalid := false |} in
          let '(s, id) := newStore t s in
          (storeTask (mkPeerTaskMetadata peerID taskID) id s, bad)
      end
  end.

(** An empty directory of a task is removed; its path is absolute, so it does
    not start with a dot. *)
Definition loadTask (now : Z) (acc : FS * (storageManager * list fpath)) (taskID : string)
    : FS * (storageManager * list fpath) :=
  let '(fs, (s, bad)) := acc in
  let taskDir := so_DataPath (sm_storeOption s) ++ [taskID] in
  match os_ReadDir fs taskDir with
  | inl _ => acc
  | inr [] => ((os_Remove fs taskDir).1, (s, bad))
  | inr peers => (fs, foldl (λ acc peerID, loadPeer fs now taskID peerID acc) (s, bad) peers)
  end.

Definition removeLoadError (fs : FS) (dir : fpath) : FS :=
  let fs := (os_Remove fs (dir ++ [taskMetadata])).1 in
  let data := dir ++ [taskData] in
  let fs := match os_Lstat fs data with
            | None => fs
            | Some (NodeSymlink dest) => (os_Remove (os_Remove fs dest).1 data).1
            | Some _ => (os_Remove fs data).1
            end in
  (os_Remove fs dir).1.

Definition storageManager_ReloadPersistentTask (fs : FS) (now : Z) (s : storageManager)
    : FS * storageManager * option StoreError :=
  match os_ReadDir fs (so_DataPath (sm_storeOption s)) with
  | inl ENOENT => (fs, s, None)
  | inl e => (fs, s, Some (ErrIO e))
  | inr dirs =>
      let '(fs, (s, bad)) := foldl (loadTask now) (fs, (s, [])) dirs in
      (foldl removeLoadError fs bad, s, if decide (bad = []) then None else Some ErrUnmarshal)
  end.

Definition NewStorageManager (fs : FS) (now : Z) (storeStrategy : string) (opt : StorageOption)
    : FS * (StoreError + storageManager) :=
  let '(fs, err) := match os_Stat fs (so_DataPath opt) with
                    | Some _ => (fs, None)
                    | None => os_MkdirAll fs (so_DataPath opt)
                    end in
  match err with
  | Some e => (fs, inl (ErrIO e))
  | None =>
      let strategy := if decide (storeStrategy = "") then SimpleLocalTaskStoreStrategy
                      else storeStrategy in
      if decide (strategy = SimpleLocalTaskStoreStrategy ∨ strategy = AdvanceLocalTaskStoreStrategy)
      then
        let s := {| sm_keepAlive := NewKeepAlive now; sm_storeStrategy := strategy;
                    sm_storeOption := opt; sm_heap := ∅; sm_next := 1; sm_tasks := ∅;
                    sm_markedReclaimTasks := []; sm_gcInterval := 60 * 10 ^ 9; sm_index := ∅;
                    sm_called := [] |} in
        let '(fs, s, _) := storageManager_ReloadPersistentTask fs now s in
        (fs, inr s)
      else (fs, inl (ErrReader ("not support store strategy: " +:+ storeStrategy)))
  end.

(** ** Collection *)

(** The conversion of a float64; out of range it is the least integer, as on
    amd64. *)
Definition int64OfFloat (x : float64) : Z :=
  let z := match x with
           | S754_zero _ => 0
           | S754_finite sign m e =>
               let a := Z.shiftl (Zpos m) e in if sign then - a else a
           | S754_infinity _ | S754_nan => 2 ^ 63
           end in
  if (- 2 ^ 63 <=? z) && (z <? 2 ^ 63) then z else - 2 ^ 63.

(** [usage]: the used percentage and the total bytes, when the disk can be asked. *)
Definition storageManager_diskUsageExceed (s : storageManager) (usage : option (float64 * Z))
    : bool * Z :=
  match usage with
  | None => (false, 0)
  | Some (usedPercent, total) =>
      let threshold := so_DiskGCThresholdPercent (sm_storeOption s) in
      if fltb usedPercent threshold then (false, 0)
      else (true, int64OfFloat (fmul (fsub usedPercent threshold) (fofZ total)))
  end.

Definition markStore (id : storeId) (s : storageManager) : storageManager :=
  match sm_heap s !! id with
  | None => s
  | Some t =>
      let '(t, calls) := MarkReclaim t in
      set_sm_called (sm_called s ++ calls) (setStore id t s)
  end.

(** The first visit: the expired stores are marked, the size of the others is summed up. *)
Definition markExpired (now : Z) (acc : storageManager * list PeerTaskMetadata * Z)
    (k : PeerTaskMetadata) : storageManager * list PeerTaskMetadata * Z :=
  let '(s, marked, size) := acc in
  match lookupTask s k with
  | None => acc
  | Some (id, t) =>
      if CanReclaim now t then (markStore id s, marked ++ [k], size)
      else (s, marked, int64 (size + md_ContentLength (ts_meta t)))
  end.

(** The second visit: the stores that may go for their size. *)
Definition oldTask (now : Z) (s : storageManager) (k : PeerTaskMetadata)
    : option (storeId * localTaskStore) :=
  '(id, t) ← lookupTask s k;
  if ts_reclaimMarked t then None
  else if negb (md_Done (ts_meta t)) && (now - ts_lastAccess t <? sm_gcInterval s) then None
  else Some (id, t).

Fixpoint markOldest (tasks : list (storeId * localTaskStore)) (bytesExceed : Z)
    (s : storageManager) (marked : list PeerTaskMetadata)
    : storageManager * list PeerTaskMetadata :=
  match tasks with
  | [] => (s, marked)
  | (id, t) :: tasks =>
      let s := markStore id s in
      let marked := marked ++ [keyOf t] in
      let bytesExceed := int64 (bytesExceed - md_ContentLength (ts_meta t)) in
      if bytesExceed <=? 0 then (s, marked) else markOldest tasks bytesExceed s marked
  end.

(** The stores marked in the last round go. *)
Definition reclaimMarked (acc : FS * storageManager * list PeerTaskMetadata)
    (k : PeerTaskMetadata) : FS * storageManager * list PeerTaskMetadata :=
  let '(fs, s, marked) := acc in
  match lookupTask s k with
  | None => acc
  | Some (_, t) =>
      let s := set_sm_tasks (delete k (sm_tasks s)) s in
      let s := storageManager_cleanIndex (md_TaskID (ts_meta t)) (md_PeerID (ts_meta t)) s in
      match Reclaim fs t with
      | (fs, Some _) => (fs, s, marked)
      | (fs, None) => (fs, s, remove_first k marked)
      end
  end.

(** The stable sort by access time. *)
Fixpoint insertByAccess (x : storeId * localTaskStore) (l : list (storeId * localTaskStore))
    : list (storeId * localTaskStore) :=
  match l with
  | [] => [x]
  | y :: l => if ts_lastAccess y.2 <? ts_lastAccess x.2 then y :: insertByAccess x l
              else x :: y :: l
  end.

Definition sortByAccess (l : list (storeId * localTaskStore)) : list (storeId * localTaskStore) :=
  foldr insertByAccess [] l.

Definition markForSize (now : Z) (usage : option (float64 * Z)) (ks : list PeerTaskMetadata)
    (s : storageManager) (marked : list PeerTaskMetadata) (totalNotMarkedSize : Z)
    : storageManager * list PeerTaskMetadata :=
  let threshold := so_DiskGCThreshold (sm_storeOption s) in
  let quotaBytesExceed := int64 (totalNotMarkedSize - threshold) in
  let quotaExceed := (0 <? threshold) && (0 <? quotaBytesExceed) in
  let '(usageExceed, usageBytesExceed) := storageManager_diskUsageExceed s usage in
  if quotaExceed || usageExceed then
    let bytesExceed := if usageBytesExceed <? quotaBytesExceed then quotaBytesExceed
                       else usageBytesExceed in
    markOldest (sortByAccess (omap (oldTask now s) ks)) bytesExceed s marked
  else (s, marked).

(** [ks1] and [ks2] are the orders of the two visits. *)
Definition storageManager_TryGC (fs : FS) (now : Z) (usage : option (float64 * Z))
    (ks1 ks2 : list PeerTaskMetadata) (s : storageManager) : FS * storageManager :=
  let '(s, marked, size) := foldl (markExpired now) (s, [], 0) ks1 in
  let '(s, marked) := markForSize now usage ks2 s marked size in
  let '(fs, s, marked) := foldl reclaimMarked (fs, s, marked) (sm_markedReclaimTasks s) in
  (fs, set_sm_markedReclaimTasks marked s).

Definition forceStep (acc : FS * storageManager) (k : PeerTaskMetadata) : FS * storageManager :=
  let '(fs, s) := acc in
  match lookupTask s k with
  | None => acc
  | Some (id, t) =>
      let s := set_sm_tasks (delete k (sm_tasks s)) s in
      let s := storageManager_cleanIndex (k_TaskID k) (k_PeerID k) s in
      let s := markStore id s in
      ((Reclaim fs (MarkReclaim t).1).1, s)
  end.

Definition storageManager_forceGC (fs : FS) (ks : list PeerTaskMetadata) (s : storageManager)
    : FS * storageManager := foldl forceStep (fs, s) ks.

Definition storageManager_CleanUp := storageManager_forceGC.

End Manager.
