(* ===== verification/PieceSize.v ===== *)
(** * PieceSize: internal/util/util.go

    The size of the pieces of a file, which the client and the CDN compute from
    its length. *)

From S2P Require Import Prelude.
From stdpp Require Import options.
Local Open Scope Z_scope.

Definition DefaultPieceSize : Z := 4 * 1024 * 1024.
Definition DefaultPieceSizeLimit : Z := 15 * 1024 * 1024.

Definition ComputePieceSize (length : Z) : Z :=
  if length <=? 200 * 1024 * 1024 then DefaultPieceSize
  else
    let gapCount := Z.quot length (100 * 1024 * 1024) in
    let mpSize := (gapCount - 2) * 1024 * 1024 + DefaultPieceSize in
    if DefaultPieceSizeLimit <? mpSize then DefaultPieceSizeLimit else uint32 mpSize.

Lemma ComputePieceSize_range length :
  DefaultPieceSize <= ComputePieceSize length <= DefaultPieceSizeLimit.
Proof.
  unfold ComputePieceSize, DefaultPieceSize, DefaultPieceSizeLimit.
  destruct (Z.leb_spec length (200 * 1024 * 1024)) as [|Hl]; [lia|].
  assert (2 <= Z.quot length (100 * 1024 * 1024)) as Hq by (apply Z.quot_le_lower_bound; lia).
  destruct (Z.ltb_spec (15 * 1024 * 1024) ((Z.quot length (100 * 1024 * 1024) - 2) * 1024 * 1024 +
    4 * 1024 * 1024)); [lia|]. rewrite uint32_small; lia.
Qed.
