(* ===== verification/Bitmap.v ===== *)
(** * Bitmap: client/daemon/peer/peertask_bitmap.go

    The set of pieces a peer task has requested or received, as an array of
    bytes that doubles when a piece number does not fit. *)

From S2P Require Import Prelude.
From stdpp Require Import options.
Local Open Scope Z_scope.

Record Bitmap := mkBitmap {
  bm_bits : list Z;      (* bytes *)
  bm_cap : Z;            (* int32 *)
  bm_settled : Z;        (* int32 *)
}.

Definition NewBitmap : Bitmap := mkBitmap (replicate 8 0) (8 * 8) 0.

Definition NewBitmapWithCap (c : Z) : Bitmap :=
  mkBitmap (replicate (Z.to_nat c) 0) (int32 (c * 8)) 0.

(** [1 << uint(7-i%8)] on a byte. *)
Definition bitMask (i : Z) : Z := Z.shiftl 1 (7 - Z.rem i 8) mod 256.

(** [b.bits[i/8]] *)
Definition bitsAt (bits : list Z) (i : Z) : Outcome Z :=
  let k := Z.quot i 8 in
  if k <? 0 then Panic IndexOutOfRange
  else match bits !! Z.to_nat k with
       | Some byte => Ok byte
       | None => Panic IndexOutOfRange
       end.

Definition Bitmap_IsSet (b : Bitmap) (i : Z) : Outcome bool :=
  if bm_cap b <=? i then Ok false
  else
    byte ← bitsAt (bm_bits b) i;
    Ok (negb (Z.land byte (bitMask i) =? 0)).

Definition Bitmap_grow (b : Bitmap) (i : Z) : Bitmap :=
  if bm_cap b <=? i
  then mkBitmap (bm_bits b ++ replicate (Z.to_nat (bm_cap b / 8)) 0) (int32 (bm_cap b * 2))
         (bm_settled b)
  else b.

Definition Bitmap_Set (b : Bitmap) (i : Z) : Outcome Bitmap :=
  let b := Bitmap_grow b i in
  byte ← bitsAt (bm_bits b) i;
  Ok (mkBitmap (<[Z.to_nat (Z.quot i 8) := Z.lor byte (bitMask i)]> (bm_bits b)) (bm_cap b)
        (int32 (bm_settled b + 1))).

Definition Bitmap_Settled (b : Bitmap) : Z := bm_settled b.

Definition Bitmap_Sets (b : Bitmap) (xs : list Z) : Outcome Bitmap := foldM Bitmap_Set xs b.

(** ** The set a bitmap stands for *)

Record bitmap_ok (b : Bitmap) : Prop := {
  bm_length : bm_cap b = 8 * Z.of_nat (length (bm_bits b));
  bm_small : 0 < bm_cap b < 2 ^ 31;
  bm_bytes : ∀ k byte, bm_bits b !! k = Some byte → 0 <= byte;
}.

Definition bm_mem (b : Bitmap) (i : Z) : Prop := Bitmap_IsSet b i = Ok true.

#[export] Instance bm_mem_dec b i : Decision (bm_mem b i).
Proof.
  unfold bm_mem. destruct (Bitmap_IsSet b i) as [[]|r|]; [by left|right..]; congruence.
Defined.

Lemma NewBitmap_ok : bitmap_ok NewBitmap.
Proof.
  split; simpl; [lia..|]. intros k byte. change [0; 0; 0; 0; 0; 0; 0; 0] with (replicate 8 0).
  intros [-> _]%lookup_replicate. lia.
Qed.

Lemma bitMask_eq i : 0 <= i → bitMask i = 2 ^ (7 - i mod 8).
Proof.
  intros Hi. unfold bitMask. rewrite Z.rem_mod_nonneg, Z.shiftl_1_l by lia.
  pose proof (Z.mod_pos_bound i 8). apply Z.mod_small. split; [apply Z.pow_nonneg; lia|].
  change 256 with (2 ^ 8). apply Z.pow_lt_mono_r; lia.
Qed.

Lemma land_bit byte n : 0 <= n → negb (Z.land byte (2 ^ n) =? 0) = Z.testbit byte n.
Proof.
  intros Hn. destruct (Z.testbit byte n) eqn:Hb; [apply negb_true_iff, Z.eqb_neq|
    apply negb_false_iff, Z.eqb_eq].
  - intros H0. apply (f_equal (λ z, Z.testbit z n)) in H0.
    rewrite Z.land_spec, Z.pow2_bits_true, Hb, Z.bits_0 in H0 by done. done.
  - apply Z.bits_inj'. intros m Hm. rewrite Z.land_spec, Z.bits_0, Z.pow2_bits_eqb by done.
    destruct (Z.eqb_spec n m) as [<-|]; [by rewrite Hb|by rewrite andb_false_r].
Qed.

(** The bit of a number in range. *)
Lemma IsSet_bit b i byte :
  0 <= i < bm_cap b → bm_bits b !! Z.to_nat (i / 8) = Some byte →
  Bitmap_IsSet b i = Ok (Z.testbit byte (7 - i mod 8)).
Proof.
  intros Hi Hb. unfold Bitmap_IsSet, bitsAt. destruct (Z.leb_spec (bm_cap b) i); [lia|].
  rewrite Z.quot_div_nonneg by lia. pose proof (Z.div_pos i 8).
  destruct (Z.ltb_spec (i / 8) 0); [lia|]. rewrite Hb. simpl.
  pose proof (Z.mod_pos_bound i 8). by rewrite bitMask_eq, land_bit by lia.
Qed.

Lemma bits_lookup b i :
  bitmap_ok b → 0 <= i < bm_cap b → ∃ byte, bm_bits b !! Z.to_nat (i / 8) = Some byte.
Proof.
  intros [Hlen _ _] Hi. destruct (bm_bits b !! _) as [byte|] eqn:Hb; [by eexists|].
  apply lookup_ge_None in Hb. pose proof (Z.div_lt_upper_bound i 8 (Z.of_nat (length (bm_bits b)))).
  lia.
Qed.

Lemma IsSet_total b i : bitmap_ok b → 0 <= i → ∃ r, Bitmap_IsSet b i = Ok r.
Proof.
  intros Hok Hi. destruct (Z.le_gt_cases (bm_cap b) i) as [Hc|Hc].
  - exists false. unfold Bitmap_IsSet. by destruct (Z.leb_spec (bm_cap b) i); [|lia].
  - destruct (bits_lookup b i Hok) as [byte Hb]; [lia|]. eexists. by apply IsSet_bit.
Qed.

Lemma bm_mem_range b i : bm_mem b i → i < bm_cap b.
Proof. unfold bm_mem, Bitmap_IsSet. destruct (Z.leb_spec (bm_cap b) i); [done|lia]. Qed.

Lemma NewBitmap_empty i : 0 <= i → ¬ bm_mem NewBitmap i.
Proof.
  intros Hi Hm. pose proof (bm_mem_range _ _ Hm) as Hc.
  destruct (bits_lookup NewBitmap i NewBitmap_ok) as [byte Hb]; [lia|].
  unfold bm_mem in Hm. rewrite (IsSet_bit NewBitmap i byte) in Hm by (done || lia).
  change (bm_bits NewBitmap) with (replicate 8 0) in Hb.
  apply lookup_replicate in Hb as [-> _]. by rewrite Z.bits_0 in Hm.
Qed.

(** Growing keeps the set. *)
Lemma grow_ok b i :
  bitmap_ok b → 2 * bm_cap b < 2 ^ 31 → bitmap_ok (Bitmap_grow b i).
Proof.
  intros [Hlen Hsm Hb] Hbig. unfold Bitmap_grow. case_match; [|done].
  assert (bm_cap b / 8 = Z.of_nat (length (bm_bits b))) as Hq
    by (rewrite Hlen, Z.mul_comm; apply Z.div_mul; lia).
  split; simpl; rewrite ?int32_small by lia.
  - rewrite length_app, length_replicate, Hq. lia.
  - lia.
  - intros k byte [Hl|[_ [-> _]%lookup_replicate]]%lookup_app_Some; [by eapply Hb|lia].
Qed.

Lemma grow_mem b i j :
  bitmap_ok b → 2 * bm_cap b < 2 ^ 31 → 0 <= j → bm_mem (Bitmap_grow b i) j ↔ bm_mem b j.
Proof.
  intros Hok Hbig Hj. unfold Bitmap_grow. destruct (Z.leb_spec (bm_cap b) i) as [Hc|]; [|done].
  pose proof Hok as [Hlen Hsm Hb]. set (b' := mkBitmap _ _ _).
  assert (bm_cap b' = 2 * bm_cap b) as Hcap by (simpl; rewrite int32_small; lia).
  destruct (Z.le_gt_cases (bm_cap b) j) as [Hj1|Hj1].
  - split; [|by intros ?%bm_mem_range; lia]. intros Hm. exfalso. pose proof (bm_mem_range _ _ Hm).
    assert (bm_bits b' !! Z.to_nat (j / 8) = Some 0) as Hz.
    { simpl. apply lookup_app_Some. right.
      assert (Z.of_nat (length (bm_bits b)) <= j / 8) by (apply Z.div_le_lower_bound; lia).
      assert (j / 8 < 2 * Z.of_nat (length (bm_bits b))) by (apply Z.div_lt_upper_bound; lia).
      split; [lia|]. apply lookup_replicate. split; [done|].
      rewrite Hlen, Z.mul_comm, Z.div_mul by lia. lia. }
    unfold bm_mem in Hm. rewrite (IsSet_bit b' j 0) in Hm by (done || lia).
    by rewrite Z.testbit_0_l in Hm.
  - destruct (bits_lookup b j Hok) as [byte Hbyte]; [lia|].
    unfold bm_mem. rewrite (IsSet_bit b j byte) by (done || lia).
    rewrite (IsSet_bit b' j byte); [done|lia|]. simpl. by apply lookup_app_l_Some.
Qed.

(** [Set] adds its number, when that is below twice the capacity. *)
Lemma Set_spec b i :
  bitmap_ok b → 2 * bm_cap b < 2 ^ 31 → 0 <= i < 2 * bm_cap b →
  ∃ b', Bitmap_Set b i = Ok b' ∧ bitmap_ok b' ∧
    bm_cap b' = (if bm_cap b <=? i then 2 * bm_cap b else bm_cap b) ∧ i < bm_cap b' ∧
    bm_settled b' = int32 (bm_settled b + 1) ∧
    (∀ j, 0 <= j → bm_mem b' j ↔ j = i ∨ bm_mem b j).
Proof.
  intros Hok Hbig Hi. unfold Bitmap_Set.
  pose proof (grow_ok b i Hok Hbig) as Hok1. pose proof (grow_mem b i) as Hmem1.
  assert (bm_cap (Bitmap_grow b i) = (if bm_cap b <=? i then 2 * bm_cap b else bm_cap b) ∧
    i < bm_cap (Bitmap_grow b i) ∧
    bm_settled (Bitmap_grow b i) = bm_settled b) as (Hcap & Hlt & Hset).
  { destruct Hok as [_ ? _]. unfold Bitmap_grow. destruct (Z.leb_spec (bm_cap b) i); simpl;
      rewrite ?int32_small; lia. }
  set (b1 := Bitmap_grow b i) in *. clearbody b1.
  destruct (bits_lookup b1 i Hok1) as [byte Hbyte]; [lia|].
  unfold bitsAt. rewrite Z.quot_div_nonneg by lia. pose proof (Z.div_pos i 8).
  destruct (Z.ltb_spec (i / 8) 0); [lia|]. rewrite Hbyte. simpl.
  eexists. split; [done|]. pose proof Hok1 as [Hlen1 Hsm1 Hb1].
  split; [split; simpl; [by rewrite length_insert|done|]|].
  { intros k x [(<- & <- & _)|[_ Hx]]%list_lookup_insert_Some; [|by eapply Hb1].
    apply Z.lor_nonneg. split; [by eapply Hb1|]. unfold bitMask. apply Z.mod_pos_bound. lia. }
  split; [done|]. split; [done|]. split; [simpl; by rewrite Hset|].
  intros j Hj. rewrite <-Hmem1 by done. unfold bm_mem at 1.
  pose proof (Z.mod_pos_bound i 8) as Hmi. pose proof (Z.mod_pos_bound j 8) as Hmj.
  destruct (Z.le_gt_cases (bm_cap b1) j) as [Hc|Hc].
  { unfold Bitmap_IsSet. simpl. destruct (Z.leb_spec (bm_cap b1) j); [|lia].
    split; [done|]. intros [->|?%bm_mem_range]; lia. }
  destruct (bits_lookup b1 j Hok1) as [byte' Hbyte']; [lia|]. unfold bm_mem.
  rewrite (IsSet_bit b1 j byte') by (done || lia).
  destruct (decide (j / 8 = i / 8)) as [Heq|Hne].
  - assert (byte' = byte) as -> by (rewrite Heq, Hbyte in Hbyte'; by simplify_eq).
    erewrite (IsSet_bit _ j); [|simpl; lia|simpl; rewrite Heq; apply list_lookup_insert_eq;
      by apply lookup_lt_Some in Hbyte].
    rewrite bitMask_eq, Z.lor_spec, Z.pow2_bits_eqb by lia.
    pose proof (Z.div_mod i 8) as Hdi. pose proof (Z.div_mod j 8) as Hdj. rewrite Heq in Hdj.
    destruct (Z.eqb_spec (7 - i mod 8) (7 - j mod 8)) as [He|He].
    + rewrite orb_true_r. split; [|done]. intros _. left. lia.
    + rewrite orb_false_r. split; [by right|]. intros [?|?]; [|done]. lia.
  - erewrite (IsSet_bit _ j); [|simpl; lia|simpl; rewrite list_lookup_insert_ne; [exact Hbyte'|]].
    + split; [by right|]. intros [->|?]; [done|]. done.
    + pose proof (Z.div_pos j 8). lia.
Qed.

(** Beyond twice the capacity it panics: it grows once only. *)
Lemma Set_panics b i :
  bitmap_ok b → 2 * bm_cap b < 2 ^ 31 → 2 * bm_cap b <= i →
  Bitmap_Set b i = Panic IndexOutOfRange.
Proof.
  intros Hok Hbig Hi. pose proof Hok as [Hlen Hsm _]. unfold Bitmap_Set.
  pose proof (grow_ok b i Hok Hbig) as [Hlen1 _ _].
  assert (bm_cap (Bitmap_grow b i) = 2 * bm_cap b) as Hcap.
  { unfold Bitmap_grow. destruct (Z.leb_spec (bm_cap b) i); simpl; rewrite ?int32_small; lia. }
  unfold bitsAt. rewrite Z.quot_div_nonneg by lia. pose proof (Z.div_pos i 8).
  destruct (Z.ltb_spec (i / 8) 0); [lia|]. rewrite lookup_ge_None_2; [done|].
  assert (Z.of_nat (length (bm_bits (Bitmap_grow b i))) <= i / 8)
    by (apply Z.div_le_lower_bound; lia). lia.
Qed.
