(* ===== verification/PeerTask.v ===== *)
(** * PeerTask: client/daemon/peer, the peer task of a file

    peertask_file.go, peertask_file_callback.go and the parts of
    peertask_base.go that keep the task's books: the pieces that are ready,
    the results sent to the scheduler, the end of the task, and the choice of
    the next piece.  The waits on channels are left out: a progress is received
    by the caller, and a failed piece waits in a list.  The callback works on
    the store of the task. *)

From S2P Require Import Prelude World FileSystem LocalStorage Bitmap.
From stdpp Require Import options.
Local Open Scope Z_scope.

Definition Code_ClientError : Code := 4000.
Definition Code_ClientPieceRequestFail : Code := 4001.
Definition Code_ClientScheduleTimeout : Code := 4002.
Definition Code_ClientContextCanceled : Code := 4003.
Definition Code_ClientPieceDownloadFail : Code := 4005.
Definition Code_ClientRequestLimitFail : Code := 4006.

Definition reasonBackSourceDisabled : string := "download from source disabled".

(** FilePeerTaskProgress, with its state. *)
Record FilePeerTaskProgress := mkProgress {
  pg_Success : bool;
  pg_Code : Code;
  pg_ContentLength : Z;
  pg_CompletedLength : Z;
  pg_PeerTaskDone : bool;
}.

Record filePeerTask := mkFilePeerTask {
  pt_taskID : string;
  pt_peerID : string;
  pt_totalPiece : Z;  (* int32 *)
  pt_md5 : string;
  pt_contentLength : Z;  (* int64 *)
  pt_completedLength : Z;  (* int64 *)
  pt_usedTraffic : Z;  (* uint64 *)
  pt_readyPieces : Bitmap;
  pt_requestedPieces : Bitmap;
  pt_failedPieces : list Z;  (* failedPieceCh *)
  pt_once : bool;
  pt_success : bool;
  pt_done : bool;  (* the done channel is closed *)
  pt_failedCode : Code;
  pt_failedReason : string;
  pt_sent : list PieceResult;  (* on the stream to the scheduler *)
  pt_progress : list FilePeerTaskProgress;
  pt_results : list PeerResult;  (* ReportPeerResult *)
}.

Definition set_pt_totalPiece (v : Z) (r : filePeerTask) : filePeerTask :=
  {| pt_taskID := pt_taskID r; pt_peerID := pt_peerID r; pt_totalPiece := v;
     pt_md5 := pt_md5 r; pt_contentLength := pt_contentLength r;
     pt_completedLength := pt_completedLength r; pt_usedTraffic := pt_usedTraffic r;
     pt_readyPieces := pt_readyPieces r; pt_requestedPieces := pt_requestedPieces r;
     pt_failedPieces := pt_failedPieces r; pt_once := pt_once r;
     pt_success := pt_success r; pt_done := pt_done r; pt_failedCode := pt_failedCode r;
     pt_failedReason := pt_failedReason r; pt_sent := pt_sent r;
     pt_progress := pt_progress r; pt_results := pt_results r |}.

Definition set_pt_contentLength (v : Z) (r : filePeerTask) : filePeerTask :=
  {| pt_taskID := pt_taskID r; pt_peerID := pt_peerID r; pt_totalPiece := pt_totalPiece r;
     pt_md5 := pt_md5 r; pt_contentLength := v; pt_completedLength := pt_completedLength r;
     pt_usedTraffic := pt_usedTraffic r; pt_readyPieces := pt_readyPieces r;
     pt_requestedPieces := pt_requestedPieces r; pt_failedPieces := pt_failedPieces r;
     pt_once := pt_once r; pt_success := pt_success r; pt_done := pt_done r;
     pt_failedCode := pt_failedCode r; pt_failedReason := pt_failedReason r;
     pt_sent := pt_sent r; pt_progress := pt_progress r; pt_results := pt_results r |}.

Definition set_pt_completedLength (v : Z) (r : filePeerTask) : filePeerTask :=
  {| pt_taskID := pt_taskID r; pt_peerID := pt_peerID r; pt_totalPiece := pt_totalPiece r;
     pt_md5 := pt_md5 r; pt_contentLength := pt_contentLength r; pt_completedLength := v;
     pt_usedTraffic := pt_usedTraffic r; pt_readyPieces := pt_readyPieces r;
     pt_requestedPieces := pt_requestedPieces r; pt_failedPieces := pt_failedPieces r;
     pt_once := pt_once r; pt_success := pt_success r; pt_done := pt_done r;
     pt_failedCode := pt_failedCode r; pt_failedReason := pt_failedReason r;
     pt_sent := pt_sent r; pt_progress := pt_progress r; pt_results := pt_results r |}.

Definition set_pt_usedTraffic (v : Z) (r : filePeerTask) : filePeerTask :=
  {| pt_taskID := pt_taskID r; pt_peerID := pt_peerID r; pt_totalPiece := pt_totalPiece r;
     pt_md5 := pt_md5 r; pt_contentLength := pt_contentLength r;
     pt_completedLength := pt_completedLength r; pt_usedTraffic := v;
     pt_readyPieces := pt_readyPieces r; pt_requestedPieces := pt_requestedPieces r;
     pt_failedPieces := pt_failedPieces r; pt_once := pt_once r;
     pt_success := pt_success r; pt_done := pt_done r; pt_failedCode := pt_failedCode r;
     pt_failedReason := pt_failedReason r; pt_sent := pt_sent r;
     pt_progress := pt_progress r; pt_results := pt_results r |}.

Definition set_pt_readyPieces (v : Bitmap) (r : filePeerTask) : filePeerTask :=
  {| pt_taskID := pt_taskID r; pt_peerID := pt_peerID r; pt_totalPiece := pt_totalPiece r;
     pt_md5 := pt_md5 r; pt_contentLength := pt_contentLength r;
     pt_completedLength := pt_completedLength r; pt_usedTraffic := pt_usedTraffic r;
     pt_readyPieces := v; pt_requestedPieces := pt_requestedPieces r;
     pt_failedPieces := pt_failedPieces r; pt_once := pt_once r;
     pt_success := pt_success r; pt_done := pt_done r; pt_failedCode := pt_failedCode r;
     pt_failedReason := pt_failedReason r; pt_sent := pt_sent r;
     pt_progress := pt_progress r; pt_results := pt_results r |}.

Definition set_pt_failedPieces (v : list Z) (r : filePeerTask) : filePeerTask :=
  {| pt_taskID := pt_taskID r; pt_peerID := pt_peerID r; pt_totalPiece := pt_totalPiece r;
     pt_md5 := pt_md5 r; pt_contentLength := pt_contentLength r;
     pt_completedLength := pt_completedLength r; pt_usedTraffic := pt_usedTraffic r;
     pt_readyPieces := pt_readyPieces r; pt_requestedPieces := pt_requestedPieces r;
     pt_failedPieces := v; pt_once := pt_once r; pt_success := pt_success r;
     pt_done := pt_done r; pt_failedCode := pt_failedCode r;
     pt_failedReason := pt_failedReason r; pt_sent := pt_sent r;
     pt_progress := pt_progress r; pt_results := pt_results r |}.

Definition set_pt_once (v : bool) (r : filePeerTask) : filePeerTask :=
  {| pt_taskID := pt_taskID r; pt_peerID := pt_peerID r; pt_totalPiece := pt_totalPiece r;
     pt_md5 := pt_md5 r; pt_contentLength := pt_contentLength r;
     pt_completedLength := pt_completedLength r; pt_usedTraffic := pt_usedTraffic r;
     pt_readyPieces := pt_readyPieces r; pt_requestedPieces := pt_requestedPieces r;
     pt_failedPieces := pt_failedPieces r; pt_once := v; pt_success := pt_success r;
     pt_done := pt_done r; pt_failedCode := pt_failedCode r;
     pt_failedReason := pt_failedReason r; pt_sent := pt_sent r;
     pt_progress := pt_progress r; pt_results := pt_results r |}.

Definition set_pt_success (v : bool) (r : filePeerTask) : filePeerTask :=
  {| pt_taskID := pt_taskID r; pt_peerID := pt_peerID r; pt_totalPiece := pt_totalPiece r;
     pt_md5 := pt_md5 r; pt_contentLength := pt_contentLength r;
     pt_completedLength := pt_completedLength r; pt_usedTraffic := pt_usedTraffic r;
     pt_readyPieces := pt_readyPieces r; pt_requestedPieces := pt_requestedPieces r;
     pt_failedPieces := pt_failedPieces r; pt_once := pt_once r; pt_success := v;
     pt_done := pt_done r; pt_failedCode := pt_failedCode r;
     pt_failedReason := pt_failedReason r; pt_sent := pt_sent r;
     pt_progress := pt_progress r; pt_results := pt_results r |}.

Definition set_pt_done (v : bool) (r : filePeerTask) : filePeerTask :=
  {| pt_taskID := pt_taskID r; pt_peerID := pt_peerID r; pt_totalPiece := pt_totalPiece r;
     pt_md5 := pt_md5 r; pt_contentLength := pt_contentLength r;
     pt_completedLength := pt_completedLength r; pt_usedTraffic := pt_usedTraffic r;
     pt_readyPieces := pt_readyPieces r; pt_requestedPieces := pt_requestedPieces r;
     pt_failedPieces := pt_failedPieces r; pt_once := pt_once r;
     pt_success := pt_success r; pt_done := v; pt_failedCode := pt_failedCode r;
     pt_failedReason := pt_failedReason r; pt_sent := pt_sent r;
     pt_progress := pt_progress r; pt_results := pt_results r |}.

Definition set_pt_failedReason (v : string) (r : filePeerTask) : filePeerTask :=
  {| pt_taskID := pt_taskID r; pt_peerID := pt_peerID r; pt_totalPiece := pt_totalPiece r;
     pt_md5 := pt_md5 r; pt_contentLength := pt_contentLength r;
     pt_completedLength := pt_completedLength r; pt_usedTraffic := pt_usedTraffic r;
     pt_readyPieces := pt_readyPieces r; pt_requestedPieces := pt_requestedPieces r;
     pt_failedPieces := pt_failedPieces r; pt_once := pt_once r;
     pt_success := pt_success r; pt_done := pt_done r; pt_failedCode := pt_failedCode r;
     pt_failedReason := v; pt_sent := pt_sent r; pt_progress := pt_progress r;
     pt_results := pt_results r |}.

Definition set_pt_failedCode (v : Code) (r : filePeerTask) : filePeerTask :=
  {| pt_taskID := pt_taskID r; pt_peerID := pt_peerID r; pt_totalPiece := pt_totalPiece r;
     pt_md5 := pt_md5 r; pt_contentLength := pt_contentLength r;
     pt_completedLength := pt_completedLength r; pt_usedTraffic := pt_usedTraffic r;
     pt_readyPieces := pt_readyPieces r; pt_requestedPieces := pt_requestedPieces r;
     pt_failedPieces := pt_failedPieces r; pt_once := pt_once r;
     pt_success := pt_success r; pt_done := pt_done r; pt_failedCode := v;
     pt_failedReason := pt_failedReason r; pt_sent := pt_sent r;
     pt_progress := pt_progress r; pt_results := pt_results r |}.

Definition set_pt_md5 (v : string) (r : filePeerTask) : filePeerTask :=
  {| pt_taskID := pt_taskID r; pt_peerID := pt_peerID r; pt_totalPiece := pt_totalPiece r;
     pt_md5 := v; pt_contentLength := pt_contentLength r;
     pt_completedLength := pt_completedLength r; pt_usedTraffic := pt_usedTraffic r;
     pt_readyPieces := pt_readyPieces r; pt_requestedPieces := pt_requestedPieces r;
     pt_failedPieces := pt_failedPieces r; pt_once := pt_once r;
     pt_success := pt_success r; pt_done := pt_done r; pt_failedCode := pt_failedCode r;
     pt_failedReason := pt_failedReason r; pt_sent := pt_sent r;
     pt_progress := pt_progress r; pt_results := pt_results r |}.

Definition set_pt_requestedPieces (v : Bitmap) (r : filePeerTask) : filePeerTask :=
  {| pt_taskID := pt_taskID r; pt_peerID := pt_peerID r; pt_totalPiece := pt_totalPiece r;
     pt_md5 := pt_md5 r; pt_contentLength := pt_contentLength r;
     pt_completedLength := pt_completedLength r; pt_usedTraffic := pt_usedTraffic r;
     pt_readyPieces := pt_readyPieces r; pt_requestedPieces := v;
     pt_failedPieces := pt_failedPieces r; pt_once := pt_once r;
     pt_success := pt_success r; pt_done := pt_done r; pt_failedCode := pt_failedCode r;
     pt_failedReason := pt_failedReason r; pt_sent := pt_sent r;
     pt_progress := pt_progress r; pt_results := pt_results r |}.

Definition set_pt_sent (v : list PieceResult) (r : filePeerTask) : filePeerTask :=
  {| pt_taskID := pt_taskID r; pt_peerID := pt_peerID r; pt_totalPiece := pt_totalPiece r;
     pt_md5 := pt_md5 r; pt_contentLength := pt_contentLength r;
     pt_completedLength := pt_completedLength r; pt_usedTraffic := pt_usedTraffic r;
     pt_readyPieces := pt_readyPieces r; pt_requestedPieces := pt_requestedPieces r;
     pt_failedPieces := pt_failedPieces r; pt_once := pt_once r;
     pt_success := pt_success r; pt_done := pt_done r; pt_failedCode := pt_failedCode r;
     pt_failedReason := pt_failedReason r; pt_sent := v; pt_progress := pt_progress r;
     pt_results := pt_results r |}.

Definition set_pt_progress (v : list FilePeerTaskProgress) (r : filePeerTask) : filePeerTask :=
  {| pt_taskID := pt_taskID r; pt_peerID := pt_peerID r; pt_totalPiece := pt_totalPiece r;
     pt_md5 := pt_md5 r; pt_contentLength := pt_contentLength r;
     pt_completedLength := pt_completedLength r; pt_usedTraffic := pt_usedTraffic r;
     pt_readyPieces := pt_readyPieces r; pt_requestedPieces := pt_requestedPieces r;
     pt_failedPieces := pt_failedPieces r; pt_once := pt_once r;
     pt_success := pt_success r; pt_done := pt_done r; pt_failedCode := pt_failedCode r;
     pt_failedReason := pt_failedReason r; pt_sent := pt_sent r; pt_progress := v;
     pt_results := pt_results r |}.

Definition set_pt_results (v : list PeerResult) (r : filePeerTask) : filePeerTask :=
  {| pt_taskID := pt_taskID r; pt_peerID := pt_peerID r; pt_totalPiece := pt_totalPiece r;
     pt_md5 := pt_md5 r; pt_contentLength := pt_contentLength r;
     pt_completedLength := pt_completedLength r; pt_usedTraffic := pt_usedTraffic r;
     pt_readyPieces := pt_readyPieces r; pt_requestedPieces := pt_requestedPieces r;
     pt_failedPieces := pt_failedPieces r; pt_once := pt_once r;
     pt_success := pt_success r; pt_done := pt_done r; pt_failedCode := pt_failedCode r;
     pt_failedReason := pt_failedReason r; pt_sent := pt_sent r;
     pt_progress := pt_progress r; pt_results := v |}.

(** The peer task with what its callback works on. *)
Record Client := mkClient {
  cl_fs : FS;
  cl_store : localTaskStore;
  cl_task : filePeerTask;
}.

Definition updPT (f : filePeerTask → filePeerTask) (c : Client) : Client :=
  mkClient (cl_fs c) (cl_store c) (f (cl_task c)).

(** What the task and its callback are configured with. *)
Record ClientConfig := mkClientConfig {
  cc_calculateDigest : bool;
  cc_Output : fpath;
  cc_disableBackSource : bool;
  cc_canLink : bool;         (* the output is on the device of the store *)
}.

(** The task [newFilePeerTask] starts with. *)
Definition failedReasonNotSet : string := "unknown".

Definition newFilePeerTask (taskID peerID : string) : filePeerTask :=
  {| pt_taskID := taskID; pt_peerID := peerID; pt_totalPiece := -1; pt_md5 := "";
     pt_contentLength := -1; pt_completedLength := 0; pt_usedTraffic := 0;
     pt_readyPieces := NewBitmap; pt_requestedPieces := NewBitmap; pt_failedPieces := [];
     pt_once := false; pt_success := false; pt_done := false;
     pt_failedCode := Code_UnknownError; pt_failedReason := failedReasonNotSet; pt_sent := [];
     pt_progress := []; pt_results := [] |}.

(** ** pkg/rpc/scheduler/scheduler.go *)

Definition NewEndPieceResult (taskID peerID : string) (finishedCount : Z) : PieceResult :=
  {| pr_TaskId := taskID; pr_SrcPid := peerID; pr_DstPid := "";
     pr_PieceInfo := Some (mkPieceInfo EndOfPiece 0 0 "" 0 0);
     pr_BeginTime := 0; pr_EndTime := 0; pr_Success := false; pr_Code := 0;
     pr_FinishedCount := finishedCount |}.

Definition set_pr_FinishedCount (v : Z) (r : PieceResult) : PieceResult :=
  {| pr_TaskId := pr_TaskId r; pr_SrcPid := pr_SrcPid r; pr_DstPid := pr_DstPid r;
     pr_PieceInfo := pr_PieceInfo r; pr_BeginTime := pr_BeginTime r; pr_EndTime := pr_EndTime r;
     pr_Success := pr_Success r; pr_Code := pr_Code r; pr_FinishedCount := v |}.

(** ** peertask_base.go *)

Definition isCompleted (t : filePeerTask) : bool := pt_completedLength t =? pt_contentLength t.

Definition AddTraffic (n : Z) (t : filePeerTask) : filePeerTask :=
  set_pt_usedTraffic (uint64 (pt_usedTraffic t + n)) t.

(** The search loop of [getNextPieceNum]. *)
Fixpoint nextUnset (fuel : nat) (b : Bitmap) (i : Z) : Outcome Z :=
  match fuel with
  | O => Diverge
  | S fuel =>
      set ← Bitmap_IsSet b i;
      if set : bool then nextUnset fuel b (int32 (i + 1)) else Ok i
  end.

Definition searchFuel (b : Bitmap) : nat := S (Z.to_nat (bm_cap b)).

Definition getNextPieceNum (t : filePeerTask) (cur : Z) : Outcome Z :=
  let b := pt_requestedPieces t in
  if isCompleted t then Ok (-1)
  else
    i ← nextUnset (searchFuel b) b cur;
    if (0 <? pt_totalPiece t) && (pt_totalPiece t <=? i) then
      i ← nextUnset (searchFuel b) b 0;
      if (0 <? pt_totalPiece t) && (pt_totalPiece t <=? i) then Ok (-1) else Ok i
    else Ok i.

Section Task.
Context (md5 : list byte → string) (sha256 : string → string) {C : MetadataCodec}.
Context (cfg : ClientConfig) (now : Z).

(** ** peertask_file_callback.go *)

Definition callback_ValidateDigest (c : Client) : Client * option StoreError :=
  if cc_calculateDigest cfg then
    let '(store, err) := localTaskStore_ValidateDigest sha256 (cl_store c) in
    (mkClient (cl_fs c) store (cl_task c), err)
  else (c, None).

Definition peerResult (success : bool) (code : Code) (t : filePeerTask) : PeerResult :=
  {| res_TaskId := pt_taskID t; res_PeerId := pt_peerID t;
     res_ContentLength := pt_contentLength t; res_Success := success; res_Code := code;
     res_TotalPieceCount := pt_totalPiece t |}.

Definition addResult (r : PeerResult) (t : filePeerTask) : filePeerTask :=
  set_pt_results (pt_results t ++ [r]) t.

Definition callback_Done (c : Client) : Client * option StoreError :=
  let t := cl_task c in
  let '(fs, store, err) :=
    localTaskStore_Store (cc_canLink cfg) (cl_fs c) now (cl_store c)
      (mkStoreRequest (cc_Output cfg) false false (pt_totalPiece t)) in
  let c := mkClient fs store t in
  match err with
  | Some e => (c, Some e)
  | None => (updPT (addResult (peerResult true Code_Success t)) c, None)
  end.

Definition callback_Fail (c : Client) (code : Code) : Client :=
  updPT (λ t, addResult (peerResult false code t) t) c.

(** ** peertask_file.go *)

Definition sendResult (r : PieceResult) (t : filePeerTask) : filePeerTask :=
  set_pt_sent (pt_sent t ++ [r]) t.

Definition sendProgress (success : bool) (code : Code) (done : bool) (t : filePeerTask)
    : filePeerTask :=
  set_pt_progress
    (pt_progress t ++ [mkProgress success code (pt_contentLength t) (pt_completedLength t) done]) t.

Definition sendEnd (t : filePeerTask) : filePeerTask :=
  sendResult (NewEndPieceResult (pt_taskID t) (pt_peerID t)
                (Bitmap_Settled (pt_readyPieces t))) t.

Definition cleanUnfinished (c : Client) : Client :=
  if pt_once (cl_task c) then c
  else
    let c := updPT (λ t, sendEnd (set_pt_once true t)) c in
    let c := callback_Fail c (pt_failedCode (cl_task c)) in
    updPT (λ t, set_pt_done true (sendProgress false (pt_failedCode t) true t)) c.

Definition finish (c : Client) : Client * option StoreError :=
  match callback_ValidateDigest c with
  | (c, Some e) => (cleanUnfinished c, Some e)
  | (c, None) =>
      if pt_once (cl_task c) then (c, None)
      else
        let c := updPT (λ t, sendEnd (set_pt_once true t)) c in
        let '(c, err) := callback_Done c in
        let '(success, code) := match err with
                                | Some _ => (false, Code_ClientError)
                                | None => (true, Code_Success)
                                end in
        (updPT (λ t, set_pt_done true (set_pt_success true (sendProgress success code true t))) c,
         err)
  end.

Record pieceTaskResult := mkPieceTaskResult {
  tr_piece : PieceInfo;
  tr_result : PieceResult;
  tr_notRetry : bool;
}.

(** A panic of the bitmap is recovered, with the lock held: the task is stuck. *)
Definition filePeerTask_ReportPieceResult (c : Client) (r : pieceTaskResult)
    : Outcome (Client * option StoreError) :=
  let t := cl_task c in
  let num := PieceNum (tr_piece r) in
  if negb (pr_Success (tr_result r)) then
    let c := updPT (sendResult (set_pr_FinishedCount (Bitmap_Settled (pt_readyPieces t))
                                    (tr_result r))) c in
    if tr_notRetry r then Ok (c, None)
    else Ok (updPT (λ t, set_pt_failedPieces (pt_failedPieces t ++ [num]) t) c, None)
  else
    set ← Bitmap_IsSet (pt_readyPieces t) num;
    if set : bool then Ok (c, None)
    else
      ready ← Bitmap_Set (pt_readyPieces t) num;
      let c := updPT (λ t, set_pt_completedLength
                               (int64 (pt_completedLength t + RangeSize (tr_piece r)))
                               (set_pt_readyPieces ready t)) c in
      let c := updPT (sendResult (set_pr_FinishedCount (Bitmap_Settled ready) (tr_result r))) c in
      let c := updPT (sendProgress true (pr_Code (tr_result r)) false) c in
      if isCompleted (cl_task c) then Ok (finish c) else Ok (c, None).

Definition filePeerTask_SetContentLength (c : Client) (i : Z) : Client * option StoreError :=
  let c := updPT (set_pt_contentLength i) c in
  if isCompleted (cl_task c) then finish c
  else (c, Some (ErrReader "SetContentLength should call after task completed")).

Definition filePeerTask_SetTotalPieces (i : Z) (c : Client) : Client :=
  updPT (set_pt_totalPiece i) c.

End Task.
