(* ===== verification/PieceManager.v ===== *)
(** * PieceManager: client/daemon/peer/piece_manager.go

    Downloading a piece from another peer, and the whole file from its source.
    The source answers with a stream of bytes; the rate limiter, MD5 and SHA-256 are parameters. *)

From S2P Require Import Prelude World PieceSize FileSystem LocalStorage Bitmap PeerTask.
From stdpp Require Import options.
Local Open Scope Z_scope.

(** [int32(math.Ceil(float64(a) / float64(b)))]: exact for lengths below 2^53,
    where the conversions lose nothing and the quotient of two integers that is
    not an integer does not round to one. *)
Definition ceilDiv (a b : Z) : Z := int32 (- (- a / b)).

Section Manager.
Context (md5 : list byte → string) (sha256 : string → string) {C : MetadataCodec}.
Context (cfg : ClientConfig) (now : Z).
(** [Limiter.WaitN], for a size; no limiter never fails. *)
Context (waitN : Z → option StoreError).

(** ** The reports *)

Definition pushSuccessResult (c : Client) (dstPid : string) (piece : PieceInfo) (start end_ : Z)
    : Outcome Client :=
  fst <$> filePeerTask_ReportPieceResult sha256 cfg now c
    (mkPieceTaskResult piece
       {| pr_TaskId := pt_taskID (cl_task c); pr_SrcPid := pt_peerID (cl_task c);
          pr_DstPid := dstPid; pr_PieceInfo := Some piece; pr_BeginTime := uint64 start;
          pr_EndTime := uint64 end_; pr_Success := true; pr_Code := Code_Success;
          pr_FinishedCount := int32 (PieceNum piece + 1) |} false).

Definition pushFailResult (c : Client) (dstPid : string) (piece : PieceInfo) (start end_ : Z)
    (notRetry : bool) : Outcome Client :=
  fst <$> filePeerTask_ReportPieceResult sha256 cfg now c
    (mkPieceTaskResult piece
       {| pr_TaskId := pt_taskID (cl_task c); pr_SrcPid := pt_peerID (cl_task c);
          pr_DstPid := dstPid; pr_PieceInfo := Some piece; pr_BeginTime := uint64 start;
          pr_EndTime := uint64 end_; pr_Success := false;
          pr_Code := Code_ClientPieceDownloadFail; pr_FinishedCount := 0 |} notRetry).

Definition writePiece (c : Client) (req : WritePieceRequest)
    : Client * (Z * option StoreError) * Stream StoreError :=
  let '(fs, store, r, rest) := localTaskStore_WritePiece md5 (cl_fs c) now (cl_store c) req in
  (mkClient fs store (cl_task c), r, rest).

Definition addTraffic (n : Z) (c : Client) : Client :=
  if 0 <? n then updPT (AddTraffic (uint64 n)) c else c.

Definition storeUpdate (req : UpdateTaskRequest) (c : Client) : Client :=
  mkClient (cl_fs c) (localTaskStore_UpdateTask sha256 now (cl_store c) req) (cl_task c).

(** ** DownloadPiece: [download] is what the piece downloader answers *)

Definition pieceManager_DownloadPiece (c : Client) (dstPid : string) (piece : PieceInfo)
    (download : StoreError + Reader) : Outcome (Client * bool) :=
  let fail c end_ := (λ c, (c, false)) <$> pushFailResult c dstPid piece now end_ false in
  match waitN (RangeSize piece) with
  | Some _ => fail c 0
  | None =>
      match download with
      | inl _ => fail c 0
      | inr r =>
          let '(c, (n, err), _) :=
            writePiece c
              (mkWritePieceRequest
                 (mkPieceMetadata (PieceNum piece) (PieceMd5 piece) (PieceOffset piece)
                    (mkRange (int64 (RangeStart piece)) (RangeSize piece)) 0)
                 false r) in
          let c := addTraffic n c in
          match err with
          | Some _ => fail c now
          | None => (λ c, (c, true)) <$> pushSuccessResult c dstPid piece now now
          end
      end
  end.

(** ** DownloadSource *)

Definition sourceReader (body : Stream StoreError) : Reader :=
  if cc_calculateDigest cfg then DigestReader [] body else PlainReader body.

(** The bytes a stream has given up. *)
Definition consumed (before after : Stream StoreError) : list byte :=
  take (length (s_data before) - length (s_data after)) (s_data before).

Definition processPieceFromSource (c : Client) (body : Stream StoreError)
    (contentLength pieceNum pieceOffset pieceSize : Z) (callback : Client → Z → Client)
    : Outcome (Client * Stream StoreError * (Z * option StoreError)) :=
  let self := pt_peerID (cl_task c) in
  let info size digest := mkPieceInfo pieceNum pieceOffset size digest pieceOffset 0 in
  match waitN pieceSize with
  | Some e =>
      c ← pushFailResult c self (info pieceSize "") now 0 true;
      Ok (c, body, (0, Some e))
  | None =>
      let '(c, (n, err), rest) :=
        writePiece c
          (mkWritePieceRequest
             (mkPieceMetadata pieceNum "" pieceOffset (mkRange (int64 pieceOffset) pieceSize) 0)
             (contentLength =? -1) (sourceReader body)) in
      let size := if negb (n =? pieceSize) && (0 <? n) then uint32 n else pieceSize in
      let c := addTraffic n c in
      match err with
      | Some e =>
          c ← pushFailResult c self (info size "") now now true;
          Ok (c, rest, (n, Some e))
      | None =>
          let digest := if cc_calculateDigest cfg then md5 (consumed body rest) else ""%string in
          let c := callback c n in
          c ← pushSuccessResult c self (info size digest) now now;
          Ok (c, rest, (n, None))
      end
  end.

(** The loop for a known length; [nums] are the piece numbers still to come. *)
Fixpoint knownLoop (contentLength pieceSize maxPieceNum : Z) (nums : list Z) (c : Client)
    (body : Stream StoreError) : Outcome (Client * option StoreError) :=
  match nums with
  | [] => Ok (filePeerTask_SetContentLength sha256 cfg now c contentLength)
  | pieceNum :: nums =>
      let offset := uint64 (pieceNum * pieceSize) in
      let size := if (0 <? contentLength) && (contentLength <? int64 offset + pieceSize)
                  then uint32 (contentLength - int64 offset) else pieceSize in
      '(c, rest, (n, err)) ←
        processPieceFromSource c body contentLength pieceNum offset size
          (λ c n, if pieceNum =? maxPieceNum - 1
                  then storeUpdate (mkUpdateTaskRequest contentLength maxPieceNum "" true) c
                  else c);
      match err with
      | Some e => Ok (c, Some e)
      | None =>
          if negb (n =? size) then Ok (c, Some ErrShortRead)
          else knownLoop contentLength pieceSize maxPieceNum nums c rest
      end
  end.

(** The loop for an unknown length, until a piece is not full. *)
Fixpoint unknownLoop (fuel : nat) (pieceSize pieceNum : Z) (c : Client)
    (body : Stream StoreError) : Outcome (Client * option StoreError) :=
  match fuel with
  | O => Diverge
  | S fuel =>
      let offset := uint64 (pieceNum * pieceSize) in
      let total n := pieceNum * pieceSize + n in
      '(c, rest, (n, err)) ←
        processPieceFromSource c body (-1) pieceNum offset pieceSize
          (λ c n,
             if n =? pieceSize then c
             else
               let c := filePeerTask_SetTotalPieces (ceilDiv (total n) pieceSize) c in
               storeUpdate (mkUpdateTaskRequest (total n) (pt_totalPiece (cl_task c)) "" true) c);
      match err with
      | Some e => Ok (c, Some e)
      | None =>
          if n <? pieceSize
          then Ok (filePeerTask_SetContentLength sha256 cfg now c (total n))
          else unknownLoop fuel pieceSize (int32 (pieceNum + 1)) c rest
      end
  end.

Definition unknownFuel (body : Stream StoreError) : nat := S (length (s_data body)).

(** The reader that checks the digest of the whole at its end. *)
Definition checkDigest (digest : string) (body : Stream StoreError) : Stream StoreError :=
  if cc_calculateDigest cfg && bool_decide (digest ≠ ""%string) then
    match s_err body with
    | None => if decide (md5 (s_data body) = digest) then body
              else mkStream (s_data body) (Some ErrDigestNotMatch)
    | Some _ => body
    end
  else body.

(** What the source answers: the content length (negative when it does not
    say) and the response of the download. *)
Definition pieceManager_DownloadSource (computePieceSize : Z → Z) (c : Client) (digest : string)
    (contentLength : Z) (response : StoreError + Stream StoreError)
    : Outcome (Client * option StoreError) :=
  let c := if contentLength <? 0 then c
           else storeUpdate (mkUpdateTaskRequest contentLength 0 "" false) c in
  match response with
  | inl e => Ok (c, Some e)
  | inr body =>
      let body := checkDigest digest body in
      let pieceSize := computePieceSize contentLength in
      if contentLength <? 0 then unknownLoop (unknownFuel body) pieceSize 0 c body
      else
        let maxPieceNum := ceilDiv contentLength pieceSize in
        knownLoop contentLength pieceSize maxPieceNum (seqZ 0 maxPieceNum) c body
  end.

(** ** peertask_file.go: backSource *)

Definition filePeerTask_backSource (computePieceSize : Z → Z) (c : Client) (digest : string)
    (contentLength : Z) (response : StoreError + Stream StoreError) : Outcome Client :=
  if cc_disableBackSource cfg then
    Ok (cleanUnfinished (updPT (set_pt_failedReason reasonBackSourceDisabled) c))
  else
    '(c, err) ← pieceManager_DownloadSource computePieceSize c digest contentLength response;
    match err with
    | Some e => Ok (cleanUnfinished (updPT (set_pt_failedReason (StoreError_Error e)) c))
    | None => Ok (cleanUnfinished (finish sha256 cfg now c).1)
    end.

End Manager.
