(* ===== verification/PullPieces.v ===== *)
(** * PullPieces: client/daemon/peer/peertask_base.go, pieces from other peers

    The goroutines of a peer task that downloads from its peers: the one that
    receives the peers from the scheduler ([receivePeerPacket]), the one that
    asks the peers for pieces and hands them out ([pullPiecesFromPeers]), and
    the workers that download them ([downloadPieceWorker]).  They take steps
    under a schedule; what the scheduler and the peers answer comes with the
    steps.  A step is what happens between two operations on a channel or
    between two critical sections.  The receiver of the progress is taken to
    receive at once. *)

From S2P Require Import Prelude World PieceSize FileSystem LocalStorage Bitmap PeerTask PieceManager.
From stdpp Require Import pretty options.
Local Open Scope Z_scope.

Definition DefaultPieceChanSize : nat := 16.

Definition reasonScheduleTimeout : string := "wait first peer packet from scheduler timeout".
Definition reasonReScheduleTimeout : string := "wait more available peers from scheduler timeout".
Definition reasonContextCanceled : string := "context canceled".
Definition reasonPeerGoneFromScheduler : string := "scheduler says client should disconnect".
Definition failedCodeNotSet : Code := 0.

(** The packet of the scheduler, as the client gets it. *)
Record SchedulerPacket := mkSchedulerPacket {
  sp_Code : Code;
  sp_MainPeer : option DestPeer;
  sp_StealPeers : list DestPeer;
  sp_ParallelCount : Z;    (* int32 *)
}.

(** What [peerPacketStream.Recv] answers. *)
Inductive RecvAnswer :=
  | RecvPacket (p : SchedulerPacket)
  | RecvEOF
  | RecvError (de : option (Code * string)).    (* a DfError, or another error *)

(** The errors of [dfclient.GetPieceTasks] and of the retries around it. *)
Inductive GetError :=
  | ErrDf (code : Code)
  | ErrCanceled                (* a gRPC error with the code Canceled *)
  | ErrGet.                    (* another error; also an empty answer, or the context *)

#[export] Instance GetError_eq_dec : EqDecision GetError.
Proof. solve_decision. Defined.

(** The peers in use, with the identity of their packet. *)
Record PeerPacketRef := mkPeerPacketRef {
  pk_id : nat;
  pk_MainPeer : DestPeer;
  pk_StealPeers : list DestPeer;
  pk_ParallelCount : Z;
}.

Record DownloadPieceRequest := mkDownloadPieceRequest {
  dr_DstPid : string;
  dr_piece : PieceInfo;
}.

(** Where [preparePieceTasks] is: in the call of [GetPieceTasks] on [ps_peer]. *)
Record Prepare := mkPrepare {
  ps_retryCount : Z;
  ps_packet : PeerPacketRef;
  ps_peer : DestPeer;
  ps_rest : list DestPeer;       (* the steal peers still to ask *)
  ps_count : nat;                (* the empty answers so far *)
}.

Inductive Main :=
  | MSingle (dst : string) (piece : PieceInfo)
  | MWaitFirst
  | MSelect (num limit : Z)
  | MPrepare (num limit : Z) (ps : Prepare)
  | MWaitPeer (limit : Z)
  | MDispatch (num : Z) (reqs : list DownloadPieceRequest)
  | MNext (num : Z)
  | MWaitCheck                   (* in [waitFailedPiece], before [isCompleted] *)
  | MWaitFailed
  | MClean                       (* before the deferred [cleanUnfinished] *)
  | MExited.

Inductive PieceWorker :=
  | WIdle
  | WHas (r : DownloadPieceRequest)
  | WDownload (r : DownloadPieceRequest)
  | WMark (r : DownloadPieceRequest)          (* stored, before the lock of the report *)
  | WTail (r : DownloadPieceRequest)          (* marked, before the rest of the report *)
  | WBlocked (num : Z) (limited : option string)   (* reporting a failure; the limiter's ends the worker *)
  | WExited.

Inductive Receiver :=
  | RLoop
  | RSignal                      (* a packet is stored, before the signal *)
  | RExited.

Inductive RecvChoice :=
  | RcExit                       (* the end of the task or of its context *)
  | RcGo
  | RcRecv (answer : RecvAnswer).

Record Puller := mkPuller {
  pu_client : Client;
  pu_ctxDone : bool;
  pu_packet : option PeerPacketRef;
  pu_parallelCount : Z;
  pu_ready : bool;               (* a signal in peerPacketReady *)
  pu_readyClosed : bool;
  pu_needBackSource : bool;
  pu_initialized : bool;
  pu_requests : list DownloadPieceRequest;    (* pieceRequestCh *)
  pu_receiver : Receiver;
  pu_main : Main;
  pu_workers : list PieceWorker;
}.

Definition set_pu_client (c : Client) (p : Puller) : Puller :=
  mkPuller c (pu_ctxDone p) (pu_packet p) (pu_parallelCount p) (pu_ready p) (pu_readyClosed p)
    (pu_needBackSource p) (pu_initialized p) (pu_requests p) (pu_receiver p) (pu_main p) (pu_workers p).
Definition set_pu_ctxDone (v : bool) (p : Puller) : Puller :=
  mkPuller (pu_client p) v (pu_packet p) (pu_parallelCount p) (pu_ready p) (pu_readyClosed p)
    (pu_needBackSource p) (pu_initialized p) (pu_requests p) (pu_receiver p) (pu_main p) (pu_workers p).
Definition set_pu_packet (k : PeerPacketRef) (p : Puller) : Puller :=
  mkPuller (pu_client p) (pu_ctxDone p) (Some k) (pk_ParallelCount k) (pu_ready p) (pu_readyClosed p)
    (pu_needBackSource p) (pu_initialized p) (pu_requests p) (pu_receiver p) (pu_main p) (pu_workers p).
Definition set_pu_parallelCount (v : Z) (p : Puller) : Puller :=
  mkPuller (pu_client p) (pu_ctxDone p) (pu_packet p) v (pu_ready p) (pu_readyClosed p)
    (pu_needBackSource p) (pu_initialized p) (pu_requests p) (pu_receiver p) (pu_main p) (pu_workers p).
Definition set_pu_ready (ready closed : bool) (p : Puller) : Puller :=
  mkPuller (pu_client p) (pu_ctxDone p) (pu_packet p) (pu_parallelCount p) ready closed
    (pu_needBackSource p) (pu_initialized p) (pu_requests p) (pu_receiver p) (pu_main p) (pu_workers p).
Definition set_pu_needBackSource (v : bool) (p : Puller) : Puller :=
  mkPuller (pu_client p) (pu_ctxDone p) (pu_packet p) (pu_parallelCount p) (pu_ready p) (pu_readyClosed p)
    v (pu_initialized p) (pu_requests p) (pu_receiver p) (pu_main p) (pu_workers p).
Definition set_pu_requests (rs : list DownloadPieceRequest) (p : Puller) : Puller :=
  mkPuller (pu_client p) (pu_ctxDone p) (pu_packet p) (pu_parallelCount p) (pu_ready p) (pu_readyClosed p)
    (pu_needBackSource p) (pu_initialized p) rs (pu_receiver p) (pu_main p) (pu_workers p).
Definition set_pu_receiver (r : Receiver) (p : Puller) : Puller :=
  mkPuller (pu_client p) (pu_ctxDone p) (pu_packet p) (pu_parallelCount p) (pu_ready p) (pu_readyClosed p)
    (pu_needBackSource p) (pu_initialized p) (pu_requests p) r (pu_main p) (pu_workers p).
Definition set_pu_main (m : Main) (p : Puller) : Puller :=
  mkPuller (pu_client p) (pu_ctxDone p) (pu_packet p) (pu_parallelCount p) (pu_ready p) (pu_readyClosed p)
    (pu_needBackSource p) (pu_initialized p) (pu_requests p) (pu_receiver p) m (pu_workers p).
Definition set_pu_workers (init : bool) (ws : list PieceWorker) (p : Puller) : Puller :=
  mkPuller (pu_client p) (pu_ctxDone p) (pu_packet p) (pu_parallelCount p) (pu_ready p) (pu_readyClosed p)
    (pu_needBackSource p) init (pu_requests p) (pu_receiver p) (pu_main p) ws.

Definition updTask (f : filePeerTask → filePeerTask) (p : Puller) : Puller :=
  set_pu_client (updPT f (pu_client p)) p.
Definition set_worker (i : nat) (w : PieceWorker) (p : Puller) : Puller :=
  set_pu_workers (pu_initialized p) (<[i := w]> (pu_workers p)) p.
Definition taskOf (p : Puller) : filePeerTask := cl_task (pu_client p).
Definition set_failed (code : Code) (reason : string) (t : filePeerTask) : filePeerTask :=
  set_pt_failedCode code (set_pt_failedReason reason t).

(** The books when the context ends. *)
Definition contextFailed (t : filePeerTask) : filePeerTask :=
  if pt_failedCode t =? failedCodeNotSet then set_failed Code_ClientContextCanceled reasonContextCanceled t else t.

(** ** receivePeerPacket *)

Definition exitCodes : list Code :=
  [Code_ResourceLacked; Code_BadRequest; Code_PeerTaskNotFound; Code_UnknownError; Code_RequestTimeOut;
   Code_SchedError; Code_SchedTaskStatusError; Code_SchedPeerGone;
   Code_CDNError; Code_CDNTaskRegistryFail; Code_CDNTaskDownloadFail].

(** The task with the reason to exit, when the code is one. *)
Definition isExitPeerPacketCode (code : Code) (t : filePeerTask) : option filePeerTask :=
  if decide (code ∈ exitCodes) then
    Some (set_failed code (if code =? Code_SchedPeerGone then reasonPeerGoneFromScheduler
                           else ("receive exit peer packet with code " +:+ pretty code)%string) t)
  else None.

Definition ended (p : Puller) : bool := pu_ctxDone p || pt_done (taskOf p).

(** [Recv] has answered. *)
Definition received (answer : RecvAnswer) (p : Puller) : Outcome Puller :=
  let exit := set_pu_receiver RExited p in
  match answer with
  | RecvEOF => Ok exit
  | RecvError de =>
      Ok (if pt_success (taskOf p) then exit
          else
            match de with
            | Some (code, message) =>
                if code =? Code_SchedNeedBackSource then
                  set_pu_needBackSource true
                    (set_pu_ready (pu_ready p) true (updTask (set_pt_failedCode Code_UnknownError) exit))
                else set_pu_ctxDone true (updTask (set_failed code message) exit)
            | None => set_pu_ctxDone true (updTask (set_pt_failedCode Code_UnknownError) exit)
            end)
  | RecvPacket k =>
      if negb (sp_Code k =? Code_Success) then
        Ok (match isExitPeerPacketCode (sp_Code k) (taskOf p) with
            | Some t => set_pu_ctxDone true (updTask (λ _, t) exit)
            | None => p
            end)
      else
        match sp_MainPeer k with
        | None => if decide (sp_StealPeers k = []) then Ok p else Panic NilDereference
        | Some main =>
            let id := S (match pu_packet p with Some k => pk_id k | None => 0%nat end) in
            Ok (set_pu_receiver RSignal
                  (set_pu_packet (mkPeerPacketRef id main (sp_StealPeers k) (sp_ParallelCount k)) p))
        end
  end.

(** A step of [receivePeerPacket]; [None]: the choice is not open. *)
Definition receiveStep (c : RecvChoice) (p : Puller) : Outcome (option Puller) :=
  match pu_receiver p, c with
  | RLoop, RcRecv answer => Some <$> received answer p
  | RLoop, RcExit | RSignal, RcExit => Ok (if ended p then Some (set_pu_receiver RExited p) else None)
  | RSignal, RcGo =>
      Ok (if pu_ready p && ended p then None
          else Some (set_pu_receiver RLoop (set_pu_ready true (pu_readyClosed p) p)))
  | _, _ => Ok None
  end.

(** ** getPieceTasks, preparePieceTasksByPeer and preparePieceTasks *)

Inductive Attempt :=
  | AOk (packet : PiecePacket)
  | AChanged                     (* errPeerPacketChanged *)
  | AErr (e : GetError)
  | AAgain.

Inductive Prepared :=
  | PMore (ps : Prepare)
  | PErr
  | POk (packet : PiecePacket).

Definition maxAttempts : nat := 40.

Definition errorResult (p : Puller) (peer : DestPeer) (code : Code) (count : Z) : PieceResult :=
  {| pr_TaskId := pt_taskID (taskOf p); pr_SrcPid := pt_peerID (taskOf p); pr_DstPid := dest_PeerId peer;
     pr_PieceInfo := Some (mkPieceInfo 0 0 0 "" 0 0); pr_BeginTime := 0; pr_EndTime := 0;
     pr_Success := false; pr_Code := code; pr_FinishedCount := count |}.

Definition packetChanged (ps : Prepare) (p : Puller) : bool :=
  match pu_packet p with
  | Some k => negb (bool_decide (dest_PeerId (pk_MainPeer (ps_packet ps)) = dest_PeerId (pk_MainPeer k)))
  | None => false
  end.

(** One call of [GetPieceTasks] in the retries of [getPieceTasks]. *)
Definition getPieceTasks (startNum : Z) (ps : Prepare) (answer : GetError + PiecePacket) (p : Puller)
    : Puller * Attempt :=
  match answer with
  | inl e =>
      (p, if decide (e = ErrDf Code_BadRequest) then AErr e
          else if packetChanged ps p then AChanged else AErr e)
  | inr packet =>
      if negb (bool_decide (pp_PieceInfos packet = [])) then (p, AOk packet)
      else if (pt_contentLength (taskOf p) <? pp_ContentLength packet) ||
              (pt_totalPiece (taskOf p) <? pp_TotalPiece packet) then (p, AOk packet)
      else if (-1 <? pp_TotalPiece packet) && (uint32 (pp_TotalPiece packet) <=? uint32 startNum)
      then (p, AOk packet)
      else
        let p := updTask (λ t, sendResult (errorResult p (ps_peer ps) Code_ClientWaitPieceReady
                                             (Bitmap_Settled (pt_readyPieces t))) t) p in
        (p, if packetChanged ps p then AChanged
            else if pu_ctxDone p then AErr ErrGet
            else if (maxAttempts <=? S (ps_count ps))%nat then AErr ErrGet else AAgain)
  end.

Section Pull.
Context (md5 : list byte → string) (sha256 : string → string) {C : MetadataCodec}.
Context (cfg : ClientConfig) (now : Z).
(** The limiters of the piece manager and of the task, for a size. *)
Context (waitN taskLimit : Z → option StoreError).
(** The answer of the storage manager to the registration of the task. *)
Context (registered : option StoreError).
Context (getPiecesMaxRetry : Z) (disableAutoBackSource : bool).
(** What [backSource] needs: the size of pieces, the digest of the request, the
    length the source tells and its response. *)
Context (computePieceSize : Z → Z) (digest : string) (sourceLength : Z)
  (response : StoreError + Stream StoreError).

Definition prepareWith (retryCount : Z) (p : Puller) : option (Puller * Prepare) :=
  k ← pu_packet p;
  Some (set_pu_parallelCount (pk_ParallelCount k) p,
        mkPrepare retryCount k (pk_MainPeer k) (pk_StealPeers k) 0).

(** The next of the steal peers. *)
Definition nextPeer (ps : Prepare) : Prepared :=
  match ps_rest ps with
  | [] => PErr
  | peer :: rest => PMore (mkPrepare (ps_retryCount ps) (ps_packet ps) peer rest 0)
  end.

Definition errorCode (e : GetError) : Code :=
  match e with
  | ErrDf code => if 16 <? uint32 code then code else Code_ClientPieceRequestFail
  | _ => Code_ClientPieceRequestFail
  end.

(** [preparePieceTasks], from an answer of [GetPieceTasks] to the next call or
    to its result. *)
Definition preparePieceTasks (startNum : Z) (ps : Prepare) (answer : GetError + PiecePacket) (p : Puller)
    : Puller * Prepared :=
  match getPieceTasks startNum ps answer p with
  | (p, AOk packet) => (p, POk packet)
  | (p, AAgain) =>
      (p, PMore (mkPrepare (ps_retryCount ps) (ps_packet ps) (ps_peer ps) (ps_rest ps) (S (ps_count ps))))
  | (p, AChanged) =>
      if (0 <? getPiecesMaxRetry) && (getPiecesMaxRetry <? ps_retryCount ps) then (p, PErr)
      else
        match prepareWith (ps_retryCount ps + 1) p with
        | Some (p, ps) => (p, PMore ps)
        | None => (p, PErr)
        end
  | (p, AErr ErrCanceled) => (p, nextPeer ps)
  | (p, AErr e) =>
      let code := errorCode e in
      let p := updTask (sendResult (errorResult p (ps_peer ps) code (-1))) p in
      (p, if (code =? Code_CDNTaskNotFound) && bool_decide (Some (pk_id (ps_packet ps)) = pk_id <$> pu_packet p)
          then PMore (mkPrepare (ps_retryCount ps) (ps_packet ps) (ps_peer ps) (ps_rest ps) 0)
          else nextPeer ps)
  end.

(** ** pullPiecesFromPeers *)

(** [callback.Update] *)
Definition callback_Update (c : Client) : Client :=
  storeUpdate sha256 now
    (mkUpdateTaskRequest (pt_contentLength (cl_task c)) (pt_totalPiece (cl_task c)) (pt_md5 (cl_task c)) false) c.

(** [init]: the registration, and the workers. *)
Definition initPull (packet : PiecePacket) (p : Puller) : Puller * bool :=
  let p := updTask (set_pt_contentLength (pp_ContentLength packet)) p in
  match registered with
  | Some e => (set_pu_workers true (pu_workers p)
                 (updTask (set_failed Code_ClientError (StoreError_Error e)) p), false)
  | None =>
      let pc := match pu_packet p with Some k => pk_ParallelCount k | None => 0 end in
      (set_pu_workers true (replicate (Z.to_nat pc) WIdle) p, true)
  end.

(** The books, when a packet of pieces came. *)
Definition updateBooks (packet : PiecePacket) (c : Client) : Client :=
  let c := if pt_totalPiece (cl_task c) <? pp_TotalPiece packet
           then callback_Update (updPT (set_pt_totalPiece (pp_TotalPiece packet)) c) else c in
  let c := if bool_decide (pp_PieceMd5Sign packet ≠ ""%string) && bool_decide (pt_md5 (cl_task c) = ""%string)
           then callback_Update (updPT (set_pt_md5 (pp_PieceMd5Sign packet)) c) else c in
  if 0 <? pp_ContentLength packet
  then callback_Update (filePeerTask_SetContentLength sha256 cfg now c (pp_ContentLength packet)).1 else c.

(** The loop behind a successful [preparePieceTasks]. *)
Definition gotPieces (num : Z) (packet : PiecePacket) (p : Puller) : Puller :=
  let '(p, ok) := if pu_initialized p then (p, true) else initPull packet p in
  if negb ok then set_pu_main MClean p
  else
    set_pu_main (MDispatch num (mkDownloadPieceRequest (pp_DstPid packet) <$> pp_PieceInfos packet))
      (set_pu_client (updateBooks packet (pu_client p)) p).

(** [pt.backSource()], called from a wait for peers. *)
Definition goBackSource (p : Puller) : Outcome (option Puller) :=
  c ← filePeerTask_backSource md5 sha256 cfg now waitN computePieceSize (pu_client p) digest sourceLength response;
  Ok (Some (set_pu_main MClean (set_pu_ctxDone true (set_pu_needBackSource true (set_pu_client c p))))).

(** The timer of a wait for peers. *)
Definition waitTimeout (reason : string) (p : Puller) : Outcome (option Puller) :=
  if disableAutoBackSource
  then Ok (Some (set_pu_main MClean (updTask (set_failed Code_ClientScheduleTimeout reason) p)))
  else goBackSource p.

(** A signal in [peerPacketReady], or its end. *)
Definition takeReady (next : Main) (p : Puller) : Outcome (option Puller) :=
  if pu_ready p then Ok (Some (set_pu_main next (set_pu_ready false (pu_readyClosed p) p)))
  else if pu_readyClosed p then goBackSource p
  else Ok None.

Definition startPrepare (num limit : Z) (p : Puller) : option Puller :=
  '(p, ps) ← prepareWith 1 p;
  Some (set_pu_main (MPrepare num limit ps) p).

(** The reading of [failedPieceCh]. *)
Definition takeFailed (p : Puller) : option (Z * Puller) :=
  match pt_failedPieces (taskOf p) with
  | [] => None
  | num :: rest => Some (num, updTask (set_pt_failedPieces rest) p)
  end.

Inductive MainChoice :=
  | McGo                          (* the default of a select, or the only way on *)
  | McDone                        (* pt.done is closed *)
  | McCtx                         (* the context is done *)
  | McFailed                      (* a failed piece *)
  | McReady                       (* the signal of new peers *)
  | McTimeout
  | McAnswer (answer : GetError + PiecePacket)
  | McPiece (download : StoreError + Reader)
  | McSend.                       (* a request to the workers *)

(** The select at the head of the loop. *)
Definition selectStep (num limit : Z) (ch : MainChoice) (p : Puller) : Outcome (option Puller) :=
  let t := taskOf p in
  match ch with
  | McDone => Ok (if pt_done t then Some (set_pu_main MClean p) else None)
  | McCtx =>
      Ok (if negb (pu_ctxDone p) then None
          else Some (set_pu_main MClean
                 (if pt_success t then p
                  else
                    let p := updTask contextFailed p in
                    set_pu_client (callback_Fail (pu_client p) (pt_failedCode (taskOf p))) p)))
  | McFailed => Ok ('(failed, p) ← takeFailed p; startPrepare failed 1 p)
  | McGo => Ok (if ended p || negb (bool_decide (pt_failedPieces t = [])) then None else startPrepare num limit p)
  | _ => Ok None
  end.

Definition bufferSize : Z := Z.of_nat DefaultPieceChanSize.

Definition waitFirstPeerPacket (ch : MainChoice) (p : Puller) : Outcome (option Puller) :=
  match ch with
  | McCtx =>
      Ok (if negb (pu_ctxDone p) then None
          else Some (set_pu_main MClean
                 (if bool_decide (pt_failedReason (taskOf p) = failedReasonNotSet)
                  then updTask (set_pt_failedReason reasonContextCanceled) p else p)))
  | McReady => takeReady (MSelect 0 bufferSize) p
  | McTimeout => waitTimeout reasonScheduleTimeout p
  | _ => Ok None
  end.

(** [waitAvailablePeerPacket] *)
Definition waitPeerStep (limit : Z) (ch : MainChoice) (p : Puller) : Outcome (option Puller) :=
  match ch with
  | McDone => Ok (if pt_done (taskOf p) then Some (set_pu_main MClean p) else None)
  | McCtx =>
      Ok (if negb (pu_ctxDone p) then None
          else Some (set_pu_main MClean
                 (if pt_success (taskOf p) then p else updTask contextFailed p)))
  | McReady => takeReady (MSelect 0 limit) p
  | McTimeout => waitTimeout reasonReScheduleTimeout p
  | _ => Ok None
  end.

(** One piece of [dispatchPieceRequest]: marked, and sent or dropped. *)
Definition dispatchStep (num : Z) (r : DownloadPieceRequest) (reqs : list DownloadPieceRequest) (ch : MainChoice)
    (p : Puller) : Outcome (option Puller) :=
  let t := taskOf p in
  set ← Bitmap_IsSet (pt_requestedPieces t) (PieceNum (dr_piece r));
  requested ← (if set : bool then Ok (pt_requestedPieces t)
               else Bitmap_Set (pt_requestedPieces t) (PieceNum (dr_piece r)));
  let p := set_pu_main (MDispatch num reqs) (updTask (set_pt_requestedPieces requested) p) in
  Ok (match ch with
      | McSend => if (length (pu_requests p) <? DefaultPieceChanSize)%nat
                  then Some (set_pu_requests (pu_requests p ++ [r]) p) else None
      | McDone => if pt_done t then Some p else None
      | McCtx => if negb (pu_ctxDone p) then None
                 else Some (if pt_success t then p else updTask contextFailed p)
      | _ => None
      end).

(** [pullSinglePiece]; the other goroutines start when it fails. *)
Definition pullSinglePiece (dst : string) (piece : PieceInfo) (download : StoreError + Reader) (p : Puller)
    : Outcome (option Puller) :=
  let p := updTask (λ t, set_pt_md5 (Sha256 sha256 [PieceMd5 piece])
                           (set_pt_totalPiece 1 (set_pt_contentLength (RangeSize piece) t))) p in
  match registered with
  | Some e =>
      let p := updTask (set_failed Code_ClientError (StoreError_Error e)) p in
      Ok (Some (set_pu_main MExited (set_pu_ctxDone true (set_pu_client (cleanUnfinished (pu_client p)) p))))
  | None =>
      '(c, ok) ← pieceManager_DownloadPiece md5 sha256 cfg now waitN (pu_client p) dst piece download;
      let p := set_pu_client c p in
      Ok (Some (if ok : bool then set_pu_main MExited p else set_pu_receiver RLoop (set_pu_main MWaitFirst p)))
  end.

(** [waitFailedPiece], before and after it has asked whether the task is complete. *)
Definition waitFailedPiece (checked : bool) (ch : MainChoice) (p : Puller) : Outcome (option Puller) :=
  let t := taskOf p in
  match checked, ch with
  | false, McGo => Ok (Some (set_pu_main (if isCompleted t then MClean else MWaitFailed) p))
  | true, McDone => Ok (if pt_done t then Some (set_pu_main MClean p) else None)
  | true, McCtx => Ok (if pu_ctxDone p then Some (set_pu_main MClean p) else None)
  | true, McFailed => Ok ('(failed, p) ← takeFailed p; Some (set_pu_main (MSelect failed 1) p))
  | _, _ => Ok None
  end.

Definition mainStep (ch : MainChoice) (p : Puller) : Outcome (option Puller) :=
  let t := taskOf p in
  match pu_main p, ch with
  | MSingle dst piece, McPiece download => pullSinglePiece dst piece download p
  | MWaitFirst, _ => waitFirstPeerPacket ch p
  | MSelect num limit, _ => selectStep num limit ch p
  | MPrepare num limit ps, McAnswer answer =>
      let '(p, r) := preparePieceTasks num ps answer p in
      Ok (Some (match r with
                | PMore ps => set_pu_main (MPrepare num limit ps) p
                | PErr => set_pu_main (MWaitPeer limit) p
                | POk packet => gotPieces num packet p
                end))
  | MWaitPeer limit, _ => waitPeerStep limit ch p
  | MDispatch num [], McGo => Ok (Some (set_pu_main (MNext num) p))
  | MDispatch num (r :: reqs), _ => dispatchStep num r reqs ch p
  | MNext num, McGo =>
      next ← getNextPieceNum t num;
      Ok (Some (set_pu_main (if next =? -1 then MWaitCheck else MSelect next bufferSize) p))
  | MWaitCheck, _ => waitFailedPiece false ch p
  | MWaitFailed, _ => waitFailedPiece true ch p
  | MClean, McGo =>
      Ok (Some (set_pu_main MExited (set_pu_ctxDone true (set_pu_client (cleanUnfinished (pu_client p)) p))))
  | _, _ => Ok None
  end.

(** ** downloadPieceWorker, with DownloadPiece and ReportPieceResult in steps *)

Definition successResult (c : Client) (dstPid : string) (piece : PieceInfo) : PieceResult :=
  {| pr_TaskId := pt_taskID (cl_task c); pr_SrcPid := pt_peerID (cl_task c);
     pr_DstPid := dstPid; pr_PieceInfo := Some piece; pr_BeginTime := uint64 now;
     pr_EndTime := uint64 now; pr_Success := true; pr_Code := Code_Success;
     pr_FinishedCount := int32 (PieceNum piece + 1) |}.

Definition failResult (c : Client) (dstPid : string) (piece : PieceInfo) (code : Code) (begin end_ : Z) : PieceResult :=
  {| pr_TaskId := pt_taskID (cl_task c); pr_SrcPid := pt_peerID (cl_task c);
     pr_DstPid := dstPid; pr_PieceInfo := Some piece; pr_BeginTime := begin; pr_EndTime := end_;
     pr_Success := false; pr_Code := code; pr_FinishedCount := 0 |}.

(** [DownloadPiece] up to its report: the time of the end, when it fails. *)
Definition downloadWrite (c : Client) (piece : PieceInfo) (download : StoreError + Reader)
    : Client * option Z :=
  match waitN (RangeSize piece) with
  | Some _ => (c, Some 0)
  | None =>
      match download with
      | inl _ => (c, Some 0)
      | inr r =>
          let '(c, (n, err), _) :=
            writePiece md5 now c
              (mkWritePieceRequest
                 (mkPieceMetadata (PieceNum piece) (PieceMd5 piece) (PieceOffset piece)
                    (mkRange (int64 (RangeStart piece)) (RangeSize piece)) 0)
                 false r) in
          (addTraffic n c, match err with Some _ => Some now | None => None end)
      end
  end.

(** The report of a failure, up to the select. *)
Definition reportFail (r : PieceResult) (c : Client) : Client :=
  updPT (sendResult (set_pr_FinishedCount (Bitmap_Settled (pt_readyPieces (cl_task c))) r)) c.

(** The report of a success: what happens under the lock, and whether the piece
    is new. *)
Definition reportMark (piece : PieceInfo) (c : Client) : Outcome (Client * bool) :=
  let t := cl_task c in
  set ← Bitmap_IsSet (pt_readyPieces t) (PieceNum piece);
  if set : bool then Ok (c, false)
  else
    ready ← Bitmap_Set (pt_readyPieces t) (PieceNum piece);
    Ok (updPT (λ t, set_pt_completedLength (int64 (pt_completedLength t + RangeSize piece))
                      (set_pt_readyPieces ready t)) c, true).

(** ... and behind it. *)
Definition reportTail (r : PieceResult) (c : Client) : Client * option StoreError :=
  let c := updPT (sendResult (set_pr_FinishedCount (Bitmap_Settled (pt_readyPieces (cl_task c))) r)) c in
  let c := updPT (sendProgress true (pr_Code r) false) c in
  if isCompleted (cl_task c) then finish sha256 cfg now c else (c, None).

Inductive WorkerChoice :=
  | WcGo
  | WcExit                                        (* the end of the task or of its context *)
  | WcDownload (download : StoreError + Reader).  (* the answer of the piece downloader *)

Definition workerStep (i : nat) (ch : WorkerChoice) (p : Puller) : Outcome (option Puller) :=
  let c := pu_client p in
  match pu_workers p !! i, ch with
  | Some WIdle, WcGo =>
      Ok (match pu_requests p with
          | [] => None
          | r :: rest => Some (set_worker i (WHas r) (set_pu_requests rest p))
          end)
  | Some WIdle, WcExit => Ok (if ended p then Some (set_worker i WExited p) else None)
  | Some (WHas r), WcGo =>
      set ← Bitmap_IsSet (pt_readyPieces (cl_task c)) (PieceNum (dr_piece r));
      Ok (Some
        (if set : bool then set_worker i WIdle p
         else
           match taskLimit (RangeSize (dr_piece r)) with
           | Some e =>
               set_worker i (WBlocked (PieceNum (dr_piece r)) (Some (StoreError_Error e)))
                 (set_pu_client (reportFail (failResult c (dr_DstPid r) (dr_piece r) Code_ClientRequestLimitFail 0 0) c) p)
           | None => set_worker i (WDownload r) p
           end))
  | Some (WDownload r), WcDownload download =>
      Ok (Some
        (match downloadWrite c (dr_piece r) download with
         | (c, None) => set_worker i (WMark r) (set_pu_client c p)
         | (c, Some end_) =>
             set_worker i (WBlocked (PieceNum (dr_piece r)) None)
               (set_pu_client
                  (reportFail (failResult c (dr_DstPid r) (dr_piece r) Code_ClientPieceDownloadFail (uint64 now) (uint64 end_)) c) p)
         end))
  | Some (WMark r), WcGo =>
      '(c, new) ← reportMark (dr_piece r) c;
      Ok (Some (set_worker i (if new : bool then WTail r else WIdle) (set_pu_client c p)))
  | Some (WTail r), WcGo =>
      Ok (Some (set_worker i WIdle (set_pu_client (reportTail (successResult c (dr_DstPid r) (dr_piece r)) c).1 p)))
  | Some (WTail r), WcExit =>
      (* the progress is not sent when the context is done *)
      Ok (if pu_ctxDone p then
            Some (set_worker i WIdle
                    (set_pu_client
                       (updPT (sendResult (set_pr_FinishedCount (Bitmap_Settled (pt_readyPieces (cl_task c)))
                                             (successResult c (dr_DstPid r) (dr_piece r)))) c) p))
          else None)
  | Some (WBlocked num limited), WcGo | Some (WBlocked num limited), WcExit =>
      let leave p :=
        match limited with
        | Some reason =>
            set_worker i WExited (set_pu_ctxDone true (updTask (set_failed Code_ClientRequestLimitFail reason) p))
        | None => set_worker i WIdle p
        end in
      Ok (match ch with
          | WcGo => if (length (pt_failedPieces (cl_task c)) <? DefaultPieceChanSize)%nat
                    then Some (leave (updTask (λ t, set_pt_failedPieces (pt_failedPieces t ++ [num]) t) p)) else None
          | _ => if ended p then Some (leave p) else None
          end)
  | _, _ => Ok None
  end.

(** ** Schedules *)

Inductive PullChoice :=
  | PcCancel                        (* the context of the request ends *)
  | PcReceive (c : RecvChoice)
  | PcMain (c : MainChoice)
  | PcWorker (i : nat) (c : WorkerChoice).

Definition pullStep (c : PullChoice) (p : Puller) : Outcome (option Puller) :=
  match c with
  | PcCancel => Ok (Some (set_pu_ctxDone true p))
  | PcReceive c => receiveStep c p
  | PcMain c => mainStep c p
  | PcWorker i c => workerStep i c p
  end.

Fixpoint runPull (sched : list PullChoice) (p : Puller) : Outcome (option Puller) :=
  match sched with
  | [] => Ok (Some p)
  | c :: sched =>
      r ← pullStep c p;
      match r with
      | Some p => runPull sched p
      | None => Ok None
      end
  end.

(** [pullPieces] *)
Definition pullPieces (single : option (string * PieceInfo)) (c : Client) : Puller :=
  match single with
  | Some (dst, piece) => mkPuller c false None 0 false false false false [] RExited (MSingle dst piece) []
  | None => mkPuller c false None 0 false false false false [] RLoop MWaitFirst []
  end.

(** ** The steps make up the calls *)

Lemma DownloadPiece_steps c dst piece download :
  pieceManager_DownloadPiece md5 sha256 cfg now waitN c dst piece download =
    match downloadWrite c piece download with
    | (c, Some end_) => (λ c, (c, false)) <$> pushFailResult sha256 cfg now c dst piece now end_ false
    | (c, None) => (λ c, (c, true)) <$> pushSuccessResult sha256 cfg now c dst piece now now
    end.
Proof.
  unfold pieceManager_DownloadPiece, downloadWrite. destruct (waitN _); [done|]. destruct download; [done|].
  destruct (writePiece _ _ _ _) as [[? [? [?|]]] ?]; done.
Qed.

Lemma pushSuccess_steps c dst piece :
  pushSuccessResult sha256 cfg now c dst piece now now =
    '(c', new) ← reportMark piece c;
    Ok (if new : bool then (reportTail (successResult c dst piece) c').1 else c').
Proof.
  unfold pushSuccessResult, filePeerTask_ReportPieceResult, reportMark. simpl.
  destruct (Bitmap_IsSet _ _) as [[]| |]; [done| |done..]. simpl.
  destruct (Bitmap_Set _ _); [|done..]. simpl. unfold reportTail. simpl.
  by destruct (isCompleted _).
Qed.

Lemma pushFail_steps c dst piece end_ :
  pushFailResult sha256 cfg now c dst piece now end_ false =
    Ok (updPT (λ t, set_pt_failedPieces (pt_failedPieces t ++ [PieceNum piece]) t)
          (reportFail (failResult c dst piece Code_ClientPieceDownloadFail (uint64 now) (uint64 end_)) c)).
Proof. done. Qed.

End Pull.
