(* ===== verification/ClientDemo.v ===== *)
(** * ClientDemo: a small client daemon to evaluate the theorems on

    An instance of the metadata codec with its laws, digests, and a daemon with
    a registered task on a small file system. *)

From S2P Require Import Prelude World FileSystem LocalStorage GoFloat StorageManager Bitmap.
From S2P Require Import PeerTask PieceManager.
From Stdlib Require Import SpecFloat.
From stdpp Require Import pretty options.
Local Open Scope Z_scope.

(** ** A codec *)

(** Records are coded as the list of their fields. *)
#[export] Instance PieceMetadata_countable : Countable PieceMetadata.
Proof.
  refine (inj_countable
    (λ p, [encode (pm_Num p); encode (pm_Md5 p); encode (pm_Offset p); encode (Start (pm_Range p));
           encode (Length (pm_Range p)); encode (pm_Style p)])
    (λ l, match l with
          | [n; m; o; s; e; y] =>
              n ← decode n; m ← decode m; o ← decode o; s ← decode s; e ← decode e; y ← decode y;
              Some (mkPieceMetadata n m o (mkRange s e) y)
          | _ => None
          end) _).
  intros [n m o [s e] y]. cbn [pm_Num pm_Md5 pm_Offset pm_Range pm_Style Start Length]. by repeat (rewrite decode_encode; cbn [mbind option_bind]).
Defined.

#[export] Instance persistentMetadata_eq_dec : EqDecision persistentMetadata.
Proof. solve_decision. Defined.

#[export] Instance persistentMetadata_countable : Countable persistentMetadata.
Proof.
  refine (inj_countable
    (λ m, [encode (md_StoreStrategy m); encode (md_TaskID m); encode (md_TaskMeta m);
           encode (md_ContentLength m); encode (md_TotalPieces m); encode (md_PeerID m);
           encode (md_Pieces m); encode (md_PieceMd5Sign m); encode (md_DataFilePath m);
           encode (md_Done m)])
    (λ l, match l with
          | [a; b; c; d; e; f; g; h; i; j] =>
              a ← decode a; b ← decode b; c ← decode c; d ← decode d; e ← decode e;
              f ← decode f; g ← decode g; h ← decode h; i ← decode i; j ← decode j;
              Some (mkPersistentMetadata a b c d e f g h i j)
          | _ => None
          end) _).
  intros [a b c d e f g h i j]. cbn [md_StoreStrategy md_TaskID md_TaskMeta md_ContentLength
    md_TotalPieces md_PeerID md_Pieces md_PieceMd5Sign md_DataFilePath md_Done]. by repeat (rewrite decode_encode; cbn [mbind option_bind]).
Defined.

(** Digits and a closing brace. *)
Fixpoint demoPrint (p : positive) : list byte :=
  match p with
  | xH => [Byte.x7d]
  | xO p => Byte.x30 :: demoPrint p
  | xI p => Byte.x31 :: demoPrint p
  end.

Definition demoSpace (b : byte) : bool :=
  match b with Byte.x20 | Byte.x09 | Byte.x0a | Byte.x0d => true | _ => false end.

Fixpoint demoParse (l : list byte) : option positive :=
  match l with
  | Byte.x7d :: rest => if forallb demoSpace rest then Some xH else None
  | Byte.x30 :: rest => xO <$> demoParse rest
  | Byte.x31 :: rest => xI <$> demoParse rest
  | _ => None
  end.

#[export] Instance demoCodec : MetadataCodec := {|
  json_Marshal m := demoPrint (encode m);
  json_Unmarshal l := demoParse l ≫= decode;
|}.

Lemma demoParse_print p rest :
  demoParse (demoPrint p ++ rest) = if forallb demoSpace rest then Some p else None.
Proof. induction p as [p IH|p IH|]; simpl; rewrite ?IH; by destruct (forallb demoSpace rest). Qed.

#[export] Instance demoCodec_laws : MetadataCodecLaws demoCodec.
Proof.
  split.
  - intros m. simpl. rewrite <-(app_nil_r (demoPrint _)), demoParse_print. simpl. apply decode_encode.
  - intros m b rest H1 H2 H3 H4. simpl. rewrite demoParse_print. simpl.
    by destruct b.
Qed.

(** ** A daemon *)

Definition demoMd5 (l : list byte) : string := "m" +:+ pretty (length l).
Definition demoSha256 (s : string) : string := "s" +:+ s.

Lemma demoSha256_not_empty s : demoSha256 s ≠ ""%string.
Proof. done. Qed.

Definition demoDisk : FS := mkFS (<[["out"] := NodeDir]> {[ [] := NodeDir ]}) ∅ 1.

Definition demoOption : StorageOption :=
  mkStorageOption ["data"] 1000 0 (S754_zero false).

Definition demoStart : FS * storageManager :=
  match NewStorageManager demoDisk 100 "" demoOption with
  | (fs, inr s) => (fs, s)
  | (fs, inl _) => (fs, mkStorageManager (NewKeepAlive 0) "" demoOption ∅ 1 ∅ [] 0 ∅ [])
  end.

Definition demoRequest (peer : string) : RegisterTaskRequest :=
  mkRegisterTaskRequest (mkCommonTaskRequest peer "task" ["out"; "file"]) (-1) (-1) "".

Definition demoRegistered : FS * storageManager :=
  (storageManager_RegisterTask (λ _, true) demoStart.1 100 demoStart.2 (demoRequest "peer")).1.

Definition demoKey : PeerTaskMetadata := mkPeerTaskMetadata "peer" "task".

(** The client of the registered task. *)
Definition noStore : localTaskStore :=
  mkLocalTaskStore (mkPersistentMetadata "" "" ∅ 0 0 "" ∅ "" [] false) [] 1 false [] 0 0 false false.

Definition demoStore : localTaskStore :=
  match lookupTask demoRegistered.2 demoKey with Some (_, t) => t | None => noStore end.

Definition demoClient : Client :=
  mkClient demoRegistered.1 demoStore (newFilePeerTask "task" "peer").

Definition demoConfig : ClientConfig := mkClientConfig true ["out"; "file"] false true.

Definition demoContent : list byte := [Byte.x61; Byte.x62; Byte.x63; Byte.x64; Byte.x65].

Definition demoBody : Stream StoreError := mkStream demoContent None.
