(* ===== verification/PeerTaskProperties.v ===== *)
(** * PeerTaskProperties: the pieces of a peer task

    Which piece the task asks for next, the reports of its pieces, and the
    piece numbers its bitmap has no room for. *)

From S2P Require Import Prelude World FileSystem LocalStorage Bitmap PeerTask ClientDemo.
From stdpp Require Import options.
Local Open Scope Z_scope.

(** ** The next piece *)

(** With fuel for the numbers up to the capacity the search ends. *)
Lemma nextUnset_spec b fuel i :
  bitmap_ok b → 0 <= i → (Z.to_nat (bm_cap b - i) < fuel)%nat →
  ∃ r, nextUnset fuel b i = Ok r ∧ i <= r ∧ ¬ bm_mem b r ∧ (∀ j, i <= j < r → bm_mem b j).
Proof.
  intros Hok. pose proof (bm_small b Hok) as Hcap. revert i.
  induction fuel as [|fuel IH]; intros i Hi Hf; [lia|]. simpl.
  destruct (IsSet_total b i Hok Hi) as [[] Hset]; rewrite Hset; simpl.
  - pose proof (bm_mem_range b i Hset) as Hlt. rewrite int32_small by lia.
    destruct (IH (i + 1)) as (r & -> & Hle & Hn & Hall); [lia|lia|].
    exists r. do 2 (split; [done || lia|]). split; [done|]. intros j Hj.
    destruct (decide (j = i)) as [->|]; [done|]. apply Hall. lia.
  - exists i. split; [done|]. split; [lia|]. split; [|lia]. unfold bm_mem. by rewrite Hset.
Qed.

(** [getNextPieceNum] always returns.  While the task lacks bytes it names
    a piece that was not requested, within the pieces the task is known to
    have; it gives up only when every piece was requested. *)
Theorem getNextPieceNum_correct (t : filePeerTask) (cur : Z) :
  bitmap_ok (pt_requestedPieces t) → 0 <= cur →
  ∃ r, getNextPieceNum t cur = Ok r ∧
    (r = -1 → isCompleted t = true ∨
       0 < pt_totalPiece t ∧ ∀ i, 0 <= i < pt_totalPiece t → bm_mem (pt_requestedPieces t) i) ∧
    (r ≠ -1 → isCompleted t = false ∧ 0 <= r ∧ ¬ bm_mem (pt_requestedPieces t) r ∧
       (0 < pt_totalPiece t → r < pt_totalPiece t)).
Proof.
  intros Hok Hcur. set (b := pt_requestedPieces t) in *. pose proof (bm_small b Hok) as Hcap.
  unfold getNextPieceNum. fold b. destruct (isCompleted t) eqn:Hc.
  { exists (-1). split; [done|]. split; [by left|done]. }
  destruct (nextUnset_spec b (searchFuel b) cur Hok Hcur) as (r & -> & Hle & Hn & _);
    [unfold searchFuel; lia|]. cbn [mbind outcome_bind].
  destruct ((0 <? pt_totalPiece t) && (pt_totalPiece t <=? r)) eqn:Hwrap.
  2: { exists r. split; [done|]. split; [lia|]. intros _. do 3 (split; [done || lia|]).
       apply andb_false_iff in Hwrap as [?|?]; zbool; lia. }
  zbool. destruct (nextUnset_spec b (searchFuel b) 0 Hok) as (r0 & -> & Hle0 & Hn0 & Hall0);
    [lia|unfold searchFuel; lia|]. simpl.
  destruct ((0 <? pt_totalPiece t) && (pt_totalPiece t <=? r0)) eqn:Hend.
  - zbool. exists (-1). split; [done|]. split; [|done]. intros _. right. split; [done|].
    intros i Hi. apply Hall0. lia.
  - exists r0. split; [done|]. split; [lia|]. intros _. do 3 (split; [done || lia|]).
    apply andb_false_iff in Hend as [?|?]; zbool; lia.
Qed.

(** ** Reports *)

Section Reports.
Context (sha256 : string → string) {C : MetadataCodec} (cfg : ClientConfig) (now : Z).

(** the report of a finished piece beyond twice the capacity of the task's
    bitmap panics, whatever was downloaded: the bitmap grows once.  The report
    runs with the task's lock held and the panic is recovered above it, so the
    lock stays taken. *)
Theorem report_beyond_bitmap_panics (c : Client) (r : pieceTaskResult) :
  bitmap_ok (pt_readyPieces (cl_task c)) → 2 * bm_cap (pt_readyPieces (cl_task c)) < 2 ^ 31 →
  pr_Success (tr_result r) = true →
  2 * bm_cap (pt_readyPieces (cl_task c)) <= PieceNum (tr_piece r) →
  filePeerTask_ReportPieceResult sha256 cfg now c r = Panic IndexOutOfRange.
Proof.
  intros Hok Hcap Hs Hnum. unfold filePeerTask_ReportPieceResult. rewrite Hs. simpl.
  pose proof (bm_small _ Hok). unfold Bitmap_IsSet at 1.
  destruct (Z.leb_spec (bm_cap (pt_readyPieces (cl_task c))) (PieceNum (tr_piece r))); [|lia]. simpl.
  by rewrite Set_panics.
Qed.

(** The report of a finished piece counts it once: a piece that is ready
    already changes nothing, a new one becomes ready, adds its size and is
    passed on to the scheduler with the new count. *)
Theorem report_counts_once (c : Client) (r : pieceTaskResult) :
  let t := cl_task c in
  let num := PieceNum (tr_piece r) in
  bitmap_ok (pt_readyPieces t) → 2 * bm_cap (pt_readyPieces t) < 2 ^ 31 →
  pr_Success (tr_result r) = true → 0 <= num < 2 * bm_cap (pt_readyPieces t) →
  bm_settled (pt_readyPieces t) + 1 < 2 ^ 31 → 0 <= bm_settled (pt_readyPieces t) →
  0 <= pt_completedLength t → 0 <= RangeSize (tr_piece r) →
  pt_completedLength t + RangeSize (tr_piece r) < 2 ^ 63 →
  pt_completedLength t + RangeSize (tr_piece r) ≠ pt_contentLength t →
  ∃ c', filePeerTask_ReportPieceResult sha256 cfg now c r = Ok (c', None) ∧
    (bm_mem (pt_readyPieces t) num → c' = c) ∧
    (¬ bm_mem (pt_readyPieces t) num →
       (∀ i, 0 <= i → bm_mem (pt_readyPieces (cl_task c')) i ↔ i = num ∨ bm_mem (pt_readyPieces t) i) ∧
       pt_completedLength (cl_task c') = pt_completedLength t + RangeSize (tr_piece r) ∧
       pt_sent (cl_task c') = pt_sent t ++
         [set_pr_FinishedCount (bm_settled (pt_readyPieces t) + 1) (tr_result r)]).
Proof.
  intros t num Hok Hcap Hs Hnum Hset Hset0 Hc0 Hsz Hbig Hne.
  unfold filePeerTask_ReportPieceResult. rewrite Hs. simpl. fold t num.
  destruct (IsSet_total (pt_readyPieces t) num Hok) as [[] Hr]; [lia| |]; rewrite Hr; simpl.
  { exists c. by split. }
  destruct (Set_spec (pt_readyPieces t) num Hok Hcap) as
    (b' & -> & _ & _ & _ & Hset' & Hmem'); [lia|]. simpl.
  unfold isCompleted. simpl. rewrite int64_small by lia. unfold Bitmap_Settled.
  rewrite Hset', int32_small by lia.
  destruct (Z.eqb_spec (pt_completedLength t + RangeSize (tr_piece r)) (pt_contentLength t)); [done|].
  eexists. split; [done|]. split; [intros Hm; unfold bm_mem in Hm; congruence|].
  intros _. split; [done|]. simpl. fold t. rewrite int64_small by lia. done.
Qed.

End Reports.

(** ** Evaluation *)

Definition demoReport (num : Z) : pieceTaskResult :=
  let piece := mkPieceInfo num (2 * num) 2 "" (2 * num) 0 in
  mkPieceTaskResult piece
    {| pr_TaskId := "task"; pr_SrcPid := "peer"; pr_DstPid := "peer"; pr_PieceInfo := Some piece;
       pr_BeginTime := 0; pr_EndTime := 0; pr_Success := true; pr_Code := Code_Success;
       pr_FinishedCount := 0 |} false.

Lemma getNextPieceNum_correct_witness :
  ∃ r, getNextPieceNum (newFilePeerTask "task" "peer") 3 = Ok r ∧ r = 3.
Proof.
  destruct (getNextPieceNum_correct (newFilePeerTask "task" "peer") 3) as (r & H & _);
    [exact NewBitmap_ok|done|].
  exists r. split; [exact H|]. vm_compute in H. congruence.
Defined.

Lemma report_beyond_bitmap_panics_witness :
  filePeerTask_ReportPieceResult demoSha256 demoConfig 100 demoClient (demoReport 128) =
    Panic IndexOutOfRange.
Proof.
  apply (report_beyond_bitmap_panics demoSha256 demoConfig 100 demoClient (demoReport 128));
    [exact NewBitmap_ok|done|done|done].
Defined.

Lemma report_counts_once_witness :
  ∃ c', filePeerTask_ReportPieceResult demoSha256 demoConfig 100 demoClient (demoReport 7) =
      Ok (c', None) ∧ pt_completedLength (cl_task c') = 2.
Proof.
  destruct (report_counts_once demoSha256 demoConfig 100 demoClient (demoReport 7)) as
    (c' & H & _ & Hnew); [exact NewBitmap_ok|done..|].
  exists c'. split; [exact H|]. apply Hnew. by apply NewBitmap_empty.
Defined.
