(* ===== verification/PullProperties.v ===== *)
(** * PullProperties: pieces from other peers

    The goroutines of PullPieces.v: the channels between them do not deadlock;
    a piece that fails can be forgotten, and the task then waits for it until
    its context ends; the end of the last piece races with the end of the
    loop. *)

From S2P Require Import Prelude World FileSystem LocalStorage Bitmap PeerTask PieceManager PullPieces ClientDemo.
From stdpp Require Import options.
Local Open Scope Z_scope.

Section Pull.
Context (md5 : list byte → string) (sha256 : string → string) {C : MetadataCodec}.
Context (cfg : ClientConfig) (now : Z) (waitN taskLimit : Z → option StoreError).
Context (registered : option StoreError) (getPiecesMaxRetry : Z) (disableAutoBackSource : bool).
Context (computePieceSize : Z → Z) (digest : string) (sourceLength : Z)
  (response : StoreError + Stream StoreError).
#[local] Set Default Proof Using "Type".

Notation pullStep := (pullStep md5 sha256 cfg now waitN taskLimit registered getPiecesMaxRetry
  disableAutoBackSource computePieceSize digest sourceLength response).

(** ** What a call leaves alone *)

(** The channel of failed pieces, and that a closed channel stays closed. *)
Definition keeps (c c' : Client) : Prop :=
  pt_failedPieces (cl_task c') = pt_failedPieces (cl_task c) ∧
  (pt_done (cl_task c) = true → pt_done (cl_task c') = true).

Lemma client_kept_refl c : keeps c c.
Proof. by split. Qed.

Lemma client_kept_trans c1 c2 c3 : keeps c1 c2 → keeps c2 c3 → keeps c1 c3.
Proof. intros [? ?] [? ?]. split; [congruence|auto]. Qed.

Lemma cleanUnfinished_keeps c : keeps c (cleanUnfinished c).
Proof. unfold cleanUnfinished. by destruct (pt_once _). Qed.

Lemma finish_keeps c : keeps c (finish sha256 cfg now c).1.
Proof.
  unfold finish, callback_ValidateDigest.
  destruct (cc_calculateDigest cfg); [destruct (localTaskStore_ValidateDigest _ _) as [store [e|]]|]; simpl.
  - exact (cleanUnfinished_keeps (mkClient (cl_fs c) store (cl_task c))).
  - destruct (pt_once _); [done|]. unfold callback_Done.
    destruct (localTaskStore_Store _ _ _ _ _) as [[fs store'] [e|]]; done.
  - destruct (pt_once _); [done|]. unfold callback_Done.
    destruct (localTaskStore_Store _ _ _ _ _) as [[fs store'] [e|]]; done.
Qed.

Lemma updateBooks_keeps packet c : keeps c (updateBooks sha256 cfg now packet c).
Proof.
  unfold updateBooks, filePeerTask_SetContentLength. set (c1 := if _ <? _ then _ else c).
  assert (keeps c c1) as H1 by (subst c1; by destruct (_ <? _)).
  set (c2 := if _ && _ then _ else c1).
  assert (keeps c1 c2) as H2 by (subst c2; by destruct (_ && _)).
  destruct (0 <? _); [|by eapply client_kept_trans]. eapply client_kept_trans; [done|]. eapply client_kept_trans; [done|].
  destruct (isCompleted _); [|done]. exact (finish_keeps (updPT (set_pt_contentLength _) c2)).
Qed.

Lemma reportTail_keeps r c : keeps c (reportTail sha256 cfg now r c).1.
Proof.
  unfold reportTail. destruct (isCompleted _); [|done].
  exact (finish_keeps (updPT (sendProgress true (pr_Code r) false) (updPT (sendResult _) c))).
Qed.

Lemma downloadWrite_keeps c piece download : keeps c (downloadWrite md5 now waitN c piece download).1.
Proof.
  unfold downloadWrite. destruct (waitN _); [done|]. destruct download as [|r]; [done|].
  unfold writePiece. destruct (localTaskStore_WritePiece _ _ _ _ _) as [[[fs store] [n err]] rest].
  unfold addTraffic. by destruct (0 <? n).
Qed.

Lemma reportMark_keeps piece c c' new : reportMark piece c = Ok (c', new) → keeps c c'.
Proof.
  unfold reportMark. destruct (Bitmap_IsSet _ _) as [[]| |]; simpl; intros H; simplify_eq; [done|].
  destruct (Bitmap_Set _ _); simpl in H; by simplify_eq.
Qed.

Lemma preparePieceTasks_keeps num ps answer p p' r :
  preparePieceTasks getPiecesMaxRetry num ps answer p = (p', r) →
  keeps (pu_client p) (pu_client p') ∧ pu_ctxDone p' = pu_ctxDone p ∧ pu_requests p' = pu_requests p ∧
  pu_workers p' = pu_workers p ∧ pu_initialized p' = pu_initialized p ∧ pu_main p' = pu_main p.
Proof.
  unfold preparePieceTasks, getPieceTasks, prepareWith. intros H.
  repeat (case_match; simplify_eq/=); by simplify_option_eq.
Qed.

(** ** The room in the channels *)

Definition isBusy (w : PieceWorker) : bool := match w with WIdle | WExited => false | _ => true end.
Definition busyCount (ws : list PieceWorker) : nat := length (filter isBusy ws).

(** The pieces that are with the workers or in a channel. *)
Definition load (p : Puller) : nat :=
  (length (pt_failedPieces (taskOf p)) + busyCount (pu_workers p) + length (pu_requests p))%nat.

Definition mainRoom (p : Puller) (m : Main) : Prop :=
  match m with
  | MSelect _ limit | MWaitPeer limit => (Z.to_nat limit ≤ DefaultPieceChanSize)%nat
  | MPrepare _ limit _ =>
      (Z.to_nat limit ≤ DefaultPieceChanSize)%nat ∧
      (load p + Z.to_nat limit ≤ length (pu_workers p) + 2 * DefaultPieceChanSize)%nat
  | MSingle _ _ => pt_failedPieces (taskOf p) = [] ∧ pu_workers p = []
  | MDispatch _ todo => (load p + length todo ≤ length (pu_workers p) + 2 * DefaultPieceChanSize)%nat
  | _ => True
  end.

Record bounds (p : Puller) : Prop := {
  bo_requests : (length (pu_requests p) ≤ DefaultPieceChanSize)%nat;
  bo_failed : (length (pt_failedPieces (taskOf p)) ≤ DefaultPieceChanSize)%nat;
  bo_main : mainRoom p (pu_main p);
  bo_init : pu_initialized p = false → pu_workers p = [];
  bo_exited : WExited ∈ pu_workers p → ended p = true;
}.

(** The loop has ended, or there is room. *)
Definition pull_inv (p : Puller) : Prop := pu_main p = MClean ∨ pu_main p = MExited ∨ bounds p.

(** A peer answers with at most as many pieces as it is asked for. *)
Definition obeys (c : PullChoice) (p : Puller) : Prop :=
  match c, pu_main p with
  | PcMain (McAnswer (inr packet)), MPrepare _ limit _ => Z.of_nat (length (pp_PieceInfos packet)) <= limit
  | _, _ => True
  end.

Definition pull_step (p p' : Puller) : Prop := ∃ c, obeys c p ∧ pullStep c p = Ok (Some p').

Lemma busyCount_insert ws i w w' : ws !! i = Some w →
  (busyCount (<[i := w']> ws) + (if isBusy w then 1 else 0) = busyCount ws + (if isBusy w' then 1 else 0))%nat.
Proof.
  unfold busyCount. revert i. induction ws as [|v ws IH]; intros [|i] Hi; simpl in *; simplify_eq.
  - rewrite !filter_cons. destruct w, w'; simpl; lia.
  - specialize (IH i Hi). rewrite !filter_cons. destruct (decide (isBusy v)); simpl; lia.
Qed.

Lemma busyCount_le ws : (busyCount ws ≤ length ws)%nat.
Proof. apply length_filter. Qed.

Lemma ended_client p c : keeps (pu_client p) c → ended p = true → ended (set_pu_client c p) = true.
Proof.
  unfold ended, taskOf. simpl. intros [_ Hd] He. apply orb_true_iff in He as [->|He]; [done|].
  rewrite Hd by done. apply orb_true_r.
Qed.

(** Steps that leave the channels and the workers alone. *)
Lemma bounds_frame p p' :
  bounds p → pu_requests p' = pu_requests p → pu_workers p' = pu_workers p →
  pu_initialized p' = pu_initialized p → pt_failedPieces (taskOf p') = pt_failedPieces (taskOf p) →
  (ended p = true → ended p' = true) → mainRoom p' (pu_main p') → bounds p'.
Proof. intros [Hr Hf Hm Hi He] Er Ew Ei Ef Ee Hm'. split; rewrite ?Er, ?Ef, ?Ew, ?Ei; auto. Qed.

(** The worker moves on, with the pieces in the channels. *)
Lemma worker_bounds p p' i w w' :
  bounds p → pu_workers p !! i = Some w → pu_workers p' = <[i := w']> (pu_workers p) →
  pu_main p' = pu_main p → pu_initialized p' = pu_initialized p →
  (length (pu_requests p') ≤ DefaultPieceChanSize)%nat →
  (length (pt_failedPieces (taskOf p')) ≤ DefaultPieceChanSize)%nat →
  (length (pt_failedPieces (taskOf p')) + length (pu_requests p') + (if isBusy w' then 1 else 0) ≤
   length (pt_failedPieces (taskOf p)) + length (pu_requests p) + (if isBusy w then 1 else 0))%nat →
  (ended p = true → ended p' = true) → (w' = WExited → ended p' = true) → bounds p'.
Proof.
  intros [Hr Hf Hm Hi He] Hw Ew Em Ei Hr' Hf' Hl Ee Hx.
  pose proof (busyCount_insert _ _ _ w' Hw) as Hb.
  assert (load p' ≤ load p)%nat as Hload by (unfold load; rewrite Ew; lia).
  split; [done|done| | |].
  - rewrite Em. unfold mainRoom in *. rewrite Ew, length_insert. destruct (pu_main p); try lia.
    destruct Hm as [_ Hm]. by rewrite Hm in Hw.
  - rewrite Ei, Ew. intros Hinit. rewrite (Hi Hinit). done.
  - rewrite Ew. intros Hin. apply list_elem_of_lookup in Hin as [j Hj].
    destruct (decide (j = i)) as [->|Hji].
    + rewrite list_lookup_insert_eq in Hj by (by apply lookup_lt_Some in Hw). apply Hx. congruence.
    + rewrite list_lookup_insert_ne in Hj by done. apply Ee, He. by apply list_elem_of_lookup_2 in Hj.
Qed.

(** ... when only the client changes beside it. *)
Lemma worker_client_bounds p c i w w' :
  bounds p → pu_workers p !! i = Some w → keeps (pu_client p) c → isBusy w = true → w' ≠ WExited →
  bounds (set_worker i w' (set_pu_client c p)).
Proof.
  intros Hb Hw Hk Hbusy Hx. pose proof Hb as [Hr Hf _ _ _].
  assert (pt_failedPieces (cl_task c) = pt_failedPieces (taskOf p)) as Ef by apply Hk.
  apply (worker_bounds p _ i w w' Hb Hw); try done; unfold taskOf; simpl; rewrite ?Ef, ?Hbusy; try done.
  - unfold taskOf; destruct (isBusy w'); lia.
  - exact (ended_client p c Hk).
Qed.

Lemma workerStep_inv i ch p p' :
  workerStep md5 sha256 cfg now waitN taskLimit i ch p = Ok (Some p') → bounds p → bounds p'.
Proof.
  intros H Hb. pose proof Hb as [Hr Hf _ _ _]. unfold workerStep in H.
  destruct (pu_workers p !! i) as [w|] eqn:Hw; [|done].
  destruct w as [|r|r|r|r|num limited|], ch as [| |download]; try discriminate H.
  - destruct (pu_requests p) as [|r rest] eqn:Hq; simplify_eq.
    apply (worker_bounds p _ i WIdle (WHas r) Hb Hw); try done; unfold taskOf in *; simpl in *; rewrite ?Hq; simpl; lia.
  - destruct (ended p) eqn:He; simplify_eq. apply (worker_bounds p _ i WIdle WExited Hb Hw); done || simpl; lia.
  - destruct (Bitmap_IsSet _ _) as [set| |]; simpl in H; try discriminate H. injection H as <-.
    destruct set; [by eapply (worker_client_bounds p (pu_client p))|].
    destruct (taskLimit _); [|by eapply (worker_client_bounds p (pu_client p))].
    by eapply worker_client_bounds.
  - pose proof (downloadWrite_keeps (pu_client p) (dr_piece r) download) as Hk.
    destruct (downloadWrite _ _ _ _ _ _) as [c [end_|]]; injection H as <-; by eapply worker_client_bounds.
  - destruct (reportMark _ _) as [[c new]| |] eqn:Hm; simpl in H; try discriminate H. injection H as <-.
    apply reportMark_keeps in Hm. eapply worker_client_bounds; [done..|by destruct new].
  - injection H as <-. eapply worker_client_bounds; [done..| |done|done]. apply reportTail_keeps.
  - destruct (pu_ctxDone p); simplify_eq. by eapply worker_client_bounds.
  - destruct (_ <? _)%nat eqn:Hlen; simplify_eq. apply Nat.ltb_lt in Hlen.
    destruct limited; eapply (worker_bounds p _ i); try done; unfold taskOf; simpl; rewrite ?length_app; simpl;
      unfold taskOf in *; lia.
  - destruct (ended p) eqn:He; simplify_eq.
    destruct limited; eapply (worker_bounds p _ i); try done; unfold taskOf; simpl; lia.
Qed.

Lemma bounds_same p p' :
  bounds p → pu_requests p' = pu_requests p → pu_workers p' = pu_workers p →
  pu_initialized p' = pu_initialized p → pt_failedPieces (taskOf p') = pt_failedPieces (taskOf p) →
  (ended p = true → ended p' = true) → pu_main p' = pu_main p → bounds p'.
Proof.
  intros Hb Er Ew Ei Ef Ee Em. apply (bounds_frame p); try done. rewrite Em.
  pose proof (bo_main p Hb) as Hm. unfold mainRoom, load in *. by rewrite Er, Ew, Ef.
Qed.

Lemma received_bounds answer p p' : received answer p = Ok p' → bounds p → bounds p'.
Proof.
  intros H Hb. unfold received, isExitPeerPacketCode in H.
  repeat (case_match; simplify_eq); first [exact Hb|by apply (bounds_same _ _ Hb)].
Qed.

Lemma receiveStep_bounds c p p' : receiveStep c p = Ok (Some p') → bounds p → bounds p'.
Proof.
  intros H Hb. unfold receiveStep in H. destruct (pu_receiver p), c as [| |answer]; try done.
  - destruct (ended p) eqn:He; simplify_eq. by apply (bounds_same p).
  - destruct (received answer p) as [q| |] eqn:Hq; simpl in H; simplify_eq. by eapply received_bounds.
  - destruct (ended p) eqn:He; simplify_eq. by apply (bounds_same p).
  - destruct (_ && _); simplify_eq. by apply (bounds_same p).
Qed.

Lemma goBackSource_clean p p' :
  goBackSource md5 sha256 cfg now waitN computePieceSize digest sourceLength response p = Ok (Some p') →
  pu_main p' = MClean.
Proof. unfold goBackSource. destruct (filePeerTask_backSource _ _ _ _ _ _ _ _ _ _); simpl; intros; by simplify_eq. Qed.

Lemma waitTimeout_clean reason p p' :
  waitTimeout md5 sha256 cfg now waitN disableAutoBackSource computePieceSize digest sourceLength response reason p =
    Ok (Some p') → pu_main p' = MClean.
Proof.
  unfold waitTimeout. destruct disableAutoBackSource; [intros; by simplify_eq|apply goBackSource_clean].
Qed.

Lemma takeReady_inv num limit p p' :
  takeReady md5 sha256 cfg now waitN computePieceSize digest sourceLength response (MSelect num limit) p = Ok (Some p') →
  (Z.to_nat limit ≤ DefaultPieceChanSize)%nat → bounds p → pull_inv p'.
Proof.
  unfold takeReady. intros H Hl Hb. destruct (pu_ready p); simplify_eq.
  - right. right. by apply (bounds_frame p).
  - destruct (pu_readyClosed p); [|done]. left. by eapply goBackSource_clean.
Qed.

Lemma startPrepare_inv num limit p p' :
  startPrepare num limit p = Some p' → bounds p → (Z.to_nat limit ≤ DefaultPieceChanSize)%nat →
  (length (pt_failedPieces (taskOf p)) + Z.to_nat limit ≤ DefaultPieceChanSize)%nat → bounds p'.
Proof.
  unfold startPrepare, prepareWith. intros H Hb Hl Hf. destruct (pu_packet p) as [k|]; simplify_eq/=.
  apply (bounds_frame p); try done. split; [done|]. pose proof (bo_requests p Hb).
  pose proof (busyCount_le (pu_workers p)). unfold load, taskOf, DefaultPieceChanSize in *. simpl in *. lia.
Qed.

Lemma takeFailed_spec p num p' : takeFailed p = Some (num, p') →
  pt_failedPieces (taskOf p) = num :: pt_failedPieces (taskOf p') ∧
  p' = updTask (set_pt_failedPieces (pt_failedPieces (taskOf p'))) p.
Proof. unfold takeFailed. destruct (pt_failedPieces (taskOf p)); intros; by simplify_eq. Qed.

Lemma takeFailed_bounds p num p' m : takeFailed p = Some (num, p') → bounds p →
  mainRoom (set_pu_main m p') m → bounds (set_pu_main m p').
Proof.
  intros [Hf ->]%takeFailed_spec Hb Hm. pose proof Hb as [Hr Hl _ Hi He]. rewrite Hf in Hl. simpl in Hl.
  split; try done. simpl. lia.
Qed.

Lemma selectStep_inv num limit ch p p' :
  selectStep num limit ch p = Ok (Some p') → pu_main p = MSelect num limit → bounds p → pull_inv p'.
Proof.
  intros H Hm Hb. pose proof (bo_main p Hb) as Hl. rewrite Hm in Hl. simpl in Hl. unfold selectStep in H.
  destruct ch; try done.
  - destruct (ended p || _) eqn:He; [done|]. injection H as H. apply orb_false_iff in He as [_ He]. zbool.
    right. right. apply (startPrepare_inv _ _ _ _ H Hb); [done|]. rewrite He. simpl. lia.
  - destruct (pt_done _); simplify_eq. by left.
  - destruct (pu_ctxDone p); simplify_eq. by left.
  - destruct (takeFailed p) as [[f q]|] eqn:Hf; [|done]. simpl in H. injection H as H. right. right.
    assert (bounds q) as Hq.
    { apply takeFailed_spec in Hf as [Hf ->]. pose proof Hb as [Hr Hlf _ Hi Hx]. rewrite Hf in Hlf. simpl in Hlf.
      split; try done; simpl; [lia|]. rewrite Hm. done. }
    apply (startPrepare_inv _ _ _ _ H Hq); [unfold DefaultPieceChanSize; lia|].
    apply takeFailed_spec in Hf as [Hf _]. pose proof (bo_failed p Hb) as Hlf. rewrite Hf in Hlf. simpl in Hlf. lia.
Qed.

Lemma gotPieces_inv num limit ps packet p :
  pu_main p = MPrepare num limit ps → bounds p → Z.of_nat (length (pp_PieceInfos packet)) <= limit →
  pull_inv (gotPieces sha256 cfg now registered num packet p).
Proof.
  intros Hm Hb Hlen. pose proof (bo_main p Hb) as Hl. rewrite Hm in Hl. destruct Hl as [_ Hl].
  unfold gotPieces. destruct (pu_initialized p) eqn:Hi; simpl.
  - right. right. destruct (updateBooks_keeps packet (pu_client p)) as [Hf Hd].
    pose proof (ended_client p _ (updateBooks_keeps packet (pu_client p))) as He.
    apply (bounds_frame p); try done. unfold mainRoom, load, taskOf, DefaultPieceChanSize in *. simpl in *.
    rewrite length_fmap, Hf. lia.
  - unfold initPull. destruct registered; simpl; [by left|]. right. right.
    pose proof (bo_init p Hb Hi) as Hw. rewrite Hw in Hl.
    set (c := updPT (set_pt_contentLength (pp_ContentLength packet)) (pu_client p)).
    destruct (updateBooks_keeps packet c) as [Hf Hd].
    destruct Hb as [Hr Hlf _ _ _]. split; simpl; try done.
    + unfold taskOf. simpl. by rewrite Hf.
    + unfold load, taskOf in *. simpl. rewrite length_fmap, Hf, Hw in *. simpl in *.
      assert (busyCount (replicate (Z.to_nat (match pu_packet p with Some k => pk_ParallelCount k | None => 0 end)) WIdle)
        = 0%nat) as ->; [|unfold DefaultPieceChanSize in *; lia].
      unfold busyCount. apply length_zero_iff_nil, filter_none. intros w [-> _]%elem_of_replicate. intros [].
    + by intros [? _]%elem_of_replicate.
Qed.

Lemma contextFailed_failed t : pt_failedPieces (contextFailed t) = pt_failedPieces t.
Proof. unfold contextFailed. by case_match. Qed.

Lemma dispatchStep_inv num r reqs ch p p' :
  dispatchStep num r reqs ch p = Ok (Some p') → pu_main p = MDispatch num (r :: reqs) → bounds p → pull_inv p'.
Proof.
  intros H Hm Hb. pose proof (bo_main p Hb) as Hl. rewrite Hm in Hl. simpl in Hl. unfold dispatchStep in H.
  destruct (Bitmap_IsSet _ _) as [set| |]; simpl in H; try discriminate H.
  destruct (if set : bool then _ else _) as [b| |]; simpl in H; try discriminate H. right. right.
  destruct ch; try discriminate H.
  - destruct (pt_done _); simplify_eq. apply (bounds_frame p); try done. simpl. unfold load, taskOf in *. simpl. lia.
  - destruct (pu_ctxDone p) eqn:Hx; simplify_eq/=. destruct (pt_success _).
    + apply (bounds_frame p); try done. simpl. unfold load, taskOf in *. simpl. lia.
    + apply (bounds_frame p); try done; unfold mainRoom, load, ended, taskOf in *; simpl;
        rewrite ?contextFailed_failed, ?Hx; simpl; done || lia.
  - destruct (_ <? _)%nat eqn:Hlt; simplify_eq. apply Nat.ltb_lt in Hlt. destruct Hb as [Hr Hf _ Hi He]. split; try done.
    + simpl in *. rewrite length_app. simpl. lia.
    + simpl. unfold load, taskOf in *. simpl in *. rewrite length_app. simpl. lia.
Qed.

Lemma pullSinglePiece_inv dst piece download p p' :
  pullSinglePiece md5 sha256 cfg now waitN registered dst piece download p = Ok (Some p') →
  pt_failedPieces (taskOf p) = [] → bounds p → pull_inv p'.
Proof.
  unfold pullSinglePiece. intros H Hf Hb. destruct registered; [injection H as <-; by right; left|].
  rewrite DownloadPiece_steps in H. set (c := pu_client _) in H.
  pose proof (downloadWrite_keeps c piece download) as Hk.
  destruct (downloadWrite _ _ _ _ _ _) as [c' [end_|]]; simpl in H.
  - injection H as <-. destruct Hk as [Hkf Hkd]. simpl in Hkf, Hkd. destruct Hb as [Hr Hlf _ Hi He]. right. right.
    split; try done; unfold taskOf; simpl.
    + rewrite Hkf. unfold c. simpl. fold (taskOf p). rewrite Hf. simpl. unfold DefaultPieceChanSize. lia.
    + intros Hx. specialize (He Hx). unfold ended, taskOf in *. simpl.
      apply orb_true_iff in He as [->|He]; [done|]. rewrite Hkd by done. apply orb_true_r.
  - destruct (pushSuccessResult _ _ _ _ _ _ _ _) as [c2| |]; simpl in H; simplify_eq. by right; left.
Qed.

Lemma prepared_error num ps e p q packet :
  preparePieceTasks getPiecesMaxRetry num ps (inl e) p = (q, POk packet) → False.
Proof. unfold preparePieceTasks, getPieceTasks, nextPeer. intros H. by repeat (case_match; simplify_eq/=). Qed.

Lemma prepared_packet num ps packet p q packet' :
  preparePieceTasks getPiecesMaxRetry num ps (inr packet) p = (q, POk packet') → packet' = packet.
Proof. unfold preparePieceTasks, getPieceTasks, nextPeer. intros H. by repeat (case_match; simplify_eq/=). Qed.

Lemma prepared_bounds num ps answer p q r :
  bounds p → preparePieceTasks getPiecesMaxRetry num ps answer p = (q, r) →
  bounds q ∧ pu_main q = pu_main p.
Proof.
  intros Hb ([Hf Hd] & Hx & Hr & Hw & Hi & Em)%preparePieceTasks_keeps. split; [|done].
  apply (bounds_same p); try done.
  unfold ended, taskOf. rewrite Hx. intros [->|He]%orb_true_iff; [done|]. rewrite Hd by done. apply orb_true_r.
Qed.

Lemma mainStep_inv ch p p' :
  mainStep md5 sha256 cfg now waitN registered getPiecesMaxRetry disableAutoBackSource computePieceSize digest
    sourceLength response ch p = Ok (Some p') →
  obeys (PcMain ch) p → bounds p → pull_inv p'.
Proof.
  intros H Hob Hb. pose proof (bo_main p Hb) as Hm. unfold mainStep, waitFirstPeerPacket, waitFailedPiece in H. unfold obeys in Hob.
  destruct (pu_main p) as [dst piece| |num limit|num limit ps|limit|num todo|num| | | |] eqn:Em; try (by destruct ch).
  - destruct ch; try done. by eapply pullSinglePiece_inv; [done|apply Hm|].
  - destruct ch; try done.
    + destruct (pu_ctxDone p); simplify_eq. by left.
    + eapply takeReady_inv; [done| |done]. unfold bufferSize, DefaultPieceChanSize. lia.
    + left. by eapply waitTimeout_clean.
  - by eapply selectStep_inv.
  - destruct ch as [| | | | | |answer| |]; try done.
    destruct (preparePieceTasks _ _ _ _ _) as [q r] eqn:Hq.
    destruct (prepared_bounds num ps answer p q r Hb Hq) as [Hqb Hqm]. rewrite Em in Hqm. injection H as <-.
    pose proof (bo_main _ Hqb) as Hroom. rewrite Hqm in Hroom. destruct r as [ps'| |packet].
    + right. right. by apply (bounds_frame q).
    + right. right. apply (bounds_frame q); try done. apply Hroom.
    + apply (gotPieces_inv num limit ps packet q); [done..|].
      destruct answer as [e|packet']; [by apply prepared_error in Hq|]. by apply prepared_packet in Hq as ->.
  - unfold waitPeerStep in H. destruct ch; try done.
    + destruct (pt_done _); simplify_eq. by left.
    + destruct (pu_ctxDone p); simplify_eq. by left.
    + by eapply takeReady_inv.
    + left. by eapply waitTimeout_clean.
  - destruct todo as [|r reqs]; [|by eapply dispatchStep_inv]. destruct ch; simplify_eq.
    right. right. by apply (bounds_frame p).
  - destruct ch; try done. destruct (getNextPieceNum _ _) as [next| |]; simpl in H; simplify_eq. right. right.
    apply (bounds_frame p); try done. simpl. destruct (next =? -1); simpl; [done|].
    unfold bufferSize, DefaultPieceChanSize. lia.
  - destruct ch; simplify_eq. destruct (isCompleted _); [by left|]. right. right. by apply (bounds_frame p).
  - destruct ch; try done.
    + destruct (pt_done _); simplify_eq. by left.
    + destruct (pu_ctxDone p); simplify_eq. by left.
    + destruct (takeFailed p) as [[f q]|] eqn:Hf; simplify_eq/=. right. right.
      eapply takeFailed_bounds; [done..|]. simpl. unfold DefaultPieceChanSize. lia.
  - destruct ch; simplify_eq. by right; left.
Qed.

Lemma receiveStep_main c p p' : receiveStep c p = Ok (Some p') → pu_main p' = pu_main p.
Proof.
  unfold receiveStep, received, isExitPeerPacketCode. intros H.
  repeat (case_match; simplify_eq/=); done.
Qed.

Lemma workerStep_main i ch p p' :
  workerStep md5 sha256 cfg now waitN taskLimit i ch p = Ok (Some p') → pu_main p' = pu_main p.
Proof.
  unfold workerStep. intros H.
  destruct (pu_workers p !! i) as [[|r|r|r|r|num []|]|], ch as [| |download]; try discriminate H.
  3: destruct (Bitmap_IsSet _ _); simpl in H.
  7: destruct (reportMark _ _) as [[? ?]| |]; simpl in H.
  all: repeat first [discriminate H|injection H as <-; done
    |match type of H with context [match ?x with _ => _ end] => destruct x end; simpl in H].
Qed.

Lemma pull_step_inv p p' : pull_step p p' → pull_inv p → pull_inv p'.
Proof.
  intros (c & Hob & H) Hp. destruct c as [|c|c|i c]; simpl in H.
  - injection H as <-. destruct Hp as [Hm|[Hm|Hb]]; [by left|by right; left|right; right]. by apply (bounds_same p).
  - pose proof (receiveStep_main _ _ _ H) as Em. unfold pull_inv. rewrite Em.
    destruct Hp as [Hm|[Hm|Hb]]; [by left|by right; left|right; right]. by eapply receiveStep_bounds.
  - destruct Hp as [Hm|[Hm|Hb]]; [| |by eapply mainStep_inv].
    + unfold mainStep, waitFirstPeerPacket, waitFailedPiece in H. rewrite Hm in H. destruct c; simplify_eq. by right; left.
    + unfold mainStep, waitFirstPeerPacket, waitFailedPiece in H. rewrite Hm in H. by destruct c.
  - pose proof (workerStep_main _ _ _ _ H) as Em. unfold pull_inv. rewrite Em.
    destruct Hp as [Hm|[Hm|Hb]]; [by left|by right; left|right; right]. by eapply workerStep_inv.
Qed.

Lemma pull_reach_inv single c p :
  pt_failedPieces (cl_task c) = [] → rtc pull_step (pullPieces single c) p → pull_inv p.
Proof.
  intros Hc Hr. assert (pull_inv (pullPieces single c)) as Hi.
  { right. right. destruct single as [[dst piece]|]; split; unfold taskOf; simpl; rewrite ?Hc; simpl; try done; lia || by intros []%not_elem_of_nil. }
  revert Hi. induction Hr as [|p1 p2 p3 Hs _ IH]; [done|]. intros Hi. by apply IH, (pull_step_inv p1).
Qed.

(** A worker that can take a request, or report. *)
Lemma free_worker p :
  bounds p → ended p = false → (busyCount (pu_workers p) < length (pu_workers p))%nat → pu_requests p ≠ [] →
  ∃ i, pullStep (PcWorker i WcGo) p ≠ Ok None.
Proof.
  intros Hb He Hlt Hq. assert (∃ i w, pu_workers p !! i = Some w ∧ isBusy w = false) as (i & w & Hw & Hbusy).
  { revert Hlt. unfold busyCount. generalize (pu_workers p) as ws. induction ws as [|v ws IH]; simpl; [lia|].
    rewrite filter_cons. destruct (decide (isBusy v)) as [Hv|Hv]; simpl; intros Hlt.
    - destruct IH as (i & w & Hw & ?); [lia|]. by exists (S i), w.
    - exists 0%nat, v. split; [done|]. by destruct (isBusy v). }
  exists i. simpl. unfold workerStep. rewrite Hw. destruct w; try done.
  - by destruct (pu_requests p).
  - apply list_elem_of_lookup_2 in Hw. rewrite (bo_exited p Hb Hw) in He. done.
Qed.

(** C24: The two channels between the loop and its workers do not deadlock: while
    the loop hands out pieces, and as long as the peers answer with no more
    pieces than they are asked for, it can hand out the next, or a worker can
    take a piece or report one, for any positive number of workers and any
    failures.  (A step that panics counts as one.) *)
Theorem pull_no_deadlock single c p num r reqs :
  pt_failedPieces (cl_task c) = [] → rtc pull_step (pullPieces single c) p →
  pu_main p = MDispatch num (r :: reqs) → pu_workers p ≠ [] →
  (∃ ch, ch ∈ [McSend; McDone; McCtx] ∧ pullStep (PcMain ch) p ≠ Ok None) ∨
  (∃ i ch, pullStep (PcWorker i ch) p ≠ Ok None).
Proof.
  intros Hc Hr Hm Hws. destruct (pull_reach_inv single c p Hc Hr) as [?|[?|Hb]]; [congruence..|].
  pose proof (bo_main p Hb) as Hl. rewrite Hm in Hl. simpl in Hl.
  destruct (ended p) eqn:He.
  { left. unfold ended in He. destruct (pu_ctxDone p) eqn:Hx; [exists McCtx|exists McDone]; (split; [set_solver|]);
      simpl; unfold mainStep, waitFirstPeerPacket, waitFailedPiece, dispatchStep; rewrite Hm; simpl in He; rewrite ?Hx, ?He;
      destruct (Bitmap_IsSet _ _) as [set| |]; simpl; try done; destruct (if set : bool then _ else _); simpl; try done;
      rewrite ?Hx, ?He; simpl; by destruct (pt_success _). }
  destruct (decide (length (pu_requests p) < DefaultPieceChanSize)%nat) as [Hroom|Hfull].
  { left. exists McSend. split; [set_solver|]. simpl. unfold mainStep, waitFirstPeerPacket, waitFailedPiece, dispatchStep. rewrite Hm.
    destruct (Bitmap_IsSet _ _) as [set| |]; simpl; try done. destruct (if set : bool then _ else _); simpl; try done.
    by rewrite (proj2 (Nat.ltb_lt _ _) Hroom). }
  right. assert (pu_requests p ≠ []) as Hq.
  { intros E. rewrite E in Hfull. simpl in Hfull. unfold DefaultPieceChanSize in Hfull. lia. }
  destruct (decide (busyCount (pu_workers p) < length (pu_workers p))%nat) as [Hlt|Hbusy].
  { destruct (free_worker p Hb He Hlt Hq) as [i Hi]. by exists i, WcGo. }
  destruct (pu_workers p) as [|w ws] eqn:Hw; [done|]. exists 0%nat.
  assert (pu_workers p !! 0%nat = Some w) as Hw0 by (by rewrite Hw).
  assert (length (pt_failedPieces (taskOf p)) < DefaultPieceChanSize)%nat as Hf.
  { unfold load, DefaultPieceChanSize in *. rewrite ?Hw in *. lia. }
  unfold pullStep, workerStep. rewrite Hw0. destruct w as [|r'|r'|r'|r'|n limited|].
  - exists WcGo. by destruct (pu_requests p).
  - exists WcGo. by destruct (Bitmap_IsSet _ _).
  - by exists (WcDownload (inl ErrShortRead)).
  - exists WcGo. by destruct (reportMark _ _) as [[? ?]| |].
  - by exists WcGo.
  - exists WcGo. unfold taskOf in Hf. by rewrite (proj2 (Nat.ltb_lt _ _) Hf).
  - assert (WExited ∈ pu_workers p) as Hin by (rewrite Hw; left).
    rewrite (bo_exited p Hb Hin) in He. done.
Qed.

(** A run in which the peers obey. *)
Fixpoint obeysRun (sched : list PullChoice) (p : Puller) : Prop :=
  match sched with
  | [] => True
  | c :: sched => obeys c p ∧ match pullStep c p with Ok (Some p) => obeysRun sched p | _ => True end
  end.

Lemma run_reaches sched p p' :
  runPull md5 sha256 cfg now waitN taskLimit registered getPiecesMaxRetry disableAutoBackSource
    computePieceSize digest sourceLength response sched p = Ok (Some p') → obeysRun sched p → rtc pull_step p p'.
Proof.
  revert p. induction sched as [|c sched IH]; intros p H Ho; [injection H as <-; apply rtc_refl|].
  cbn [runPull] in H. destruct Ho as [Hc Ho]. destruct (pullStep c p) as [[q|]| |] eqn:Hq; simpl in H; try discriminate H.
  eapply rtc_l; [by exists c|]. by apply IH.
Qed.

(** ** Waiting for nothing *)

(** The loop waits for a failed piece, and there is none: no worker has a piece
    and no channel holds one. *)
Record stranded (p : Puller) : Prop := {
  sd_main : pu_main p = MWaitFailed;
  sd_workers : Forall (λ w, w = WIdle) (pu_workers p);
  sd_requests : pu_requests p = [];
  sd_failed : pt_failedPieces (taskOf p) = [];
  sd_done : pt_done (taskOf p) = false;
}.

(** Any step that leaves the context alive. *)
Definition live_step (p p' : Puller) : Prop :=
  pu_ctxDone p' = false ∧ ∃ c, pullStep c p = Ok (Some p').

Lemma received_stranded answer p p' : received answer p = Ok p' → pu_ctxDone p' = false → stranded p →
  stranded p' ∧ pt_readyPieces (taskOf p') = pt_readyPieces (taskOf p).
Proof.
  intros H Hx [? ? ? ? ?]. unfold received, isExitPeerPacketCode in H.
  repeat (case_match; simplify_eq/=); by split.
Qed.

Lemma stranded_step p p' : live_step p p' → pu_ctxDone p = false → stranded p →
  stranded p' ∧ pt_readyPieces (taskOf p') = pt_readyPieces (taskOf p).
Proof.
  intros [Hx' (c & H)] Hx Hs. pose proof Hs as [Hm Hw Hq Hf Hd].
  assert (ended p = false) as He by (unfold ended; by rewrite Hx, Hd).
  destruct c as [|c|c|i c]; simpl in H.
  - injection H as <-. done.
  - unfold receiveStep in H. rewrite He, andb_false_r in H.
    destruct (pu_receiver p), c as [| |answer]; simplify_eq; [|by split].
    destruct (received answer p) as [q| |] eqn:Hr; simpl in H; simplify_eq. by eapply received_stranded.
  - unfold mainStep, waitFirstPeerPacket, waitFailedPiece, takeFailed in H. rewrite Hm, Hd, Hx, Hf in H. by destruct c.
  - unfold workerStep in H. rewrite He in H. destruct (pu_workers p !! i) as [w|] eqn:Hi; [|done].
    rewrite Forall_lookup in Hw. rewrite (Hw i w Hi), Hq in H. by destruct c.
Qed.

Lemma stranded_forever p p' : rtc live_step p p' → pu_ctxDone p = false → stranded p →
  pu_main p' = MWaitFailed ∧ pt_done (taskOf p') = false ∧ pt_readyPieces (taskOf p') = pt_readyPieces (taskOf p).
Proof.
  induction 1 as [p|p1 p2 p3 Hs Hr IH]; intros Hx Hp; [by destruct Hp|].
  destruct (stranded_step _ _ Hs Hx Hp) as [Hp2 E]. destruct IH as (? & ? & E3); [apply Hs|done|].
  split_and!; [done..|]. by rewrite E3.
Qed.

(** ** The end of the last piece *)

Lemma finish_once_keeps c : pt_once (cl_task c) = true →
  let c' := (finish sha256 cfg now c).1 in
  pt_success (cl_task c') = pt_success (cl_task c) ∧ pt_results (cl_task c') = pt_results (cl_task c) ∧
  pt_done (cl_task c') = pt_done (cl_task c).
Proof.
  intros Ho. unfold finish, callback_ValidateDigest, cleanUnfinished.
  destruct (cc_calculateDigest cfg); [destruct (localTaskStore_ValidateDigest _ _) as [store [e|]]|];
    cbn [cl_task fst]; by rewrite Ho.
Qed.

(** The last piece counts as completed before its worker ends the task: when
    the loop looks in between, it takes the task for finished, and its deferred
    clean-up ends the task as a failure, whatever the worker does then. *)
Theorem completed_task_fails p i r :
  pu_main p = MWaitCheck → pu_workers p !! i = Some (WTail r) → isCompleted (taskOf p) = true →
  pt_once (taskOf p) = false → pt_success (taskOf p) = false →
  ∃ p', runPull md5 sha256 cfg now waitN taskLimit registered getPiecesMaxRetry disableAutoBackSource
      computePieceSize digest sourceLength response
      [PcMain McGo; PcMain McGo; PcWorker i WcGo] p = Ok (Some p') ∧
    pt_done (taskOf p') = true ∧ pt_success (taskOf p') = false ∧
    pt_results (taskOf p') = pt_results (taskOf p) ++ [peerResult false (pt_failedCode (taskOf p)) (taskOf p)].
Proof.
  intros Hm Hw Hc Ho Hs.
  assert (pullStep (PcMain McGo) p = Ok (Some (set_pu_main MClean p))) as E1.
  { simpl. unfold mainStep, waitFirstPeerPacket, waitFailedPiece. by rewrite Hm, Hc. }
  cbn [runPull]. rewrite E1. simpl. unfold workerStep. simpl. rewrite Hw. simpl. eexists. split; [reflexivity|].
  unfold taskOf in *. simpl.
  unfold reportTail, cleanUnfinished. rewrite Ho.
  set (c := updPT (sendProgress true _ false) _).
  assert (pt_once (cl_task c) = true ∧ pt_success (cl_task c) = false ∧ pt_done (cl_task c) = true ∧
    pt_results (cl_task c) = pt_results (cl_task (pu_client p)) ++
      [peerResult false (pt_failedCode (cl_task (pu_client p))) (cl_task (pu_client p))]) as (Ho' & Hs' & Hd' & Hr').
  { split_and!; done. }
  destruct (isCompleted (cl_task c)); [|done].
  destruct (finish_once_keeps c Ho') as (-> & -> & ->). done.
Qed.

End Pull.

(** ** A task on the demo's client: two pieces, of three bytes and of two *)

Definition demoPieces : list PieceInfo :=
  [mkPieceInfo 0 0 3 (demoMd5 (take 3 demoContent)) 0 0; mkPieceInfo 1 3 2 (demoMd5 (drop 3 demoContent)) 3 0].

Definition demoPeer : DestPeer := mkDestPeer "10.0.0.1" 65000 "parent".

Definition demoAnswer (pieces : list PieceInfo) : GetError + PiecePacket :=
  inr (mkPiecePacket "task" "parent" 2 5 (demoSha256 (String.concat "" (PieceMd5 <$> demoPieces))) pieces).

Definition demoDownload (bs : list byte) : StoreError + Reader := inr (PlainReader (mkStream bs None)).

Definition demoRun (sched : list PullChoice) : Outcome (option Puller) :=
  runPull demoMd5 demoSha256 demoConfig 100 (λ _, None) (λ _, None) None 0 false
    (λ _, 3) "" 5 (inl ErrShortRead) sched (pullPieces None demoClient).

(** The peers arrive, with two workers, and both pieces are handed out. *)
Definition demoHandOut : list PullChoice :=
  [PcReceive (RcRecv (RecvPacket (mkSchedulerPacket Code_Success (Some demoPeer) [] 2))); PcReceive RcGo;
   PcMain McReady; PcMain McGo; PcMain (McAnswer (demoAnswer demoPieces)); PcMain McSend; PcMain McSend;
   PcMain McGo; PcMain McGo].

(** Both pieces fail; the loop takes both of them, and asks for the second. *)
Definition demoForget : list PullChoice :=
  demoHandOut ++
  [PcMain McGo; PcWorker 0 WcGo; PcWorker 1 WcGo; PcWorker 0 WcGo; PcWorker 1 WcGo;
   PcWorker 0 (WcDownload (inl ErrShortRead)); PcWorker 1 (WcDownload (inl ErrShortRead));
   PcWorker 0 WcGo; PcWorker 1 WcGo; PcMain McFailed; PcMain McFailed;
   PcMain (McAnswer (demoAnswer (drop 1 demoPieces))); PcMain McSend; PcMain McGo; PcMain McGo; PcMain McGo;
   PcWorker 0 WcGo; PcWorker 0 WcGo; PcWorker 0 (WcDownload (demoDownload (drop 3 demoContent)));
   PcWorker 0 WcGo; PcWorker 0 WcGo].

Definition demoStranded : Puller :=
  match demoRun demoForget with Ok (Some p) => p | _ => pullPieces None demoClient end.

Lemma demoStranded_run : demoRun demoForget = Ok (Some demoStranded).
Proof. vm_compute. reflexivity. Qed.

Lemma demoStranded_stranded : stranded demoStranded.
Proof. split; [vm_compute; reflexivity|vm_compute; by repeat constructor|vm_compute; reflexivity..]. Qed.

(** A failed piece can be forgotten: the loop takes it from the channel, and
    takes another one before it asks for the first, which is marked as
    requested and never asked for again.  The task then waits for a failed
    piece, although there is none, until its context ends. *)
Theorem failed_piece_forgotten : ∃ sched p,
  demoRun sched = Ok (Some p) ∧ pu_ctxDone p = false ∧
  Bitmap_IsSet (pt_requestedPieces (taskOf p)) 0 = Ok true ∧ Bitmap_IsSet (pt_readyPieces (taskOf p)) 0 = Ok false ∧
  ∀ p', rtc (live_step demoMd5 demoSha256 demoConfig 100 (λ _, None) (λ _, None) None 0 false (λ _, 3) "" 5
               (inl ErrShortRead)) p p' →
    pu_main p' = MWaitFailed ∧ pt_done (taskOf p') = false ∧ Bitmap_IsSet (pt_readyPieces (taskOf p')) 0 = Ok false.
Proof.
  exists demoForget, demoStranded. split; [exact demoStranded_run|].
  assert (pu_ctxDone demoStranded = false) as Hx by (vm_compute; reflexivity).
  assert (Bitmap_IsSet (pt_readyPieces (taskOf demoStranded)) 0 = Ok false) as Hr by (vm_compute; reflexivity).
  split; [exact Hx|]. split; [vm_compute; reflexivity|]. split; [exact Hr|]. intros p' Hp'.
  destruct (stranded_forever _ _ _ _ _ _ _ _ _ _ _ _ _ _ _ Hp' Hx demoStranded_stranded) as (Hm & Hd & E).
  split; [exact Hm|]. split; [exact Hd|]. rewrite E. exact Hr.
Qed.

(** ** Witnesses *)

Definition demoState (sched : list PullChoice) : Puller :=
  match demoRun sched with Ok (Some p) => p | _ => pullPieces None demoClient end.

Definition demoStep (c : PullChoice) (p : Puller) : Outcome (option Puller) :=
  pullStep demoMd5 demoSha256 demoConfig 100 (λ _, None) (λ _, None) None 0 false (λ _, 3) "" 5 (inl ErrShortRead) c p.

Lemma pull_no_deadlock_witness : ∃ p, p = demoState (take 5 demoHandOut) ∧
  ((∃ ch, ch ∈ [McSend; McDone; McCtx] ∧ demoStep (PcMain ch) p ≠ Ok None) ∨
   (∃ i ch, demoStep (PcWorker i ch) p ≠ Ok None)).
Proof.
  exists (demoState (take 5 demoHandOut)). split; [reflexivity|].
  refine (pull_no_deadlock demoMd5 demoSha256 demoConfig 100 (λ _, None) (λ _, None) None 0 false (λ _, 3) "" 5
    (inl ErrShortRead) None demoClient _ 0 (mkDownloadPieceRequest "parent" (mkPieceInfo 0 0 3 "m3" 0 0))
    [mkDownloadPieceRequest "parent" (mkPieceInfo 1 3 2 "m2" 3 0)] _ _ _ _).
  - vm_compute. reflexivity.
  - apply (run_reaches _ _ _ _ _ _ _ _ _ _ _ _ _ (take 5 demoHandOut)).
    + vm_compute. reflexivity.
    + vm_compute. repeat split; discriminate.
  - vm_compute. reflexivity.
  - vm_compute. discriminate.
Defined.

(** The second piece is stored and marked while the loop is on its way to wait. *)
Definition demoRace : list PullChoice :=
  demoHandOut ++
  [PcWorker 0 WcGo; PcWorker 1 WcGo; PcWorker 0 WcGo; PcWorker 1 WcGo;
   PcWorker 0 (WcDownload (demoDownload (take 3 demoContent)));
   PcWorker 1 (WcDownload (demoDownload (drop 3 demoContent)));
   PcWorker 0 WcGo; PcWorker 0 WcGo; PcWorker 1 WcGo].

Lemma completed_task_fails_witness : ∃ p', demoRun (demoRace ++ [PcMain McGo; PcMain McGo; PcWorker 1 WcGo]) = Ok (Some p') ∧
  pt_done (taskOf p') = true ∧ pt_success (taskOf p') = false.
Proof.
  destruct (completed_task_fails demoMd5 demoSha256 demoConfig 100 (λ _, None) (λ _, None) None 0 false (λ _, 3) "" 5
    (inl ErrShortRead) (demoState demoRace) 1
    (mkDownloadPieceRequest "parent" (mkPieceInfo 1 3 2 "m2" 3 0))) as (p' & E & Hd & Hs & _).
  1-5: vm_compute; reflexivity.
  exists p'. split; [|split; [exact Hd|exact Hs]]. rewrite <-E. vm_compute. reflexivity.
Defined.
