(* ===== verification/SourceDownload.v ===== *)
(** * SourceDownload: a file downloaded from its source is the source's file

    The composition of the piece manager, the peer task and the store: which
    sources end in a file with the content, and which do not. *)

From S2P Require Import Prelude World FileSystem LocalStorage Bitmap PeerTask PieceManager.
From stdpp Require Import options.
Local Open Scope Z_scope.

(** ** The store during the download *)

(** [metas] are the pieces recorded so far, [off] the bytes they hold. *)
Record stored (file : inode) (content : list byte) (metas : list PieceMetadata) (off : nat)
    (fs : FS) (t : localTaskStore) : Prop := {
  st_node : os_Lstat fs (ts_DataFilePath t) = Some (NodeFile file);
  st_next : (file < fs_next fs)%positive;
  st_meta : ts_metadataFile t ≠ file;
  st_rw : ts_metadataRW t = true;
  st_data : fileData fs file = take off content;
  st_pieces : ∀ i, ts_Pieces t !! i = if decide (0 <= i) then metas !! Z.to_nat i else None;
  st_off : (off ≤ length content)%nat;
}.

Lemma os_Open_node fs p ino : os_Lstat fs p = Some (NodeFile ino) → os_Open fs p = inr ino.
Proof. intros Hn. unfold os_Open, os_Stat. unfold follow. by rewrite Hn. Qed.

Section Store.
Context (md5 : list byte → string) (sha256 : string → string).

Lemma stored_UpdateTask file content metas off fs t now req :
  stored file content metas off fs t →
  stored file content metas off fs (localTaskStore_UpdateTask sha256 now t req).
Proof.
  intros [? ? ? ? ? ? ?]. unfold localTaskStore_UpdateTask.
  repeat (case_match || case_decide); by split.
Qed.

(** A piece from a source that still has bytes: the piece is recorded with the
    bytes there are, at most [size] of them. *)
Lemma WritePiece_source file content metas off fs t now seen body (digest : bool) unknown size n :
  stored file content metas off fs t →
  s_data body = drop off content → 0 < size → n = Z.min size (Z.of_nat (length content - off)) →
  0 < n → (n = size ∨ unknown = true ∧ s_err body = None) →
  let reader := if digest then DigestReader seen body else PlainReader body in
  let bs := take (Z.to_nat n) (drop off content) in
  let meta := mkPieceMetadata (Z.of_nat (length metas))
                (if digest then md5 (seen ++ bs) else "") (Z.of_nat off)
                (mkRange (Z.of_nat off) n) 0 in
  ∃ fs' t', localTaskStore_WritePiece md5 fs now t
      (mkWritePieceRequest
         (mkPieceMetadata (Z.of_nat (length metas)) "" (Z.of_nat off)
            (mkRange (Z.of_nat off) size) 0) unknown reader) =
    (fs', t', (n, None), mkStream (drop (off + Z.to_nat n) content) (s_err body)) ∧
    stored file content (metas ++ [meta]) (off + Z.to_nat n) fs' t' ∧
    fs_nodes fs' = fs_nodes fs.
Proof.
  intros Hst Hbody Hsize Hn Hpos Hlim reader bs meta. pose proof Hst as [Hnode Hnext Hmf Hrw Hdata Hp Hoff].
  assert (length (s_data body) = length content - off)%nat as Hlb by (by rewrite Hbody, length_drop).
  assert (copyLimited body size =
    (bs, mkStream (drop (off + Z.to_nat n) content) (s_err body), None)) as Hcopy.
  { destruct (decide (Z.to_nat size ≤ length (s_data body))%nat) as [Hle|Hgt].
    - rewrite copyLimited_enough by done. assert (n = size) as -> by lia.
      unfold bs. by rewrite Hbody, drop_drop.
    - destruct Hlim as [->|[_ Herr]]; [lia|].
      rewrite copyLimited_short by lia. rewrite Herr. unfold bs.
      assert (Z.to_nat n = length content - off)%nat as Hnl by lia.
      rewrite take_ge by (rewrite length_drop; lia). rewrite (drop_ge content (off + Z.to_nat n)) by lia. by rewrite Hbody. }
  assert (Z.of_nat (length bs) = n) as Hlen by (unfold bs; rewrite length_take, length_drop; lia).
  exists (writeAt fs file off bs), (recordPiece (touch now t) meta).
  split; [|split; [|done]].
  - unfold localTaskStore_WritePiece. simpl. rewrite Hp, decide_True, Nat2Z.id by lia.
    rewrite lookup_ge_None_2 by done. rewrite (os_Open_node _ _ file) by done.
    destruct (Z.ltb_spec (Z.of_nat off) 0); [lia|]. rewrite Nat2Z.id.
    unfold copyPiece, reader. destruct digest; cbn [wp_Reader wp_Piece pm_Range Length];
      rewrite Hcopy, Hlen;
      (destruct (Z.eqb_spec n 0); [lia|]); rewrite andb_false_r;
      (destruct (Z.eqb_spec n size) as [->|Hns]; simpl;
       [|destruct Hlim as [?|[-> _]]; [done|simpl]]); unfold pieceMd5; simpl;
      by rewrite ?Hbody.
  - assert (ts_DataFilePath (recordPiece (touch now t) meta) = ts_DataFilePath t) as Hpath
      by (by rewrite recordPiece_path).
    split; rewrite ?Hpath.
    + exact Hnode.
    + exact Hnext.
    + unfold recordPiece. by case_match.
    + unfold recordPiece. by case_match.
    + rewrite fileData_writeAt, Hdata.
      assert (length (take off content) = off) as Ho by (rewrite length_take; lia).
      rewrite <-Ho at 2. rewrite splice_append. unfold bs. by rewrite take_take_drop.
    + intros i. unfold recordPiece. simpl. rewrite Hp, decide_True, Nat2Z.id by lia.
      rewrite lookup_ge_None_2 by done. simpl.
      destruct (decide (i = Z.of_nat (length metas))) as [->|Hne].
      * rewrite lookup_insert_eq, decide_True, Nat2Z.id by lia.
        by rewrite lookup_app_r, Nat.sub_diag by done.
      * rewrite lookup_insert_ne by done. rewrite Hp. case_decide; [|done].
        destruct (decide (Z.to_nat i < length metas)%nat).
        -- by rewrite lookup_app_l.
        -- rewrite lookup_ge_None_2 by lia. symmetry. apply lookup_ge_None_2.
           rewrite length_app. simpl. lia.
    + lia.
Qed.

End Store.

(** ** The books of the task during the download *)

(** [k] pieces are ready, in order, with [done] bytes, and the length of the
    content is not known to the task yet. *)
Record counted (k : nat) (done : Z) (t : filePeerTask) : Prop := {
  ct_bitmap : bitmap_ok (pt_readyPieces t);
  ct_cap : 64 <= bm_cap (pt_readyPieces t) <= Z.max 64 (2 * Z.of_nat k);
  ct_last : Z.of_nat k <= bm_cap (pt_readyPieces t);
  ct_settled : bm_settled (pt_readyPieces t) = Z.of_nat k;
  ct_mem : ∀ i, 0 <= i → bm_mem (pt_readyPieces t) i ↔ i < Z.of_nat k;
  ct_completed : pt_completedLength t = done;
  ct_content : pt_contentLength t = -1;
  ct_once : pt_once t = false;
}.

(** What a report does not change. *)
Definition task_frame (t t' : filePeerTask) : Prop :=
  pt_taskID t' = pt_taskID t ∧ pt_peerID t' = pt_peerID t ∧ pt_totalPiece t' = pt_totalPiece t ∧
  pt_results t' = pt_results t ∧ pt_failedCode t' = pt_failedCode t.

Lemma task_frame_refl t : task_frame t t.
Proof. by split_and!. Qed.

Lemma task_frame_trans t1 t2 t3 : task_frame t1 t2 → task_frame t2 t3 → task_frame t1 t3.
Proof. unfold task_frame. intros (?&?&?&?&?) (?&?&?&?&?). split_and!; congruence. Qed.

(** What a report says: the number, the start and the size of its piece, whether
    it succeeded, and how many pieces are ready. *)
Definition told (r : PieceResult) : option (Z * Z * Z) * bool * Z :=
  ((λ p, (PieceNum p, RangeStart p, RangeSize p)) <$> pr_PieceInfo r, pr_Success r, pr_FinishedCount r).

(** The report of piece [i] of a content of [len] bytes in pieces of [ps]. *)
Definition pieceTold (ps len i : Z) : option (Z * Z * Z) * bool * Z :=
  (Some (i, i * ps, Z.min ps (len - i * ps)), true, i + 1).

(** The last report, which has no piece. *)
Definition endTold (n : Z) : option (Z * Z * Z) * bool * Z := (Some (EndOfPiece, 0, 0), false, n).

Section Books.
Context (sha256 : string → string) {C : MetadataCodec} (cfg : ClientConfig) (now : Z).

Lemma report_step c r k done :
  counted k done (cl_task c) → Z.of_nat k < 2 ^ 28 → PieceNum (tr_piece r) = Z.of_nat k →
  pr_Success (tr_result r) = true → 0 <= done → 0 <= RangeSize (tr_piece r) →
  done + RangeSize (tr_piece r) < 2 ^ 63 →
  ∃ c', filePeerTask_ReportPieceResult sha256 cfg now c r = Ok (c', None) ∧
    cl_fs c' = cl_fs c ∧ cl_store c' = cl_store c ∧
    counted (S k) (done + RangeSize (tr_piece r)) (cl_task c') ∧
    task_frame (cl_task c) (cl_task c') ∧
    pt_sent (cl_task c') = pt_sent (cl_task c) ++
      [set_pr_FinishedCount (Z.of_nat (S k)) (tr_result r)].
Proof.
  intros [Hok Hcap Hlast Hset Hmem Hdone Hcl Honce] Hk Hnum Hsucc H0 Hsz Hbig.
  unfold filePeerTask_ReportPieceResult. rewrite Hsucc, Hnum. simpl.
  destruct (IsSet_total (pt_readyPieces (cl_task c)) (Z.of_nat k) Hok) as [r0 Hr0]; [lia|].
  rewrite Hr0. simpl. destruct r0.
  { exfalso. apply (Hmem (Z.of_nat k)) in Hr0; lia. }
  destruct (Set_spec (pt_readyPieces (cl_task c)) (Z.of_nat k) Hok) as
    (b' & -> & Hok' & Hcap' & Hlt' & Hset' & Hmem'); [lia..|]. simpl.
  rewrite Hset, int32_small in Hset' by lia.
  assert (64 <= bm_cap b' <= Z.max 64 (2 * Z.of_nat (S k))) as Hcap1.
  { rewrite Hcap'. destruct (Z.leb_spec (bm_cap (pt_readyPieces (cl_task c))) (Z.of_nat k)); lia. }
  unfold isCompleted. simpl. rewrite Hcl, Hdone, int64_small by lia.
  destruct (Z.eqb_spec (done + RangeSize (tr_piece r)) (-1)); [lia|].
  eexists. split; [done|]. do 2 (split; [done|]). split; [|split; [by split_and!|]].
  - split; simpl; [done|lia|lia|lia| |by rewrite Hdone, int64_small by lia|done|done].
    intros i Hi. rewrite Hmem', Hmem by done. lia.
  - simpl. unfold Bitmap_Settled. rewrite Hset'. do 4 f_equal. lia.
Qed.

End Books.

(** ** One piece from the source *)

Section Download.
Context (md5 : list byte → string) (sha256 : string → string) {C : MetadataCodec}.
Context (cfg : ClientConfig) (now : Z).
Implicit Types (c : Client) (content : list byte) (body : Stream StoreError).

Lemma addTraffic_frame n c :
  cl_fs (addTraffic n c) = cl_fs c ∧ cl_store (addTraffic n c) = cl_store c ∧
  task_frame (cl_task c) (cl_task (addTraffic n c)) ∧
  pt_sent (cl_task (addTraffic n c)) = pt_sent (cl_task c) ∧
  (∀ k done, counted k done (cl_task c) → counted k done (cl_task (addTraffic n c))).
Proof.
  unfold addTraffic. destruct (0 <? n); simpl; split_and!; try done.
  intros k done []. by split.
Qed.

(** The metadata the store records for the next piece. *)
Definition nextMeta (content : list byte) (metas : list PieceMetadata) (off : nat) (n : Z)
    : PieceMetadata :=
  mkPieceMetadata (Z.of_nat (length metas))
    (if cc_calculateDigest cfg then md5 (take (Z.to_nat n) (drop off content)) else "")
    (Z.of_nat off) (mkRange (Z.of_nat off) n) 0.

Lemma process_piece c body content file metas off ct size n cb :
  stored file content metas off (cl_fs c) (cl_store c) →
  s_data body = drop off content → 0 < size < 2 ^ 32 → Z.of_nat (length content) < 2 ^ 63 →
  n = Z.min size (Z.of_nat (length content - off)) → 0 < n →
  (n = size ∨ ct = -1 ∧ s_err body = None) →
  let rest := mkStream (drop (off + Z.to_nat n) content) (s_err body) in
  ∃ c1, stored file content (metas ++ [nextMeta content metas off n]) (off + Z.to_nat n)
          (cl_fs c1) (cl_store c1) ∧
    fs_nodes (cl_fs c1) = fs_nodes (cl_fs c) ∧
    task_frame (cl_task c) (cl_task c1) ∧ pt_sent (cl_task c1) = pt_sent (cl_task c) ∧
    (∀ k done, counted k done (cl_task c) → counted k done (cl_task c1)) ∧
    processPieceFromSource md5 sha256 cfg now (λ _, None) c body ct
      (Z.of_nat (length metas)) (Z.of_nat off) size cb =
    (c2 ← pushSuccessResult sha256 cfg now (cb c1 n) (pt_peerID (cl_task c))
            (mkPieceInfo (Z.of_nat (length metas)) (Z.of_nat off) n
               (if cc_calculateDigest cfg then md5 (consumed body rest) else ""%string)
               (Z.of_nat off) 0) now now;
     Ok (c2, rest, (n, None))).
Proof.
  intros Hst Hbody Hsize Hlen Hn Hpos Hlim rest.
  destruct (WritePiece_source md5 file content metas off (cl_fs c) (cl_store c) now [] body
    (cc_calculateDigest cfg) (ct =? -1) size n Hst Hbody) as (fs' & t' & Hw & Hst' & Hnodes);
    [lia|done|done| |].
  { destruct Hlim as [->|[-> ?]]; [by left|by right]. }
  pose proof (st_off _ _ _ _ _ _ Hst) as Hoff.
  destruct (addTraffic_frame n (mkClient fs' t' (cl_task c))) as (Hf1 & Hs1 & Ht1 & Hse & Hc1).
  exists (addTraffic n (mkClient fs' t' (cl_task c))). rewrite Hf1, Hs1. simpl in *.
  do 5 (split; [done|]).
  unfold processPieceFromSource, writePiece. rewrite int64_small by lia. cbn [sourceReader].
  unfold sourceReader. rewrite Hw. simpl.
  destruct (Z.eqb_spec n size) as [->|Hne]; simpl; [done|].
  destruct (Z.ltb_spec 0 n); [|lia]. by rewrite uint32_small by lia.
Qed.

(** A piece whose callback [cb] leaves the file and the books alone. *)
Lemma piece_step c body content file metas off ct size n cb done :
  stored file content metas off (cl_fs c) (cl_store c) → counted (length metas) done (cl_task c) →
  s_data body = drop off content → 0 < size < 2 ^ 32 → Z.of_nat (length content) < 2 ^ 62 →
  n = Z.min size (Z.of_nat (length content - off)) → 0 < n →
  (n = size ∨ ct = -1 ∧ s_err body = None) →
  0 <= done <= Z.of_nat (length content) → Z.of_nat (length metas) < 2 ^ 28 →
  (∀ c, cl_fs (cb c n) = cl_fs c ∧ pt_sent (cl_task (cb c n)) = pt_sent (cl_task c) ∧
     pt_taskID (cl_task (cb c n)) = pt_taskID (cl_task c) ∧
     (∀ k d, counted k d (cl_task c) → counted k d (cl_task (cb c n)))) →
  ∃ c1 c2, stored file content (metas ++ [nextMeta content metas off n]) (off + Z.to_nat n)
          (cl_fs c1) (cl_store c1) ∧
    fs_nodes (cl_fs c1) = fs_nodes (cl_fs c) ∧ task_frame (cl_task c) (cl_task c1) ∧
    processPieceFromSource md5 sha256 cfg now (λ _, None) c body ct
      (Z.of_nat (length metas)) (Z.of_nat off) size cb =
      Ok (c2, mkStream (drop (off + Z.to_nat n) content) (s_err body), (n, None)) ∧
    cl_fs c2 = cl_fs (cb c1 n) ∧ cl_store c2 = cl_store (cb c1 n) ∧
    task_frame (cl_task (cb c1 n)) (cl_task c2) ∧
    counted (S (length metas)) (done + n) (cl_task c2) ∧
    told <$> pt_sent (cl_task c2) =
      (told <$> pt_sent (cl_task c)) ++
      [(Some (Z.of_nat (length metas), Z.of_nat off, n), true, Z.of_nat (length metas) + 1)].
Proof.
  intros Hst Hcnt Hbody Hsize Hlen Hn Hpos Hlim Hdone Hk Hcb.
  destruct (process_piece c body content file metas off ct size n cb) as
    (c1 & Hst1 & Hnodes & Hfr & Hsent & Hc1 & ->); [done..|lia|done|done|done|].
  destruct (Hcb c1) as (Hfs & Hs2 & _ & Hc2).
  set (piece := mkPieceInfo _ _ _ _ _ _). unfold pushSuccessResult. set (r := mkPieceTaskResult _ _ _).
  destruct (report_step sha256 cfg now (cb c1 n) r (length metas) done) as
    (c2 & -> & Hf & Hstore & Hcnt2 & Hfr2 & Hsent2); [by apply Hc2, Hc1|done|done|done|lia|simpl; lia|
      simpl; lia|].
  simpl. exists c1, c2. do 3 (split; [done|]). split; [done|]. do 3 (split; [done|]).
  split; [done|]. rewrite Hsent2, fmap_app, Hs2, Hsent. simpl. unfold told at 2. simpl. do 3 f_equal. lia.
Qed.

(** ** The digest of what is stored *)

Lemma pieceDigests_stored file content metas off fs t :
  stored file content metas off fs t → md_TotalPieces (ts_meta t) = Z.of_nat (length metas) →
  pieceDigests (ts_meta t) = pm_Md5 <$> metas.
Proof.
  intros [_ _ _ _ _ Hp _] Htot. unfold pieceDigests. rewrite Htot.
  apply list_eq. intros i. rewrite !list_lookup_fmap.
  destruct (decide (i < length metas)%nat) as [Hi|Hi].
  - rewrite lookup_seqZ_lt by lia. simpl. rewrite Hp, decide_True, Z.add_0_l, Nat2Z.id by lia.
    by destruct (lookup_lt_is_Some_2 metas i Hi) as [p ->].
  - rewrite lookup_seqZ_ge, lookup_ge_None_2 by lia. done.
Qed.

(** What the store has recorded at the end of a download. *)
Definition fetched (file : inode) content (c : Client) : Prop :=
  ∃ metas, stored file content metas (length content) (cl_fs c) (cl_store c) ∧
    md_TotalPieces (ts_meta (cl_store c)) = Z.of_nat (length metas) ∧
    md_PieceMd5Sign (ts_meta (cl_store c)) = Sha256 sha256 (pm_Md5 <$> metas) ∧ metas ≠ [].

(** The update that follows the last piece. *)
Lemma storeUpdate_last file content metas c len :
  stored file content metas (length content) (cl_fs c) (cl_store c) → metas ≠ [] →
  let c' := storeUpdate sha256 now (mkUpdateTaskRequest len (Z.of_nat (length metas)) "" true) c in
  fetched file content c' ∧ md_TotalPieces (ts_meta (cl_store c')) = Z.of_nat (length metas).
Proof.
  intros Hst Hne c'. subst c'. unfold storeUpdate.
  pose proof (stored_UpdateTask sha256 file content metas (length content) (cl_fs c) (cl_store c)
    now (mkUpdateTaskRequest len (Z.of_nat (length metas)) "" true) Hst) as Hst'.
  assert (md_TotalPieces (ts_meta (localTaskStore_UpdateTask sha256 now (cl_store c)
    (mkUpdateTaskRequest len (Z.of_nat (length metas)) "" true))) = Z.of_nat (length metas)) as Htot.
  { unfold localTaskStore_UpdateTask. simpl.
    destruct (Z.ltb_spec 0 (Z.of_nat (length metas))); [|destruct metas; simpl in *; [done|lia]].
    simpl. by case_decide. }
  split; [|done]. exists metas. do 2 (split; [done|]). split; [|done]. simpl.
  rewrite <-(pieceDigests_stored file content metas (length content) _ _ Hst' Htot).
  unfold localTaskStore_UpdateTask. simpl. by case_decide.
Qed.

(** *** Known length *)

Lemma ceil_bounds len ps :
  0 < ps → 0 < len → let m := - (- len / ps) in 0 < m ∧ (m - 1) * ps < len <= m * ps.
Proof.
  intros Hps Hlen m. pose proof (Z.div_mod (- len) ps). pose proof (Z.mod_pos_bound (- len) ps).
  subst m. nia.
Qed.

(** One turn of the loop. *)
Lemma known_turn file content ps maxn metas c body :
  let k := length metas in
  let off := Z.to_nat (Z.of_nat k * ps) in
  let len := Z.of_nat (length content) in
  0 < ps < 2 ^ 32 → len < 2 ^ 62 → maxn < 2 ^ 28 → (maxn - 1) * ps < len <= maxn * ps →
  Z.of_nat k < maxn →
  stored file content metas off (cl_fs c) (cl_store c) →
  counted k (Z.of_nat off) (cl_task c) → s_data body = drop off content →
  let size := Z.min ps (len - Z.of_nat off) in
  let body' := mkStream (drop (off + Z.to_nat size) content) (s_err body) in
  ∃ c1 c2,
    stored file content (metas ++ [nextMeta content metas off size]) (off + Z.to_nat size)
      (cl_fs c1) (cl_store c1) ∧
    fs_nodes (cl_fs c1) = fs_nodes (cl_fs c) ∧ cl_fs c2 = cl_fs c1 ∧
    cl_store c2 = cl_store (if Z.of_nat k =? maxn - 1
      then storeUpdate sha256 now (mkUpdateTaskRequest len maxn "" true) c1 else c1) ∧
    counted (S k) (Z.of_nat (off + Z.to_nat size)) (cl_task c2) ∧
    task_frame (cl_task c) (cl_task c2) ∧
    told <$> pt_sent (cl_task c2) = (told <$> pt_sent (cl_task c)) ++ [pieceTold ps len (Z.of_nat k)] ∧
    ∀ nums, knownLoop md5 sha256 cfg now (λ _, None) len ps maxn (Z.of_nat k :: nums) c body =
      knownLoop md5 sha256 cfg now (λ _, None) len ps maxn nums c2 body'.
Proof.
  intros k off len Hps Hlen Hmax Hceil Hk Hst Hcnt Hbody size body'.
  assert (Z.of_nat off = Z.of_nat k * ps) as Hoff by (subst off; nia).
  assert (Z.of_nat off < len) as Hkl by nia.
  set (cb := λ c (_ : Z), if Z.of_nat k =? maxn - 1
    then storeUpdate sha256 now (mkUpdateTaskRequest len maxn "" true) c else c).
  destruct (piece_step c body content file metas off len size size cb (Z.of_nat off)) as
    (c1 & c2 & Hst1 & Hn1 & Hf1 & Hrun & Hfs & Hstore & Hf2 & Hcnt2 & Hsent2);
    [done|done|done|lia|done|lia|lia|by left|lia|lia| |].
  { intros c0. unfold cb. case_match; by split_and!. }
  exists c1, c2. do 2 (split; [done|]). split; [rewrite Hfs; unfold cb; by case_match|].
  split; [done|]. split; [by replace (Z.of_nat (off + Z.to_nat size)) with (Z.of_nat off + size) by lia|].
  split; [|split; [by unfold pieceTold; rewrite <-Hoff|]].
  { eapply task_frame_trans; [exact Hf1|]. eapply task_frame_trans; [|exact Hf2].
    unfold cb. by case_match. }
  intros nums. cbn [knownLoop]. unfold uint64. rewrite wrapU_small by (unfold inU; lia).
  rewrite int64_small by lia. rewrite <-Hoff.
  destruct (Z.ltb_spec 0 len) as [_|]; [|lia]. rewrite andb_true_l.
  assert ((if len <? Z.of_nat off + ps then uint32 (len - Z.of_nat off) else ps) = size) as ->
    by (subst size; destruct (Z.ltb_spec len (Z.of_nat off + ps)); rewrite ?uint32_small; lia).
  fold k in Hrun. unfold cb in Hrun. rewrite Hrun. simpl. by rewrite Z.eqb_refl.
Qed.

Lemma knownLoop_run file content ps (n : nat) : ∀ metas c body,
  let k := length metas in
  let len := Z.of_nat (length content) in
  let maxn := Z.of_nat (k + S n) in
  0 < ps < 2 ^ 32 → len < 2 ^ 62 → maxn < 2 ^ 28 → (maxn - 1) * ps < len <= maxn * ps →
  let off := Z.to_nat (Z.of_nat k * ps) in
  stored file content metas off (cl_fs c) (cl_store c) →
  counted k (Z.of_nat off) (cl_task c) → s_data body = drop off content →
  ∃ c', knownLoop md5 sha256 cfg now (λ _, None) len ps maxn (seqZ (Z.of_nat k) (Z.of_nat (S n))) c
      body = Ok (filePeerTask_SetContentLength sha256 cfg now c' len) ∧
    fetched file content c' ∧ counted (k + S n) len (cl_task c') ∧
    fs_nodes (cl_fs c') = fs_nodes (cl_fs c) ∧ task_frame (cl_task c) (cl_task c') ∧
    told <$> pt_sent (cl_task c') =
      (told <$> pt_sent (cl_task c)) ++ (pieceTold ps len <$> seqZ (Z.of_nat k) (Z.of_nat (S n))).
Proof.
  induction n as [|n IH]; intros metas c body k len maxn Hps Hlen Hmax Hceil off Hst Hcnt Hbody.
  all: rewrite seqZ_cons by lia.
  all: destruct (known_turn file content ps maxn metas c body Hps Hlen Hmax Hceil ltac:(lia) Hst Hcnt Hbody)
    as (c1 & c2 & Hst1 & Hn1 & Hfs & Hstore & Hcnt2 & Hf2 & Hsent2 & ->).
  all: fold k off in Hst1, Hstore, Hcnt2, Hsent2.
  all: assert (Z.of_nat off = Z.of_nat k * ps) as Hoff by (subst off; nia).
  - rewrite seqZ_nil by lia. exists c2. split; [done|].
    assert (off + Z.to_nat (ps `min` (len - Z.of_nat off)) = length content)%nat as Hend by nia.
    fold len in Hst1, Hstore, Hcnt2. rewrite Hend in *.
    destruct (Z.eqb_spec (Z.of_nat k) (maxn - 1)); [|lia].
    pose proof (storeUpdate_last file content _ c1 len Hst1) as Hfet. rewrite length_app in Hfet.
    split; [|split; [|split; [by rewrite Hfs|split; [done|]]]].
    + destruct Hfet as [(metas' & Hfet) _]; [by destruct metas|]. exists metas'.
      rewrite Hfs, Hstore. replace maxn with (Z.of_nat (length metas + length [nextMeta content metas off
        (ps `min` (len - Z.of_nat off))])) by (simpl; lia). done.
    + by replace (k + 1)%nat with (S k) by lia.
    + by rewrite Hsent2.
  - assert (ps `min` (len - Z.of_nat off) = ps) as Hmin by nia.
    fold len in Hst1, Hstore, Hcnt2. rewrite Hmin in *.
    destruct (Z.eqb_spec (Z.of_nat k) (maxn - 1)); [lia|].
    set (metas2 := metas ++ [nextMeta content metas off ps]) in *.
    assert (length metas2 = S k) as Hk2 by (subst metas2; rewrite length_app; simpl; lia).
    assert ((off + Z.to_nat ps)%nat = Z.to_nat (Z.of_nat (length metas2) * ps)) as Hend by nia.
    rewrite Hend, <-Hfs, <-Hstore in Hst1. rewrite Hend, <-Hk2 in Hcnt2.
    destruct (IH metas2 c2 (mkStream (drop (off + Z.to_nat ps) content) (s_err body)))
      as (c' & Hrun' & Hfet & Hcnt' & Hn' & Hf' & Hsent'); rewrite ?Hk2 in *; try done; try lia.
    { by rewrite Hend. }
    exists c'. replace (Z.pred (Z.of_nat (S (S n)))) with (Z.of_nat (S n)) by lia.
    replace (Z.succ (Z.of_nat k)) with (Z.of_nat (S k)) by lia.
    replace maxn with (Z.of_nat (S k + S n)) by lia.
    replace (k + S (S n))%nat with (S k + S n)%nat by lia.
    fold k len. fold off. rewrite Hmin. split; [exact Hrun'|]. split; [done|]. split; [done|]. split; [by rewrite Hn', Hfs|].
    split; [by eapply task_frame_trans|].
    rewrite Hsent', Hsent2, <-(assoc_L (++)). f_equal.
Qed.

(** *** Unknown length *)

(** What the last piece, the one shorter than the others, does on its way. *)
Definition lastUpdate (ps off : Z) (c : Client) (n : Z) : Client :=
  if n =? ps then c
  else storeUpdate sha256 now (mkUpdateTaskRequest (off + n) (ceilDiv (off + n) ps) "" true)
         (filePeerTask_SetTotalPieces (ceilDiv (off + n) ps) c).

Lemma unknownLoop_S fuel ps k c body (off : nat) :
  Z.of_nat off = Z.of_nat k * ps → Z.of_nat off < 2 ^ 62 →
  unknownLoop md5 sha256 cfg now (λ _, None) (S fuel) ps (Z.of_nat k) c body =
  ('(c, rest, (n, err)) ←
     processPieceFromSource md5 sha256 cfg now (λ _, None) c body (-1) (Z.of_nat k)
       (Z.of_nat off) ps (lastUpdate ps (Z.of_nat off));
   match err with
   | Some e => Ok (c, Some e)
   | None =>
       if n <? ps then Ok (filePeerTask_SetContentLength sha256 cfg now c (Z.of_nat off + n))
       else unknownLoop md5 sha256 cfg now (λ _, None) fuel ps (int32 (Z.of_nat k + 1)) c rest
   end).
Proof.
  intros Ho Hs. cbn [unknownLoop]. rewrite <-Ho. unfold uint64. rewrite wrapU_small; [reflexivity|].
  unfold inU. lia.
Qed.

(** The full pieces. *)
Lemma unknownLoop_full file content ps fuel (m : nat) : ∀ metas c body,
  let k := length metas in
  let len := Z.of_nat (length content) in
  let off j := Z.to_nat (Z.of_nat j * ps) in
  0 < ps < 2 ^ 32 → len < 2 ^ 62 → Z.of_nat (k + m) < 2 ^ 28 → Z.of_nat (k + m) * ps <= len →
  stored file content metas (off k) (cl_fs c) (cl_store c) →
  counted k (Z.of_nat (off k)) (cl_task c) → s_data body = drop (off k) content →
  ∃ metas' c', length metas' = (k + m)%nat ∧
    unknownLoop md5 sha256 cfg now (λ _, None) (m + fuel) ps (Z.of_nat k) c body =
    unknownLoop md5 sha256 cfg now (λ _, None) fuel ps (Z.of_nat (k + m)) c'
      (mkStream (drop (off (k + m)%nat) content) (s_err body)) ∧
    stored file content metas' (off (k + m)%nat) (cl_fs c') (cl_store c') ∧
    counted (k + m) (Z.of_nat (off (k + m)%nat)) (cl_task c') ∧
    fs_nodes (cl_fs c') = fs_nodes (cl_fs c) ∧ task_frame (cl_task c) (cl_task c') ∧
    told <$> pt_sent (cl_task c') =
      (told <$> pt_sent (cl_task c)) ++ (pieceTold ps len <$> seqZ (Z.of_nat k) (Z.of_nat m)).
Proof.
  induction m as [|m IH]; intros metas c body k len off Hps Hlen Hmax Hle Hst Hcnt Hbody.
  { exists metas, c. rewrite Nat.add_0_r. split; [done|].
    split; [destruct body as [d e]; simpl in *; by rewrite Hbody|].
    do 3 (split; [done|]). split; [apply task_frame_refl|]. by rewrite app_nil_r. }
  assert (Z.of_nat (off k) = Z.of_nat k * ps) as Hoff by (subst off; simpl; nia).
  set (cb := lastUpdate ps (Z.of_nat (off k))).
  assert (∀ c, cb c ps = c) as Hcb by (intros c0; unfold cb, lastUpdate; by rewrite Z.eqb_refl).
  destruct (piece_step c body content file metas (off k) (-1) ps ps cb (Z.of_nat (off k))) as
    (c1 & c2 & Hst1 & Hn1 & Hf1 & Hrun & Hfs & Hstore & Hf2 & Hcnt2 & Hsent2);
    [done|done|done|lia|done|nia|lia|by left|nia|lia|by intros c0; rewrite Hcb; split_and!|].
  rewrite Hcb in *. fold k in Hrun, Hcnt2, Hsent2.
  set (metas2 := metas ++ [nextMeta content metas (off k) ps]) in *.
  assert (length metas2 = S k) as Hk2 by (subst metas2; rewrite length_app; simpl; lia).
  assert ((off k + Z.to_nat ps)%nat = off (length metas2)) as Hend by (rewrite Hk2; subst off; simpl; nia).
  rewrite Hend, <-Hfs, <-Hstore in Hst1.
  replace (Z.of_nat (off k) + ps) with (Z.of_nat (off (length metas2))) in Hcnt2 by lia.
  destruct (IH metas2 c2 (mkStream (drop (off (length metas2)) content) (s_err body))) as
    (metas' & c' & Hl' & Hrun' & Hst' & Hcnt' & Hn' & Hf' & Hsent');
    rewrite ?Hk2 in *; try done; try lia.
  exists metas', c'. replace (k + S m)%nat with (S k + m)%nat by lia. split; [done|]. split.
  { cbn [Nat.add]. rewrite (unknownLoop_S _ _ _ _ _ (off k)) by (try apply Hoff; nia).
    fold cb. rewrite Hrun. simpl. destruct (Z.ltb_spec ps ps); [lia|].
    rewrite int32_small by lia. replace (Z.of_nat k + 1) with (Z.of_nat (S k)) by lia.
    by rewrite Hend. }
  do 2 (split; [done|]). split; [by rewrite Hn', Hfs|]. split; [exact (task_frame_trans _ _ _ (task_frame_trans _ _ _ Hf1 Hf2) Hf')|].
  rewrite Hsent', Hsent2, <-(assoc_L (++)). f_equal.
  rewrite (seqZ_cons (Z.of_nat k) (Z.of_nat (S m))) by lia. simpl. f_equal.
  - unfold pieceTold. by rewrite <-Hoff, Z.min_l by nia.
  - do 2 f_equal; lia.
Qed.

Lemma ceilDiv_last k ps n :
  0 < ps → 0 < n < ps → Z.of_nat k < 2 ^ 28 → ceilDiv (Z.of_nat k * ps + n) ps = Z.of_nat (S k).
Proof.
  intros Hps Hn Hk. unfold ceilDiv.
  destruct (ceil_bounds (Z.of_nat k * ps + n) ps) as [_ Hb]; [lia|nia|].
  set (m := - (_ / ps)) in *. rewrite Nat2Z.inj_succ.
  assert (Z.of_nat k < m) by (apply (Z.mul_lt_mono_pos_r ps); lia).
  assert (m - 1 < Z.of_nat k + 1) by (apply (Z.mul_lt_mono_pos_r ps); lia).
  rewrite int32_small; lia.
Qed.

(** A last piece that is not full. *)
Lemma unknownLoop_short file content ps fuel metas c body :
  let k := length metas in
  let len := Z.of_nat (length content) in
  let off := Z.to_nat (Z.of_nat k * ps) in
  0 < ps < 2 ^ 32 → len < 2 ^ 62 → Z.of_nat k < 2 ^ 28 → Z.of_nat k * ps < len < Z.of_nat (S k) * ps →
  stored file content metas off (cl_fs c) (cl_store c) →
  counted k (Z.of_nat off) (cl_task c) → s_data body = drop off content → s_err body = None →
  ∃ c', unknownLoop md5 sha256 cfg now (λ _, None) (S fuel) ps (Z.of_nat k) c body =
      Ok (filePeerTask_SetContentLength sha256 cfg now c' len) ∧
    fetched file content c' ∧ counted (S k) len (cl_task c') ∧
    fs_nodes (cl_fs c') = fs_nodes (cl_fs c) ∧
    task_frame (set_pt_totalPiece (Z.of_nat (S k)) (cl_task c)) (cl_task c') ∧
    md_TotalPieces (ts_meta (cl_store c')) = Z.of_nat (S k) ∧
    told <$> pt_sent (cl_task c') = (told <$> pt_sent (cl_task c)) ++ [pieceTold ps len (Z.of_nat k)].
Proof.
  intros k len off Hps Hlen Hk Hlast Hst Hcnt Hbody Heof.
  assert (Z.of_nat off = Z.of_nat k * ps) as Hoff by (subst off; nia).
  set (n := len - Z.of_nat off). assert (0 < n < ps) as Hn by (subst n; nia).
  set (cb := lastUpdate ps (Z.of_nat off)).
  assert (∀ c, cb c n = storeUpdate sha256 now
    (mkUpdateTaskRequest len (Z.of_nat (S k)) "" true)
    (filePeerTask_SetTotalPieces (Z.of_nat (S k)) c)) as Hcb.
  { intros c0. unfold cb, lastUpdate. destruct (Z.eqb_spec n ps); [lia|].
    rewrite Hoff, ceilDiv_last by lia. by replace (Z.of_nat k * ps + n) with len by lia. }
  destruct (piece_step c body content file metas off (-1) ps n cb (Z.of_nat off)) as
    (c1 & c2 & Hst1 & Hn1 & Hf1 & Hrun & Hfs & Hstore & Hf2 & Hcnt2 & Hsent2);
    [done|done|done|lia|done|lia|lia|by right|lia|lia| |].
  { intros c0. rewrite Hcb. do 3 (split; [done|]). intros i d []. by split. }
  rewrite Hcb in *. fold k in Hrun, Hcnt2, Hsent2. exists c2.
  rewrite (unknownLoop_S _ _ _ _ _ off) by (try apply Hoff; lia). fold cb. rewrite Hrun. simpl.
  destruct (Z.ltb_spec n ps); [|lia]. replace (Z.of_nat off + n) with len in * by lia.
  split; [done|].
  replace (off + Z.to_nat n)%nat with (length content) in Hst1 by lia.
  destruct (storeUpdate_last file content _ (filePeerTask_SetTotalPieces (Z.of_nat (S k)) c1) len
    Hst1) as [(ms & Hf) Ht]; [by destruct metas|].
  rewrite length_app in *. cbn [length] in *.
  replace (Z.of_nat (length metas + 1)) with (Z.of_nat (S k)) in * by lia.
  split; [exists ms; by rewrite Hfs, Hstore|]. split; [done|]. split; [by rewrite Hfs|].
  split; [|split; [by rewrite Hstore|by rewrite Hsent2; unfold pieceTold; rewrite <-Hoff, Z.min_r by lia]].
  eapply task_frame_trans; [|exact Hf2].
  destruct Hf1 as (?&?&?&?&?). by split_and!.
Qed.

(** The source ends where a piece ends: a piece without bytes is reported with
    the size of a full one. *)
Lemma unknownLoop_aligned file content ps fuel metas c body :
  let k := length metas in
  let len := Z.of_nat (length content) in
  0 < ps < 2 ^ 32 → len < 2 ^ 62 → Z.of_nat k < 2 ^ 28 → len = Z.of_nat k * ps →
  stored file content metas (length content) (cl_fs c) (cl_store c) →
  counted k len (cl_task c) → s_data body = [] → s_err body = None →
  ∃ c', unknownLoop md5 sha256 cfg now (λ _, None) (S fuel) ps (Z.of_nat k) c body =
      Ok (filePeerTask_SetContentLength sha256 cfg now c' len) ∧
    counted (S k) (len + ps) (cl_task c') ∧ fs_nodes (cl_fs c') = fs_nodes (cl_fs c) ∧
    pt_results (cl_task c') = pt_results (cl_task c) ∧
    pt_failedCode (cl_task c') = pt_failedCode (cl_task c).
Proof.
  intros k len Hps Hlen Hk Hal [Hnode Hnext Hmf Hrw Hdata Hp Hoff] Hcnt Hbody Heof.
  rewrite (unknownLoop_S _ _ _ _ _ (length content)) by (try apply Hal; lia).
  unfold processPieceFromSource, writePiece. rewrite int64_small by lia.
  set (req := mkWritePieceRequest _ _ _).
  assert (∃ fs', localTaskStore_WritePiece md5 (cl_fs c) now (cl_store c) req =
    (fs', touch now (cl_store c), (0, None), mkStream [] None) ∧ fs_nodes fs' = fs_nodes (cl_fs c))
    as (fs' & Hw & Hn').
  { unfold localTaskStore_WritePiece. cbn [touch ts_Pieces ts_meta]. subst req. simpl.
    rewrite Hp, decide_True, Nat2Z.id, lookup_ge_None_2 by lia.
    rewrite (os_Open_node _ _ file) by done. destruct (Z.ltb_spec (Z.of_nat (length content)) 0); [lia|].
    assert (copyLimited body ps = ([], mkStream [] None, None)) as Hcopy.
    { rewrite copyLimited_short by (rewrite Hbody; simpl; lia). by rewrite Hbody, Heof. }
    unfold copyPiece, sourceReader. destruct (cc_calculateDigest cfg);
      cbn [wp_Reader wp_Piece pm_Range Length]; rewrite Hcopy; simpl; by eexists. }
  rewrite Hw. cbn [negb andb]. destruct (Z.eqb_spec 0 ps); [lia|]. cbn [negb andb Z.ltb Z.compare].
  set (c1 := lastUpdate _ _ _ _).
  assert (counted k len (cl_task c1) ∧ fs_nodes (cl_fs c1) = fs_nodes (cl_fs c) ∧
    pt_results (cl_task c1) = pt_results (cl_task c) ∧
    pt_failedCode (cl_task c1) = pt_failedCode (cl_task c)) as (Hcnt1 & Hn1 & Hr1 & Hf1).
  { subst c1. unfold lastUpdate. destruct (Z.eqb_spec 0 ps); [lia|]. split; [|done].
    destruct Hcnt. by split. }
  unfold pushSuccessResult. set (r := mkPieceTaskResult _ _ _).
  destruct (report_step sha256 cfg now c1 r k len) as
    (c2 & -> & Hf & Hstore & Hcnt2 & Hfr2 & Hsent2); [done|done|done|done|lia|simpl; lia|simpl; lia|].
  simpl. exists c2. destruct (Z.ltb_spec 0 ps); [|lia]. rewrite Z.add_0_r. split; [done|].
  split; [done|]. split; [by rewrite Hf|]. destruct Hfr2 as (_&_&_&Hr2&Hf2). by rewrite Hr2, Hf2.
Qed.
(** *** The end *)

(** The name holds a regular file with these bytes. *)
Definition holds (fs : FS) (p : fpath) (content : list byte) : Prop :=
  ∃ ino, os_Open fs p = inr ino ∧ fileData fs ino = content.

Lemma os_Stat_absent fs p : os_Lstat fs p = None → os_Stat fs p = None.
Proof. intros H. unfold os_Stat, follow. by rewrite H. Qed.

Lemma os_Link_holds fs old new ino :
  os_Lstat fs old = Some (NodeFile ino) → os_Lstat fs new = None → parentIsDir fs new = true →
  ∃ fs', os_Link fs old new = (fs', None) ∧ holds fs' new (fileData fs ino).
Proof.
  intros Ho Hn Hp. unfold os_Link. rewrite Ho, Hn, Hp. eexists. split; [done|]. exists ino.
  split; [|done]. apply os_Open_node. unfold os_Lstat. simpl. apply lookup_insert_eq.
Qed.

Lemma copyFile_holds fs new bs :
  os_Lstat fs new = None → parentIsDir fs new = true →
  ∃ fs' dst, os_OpenCreate fs new = (fs', inr dst) ∧ dst = fs_next fs ∧
    (∀ ino, ino ≠ dst → fileData fs' ino = fileData fs ino) ∧
    holds (writeAt (truncate fs' dst) dst 0 bs) new bs.
Proof.
  intros Hn Hp. unfold os_OpenCreate. rewrite os_Stat_absent, linkTarget_absent, Hp by done.
  do 2 eexists. split; [done|]. split; [done|]. split.
  { intros ino Hne. unfold fileData, addFile. simpl. by rewrite lookup_insert_ne. }
  exists (fs_next fs). split.
  - apply os_Open_node. unfold os_Lstat. simpl. apply lookup_insert_eq.
  - rewrite fileData_writeAt. unfold fileData at 1, truncate. simpl. rewrite lookup_insert_eq. simpl.
    exact (splice_append [] bs).
Qed.

Lemma Store_holds file content metas fs t dest total :
  stored file content metas (length content) fs t →
  os_Lstat fs dest = None → parentIsDir fs dest = true →
  total <= 0 ∨ total = md_TotalPieces (ts_meta t) →
  ∃ fs' t', localTaskStore_Store (cc_canLink cfg) fs now t (mkStoreRequest dest false false total) =
      (fs', t', None) ∧ holds fs' dest content ∧
    md_TotalPieces (ts_meta t') = md_TotalPieces (ts_meta t) ∧
    md_PieceMd5Sign (ts_meta t') = md_PieceMd5Sign (ts_meta t) ∧
    md_Pieces (ts_meta t') = md_Pieces (ts_meta t).
Proof.
  intros [Hnode Hnext Hmf Hrw Hdata _ _] Habs Hpar Htot. rewrite take_ge in Hdata by lia.
  unfold localTaskStore_Store. cbn [sr_Destination sr_StoreOnly sr_MetadataOnly sr_TotalPieces].
  set (t1 := if 0 <? total then _ else _).
  assert (ts_DataFilePath t1 = ts_DataFilePath t ∧ ts_metadataFile t1 = ts_metadataFile t ∧
    ts_metadataRW t1 = true ∧ md_TotalPieces (ts_meta t1) = md_TotalPieces (ts_meta t) ∧
    md_PieceMd5Sign (ts_meta t1) = md_PieceMd5Sign (ts_meta t) ∧
    md_Pieces (ts_meta t1) = md_Pieces (ts_meta t)) as (Hpath & Hmeta & Hrw1 & Hrest).
  { subst t1. destruct (Z.ltb_spec 0 total); do 3 (split; [done|]); simpl; (split; [lia|done]). }
  unfold saveMetadata. rewrite Hrw1. set (fs1 := writeAt fs _ 0 _).
  assert (fs_nodes fs1 = fs_nodes fs ∧ fs_next fs1 = fs_next fs ∧ fileData fs1 file = content) as
    (Hn1 & Hx1 & Hd1).
  { split; [done|]. split; [done|]. unfold fs1.
    rewrite fileData_writeAt_ne by (by rewrite Hmeta). done. }
  assert (os_Lstat fs1 dest = None) as Habs1 by (unfold os_Lstat; by rewrite Hn1).
  assert (os_Lstat fs1 (ts_DataFilePath t1) = Some (NodeFile file)) as Hnode1
    by (unfold os_Lstat; by rewrite Hn1, Hpath).
  assert (parentIsDir fs1 dest = true) as Hpar1
    by (unfold parentIsDir; by rewrite (os_Stat_nodes fs) by done).
  rewrite os_Stat_absent by done. destruct (cc_canLink cfg).
  - destruct (os_Link_holds fs1 (ts_DataFilePath t1) dest file) as (fs' & -> & Hh); [done..|].
    rewrite Hd1 in Hh. by exists fs', t1.
  - rewrite (os_Open_node _ _ file) by done.
    destruct (copyFile_holds fs1 dest content) as (fs' & dst & -> & -> & Hother & Hh); [done..|].
    exists (writeAt (truncate fs' (fs_next fs1)) (fs_next fs1) 0 content), t1.
    assert (fileData (truncate fs' (fs_next fs1)) file = content) as ->; [|done].
    assert (file ≠ fs_next fs1) as Hne by (rewrite Hx1; lia).
    rewrite <-Hd1, <-(Hother file) by done. unfold truncate, fileData. cbn [set_fs_data fs_data].
    by rewrite lookup_insert_ne.
Qed.

Lemma ValidateDigest_fetched file content c :
  (∀ s, sha256 s ≠ ""%string) → fetched file content c →
  localTaskStore_ValidateDigest sha256 (cl_store c) = (cl_store c, None).
Proof.
  intros Hsha (metas & Hst & Htot & Hsign & Hne). unfold localTaskStore_ValidateDigest.
  rewrite (pieceDigests_stored _ _ _ _ _ _ Hst Htot), Hsign, Htot.
  destruct metas as [|m metas]; [done|]. rewrite decide_False by apply Hsha.
  destruct (Z.leb_spec (Z.of_nat (length (m :: metas))) 0); [simpl in *; lia|].
  by rewrite decide_True.
Qed.

Lemma ValidateDigest_same t t' :
  md_TotalPieces (ts_meta t') = md_TotalPieces (ts_meta t) →
  md_PieceMd5Sign (ts_meta t') = md_PieceMd5Sign (ts_meta t) →
  md_Pieces (ts_meta t') = md_Pieces (ts_meta t) →
  localTaskStore_ValidateDigest sha256 t = (t, None) →
  localTaskStore_ValidateDigest sha256 t' = (t', None).
Proof.
  intros Ht Hs Hp. unfold localTaskStore_ValidateDigest, pieceDigests. rewrite Ht, Hs, Hp.
  destruct (decide _); [discriminate|]. destruct (_ <=? 0); [discriminate|].
  destruct (decide _); [done|discriminate].
Qed.

Lemma callback_Validate c :
  localTaskStore_ValidateDigest sha256 (cl_store c) = (cl_store c, None) →
  callback_ValidateDigest sha256 cfg c = (c, None).
Proof.
  intros H. unfold callback_ValidateDigest. rewrite H. by destruct c, (cc_calculateDigest cfg).
Qed.

Lemma finish_once c :
  pt_once (cl_task c) = true → callback_ValidateDigest sha256 cfg c = (c, None) →
  (finish sha256 cfg now c).1 = c.
Proof. intros Ho Hc. unfold finish. by rewrite Hc, Ho. Qed.

(** The task that has all of the content ends well, once: the file is at the
    output, the scheduler is told, and another end changes nothing. *)
Lemma finish_fetched file content c :
  (∀ s, sha256 s ≠ ""%string) → fetched file content c → pt_once (cl_task c) = false →
  os_Lstat (cl_fs c) (cc_Output cfg) = None → parentIsDir (cl_fs c) (cc_Output cfg) = true →
  pt_totalPiece (cl_task c) <= 0 ∨
    pt_totalPiece (cl_task c) = md_TotalPieces (ts_meta (cl_store c)) →
  ∃ c', finish sha256 cfg now c = (c', None) ∧
    holds (cl_fs c') (cc_Output cfg) content ∧ pt_success (cl_task c') = true ∧
    pt_done (cl_task c') = true ∧ pt_once (cl_task c') = true ∧
    pt_sent (cl_task c') = pt_sent (sendEnd (cl_task c)) ∧
    pt_results (cl_task c') =
      pt_results (cl_task c) ++ [peerResult true Code_Success (cl_task c)] ∧
    (finish sha256 cfg now c').1 = c'.
Proof.
  intros Hsha Hfet Honce Habs Hpar Htot.
  pose proof (ValidateDigest_fetched file content c Hsha Hfet) as Hval.
  destruct Hfet as (metas & Hst & Hf).
  destruct (Store_holds file content metas (cl_fs c) (cl_store c) (cc_Output cfg)
    (pt_totalPiece (cl_task c))) as (fs' & t' & Hstore & Hh & Ht' & Hs' & Hp'); [done..|].
  assert (localTaskStore_ValidateDigest sha256 t' = (t', None)) as Hval'.
  { by eapply ValidateDigest_same. }
  pose proof (callback_Validate _ Hval) as Hcb. unfold finish at 1. rewrite Hcb, Honce.
  unfold callback_Done. cbn [updPT cl_fs cl_store cl_task]. 
  change (pt_totalPiece (sendEnd _)) with (pt_totalPiece (cl_task c)). rewrite Hstore.
  eexists. split; [reflexivity|]. do 6 (split; [done|]). by apply finish_once, callback_Validate.
Qed.

End Download.
