(* ===== verification/Cache.v ===== *)
(** * Cache: pkg/cache/cache.go and internal/dynconfig

    A cache whose items expire, with the functions that save it to a file and
    load it, and the configuration that the daemons take from the manager and
    keep in such a cache (dynconfig.go, dynconfig_manager.go).  Gob is a class
    with the documented behaviour, time an argument in nanoseconds.  The janitor
    is a call of [DeleteExpired] at any time. *)

From S2P Require Import Prelude FileSystem SourceDownload ClientDemo.
From stdpp Require Import options.
Local Open Scope Z_scope.

Definition NoExpiration : Z := -1.
Definition DefaultExpiration : Z := 0.

Record Item (V : Type) := mkItem {
  Object : V;
  Expiration : Z;       (* int64 *)
}.
Arguments mkItem {V} _ _.
Arguments Object {V} _.
Arguments Expiration {V} _.

(** encoding/gob on the items: an unregistered type makes it panic, which is
    recovered as an error. *)
Class Gob (V : Type) := {
  gobEncode : gmap string (Item V) → option (list byte);
  gobDecode : list byte → option (gmap string (Item V));
}.

Class GobLaws (V : Type) `{Gob V} := {
  gob_roundtrip items bs : gobEncode items = Some bs → gobDecode bs = Some items;
}.

Inductive CacheError :=
  | ErrItemExists (k : string)
  | ErrGob
  | ErrCacheIO (e : IOError).

Section Cache.
Context {V : Type}.

Record Cache := mkCache {
  c_defaultExpiration : Z;
  c_items : gmap string (Item V);
  c_onEvicted : bool;           (* a function is set *)
}.

Definition set_items (items : gmap string (Item V)) (c : Cache) : Cache :=
  mkCache (c_defaultExpiration c) items (c_onEvicted c).

Definition Item_Expired (now : Z) (item : Item V) : bool :=
  if Expiration item =? 0 then false else Expiration item <? now.

(** The test that the methods inline. *)
Definition passed (now : Z) (item : Item V) : bool := (0 <? Expiration item) && (Expiration item <? now).

Definition cache_Set (now : Z) (k : string) (x : V) (d : Z) (c : Cache) : Cache :=
  let d := if d =? DefaultExpiration then c_defaultExpiration c else d in
  let e := if 0 <? d then int64 (now + d) else 0 in
  set_items (<[k := mkItem x e]> (c_items c)) c.

Definition cache_SetDefault (now : Z) (k : string) (x : V) (c : Cache) : Cache :=
  cache_Set now k x DefaultExpiration c.

(** The method [get]. *)
Definition cache_get (now : Z) (k : string) (c : Cache) : option V :=
  match c_items c !! k with
  | None => None
  | Some item => if passed now item then None else Some (Object item)
  end.

Definition cache_Add (now : Z) (k : string) (x : V) (d : Z) (c : Cache) : Cache * option CacheError :=
  match cache_get now k c with
  | Some _ => (c, Some (ErrItemExists k))
  | None => (cache_Set now k x d c, None)
  end.

(** [Get] does not look at the expiration. *)
Definition cache_Get (k : string) (c : Cache) : option V := Object <$> c_items c !! k.

(** The time is 0 for an item that does not expire. *)
Definition cache_GetWithExpiration (now : Z) (k : string) (c : Cache) : option (V * Z) :=
  match c_items c !! k with
  | None => None
  | Some item =>
      if 0 <? Expiration item then
        if Expiration item <? now then None else Some (Object item, Expiration item)
      else Some (Object item, 0)
  end.

(** The method [delete]: the item to evict, when there is a function for it. *)
Definition cache_delete (k : string) (c : Cache) : Cache * option V :=
  (set_items (delete k (c_items c)) c,
   if c_onEvicted c then Object <$> c_items c !! k else None).

(** With the calls of [onEvicted]. *)
Definition cache_Delete (k : string) (c : Cache) : Cache * list (string * V) :=
  let '(c, evicted) := cache_delete k c in
  (c, match evicted with Some v => [(k, v)] | None => [] end).

(** [order] is the order in which [range] visits the keys. *)
Fixpoint deleteExpiredKeys (now : Z) (order : list string) (c : Cache) : Cache * list (string * V) :=
  match order with
  | [] => (c, [])
  | k :: order =>
      match c_items c !! k with
      | Some item =>
          if passed now item then
            let '(c, evicted) := cache_delete k c in
            let '(c, items) := deleteExpiredKeys now order c in
            (c, match evicted with Some v => (k, v) :: items | None => items end)
          else deleteExpiredKeys now order c
      | None => deleteExpiredKeys now order c
      end
  end.

Definition cache_DeleteExpired (now : Z) (order : list string) (c : Cache) : Cache * list (string * V) :=
  deleteExpiredKeys now order c.

Definition cache_Keys (order : list string) (c : Cache) : list string := order.

Definition cache_OnEvicted (f : bool) (c : Cache) : Cache := mkCache (c_defaultExpiration c) (c_items c) f.

Definition cache_Items (now : Z) (c : Cache) : gmap string (Item V) :=
  filter (λ '(_, item), passed now item = false) (c_items c).

Definition cache_ItemCount (c : Cache) : nat := size (c_items c).

Definition cache_Flush (c : Cache) : Cache := set_items ∅ c.

Definition newCache (de : Z) : Cache := mkCache (if de =? 0 then -1 else de) ∅ false.

Context `{Gob V}.

Definition cache_Save (c : Cache) : CacheError + list byte :=
  match gobEncode (c_items c) with Some bs => inr bs | None => inl ErrGob end.

(** Items that are there and have not expired stay. *)
Definition mergeItems (now : Z) (items old : gmap string (Item V)) : gmap string (Item V) :=
  filter (λ '(k, _), match old !! k with Some ov => Item_Expired now ov | None => true end = true) items ∪ old.

Definition cache_Load (now : Z) (bs : list byte) (c : Cache) : Cache * option CacheError :=
  match gobDecode bs with
  | None => (c, Some ErrGob)
  | Some items => (set_items (mergeItems now items (c_items c)) c, None)
  end.

Definition cache_SaveFile (fname : fpath) (c : Cache) (fs : FS) : FS * option CacheError :=
  let dir := removelast fname in
  match (match os_Stat fs dir with None => os_MkdirAll fs dir | Some _ => (fs, None) end) with
  | (fs, Some e) => (fs, Some (ErrCacheIO e))
  | (fs, None) =>
      match os_OpenTrunc fs fname with
      | (fs, inl e) => (fs, Some (ErrCacheIO e))
      | (fs, inr fp) =>
          match cache_Save c with
          | inl e => (fs, Some e)
          | inr bs => (writeAt fs fp 0 bs, None)
          end
      end
  end.

Definition cache_LoadFile (now : Z) (fname : fpath) (fs : FS) (c : Cache) : Cache * option CacheError :=
  match os_Open fs fname with
  | inl e => (c, Some (ErrCacheIO e))
  | inr fp => cache_Load now (fileData fs fp) c
  end.

End Cache.
Arguments Cache : clear implicits.

(** ** internal/dynconfig *)

Definition defaultCacheKey : string := "dynconfig".

Inductive DynError :=
  | ErrClient
  | ErrCache (e : CacheError)
  | ErrNoCachedData.

Section Dynconfig.
Context {V : Type} `{Gob V} (cachePath : fpath) (expire : Z).

(** The strategy of the manager, with the file system of its cache. *)
Record Dynconfig := mkDynconfig {
  d_cache : Cache V;
  d_fs : FS;
}.

(** [client] is the answer of the manager. *)
Definition dynconfig_load (now : Z) (client : option V) (d : Dynconfig) : Dynconfig * option DynError :=
  match client with
  | None => (d, Some ErrClient)
  | Some dynconfig =>
      let c := cache_Set now defaultCacheKey dynconfig expire (d_cache d) in
      match cache_SaveFile cachePath c (d_fs d) with
      | (fs, Some e) => (mkDynconfig c fs, Some (ErrCache e))
      | (fs, None) => (mkDynconfig c fs, None)
      end
  end.

Definition newDynconfigManager (now : Z) (client : option V) (fs : FS) : DynError + Dynconfig :=
  match cache_LoadFile now cachePath fs (newCache expire) with
  | (c, None) => inr (mkDynconfig c fs)
  | (c, Some _) =>
      match dynconfig_load now client (mkDynconfig c fs) with
      | (_, Some e) => inl e
      | (d, None) => inr d
      end
  end.

Definition dynconfig_get (now : Z) (client : option V) (d : Dynconfig) : Dynconfig * (DynError + V) :=
  match cache_GetWithExpiration now defaultCacheKey (d_cache d) with
  | Some (dynconfig, _) => (d, inr dynconfig)
  | None =>
      let d := (dynconfig_load now client d).1 in
      (d, match cache_Get defaultCacheKey (d_cache d) with
          | None => inl ErrNoCachedData
          | Some dynconfig => inr dynconfig
          end)
  end.

End Dynconfig.

(** ** What the cache promises *)

Section Spec.
Context {V : Type}.
Implicit Types (c : Cache V) (m : gmap string (Item V)).

Inductive CacheOp :=
  | OpSet (k : string) (x : V) (d : Z)
  | OpSetDefault (k : string) (x : V)
  | OpAdd (k : string) (x : V) (d : Z)
  | OpGet (k : string)
  | OpGetWithExpiration (k : string)
  | OpDelete (k : string)
  | OpDeleteExpired (order : list string)
  | OpItems
  | OpItemCount
  | OpFlush.

Inductive CacheAnswer :=
  | AnsNone
  | AnsError (e : option CacheError)
  | AnsValue (r : option V)
  | AnsItem (r : option (V * Z))
  | AnsItems (m : gmap string (Item V))
  | AnsCount (n : nat).

Definition cacheStep (now : Z) (op : CacheOp) (c : Cache V) : Cache V * CacheAnswer :=
  match op with
  | OpSet k x d => (cache_Set now k x d c, AnsNone)
  | OpSetDefault k x => (cache_SetDefault now k x c, AnsNone)
  | OpAdd k x d => let '(c, e) := cache_Add now k x d c in (c, AnsError e)
  | OpGet k => (c, AnsValue (cache_Get k c))
  | OpGetWithExpiration k => (c, AnsItem (cache_GetWithExpiration now k c))
  | OpDelete k => ((cache_Delete k c).1, AnsNone)
  | OpDeleteExpired order => ((cache_DeleteExpired now order c).1, AnsNone)
  | OpItems => (c, AnsItems (cache_Items now c))
  | OpItemCount => (c, AnsCount (cache_ItemCount c))
  | OpFlush => (cache_Flush c, AnsNone)
  end.

(** The specification: the items that were set last and not deleted since, of
    which those count whose time has not passed. *)
Definition alive (now : Z) (m : gmap string (Item V)) : gmap string (Item V) :=
  filter (λ '(_, item), passed now item = false) m.

Definition expiresAt (de now d : Z) : Z :=
  let d := if d =? DefaultExpiration then de else d in if 0 <? d then now + d else 0.

Definition specNext (de now : Z) (op : CacheOp) (last : gmap string (Item V)) : gmap string (Item V) :=
  match op with
  | OpSet k x d => <[k := mkItem x (expiresAt de now d)]> last
  | OpSetDefault k x => <[k := mkItem x (expiresAt de now DefaultExpiration)]> last
  | OpAdd k x d =>
      match alive now last !! k with
      | Some _ => last
      | None => <[k := mkItem x (expiresAt de now d)]> last
      end
  | OpDelete k => delete k last
  | OpFlush => ∅
  | OpGet _ | OpGetWithExpiration _ | OpDeleteExpired _ | OpItems | OpItemCount => last
  end.

(** The answers it allows: [Get] and [ItemCount] may or may not see an item that
    has expired. *)
Definition specAnswer (now : Z) (op : CacheOp) (last : gmap string (Item V)) (a : CacheAnswer) : Prop :=
  match op with
  | OpSet _ _ _ | OpSetDefault _ _ | OpDelete _ | OpDeleteExpired _ | OpFlush => a = AnsNone
  | OpAdd k _ _ =>
      a = AnsError (match alive now last !! k with Some _ => Some (ErrItemExists k) | None => None end)
  | OpGet k =>
      match alive now last !! k with
      | Some i => a = AnsValue (Some (Object i))
      | None => a = AnsValue None ∨ a = AnsValue (Object <$> last !! k)
      end
  | OpGetWithExpiration k => a = AnsItem ((λ i, (Object i, Expiration i)) <$> alive now last !! k)
  | OpItems => a = AnsItems (alive now last)
  | OpItemCount => ∃ n, a = AnsCount n ∧ (size (alive now last) ≤ n ≤ size last)%nat
  end.

Fixpoint cacheRun (ops : list (Z * CacheOp)) (c : Cache V) : Cache V * list CacheAnswer :=
  match ops with
  | [] => (c, [])
  | (now, op) :: ops =>
      let '(c, a) := cacheStep now op c in let '(c, l) := cacheRun ops c in (c, a :: l)
  end.

Fixpoint specAccepts (de : Z) (ops : list (Z * CacheOp)) (last : gmap string (Item V)) (answers : list CacheAnswer) : Prop :=
  match ops, answers with
  | [], [] => True
  | (now, op) :: ops, a :: answers =>
      specAnswer now op last a ∧ specAccepts de ops (specNext de now op last) answers
  | _, _ => False
  end.

(** The clock does not go back, and no expiration overflows. *)
Definition opExpires (de now : Z) (op : CacheOp) : Z :=
  match op with
  | OpSet _ _ d | OpAdd _ _ d => expiresAt de now d
  | OpSetDefault _ _ => expiresAt de now DefaultExpiration
  | _ => 0
  end.

Fixpoint timely (de t : Z) (ops : list (Z * CacheOp)) : Prop :=
  match ops with
  | [] => True
  | (now, op) :: ops => t <= now ∧ opExpires de now op < 2 ^ 63 ∧ timely de now ops
  end.

(** The cache holds all that is alive, and nothing that was not set last. *)
Record holdsItems (t : Z) c (last : gmap string (Item V)) : Prop := {
  hi_alive : alive t (c_items c) = alive t last;
  hi_last : c_items c ⊆ last;
  hi_nonneg : map_Forall (λ _ item, 0 <= Expiration item) (c_items c);
}.

Lemma alive_lookup t (m : gmap string (Item V)) k i : alive t m !! k = Some i ↔ m !! k = Some i ∧ passed t i = false.
Proof. unfold alive. by rewrite map_lookup_filter_Some. Qed.

Lemma passed_mono t t' (i : Item V) : t <= t' → passed t i = true → passed t' i = true.
Proof. unfold passed. intros Ht [H1 H2]%andb_true_iff. apply andb_true_iff. lia. Qed.

Lemma alive_alive t t' (m : gmap string (Item V)) : t <= t' → alive t' (alive t m) = alive t' m.
Proof.
  intros Ht. apply map_eq. intros k. apply option_eq. intros i. rewrite !alive_lookup. split; [tauto|].
  intros [Hm Hp]. split_and!; [done| |done]. apply not_true_is_false. intros Hx. apply (passed_mono t t') in Hx; [congruence|done].
Qed.

Lemma alive_insert t k i (m : gmap string (Item V)) : passed t i = false → alive t (<[k := i]> m) = <[k := i]> (alive t m).
Proof. intros Hp. unfold alive. by rewrite map_filter_insert_True. Qed.

Lemma alive_delete t k (m : gmap string (Item V)) : alive t (delete k m) = delete k (alive t m).
Proof. unfold alive. by rewrite map_filter_delete. Qed.

Lemma alive_subseteq t (m : gmap string (Item V)) : alive t m ⊆ m.
Proof. apply map_filter_subseteq. Qed.

(** An expired item that goes does not show. *)
Lemma alive_delete_passed t k i (m : gmap string (Item V)) : m !! k = Some i → passed t i = true →
  alive t (delete k m) = alive t m.
Proof.
  intros Hk Hp. rewrite alive_delete. apply delete_id. destruct (alive t m !! k) as [j|] eqn:E; [|done].
  apply alive_lookup in E as [? ?]. congruence.
Qed.

Lemma DeleteExpired_alive t order c :
  alive t (c_items (cache_DeleteExpired t order c).1) = alive t (c_items c) ∧
  (∀ k i, c_items (cache_DeleteExpired t order c).1 !! k = Some i → c_items c !! k = Some i).
Proof.
  unfold cache_DeleteExpired. revert c. induction order as [|k order IH]; intros c; simpl; [done|].
  destruct (c_items c !! k) as [i|] eqn:Hk; [|apply IH]. destruct (passed t i) eqn:Hp; [|apply IH].
  set (c1 := set_items (delete k (c_items c)) c).
  destruct (IH c1) as [H1 H2]. change (cache_delete k c) with (c1, if c_onEvicted c then Object <$> c_items c !! k else None).
  cbv beta iota. destruct (deleteExpiredKeys t order c1) as [c' l]. simpl in *. split.
  - rewrite H1. by eapply alive_delete_passed.
  - intros j x Hj%H2. by apply lookup_delete_Some in Hj as [_ ?].
Qed.

Lemma GetWithExpiration_alive t k c : map_Forall (λ _ item, 0 <= Expiration item) (c_items c) →
  cache_GetWithExpiration t k c = (λ i, (Object i, Expiration i)) <$> alive t (c_items c) !! k.
Proof.
  intros Hf. unfold cache_GetWithExpiration. destruct (c_items c !! k) as [i|] eqn:Hk.
  - pose proof (Hf k i Hk) as Hi. simpl in Hi. destruct (passed t i) eqn:Hp.
    + assert (alive t (c_items c) !! k = None) as ->.
      { destruct (alive t (c_items c) !! k) eqn:E; [|done]. apply alive_lookup in E as [? ?]. congruence. }
      unfold passed in Hp. apply andb_true_iff in Hp as [-> ->]. done.
    + rewrite (proj2 (alive_lookup t _ k i)) by done. simpl. unfold passed in Hp.
      destruct (Z.ltb_spec 0 (Expiration i)); simpl in Hp; [by rewrite Hp|]. by replace (Expiration i) with 0 by lia.
  - by destruct (alive t (c_items c) !! k) eqn:E; [apply alive_lookup in E as [? ?]; congruence|].
Qed.

Lemma holdsItems_later t now c last : holdsItems t c last → t <= now → holdsItems now c last.
Proof.
  intros [Ha Hl Hf] Ht. split; [|done..]. by rewrite <-(alive_alive t now (c_items c)), Ha, alive_alive by lia.
Qed.

Lemma Set_sim now k x d c last : holdsItems now c last → 0 <= now →
  expiresAt (c_defaultExpiration c) now d < 2 ^ 63 →
  holdsItems now (cache_Set now k x d c) (<[k := mkItem x (expiresAt (c_defaultExpiration c) now d)]> last).
Proof.
  intros [Ha Hl Hf] Ht He. unfold cache_Set.
  set (dd := if d =? DefaultExpiration then _ else d).
  assert ((if 0 <? dd then int64 (now + dd) else 0) = expiresAt (c_defaultExpiration c) now d) as ->.
  { unfold expiresAt in *. fold dd in He |- *. destruct (Z.ltb_spec 0 dd); [|done]. apply int64_small. lia. }
  assert (0 <= expiresAt (c_defaultExpiration c) now d ∧ passed now (mkItem x (expiresAt (c_defaultExpiration c) now d)) = false)
    as [H0 Hp].
  { unfold expiresAt, passed. fold dd. simpl. destruct (Z.ltb_spec 0 dd); [|done].
    split; [lia|]. apply andb_false_iff. right. apply Z.ltb_ge. lia. }
  split; simpl; [by rewrite !alive_insert, Ha by done|by apply insert_mono|by apply map_Forall_insert_2].
Qed.

Lemma DeleteExpired_default now order c :
  c_defaultExpiration (cache_DeleteExpired now order c).1 = c_defaultExpiration c.
Proof.
  unfold cache_DeleteExpired. revert c. induction order as [|k order IH]; intros c; simpl; [done|].
  destruct (c_items c !! k) as [i|]; [|apply IH]. destruct (passed now i); [|apply IH].
  pose proof (IH (cache_delete k c).1) as Hi. unfold cache_delete in *. simpl in Hi.
  by destruct (deleteExpiredKeys now order _).
Qed.

Lemma get_alive now k c : cache_get now k c = Object <$> alive now (c_items c) !! k.
Proof.
  unfold cache_get. destruct (c_items c !! k) as [i|] eqn:Hk.
  - destruct (passed now i) eqn:Hp; [|by rewrite (proj2 (alive_lookup now _ k i))].
    destruct (alive now (c_items c) !! k) eqn:E; [apply alive_lookup in E as [? ?]; congruence|done].
  - destruct (alive now (c_items c) !! k) eqn:E; [apply alive_lookup in E as [? ?]; congruence|done].
Qed.

(** [Get] sees what is alive, and may see what was. *)
Lemma Get_answer now k c last : holdsItems now c last → specAnswer now (OpGet k) last (AnsValue (cache_Get k c)).
Proof.
  intros [Ha Hl _]. simpl. unfold cache_Get. destruct (alive now last !! k) as [i|] eqn:Hk.
  - rewrite <-Ha in Hk. apply alive_lookup in Hk as [-> _]. done.
  - destruct (c_items c !! k) as [i|] eqn:Hi; [right|by left]. by rewrite (lookup_weaken _ _ _ _ Hi Hl).
Qed.

Lemma step_sim now op c last : holdsItems now c last → 0 <= now →
  opExpires (c_defaultExpiration c) now op < 2 ^ 63 →
  let r := cacheStep now op c in
  specAnswer now op last r.2 ∧ holdsItems now r.1 (specNext (c_defaultExpiration c) now op last) ∧
  c_defaultExpiration r.1 = c_defaultExpiration c.
Proof.
  intros Hh Ht He. pose proof Hh as [Ha Hl Hf].
  destruct op as [k x d|k x|k x d|k|k|k|order| | |]; cbn [cacheStep specNext opExpires] in *.
  - split_and!; [done|by apply Set_sim|done].
  - split_and!; [done|by apply Set_sim|done].
  - unfold cache_Add. rewrite get_alive, Ha. simpl.
    destruct (alive now last !! k); simpl; [done|]. split_and!; [done|by apply Set_sim|done].
  - split_and!; [by apply Get_answer|done..].
  - split_and!; [|done..]. simpl. by rewrite GetWithExpiration_alive, Ha.
  - split_and!; [done| |done].
    split; simpl; [by rewrite !alive_delete, Ha|by apply delete_mono|by apply map_Forall_delete].
  - destruct (DeleteExpired_alive now order c) as [Hd Hsub]. split_and!; [done| |apply DeleteExpired_default].
    split; [cbn [fst]; by rewrite Hd| |intros k i Hk%Hsub; by apply (Hf k)].
    etrans; [|exact Hl]. apply map_subseteq_spec. intros k i Hk. by apply Hsub.
  - split_and!; [|done..]. simpl. f_equal. exact Ha.
  - split_and!; [|done..]. eexists. split; [done|]. unfold cache_ItemCount. rewrite <-Ha.
    split; apply map_subseteq_size; [apply alive_subseteq|done].
  - split_and!; [done| |done]. split; [done|done|apply map_Forall_empty].
Qed.

(** C20: The cache implements its specification, a map of the items that were set
    last and not deleted since: over every sequence of sets, adds, reads,
    deletions, removals of expired items and flushes, at times that do not go
    back and with expirations that fit 64 bits, an item counts until its time
    has passed, for [Add], [GetWithExpiration] and [Items], whenever the expired
    items are really removed.  [Get], which does not look at the time, gives the
    value of an item that counts, and otherwise nothing or the value that was
    set last; the count lies in between.  (The eviction function, [Keys] and the
    files are not among the operations.) *)
Theorem cache_refines de ops t : 0 <= t → timely (c_defaultExpiration (V := V) (newCache de)) t ops →
  specAccepts (c_defaultExpiration (V := V) (newCache de)) ops ∅ (cacheRun ops (newCache de)).2.
Proof.
  intros Ht Htime.
  assert (holdsItems t (newCache de) ∅) as Hh by (split; [done|done|apply map_Forall_empty]).
  revert Hh Htime. set (d := c_defaultExpiration (newCache de)). assert (d = c_defaultExpiration (newCache (V := V) de)) as Hd by done.
  clearbody d. revert Hd. generalize (newCache (V := V) de) as c. generalize (∅ : gmap string (Item V)) as last. revert t Ht.
  induction ops as [|[now op] ops IH]; intros t Ht last c Hd Hh Htime; [done|].
  destruct Htime as (Hle & He & Htime). rewrite Hd in He.
  destruct (step_sim now op c last (holdsItems_later t now c last Hh Hle) ltac:(lia) He) as (Ha & Hh' & Hd').
  cbn [cacheRun]. destruct (cacheStep now op c) as [c' a]. cbn [fst snd] in *.
  pose proof (IH now ltac:(lia) (specNext d now op last) c' ltac:(congruence)) as Hrun.
  destruct (cacheRun ops c') as [c2 l]. split; [done|]. rewrite <-Hd in Hh'. auto.
Qed.

End Spec.

(** ** What the configuration promises *)

Section DynSpec.
Context {V : Type} `{GobLaws V} (cachePath : fpath) (expire : Z).
#[local] Set Default Proof Using "Type".

(** The last value that was fetched, and when it expires. *)
Definition specGet (now : Z) (client : option V) (last : V * Z) : V * Z :=
  if (0 <? last.2) && (last.2 <? now) then
    match client with Some v => (v, now + expire) | None => last end
  else last.

Definition remembers (d : Dynconfig (V := V)) (last : V * Z) : Prop :=
  c_items (d_cache d) !! defaultCacheKey = Some (mkItem last.1 last.2).

Lemma load_remembers now client d last : 0 < expire → 0 <= now → now + expire < 2 ^ 63 → remembers d last →
  remembers (dynconfig_load cachePath expire now client d).1 (match client with Some v => (v, now + expire) | None => last end).
Proof.
  intros He Hn Hb Hr. unfold dynconfig_load. destruct client as [v|]; [|done].
  assert (c_items (cache_Set now defaultCacheKey v expire (d_cache d)) !! defaultCacheKey = Some (mkItem v (now + expire))) as Hs.
  { unfold cache_Set, DefaultExpiration. destruct (Z.eqb_spec expire 0); [lia|]. destruct (Z.ltb_spec 0 expire); [|lia].
    simpl. rewrite lookup_insert_eq, int64_small by lia. done. }
  destruct (cache_SaveFile _ _ _) as [fs [e|]]; done.
Qed.

Fixpoint dynRun (calls : list (Z * option V)) (d : Dynconfig (V := V)) : Dynconfig (V := V) * list (DynError + V) :=
  match calls with
  | [] => (d, [])
  | (now, client) :: calls =>
      let '(d, r) := dynconfig_get cachePath expire now client d in
      let '(d, l) := dynRun calls d in (d, r :: l)
  end.

Fixpoint specGets (calls : list (Z * option V)) (last : V * Z) : list (DynError + V) :=
  match calls with
  | [] => []
  | (now, client) :: calls => let last := specGet now client last in inr last.1 :: specGets calls last
  end.

(** C32: The dynamic configuration, once it has a value, answers every call with
    the value it fetched last: it asks the manager when the value has expired,
    takes the new one, also when the cache file cannot be written, and keeps the
    old one when the manager does not answer.  (The expiration is positive, and
    the times and the expirations fit 64 bits.) *)
Theorem dynconfig_answers calls d last :
  0 < expire → Forall (λ call, 0 <= call.1 ∧ call.1 + expire < 2 ^ 63) calls → remembers d last → 0 <= last.2 →
  (dynRun calls d).2 = specGets calls last.
Proof.
  intros He Hall. revert d last. induction Hall as [|[now client] calls [Hn Hb] Hall IH]; intros d last Hr Hl0; [done|].
  simpl in Hn, Hb. cbn [dynRun specGets]. unfold dynconfig_get, cache_GetWithExpiration. rewrite Hr. simpl Expiration. simpl Object.
  unfold specGet. destruct (Z.ltb_spec 0 last.2) as [Hpos|]; cbn [andb].
  - destruct (last.2 <? now) eqn:Hlt.
    + pose proof (load_remembers now client d last He Hn Hb Hr) as Hr'.
      set (d' := (dynconfig_load cachePath expire now client d).1) in *. unfold cache_Get. rewrite Hr'. simpl.
      pose proof (IH d' _ Hr') as Hrun. destruct (dynRun calls d') as [d2 l]. simpl in *.
      rewrite Hrun; [done|]. destruct client; simpl; lia.
    + pose proof (IH d last Hr Hl0) as Hrun. destruct (dynRun calls d) as [d2 l]. simpl in *. by rewrite Hrun.
  - pose proof (IH d last Hr Hl0) as Hrun. destruct (dynRun calls d) as [d2 l]. simpl in *. by rewrite Hrun.
Qed.

(** A file that is not a link holds what was saved. *)
Lemma SaveFile_saved c (fs fs' : FS) : (∀ dest, os_Lstat fs cachePath ≠ Some (NodeSymlink dest)) →
  os_Stat fs (removelast cachePath) = Some NodeDir → cache_SaveFile cachePath c fs = (fs', None) →
  ∃ fp, os_Open fs' cachePath = inr fp ∧ gobEncode (c_items c) = Some (fileData fs' fp).
Proof.
  intros Hlink Hdir. unfold cache_SaveFile. rewrite Hdir. cbv beta iota.
  destruct (os_OpenTrunc fs cachePath) as [fs1 [e|fp]] eqn:Ho; [done|].
  unfold cache_Save. destruct (gobEncode (c_items c)) as [bs|]; [|done]. intros [= <-].
  assert (os_Lstat fs1 cachePath = Some (NodeFile fp) ∧ fileData fs1 fp = []) as [Hl Hd].
  { unfold os_OpenTrunc, os_OpenCreate, os_Stat, follow in Ho. destruct (os_Lstat fs cachePath) as [[| |dest]|] eqn:Hn; simpl in Ho.
    - done.
    - injection Ho as <- <-. split; [done|]. unfold fileData, truncate. simpl. by rewrite lookup_insert_eq.
    - by destruct (Hlink dest).
    - rewrite linkTarget_absent in Ho by done. unfold parentIsDir in Ho. rewrite Hdir in Ho. injection Ho as <- <-.
      split; [unfold os_Lstat; simpl; apply lookup_insert_eq|]. unfold fileData, truncate. simpl. by rewrite lookup_insert_eq. }
  exists fp. split; [by apply os_Open_node|]. f_equal. rewrite fileData_writeAt, Hd. symmetry. apply (splice_append []).
Qed.

(** A restarted daemon has the configuration it saved, and needs no manager:
    what a successful load wrote to the cache file is what the next start reads. *)
Theorem dynconfig_restart now now' client client' d d' :
  (∀ dest, os_Lstat (d_fs d) cachePath ≠ Some (NodeSymlink dest)) →
  os_Stat (d_fs d) (removelast cachePath) = Some NodeDir →
  dynconfig_load cachePath expire now client d = (d', None) →
  newDynconfigManager cachePath expire now' client' (d_fs d') =
    inr (mkDynconfig (set_items (c_items (d_cache d')) (newCache expire)) (d_fs d')).
Proof using H0.
  intros Hlink Hdir. unfold dynconfig_load. destruct client as [v|]; [|done].
  destruct (cache_SaveFile cachePath _ (d_fs d)) as [fs [e|]] eqn:Hs; [done|]. intros [= <-].
  apply SaveFile_saved in Hs as (fp & Ho & Hg); [|done..]. simpl.
  unfold newDynconfigManager, cache_LoadFile, cache_Load. rewrite Ho, (gob_roundtrip _ _ Hg). cbv beta iota.
  do 2 f_equal. unfold set_items, newCache. f_equal. unfold mergeItems. simpl. rewrite (right_id_L ∅ (∪)).
  apply map_filter_id. intros k i _. by rewrite lookup_empty.
Qed.

End DynSpec.

(** ** Witnesses: strings in a cache *)

#[export] Instance Item_eq_dec : EqDecision (Item string).
Proof. solve_decision. Defined.

#[export] Instance Item_countable : Countable (Item string).
Proof.
  refine (inj_countable' (λ i, (Object i, Expiration i)) (λ p, mkItem p.1 p.2) _). by intros [].
Defined.

#[export] Instance demoGob : Gob string := {|
  gobEncode items := Some (demoPrint (encode items));
  gobDecode l := demoParse l ≫= decode;
|}.

#[export] Instance demoGob_laws : GobLaws string.
Proof.
  split. intros items bs [= <-]. simpl. rewrite <-(app_nil_r (demoPrint _)), demoParse_print. simpl. apply decode_encode.
Qed.

Definition demoOps : list (Z * CacheOp (V := string)) :=
  [(1, OpSet "a" "1" 10); (2, OpAdd "a" "2" 0); (12, OpGet "a"); (12, OpAdd "a" "3" 0); (13, OpDeleteExpired ["a"]);
   (40, OpGetWithExpiration "a"); (200, OpGetWithExpiration "a")].

Lemma cache_refines_witness :
  (cacheRun demoOps (newCache 100)).2 =
    [AnsNone; AnsError (Some (ErrItemExists "a")); AnsValue (Some "1"); AnsError None; AnsNone;
     AnsItem (Some ("3", 112)); AnsItem None] ∧
  specAccepts 100 demoOps ∅ (cacheRun demoOps (newCache 100)).2.
Proof.
  split; [vm_compute; reflexivity|].
  refine (cache_refines 100 demoOps 0 _ _); [lia|]. repeat split; simpl; (lia || done).
Defined.

Definition demoDynFS : FS := mkFS (<[["cache"] := NodeDir]> {[ [] := NodeDir ]}) ∅ 1.
Definition demoDyn : Dynconfig (V := string) :=
  mkDynconfig (set_items {[ defaultCacheKey := mkItem "v0" 50 ]} (newCache 50)) demoDynFS.

(** The value is kept until it has expired, and while the manager does not answer. *)
Lemma dynconfig_answers_witness :
  (dynRun ["cache"; "dynconfig"] 50 [(40, Some "v1"); (60, None); (70, Some "v2"); (80, Some "v3")] demoDyn).2 =
    [inr "v0"; inr "v0"; inr "v2"; inr "v2"].
Proof.
  rewrite (dynconfig_answers ["cache"; "dynconfig"] 50 [(40, Some "v1"); (60, None); (70, Some "v2"); (80, Some "v3")]
    demoDyn ("v0", 50)); [vm_compute; reflexivity|lia|repeat constructor; simpl; lia|vm_compute; reflexivity|simpl; lia].
Defined.

Lemma dynconfig_restart_witness :
  match dynconfig_load ["cache"; "dynconfig"] 50 60 (Some "v1") demoDyn with
  | (d', None) =>
      newDynconfigManager ["cache"; "dynconfig"] 50 70 None (d_fs d') =
        inr (mkDynconfig (set_items (c_items (d_cache d')) (newCache 50)) (d_fs d'))
  | _ => False
  end.
Proof.
  destruct (dynconfig_load ["cache"; "dynconfig"] 50 60 (Some "v1") demoDyn) as [d' [e|]] eqn:E.
  - vm_compute in E. discriminate E.
  - refine (dynconfig_restart ["cache"; "dynconfig"] 50 60 70 (Some "v1") None demoDyn d' _ _ E); [|vm_compute; reflexivity].
    intros dest. vm_compute. discriminate.
Defined.
