(* ===== verification/SourceProperties.v ===== *)
(** * SourceProperties: which downloads from the source succeed

    A task that goes back to its source ends with the content at its output,
    for a known length and for an unknown one; and the lengths for which it
    does not. *)

From S2P Require Import Prelude World FileSystem LocalStorage Bitmap PeerTask PieceManager.
From S2P Require Import SourceDownload ClientDemo.
From stdpp Require Import options.
Local Open Scope Z_scope.

Section Source.
Context (md5 : list byte → string) (sha256 : string → string) {C : MetadataCodec}.
Context (cfg : ClientConfig) (now : Z).

(** A new task with its registered store, and an output that can be created. *)
Record ready (file : inode) (c : Client) : Prop := {
  rd_node : os_Lstat (cl_fs c) (ts_DataFilePath (cl_store c)) = Some (NodeFile file);
  rd_next : (file < fs_next (cl_fs c))%positive;
  rd_meta : ts_metadataFile (cl_store c) ≠ file;
  rd_rw : ts_metadataRW (cl_store c) = true;
  rd_data : fileData (cl_fs c) file = [];
  rd_pieces : ts_Pieces (cl_store c) = ∅;
  rd_task : cl_task c = newFilePeerTask (pt_taskID (cl_task c)) (pt_peerID (cl_task c));
  rd_absent : os_Lstat (cl_fs c) (cc_Output cfg) = None;
  rd_parent : parentIsDir (cl_fs c) (cc_Output cfg) = true;
}.

Lemma ready_stored file c content :
  ready file c → stored file content [] 0 (cl_fs c) (cl_store c).
Proof.
  intros [? ? ? ? Hd Hp ? ? ?]. split; try done; [|lia].
  intros i. rewrite Hp, lookup_empty. by case_decide.
Qed.

Lemma counted_new taskID peerID : counted 0 0 (newFilePeerTask taskID peerID).
Proof.
  split; try done.
  - apply NewBitmap_ok.
  - intros i Hi. split; [by intros ?%NewBitmap_empty|simpl; lia].
Qed.

Definition result (c : Client) (success : bool) (code : Code) (len pieces : Z) : PeerResult :=
  {| res_TaskId := pt_taskID (cl_task c); res_PeerId := pt_peerID (cl_task c);
     res_ContentLength := len; res_Success := success; res_Code := code;
     res_TotalPieceCount := pieces |}.

(** The end of both loops, when the pieces make up the content. *)
Lemma SetContentLength_fetched file content c1 k len :
  (∀ s, sha256 s ≠ ""%string) → fetched sha256 file content c1 → counted k len (cl_task c1) →
  os_Lstat (cl_fs c1) (cc_Output cfg) = None → parentIsDir (cl_fs c1) (cc_Output cfg) = true →
  pt_totalPiece (cl_task c1) <= 0 ∨
    pt_totalPiece (cl_task c1) = md_TotalPieces (ts_meta (cl_store c1)) →
  ∃ c', filePeerTask_SetContentLength sha256 cfg now c1 len = (c', None) ∧
    cleanUnfinished (finish sha256 cfg now c').1 = c' ∧
    holds (cl_fs c') (cc_Output cfg) content ∧
    pt_success (cl_task c') = true ∧ pt_done (cl_task c') = true ∧
    pt_results (cl_task c') = pt_results (cl_task c1) ++
      [result c1 true Code_Success len (pt_totalPiece (cl_task c1))] ∧
    told <$> pt_sent (cl_task c') = (told <$> pt_sent (cl_task c1)) ++ [endTold (Z.of_nat k)].
Proof.
  intros Hsha Hfet Hcnt Habs Hpar Htot. unfold filePeerTask_SetContentLength, isCompleted.
  set (c2 := updPT (set_pt_contentLength len) c1).
  destruct (finish_fetched sha256 cfg now file content c2) as
    (c' & Hfin & Hh & Hsucc & Hdone & Honce & Hsent & Hres & Hagain); [done| |apply Hcnt|done..|].
  { destruct Hfet as (metas & ? & ?). by exists metas. }
  exists c'. assert ((pt_completedLength (cl_task c2) =? pt_contentLength (cl_task c2)) = true) as ->.
  { apply Z.eqb_eq. simpl. apply Hcnt. }
  split; [done|]. split; [rewrite Hagain; unfold cleanUnfinished; by rewrite Honce|].
  do 3 (split; [done|]). split; [by rewrite Hres|].
  rewrite Hsent. simpl. rewrite fmap_app. simpl. unfold told at 2. simpl. unfold Bitmap_Settled.
  by rewrite (ct_settled k len _ Hcnt).
Qed.

Lemma checkDigest_right digest body content :
  s_data body = content → s_err body = None → digest = ""%string ∨ md5 content = digest →
  checkDigest md5 cfg digest body = body.
Proof.
  intros Hd He Hdig. unfold checkDigest. rewrite He, Hd.
  destruct (cc_calculateDigest cfg); [|done]. destruct Hdig as [->|Heq]; [done|].
  case_bool_decide; [|done]. simpl. by rewrite decide_True.
Qed.

Section Download.
Context (computePieceSize : Z → Z) (file : inode) (c : Client) (content : list byte).
Context (digest : string) (body : Stream StoreError).
Hypothesis (Hready : ready file c) (Hsha : ∀ s, sha256 s ≠ ""%string).
Hypothesis (Hbody : s_data body = content) (Heof : s_err body = None).
Hypothesis (Hdigest : digest = ""%string ∨ md5 content = digest).
Hypothesis (Hback : cc_disableBackSource cfg = false).
Hypothesis (Hlen : Z.of_nat (length content) < 2 ^ 62).

(** C6: a new task that downloads from a source with a known, positive length,
    whose body delivers it without an error and with the digest that was asked
    for, ends with exactly the content at its output, which did not exist, and a
    successful result.  The pieces were reported in the order of their numbers,
    each once, as successes with their ranges in the content and the count of
    the pieces so far, and then the end.  The result does not give the number of
    pieces: it is still the initial -1. *)
Theorem backSource_known_length :
  let len := Z.of_nat (length content) in
  let ps := computePieceSize len in
  let n := ceilDiv len ps in
  content ≠ [] → 0 < ps < 2 ^ 32 → len <= 2 ^ 27 * ps →
  ∃ c', filePeerTask_backSource md5 sha256 cfg now (λ _, None) computePieceSize c digest len
      (inr body) = Ok c' ∧
    holds (cl_fs c') (cc_Output cfg) content ∧
    pt_success (cl_task c') = true ∧ pt_done (cl_task c') = true ∧
    pt_results (cl_task c') = [result c true Code_Success len (-1)] ∧
    told <$> pt_sent (cl_task c') = (pieceTold ps len <$> seqZ 0 n) ++ [endTold n].
Proof using All.
  intros len ps n Hne Hps Hcap. unfold filePeerTask_backSource, pieceManager_DownloadSource.
  assert (0 < len) as Hpos by (subst len; destruct content; [done|simpl; lia]).
  rewrite Hback, (checkDigest_right digest body content) by done. fold len.
  destruct (Z.ltb_spec len 0); [lia|]. fold ps. set (c1 := storeUpdate _ _ _ c).
  pose proof (ready_stored file c content Hready) as Hst.
  apply (stored_UpdateTask sha256) with (now := now) (req := mkUpdateTaskRequest len 0 "" false) in Hst.
  destruct (ceil_bounds len ps) as [Hm0 Hm]; [lia|lia|].
  assert (n = - (- len / ps) ∧ 0 < n <= 2 ^ 27) as [Hn Hn2].
  { assert (- (- len / ps) - 1 < 2 ^ 27) by (apply (Z.mul_lt_mono_pos_r ps); lia).
    subst n. unfold ceilDiv. rewrite !int32_small by lia. lia. }
  destruct (knownLoop_run md5 sha256 cfg now file content ps (Z.to_nat (n - 1)) [] c1 body) as
    (c2 & Hrun & Hfet & Hcnt & Hnodes & (Hf1 & Hf2 & Hf3 & Hf4 & Hf5) & Hsent); simpl length in *;
    [lia|lia|lia| |done| |by rewrite Hbody|].
  { replace (Z.of_nat (0 + S (Z.to_nat (n - 1)))) with (- (- len / ps)) by lia. exact Hm. }
  { destruct Hready. simpl. rewrite rd_task0. apply counted_new. }
  fold len in Hrun. replace (Z.of_nat (0 + S (Z.to_nat (n - 1)))) with n in Hrun by lia.
  replace (Z.of_nat (S (Z.to_nat (n - 1)))) with n in Hrun, Hsent by lia.
  change (Z.of_nat 0) with 0 in Hrun. fold n. rewrite Hrun.
  destruct (SetContentLength_fetched file content c2 (S (Z.to_nat (n - 1))) len) as
    (c' & -> & Hclean & Hh & Hsucc & Hdone & Hres & Hs2); try done.
  { unfold os_Lstat. rewrite Hnodes. apply Hready. }
  { unfold parentIsDir. rewrite (os_Stat_nodes (cl_fs c)) by done. apply Hready. }
  { left. rewrite Hf3. simpl. rewrite (rd_task _ _ Hready). simpl. lia. }
  simpl. exists c'. rewrite Hclean. do 4 (split; [done|]).
  rewrite Hres, Hs2, Hf4, Hsent, Hf3. unfold result. rewrite Hf1, Hf2. simpl.
  rewrite (rd_task _ _ Hready). simpl. split; [done|]. by replace (Z.of_nat (S (Z.to_nat (n - 1)))) with n by lia.
Qed.

(** The full pieces of a source of unknown length. *)
Lemma unknown_start (ps : Z) (m : nat) fuel :
  0 < ps < 2 ^ 32 → Z.of_nat m < 2 ^ 27 → Z.of_nat m * ps <= Z.of_nat (length content) →
  ∃ metas c1, length metas = m ∧
    unknownLoop md5 sha256 cfg now (λ _, None) (m + fuel) ps 0 c body =
    unknownLoop md5 sha256 cfg now (λ _, None) fuel ps (Z.of_nat m) c1
      (mkStream (drop (Z.to_nat (Z.of_nat m * ps)) content) None) ∧
    stored file content metas (Z.to_nat (Z.of_nat m * ps)) (cl_fs c1) (cl_store c1) ∧
    counted m (Z.of_nat (Z.to_nat (Z.of_nat m * ps))) (cl_task c1) ∧
    fs_nodes (cl_fs c1) = fs_nodes (cl_fs c) ∧ task_frame (cl_task c) (cl_task c1) ∧
    told <$> pt_sent (cl_task c1) = pieceTold ps (Z.of_nat (length content)) <$> seqZ 0 (Z.of_nat m).
Proof using Hready Hbody Heof Hlen.
  intros Hps Hm Hle.
  destruct (unknownLoop_full md5 sha256 cfg now file content ps fuel m [] c body) as
    (metas & c1 & Hl & Hrun & Hst & Hcnt & Hn & Hf & Hs); simpl in *; try done; try lia.
  { by apply ready_stored. }
  { rewrite (rd_task _ _ Hready). apply counted_new. }
  exists metas, c1. rewrite Heof in Hrun. do 6 (split; [done|]).
  by rewrite Hs, (rd_task _ _ Hready).
Qed.

(** C13: a task that downloads from a source of unknown length, which is not a
    multiple of the piece size, ends with exactly the content at its output and
    a successful result with the right length and number of pieces, its pieces
    reported in order as those of a known length are.  (The task, its body and
    its output are as for a known length.) *)
Theorem backSource_unknown_length :
  let len := Z.of_nat (length content) in
  let ps := computePieceSize (-1) in
  let n := len / ps + 1 in
  0 < ps < 2 ^ 32 → len / ps < 2 ^ 27 → len mod ps ≠ 0 →
  ∃ c', filePeerTask_backSource md5 sha256 cfg now (λ _, None) computePieceSize c digest (-1)
      (inr body) = Ok c' ∧
    holds (cl_fs c') (cc_Output cfg) content ∧
    pt_success (cl_task c') = true ∧ pt_done (cl_task c') = true ∧
    pt_results (cl_task c') = [result c true Code_Success len n] ∧
    told <$> pt_sent (cl_task c') = (pieceTold ps len <$> seqZ 0 n) ++ [endTold n].
Proof using All.
  intros len ps n Hps Hcap Hmod. unfold filePeerTask_backSource, pieceManager_DownloadSource.
  rewrite Hback, (checkDigest_right digest body content) by done.
  change (-1 <? 0) with true. cbv iota zeta. fold ps.
  pose proof (Z.div_mod len ps ltac:(lia)) as Hdm. pose proof (Z.mod_pos_bound len ps ltac:(lia)) as Hmb.
  assert (0 <= len / ps) as Hq by (apply Z.div_pos; lia).
  set (m := Z.to_nat (len / ps)). assert (Z.of_nat m = len / ps) as Hmz by lia.
  assert (m ≤ length (s_data body))%nat as Hfuel by (rewrite Hbody; nia).
  unfold unknownFuel. replace (S (length (s_data body))) with (m + S (length (s_data body) - m))%nat by lia.
  destruct (unknown_start ps m (S (length (s_data body) - m)))
    as (metas & c1 & Hml & -> & Hst & Hcnt & Hn1 & (Ha1 & Ha2 & Ha3 & Ha4 & Ha5) & Hs1);
    [lia|lia|fold len; lia|].
  rewrite <-Hml in Hst, Hcnt, Hs1 |- *.
  destruct (unknownLoop_short md5 sha256 cfg now file content ps (length (s_data body) - length metas)
    metas c1 (mkStream (drop (Z.to_nat (Z.of_nat (length metas) * ps)) content) None)) as
    (c2 & -> & Hfet & Hcnt2 & Hn2 & (Hb1 & Hb2 & Hb3 & Hb4 & Hb5) & Htot & Hs2);
    [lia|done|lia|fold len; lia|done|done|done|done|]. fold len.
  destruct (SetContentLength_fetched file content c2 (S (length metas)) len) as
    (c' & -> & Hclean & Hh & Hsucc & Hdone & Hres & Hs3); try done.
  { unfold os_Lstat. rewrite Hn2, Hn1. apply Hready. }
  { unfold parentIsDir. rewrite (os_Stat_nodes (cl_fs c)) by congruence. apply Hready. }
  { right. rewrite Hb3, Htot. done. }
  simpl. exists c'. rewrite Hclean. do 4 (split; [done|]).
  assert (Z.of_nat (S (length metas)) = n) as Hn by lia.
  rewrite Hres, Hs3, Hb4, Hs2, Hs1. simpl in *. rewrite Ha4. unfold result.
  rewrite Hb1, Hb2, Hb3, Ha1, Ha2, Hn, (rd_task _ _ Hready). simpl. split; [done|].
  f_equal. rewrite <-Hn, Nat2Z.inj_succ, <-Z.add_1_r, seqZ_app, fmap_app by lia. f_equal.
Qed.

(** The task was given up: the scheduler and the caller are told so. *)
Definition gaveUp (c' : Client) : Prop :=
  os_Lstat (cl_fs c') (cc_Output cfg) = None ∧ pt_done (cl_task c') = true ∧
  (∃ r, pt_results (cl_task c') = [r] ∧ res_Success r = false ∧ res_Code r = Code_UnknownError) ∧
  (∃ p, last (pt_progress (cl_task c')) = Some p ∧ pg_Success p = false).

Lemma cleanUnfinished_gaveUp c1 :
  os_Lstat (cl_fs c1) (cc_Output cfg) = None → pt_once (cl_task c1) = false →
  pt_results (cl_task c1) = [] → pt_failedCode (cl_task c1) = Code_UnknownError →
  gaveUp (cleanUnfinished c1).
Proof.
  intros Habs Honce Hres Hcode. unfold cleanUnfinished. rewrite Honce. simpl.
  split; [done|]. split; [done|]. simpl. rewrite Hres, Hcode, last_snoc. by split; eexists.
Qed.

(** when the length of the source is not known and is a multiple of the
    piece size, the download fails although every byte was fetched: the piece
    after the last one has no bytes but is counted with a full piece size, so
    the lengths do not match at the end. *)
Theorem backSource_aligned_length_fails :
  let len := Z.of_nat (length content) in
  let ps := computePieceSize (-1) in
  0 < ps < 2 ^ 32 → len / ps < 2 ^ 27 → len mod ps = 0 →
  ∃ c', filePeerTask_backSource md5 sha256 cfg now (λ _, None) computePieceSize c digest (-1)
      (inr body) = Ok c' ∧ gaveUp c'.
Proof using All.
  intros len ps Hps Hcap Hmod. unfold filePeerTask_backSource, pieceManager_DownloadSource.
  rewrite Hback, (checkDigest_right digest body content) by done.
  change (-1 <? 0) with true. cbv iota zeta. fold ps.
  pose proof (Z.div_mod len ps ltac:(lia)) as Hdm.
  assert (0 <= len / ps) as Hq by (apply Z.div_pos; lia).
  set (m := Z.to_nat (len / ps)). assert (Z.of_nat m = len / ps) as Hmz by lia.
  assert (m ≤ length (s_data body))%nat as Hfuel by (rewrite Hbody; nia).
  unfold unknownFuel. replace (S (length (s_data body))) with (m + S (length (s_data body) - m))%nat by lia.
  destruct (unknown_start ps m (S (length (s_data body) - m)))
    as (metas & c1 & Hml & -> & Hst & Hcnt & Hn1 & (Ha1 & Ha2 & Ha3 & Ha4 & Ha5) & Hs1);
    [lia|lia|fold len; lia|].
  assert (Z.to_nat (Z.of_nat m * ps) = length content) as Hend by lia. rewrite Hend in *.
  rewrite <-Hml in Hcnt |- *.
  destruct (unknownLoop_aligned md5 sha256 cfg now file content ps (length (s_data body) - length metas)
    metas c1 (mkStream (drop (length content) content) None)) as
    (c2 & -> & Hcnt2 & Hn2 & Hr2 & Hf2); [lia|done|lia|lia|done|done|by apply drop_all|done|].
  fold len in Hcnt2 |- *. unfold filePeerTask_SetContentLength, isCompleted. simpl.
  rewrite (ct_completed _ _ _ Hcnt2). destruct (Z.eqb_spec (len + ps) len); [lia|].
  eexists. split; [done|]. apply cleanUnfinished_gaveUp; simpl.
  - unfold os_Lstat. rewrite Hn2, Hn1. apply Hready.
  - apply Hcnt2.
  - by rewrite Hr2, Ha4, (rd_task _ _ Hready).
  - by rewrite Hf2, Ha5, (rd_task _ _ Hready).
Qed.

(** an empty file with its length known cannot be downloaded when digests
    are calculated: no piece is written, so no digest of the pieces is ever
    made, and the end of the task refuses the store without one. *)
Theorem backSource_empty_fails :
  content = [] → cc_calculateDigest cfg = true → 0 < computePieceSize 0 →
  md_PieceMd5Sign (ts_meta (cl_store c)) = ""%string →
  ∃ c', filePeerTask_backSource md5 sha256 cfg now (λ _, None) computePieceSize c digest 0
      (inr body) = Ok c' ∧ gaveUp c'.
Proof using All.
  intros Hnil Hcalc Hps Hsign. unfold filePeerTask_backSource, pieceManager_DownloadSource.
  rewrite Hback, (checkDigest_right digest body content) by done.
  change (0 <? 0) with false. cbv iota zeta.
  replace (ceilDiv 0 (computePieceSize 0)) with 0 by (unfold ceilDiv; by rewrite Z.div_0_l by lia).
  simpl. unfold filePeerTask_SetContentLength, isCompleted. set (c1 := storeUpdate _ _ _ c). simpl.
  pose proof (rd_task _ _ Hready) as Ht. rewrite Ht. simpl.
  unfold finish, callback_ValidateDigest. rewrite Hcalc. unfold localTaskStore_ValidateDigest. simpl.
  assert (md_PieceMd5Sign (ts_meta (cl_store c1)) = ""%string) as Hs1.
  { unfold c1, storeUpdate, localTaskStore_UpdateTask. simpl. by rewrite Hsign. }
  simpl in Hs1. rewrite Hs1. simpl.
  eexists. split; [reflexivity|]. unfold cleanUnfinished. simpl. rewrite Ht. simpl.
  split; [apply Hready|]. split; [done|]. by split; eexists.
Qed.

End Download.
End Source.

(** ** Evaluation *)

Lemma demo_ready : ready demoConfig 2 demoClient.
Proof. split; by vm_compute. Qed.

Lemma backSource_known_length_witness :
  ∃ c', filePeerTask_backSource demoMd5 demoSha256 demoConfig 100 (λ _, None) (λ _, 2) demoClient
      "" 5 (inr demoBody) = Ok c' ∧ holds (cl_fs c') ["out"; "file"] demoContent ∧
    told <$> pt_sent (cl_task c') =
      [(Some (0, 0, 2), true, 1); (Some (1, 2, 2), true, 2); (Some (2, 4, 1), true, 3); endTold 3].
Proof.
  destruct (backSource_known_length demoMd5 demoSha256 demoConfig 100 (λ _, 2) 2 demoClient
    demoContent "" demoBody) as (c' & H & Hh & _ & _ & _ & Hs);
    [exact demo_ready|exact demoSha256_not_empty|done|done|by left|done|done|done|done|done|].
  exists c'. split; [exact H|]. split; [exact Hh|exact Hs].
Defined.

Lemma backSource_unknown_length_witness :
  ∃ c', filePeerTask_backSource demoMd5 demoSha256 demoConfig 100 (λ _, None) (λ _, 2) demoClient
      "m5" (-1) (inr demoBody) = Ok c' ∧ holds (cl_fs c') ["out"; "file"] demoContent ∧
    pt_results (cl_task c') = [result demoClient true Code_Success 5 3].
Proof.
  destruct (backSource_unknown_length demoMd5 demoSha256 demoConfig 100 (λ _, 2) 2 demoClient
    demoContent "m5" demoBody) as (c' & H & Hh & _ & _ & Hr & _);
    [exact demo_ready|exact demoSha256_not_empty|done|done|by right|done|done|done|done|done|].
  exists c'. split; [exact H|]. split; [exact Hh|exact Hr].
Defined.

Lemma backSource_aligned_length_fails_witness :
  ∃ c', filePeerTask_backSource demoMd5 demoSha256 demoConfig 100 (λ _, None) (λ _, 5) demoClient
      "" (-1) (inr demoBody) = Ok c' ∧ gaveUp demoConfig c'.
Proof.
  apply (backSource_aligned_length_fails demoMd5 demoSha256 demoConfig 100 (λ _, 5) 2 demoClient
    demoContent "" demoBody);
    [exact demo_ready|exact demoSha256_not_empty|done|done|by left|done|done|done|done|done].
Defined.

Lemma backSource_empty_fails_witness :
  ∃ c', filePeerTask_backSource demoMd5 demoSha256 demoConfig 100 (λ _, None) (λ _, 2) demoClient
      "" 0 (inr (mkStream [] None)) = Ok c' ∧ gaveUp demoConfig c'.
Proof.
  apply (backSource_empty_fails demoMd5 demoSha256 demoConfig 100 (λ _, 2) 2 demoClient
    [] "" (mkStream [] None));
    [exact demo_ready|exact demoSha256_not_empty|done|done|by left|done|done|done|done|done|
     by vm_compute].
Defined.
