(* ===== verification/PullContent.v ===== *)
(** * PullContent: a task that pulls its pieces ends with the content

    Whatever the schedule, when the peers offer pieces of one content and
    deliver their bytes, or fail, or end early, a task that succeeds has the
    content at its output. *)

From S2P Require Import Prelude World FileSystem LocalStorage Bitmap PeerTask PieceManager PullPieces.
From S2P Require Import SourceDownload SourceProperties ClientDemo PullProperties.
From stdpp Require Import options.
Local Open Scope Z_scope.

(** ** Sums over the pieces *)

Definition sumOver (f : Z → Z) (l : list Z) : Z := foldr (λ i acc, f i + acc) 0 l.

Lemma sumOver_app f l1 l2 : sumOver f (l1 ++ l2) = sumOver f l1 + sumOver f l2.
Proof. induction l1; simpl; lia. Qed.

Lemma sumOver_ext f g l : (∀ i, i ∈ l → f i = g i) → sumOver f l = sumOver g l.
Proof.
  induction l as [|x l IH]; intros H; [done|]. simpl. rewrite (H x) by set_solver. rewrite IH; [done|set_solver].
Qed.

Lemma sumOver_add f g l i : NoDup l → i ∈ l → (∀ j, j ≠ i → g j = f j) → sumOver g l = sumOver f l + (g i - f i).
Proof.
  intros Hnd Hi Hj. induction l as [|x l IH]; [by apply elem_of_nil in Hi|].
  apply NoDup_cons in Hnd as [Hx Hnd]. simpl. apply elem_of_cons in Hi as [->|Hi].
  - rewrite (sumOver_ext g f l); [lia|]. intros j Hjl. apply Hj. by intros ->.
  - rewrite IH, (Hj x) by (done || by intros ->). lia.
Qed.

Lemma sumOver_bounds f g l : (∀ i, i ∈ l → 0 <= f i <= g i) → 0 <= sumOver f l <= sumOver g l.
Proof.
  induction l as [|x l IH]; intros H; simpl; [lia|].
  pose proof (H x ltac:(set_solver)). pose proof (IH ltac:(set_solver)). lia.
Qed.

(** A sum that reaches its bound reaches it in every term. *)
Lemma sumOver_full f g l : (∀ i, i ∈ l → 0 <= f i <= g i) → sumOver f l = sumOver g l → ∀ i, i ∈ l → f i = g i.
Proof.
  induction l as [|x l IH]; intros H Hs i Hi; [by apply elem_of_nil in Hi|]. simpl in Hs.
  pose proof (H x ltac:(set_solver)) as Hx. pose proof (sumOver_bounds f g l ltac:(set_solver)).
  apply elem_of_cons in Hi as [->|Hi]; [lia|]. apply IH; [set_solver|lia|done].
Qed.

Section Content.
Context (md5 : list byte → string) (sha256 : string → string) {C : MetadataCodec}.
Context (cfg : ClientConfig) (now : Z) (waitN taskLimit : Z → option StoreError).
Context (registered : option StoreError) (getPiecesMaxRetry : Z) (disableAutoBackSource : bool).
Context (computePieceSize : Z → Z) (sourceDigest : string) (sourceLength : Z)
  (response : StoreError + Stream StoreError).
Context (content : list byte) (file : inode) (pieceSize count : Z) (pieceDigest : Z → string).
Implicit Types (c : Client) (p : Puller).

Let len : Z := Z.of_nat (length content).

(** The content is cut into [count] pieces, the last of which may be short. *)
Record cut : Prop := {
  cut_size : 0 < pieceSize < 2 ^ 31;
  cut_count : 0 < count < 2 ^ 27;
  cut_len : (count - 1) * pieceSize < len <= count * pieceSize;
  cut_small : len < 2 ^ 62;
}.

Definition sizeOf (i : Z) : Z := Z.min pieceSize (len - i * pieceSize).
Definition pieceAt (i : Z) : PieceInfo :=
  mkPieceInfo i (i * pieceSize) (sizeOf i) (pieceDigest i) (i * pieceSize) 0.

Definition isPiece (info : PieceInfo) : Prop := ∃ i, 0 <= i < count ∧ info = pieceAt i.

Definition honestPacket (packet : PiecePacket) : Prop :=
  Forall isPiece (pp_PieceInfos packet) ∧
  (pp_TotalPiece packet = -1 ∨ pp_TotalPiece packet = count) ∧
  (pp_ContentLength packet = -1 ∨ pp_ContentLength packet = len).

(** The bytes of a piece, as many as come. *)
Definition honestDownload (info : PieceInfo) (download : StoreError + Reader) : Prop :=
  match download with
  | inl _ => True
  | inr r => delivered r `prefix_of` drop (Z.to_nat (RangeStart info)) content
  end.

(** The peers are honest, and the task does not go back to the source. *)
Definition honest (ch : PullChoice) (p : Puller) : Prop :=
  match ch with
  | PcMain McTimeout => False
  | PcMain (McAnswer (inr packet)) => honestPacket packet
  | PcReceive (RcRecv (RecvError (Some (code, _)))) => code ≠ Code_SchedNeedBackSource
  | PcWorker i (WcDownload download) =>
      match pu_workers p !! i with
      | Some (WDownload r) => honestDownload (dr_piece r) download
      | _ => True
      end
  | _ => True
  end.

#[local] Notation pullStep := (pullStep md5 sha256 cfg now waitN taskLimit registered getPiecesMaxRetry
  disableAutoBackSource computePieceSize sourceDigest sourceLength response).
#[local] Notation runPull := (runPull md5 sha256 cfg now waitN taskLimit registered getPiecesMaxRetry
  disableAutoBackSource computePieceSize sourceDigest sourceLength response).

Fixpoint honestRun (sched : list PullChoice) (p : Puller) : Prop :=
  match sched with
  | [] => True
  | ch :: sched => honest ch p ∧ match pullStep ch p with Ok (Some p) => honestRun sched p | _ => True end
  end.

(** ** The invariant *)

Definition recorded c (i : Z) : Prop :=
  ∃ m, ts_Pieces (cl_store c) !! i = Some m ∧ pm_Range m = mkRange (i * pieceSize) (sizeOf i).

(** The bytes of the pieces that are ready. *)
Definition readySize (b : Bitmap) (i : Z) : Z := if decide (bm_mem b i) then sizeOf i else 0.
Definition readyBytes (b : Bitmap) : Z := sumOver (readySize b) (seqZ 0 count).

Record task_ok c : Prop := {
  tk_bitmap : bitmap_ok (pt_readyPieces (cl_task c));
  tk_cap : bm_cap (pt_readyPieces (cl_task c)) <= Z.max 64 (2 * count);
  tk_ready : ∀ i, 0 <= i → bm_mem (pt_readyPieces (cl_task c)) i → i < count ∧ recorded c i;
  tk_completed : pt_completedLength (cl_task c) = readyBytes (pt_readyPieces (cl_task c));
  tk_length : pt_contentLength (cl_task c) = -1 ∨ pt_contentLength (cl_task c) = len;
  tk_total : pt_totalPiece (cl_task c) = -1 ∨
    pt_totalPiece (cl_task c) = count ∧ md_TotalPieces (ts_meta (cl_store c)) = count;
}.

(** The store while the task runs. *)
Record store_ok c : Prop := {
  so_node : os_Lstat (cl_fs c) (ts_DataFilePath (cl_store c)) = Some (NodeFile file);
  so_next : (file < fs_next (cl_fs c))%positive;
  so_meta : ts_metadataFile (cl_store c) ≠ file;
  so_rw : ts_metadataRW (cl_store c) = true;
  so_agrees : agrees content (fileData (cl_fs c) file) (ts_Pieces (cl_store c));
  so_pieces : ∀ i m, ts_Pieces (cl_store c) !! i = Some m →
    0 <= i < count ∧ pm_Range m = mkRange (i * pieceSize) (sizeOf i);
  so_absent : os_Lstat (cl_fs c) (cc_Output cfg) = None;
  so_parent : parentIsDir (cl_fs c) (cc_Output cfg) = true;
}.

(** ... and when it has succeeded. *)
Definition stored_ok c : Prop :=
  holds (cl_fs c) (cc_Output cfg) content ∧ ∀ i, 0 <= i < count → recorded c i.

Definition client_ok c : Prop :=
  task_ok c ∧
  (pt_success (cl_task c) = false ∧ store_ok c ∨ pt_success (cl_task c) = true ∧ pt_once (cl_task c) = true ∧ stored_ok c).

Definition honestWorker c (w : PieceWorker) : Prop :=
  match w with
  | WHas r | WDownload r | WTail r => isPiece (dr_piece r)
  | WMark r => isPiece (dr_piece r) ∧ recorded c (PieceNum (dr_piece r))
  | _ => True
  end.

Definition honestMain (m : Main) : Prop :=
  match m with
  | MDispatch _ reqs => Forall (λ r, isPiece (dr_piece r)) reqs
  | MSingle _ _ => False
  | _ => True
  end.

Record content_inv p : Prop := {
  ci_client : client_ok (pu_client p);
  ci_open : pu_readyClosed p = false;
  ci_requests : Forall (λ r, isPiece (dr_piece r)) (pu_requests p);
  ci_workers : Forall (honestWorker (pu_client p)) (pu_workers p);
  ci_main : honestMain (pu_main p);
}.

(** ** The sizes *)

Context (Hcut : cut).
#[local] Set Default Proof Using "Type".

Lemma sizeOf_bounds i : 0 <= i < count → 0 < sizeOf i ∧ 0 <= i * pieceSize ∧ i * pieceSize + sizeOf i <= len.
Proof using Hcut. destruct Hcut as [? ? ? ?]. unfold sizeOf. intros. nia. Qed.

Lemma sizeOf_sum k : 0 <= k <= count → sumOver sizeOf (seqZ 0 k) = Z.min (k * pieceSize) len.
Proof using Hcut.
  intros Hk. destruct Hcut as [? ? ? ?]. assert (0 <= k) as Hk0 by lia. revert Hk. pattern k.
  apply natlike_ind; [|clear k Hk0; intros k Hk0 IH Hk|done].
  { intros. simpl. lia. }
  unfold Z.succ. rewrite seqZ_app, sumOver_app, IH by lia. simpl. unfold sizeOf. nia.
Qed.

Lemma sizeOf_total : sumOver sizeOf (seqZ 0 count) = len.
Proof using Hcut. rewrite sizeOf_sum by (pose proof (cut_count Hcut); lia). pose proof (cut_len Hcut). lia. Qed.

Lemma readyBytes_bounds b : 0 <= readyBytes b <= len.
Proof using Hcut.
  rewrite <-sizeOf_total. apply sumOver_bounds. intros i Hi%elem_of_seqZ.
  pose proof (sizeOf_bounds i ltac:(lia)). unfold readySize. case_decide; lia.
Qed.

(** All of the bytes are there when all of the pieces are. *)
Lemma readyBytes_full b : readyBytes b = len → ∀ i, 0 <= i < count → bm_mem b i.
Proof using Hcut.
  intros E i Hi. rewrite <-sizeOf_total in E.
  assert (readySize b i = sizeOf i) as E1.
  { apply (sumOver_full (readySize b) sizeOf (seqZ 0 count)); [|exact E|apply elem_of_seqZ; lia].
    intros j Hj%elem_of_seqZ. pose proof (sizeOf_bounds j ltac:(lia)). unfold readySize. case_decide; lia. }
  pose proof (sizeOf_bounds i Hi). unfold readySize in E1. case_decide; [done|lia].
Qed.

Lemma readyBytes_set b b' i : 0 <= i < count → ¬ bm_mem b i → (∀ j, 0 <= j → bm_mem b' j ↔ j = i ∨ bm_mem b j) →
  readyBytes b' = readyBytes b + sizeOf i.
Proof using Hcut.
  intros Hi Hn Hm. unfold readyBytes.
  rewrite (sumOver_ext (readySize b') (λ j, if decide (j = i) then sizeOf i else readySize b j)).
  - rewrite (sumOver_add (readySize b) _ _ i); [|apply NoDup_seqZ|apply elem_of_seqZ; lia|].
    + rewrite (decide_True (P := i = i)) by done. unfold readySize. rewrite (decide_False (P := bm_mem b i)) by done. lia.
    + intros j Hj. by rewrite decide_False.
  - intros j Hj%elem_of_seqZ. specialize (Hm j ltac:(lia)). unfold readySize.
    destruct (decide (j = i)) as [->|Hne].
    + rewrite decide_True; [done|]. apply Hm. by left.
    + destruct (decide (bm_mem b' j)) as [[?|Hb]%Hm|Hb]; [done|by rewrite decide_True|].
      rewrite decide_False; [done|]. intros Hj'. apply Hb, Hm. by right.
Qed.

(** ** The operations on the client *)

(** What the invariant does not see. *)
Record same c c' : Prop := {
  sm_fs : cl_fs c' = cl_fs c;
  sm_path : ts_DataFilePath (cl_store c') = ts_DataFilePath (cl_store c);
  sm_file : ts_metadataFile (cl_store c') = ts_metadataFile (cl_store c);
  sm_rw : ts_metadataRW (cl_store c') = ts_metadataRW (cl_store c);
  sm_pieces : ts_Pieces (cl_store c') = ts_Pieces (cl_store c);
  sm_total : md_TotalPieces (ts_meta (cl_store c')) = md_TotalPieces (ts_meta (cl_store c));
  sm_ready : pt_readyPieces (cl_task c') = pt_readyPieces (cl_task c);
  sm_completed : pt_completedLength (cl_task c') = pt_completedLength (cl_task c);
  sm_length : pt_contentLength (cl_task c') = pt_contentLength (cl_task c);
  sm_totalPiece : pt_totalPiece (cl_task c') = pt_totalPiece (cl_task c);
  sm_success : pt_success (cl_task c') = pt_success (cl_task c);
  sm_once : pt_once (cl_task c) = true → pt_once (cl_task c') = true;
}.

Lemma same_refl c : same c c.
Proof. by split. Qed.

(** The invariant goes on, and what is recorded stays. *)
Definition leads c c' : Prop := client_ok c' ∧ ∀ i, recorded c i → recorded c' i.

Lemma leads_refl c : client_ok c → leads c c.
Proof. by split. Qed.

Lemma leads_trans c c1 c' : leads c c1 → (client_ok c1 → leads c1 c') → leads c c'.
Proof. intros [H1 H2] [H3 H4]%(λ H, H H1). split; [done|]. intros i Hi. by apply H4, H2. Qed.

Lemma recorded_pieces c c' i : ts_Pieces (cl_store c') = ts_Pieces (cl_store c) → recorded c i → recorded c' i.
Proof. unfold recorded. intros ->. done. Qed.

Lemma same_leads c c' : same c c' → client_ok c → leads c c'.
Proof.
  intros [Hfs Hpath Hfile Hrw Hp Htot Hr Hc Hl Ht Hs Ho] [[? ? Hrd ? ? ?] Hst].
  pose proof (λ i, recorded_pieces c c' i Hp) as Hrec.
  split; [split|done].
  - split; rewrite ?Hr, ?Hc, ?Hl, ?Ht, ?Htot; try done. intros i Hi Hm. destruct (Hrd i Hi Hm). auto.
  - rewrite Hs. destruct Hst as [[? [? ? ? ? ? ? ? ?]]|(? & ? & [Hh Hall])]; [left|right].
    + split; [done|]. split; rewrite ?Hfs, ?Hpath, ?Hfile, ?Hrw, ?Hp; done.
    + split; [done|]. split; [auto|]. split; [by rewrite Hfs|auto].
Qed.

Lemma updPT_same c f :
  let t := cl_task c in
  pt_readyPieces (f t) = pt_readyPieces t → pt_completedLength (f t) = pt_completedLength t →
  pt_contentLength (f t) = pt_contentLength t → pt_totalPiece (f t) = pt_totalPiece t →
  pt_success (f t) = pt_success t → (pt_once t = true → pt_once (f t) = true) → same c (updPT f c).
Proof. by split. Qed.

Lemma cleanUnfinished_same c : same c (cleanUnfinished c).
Proof. unfold cleanUnfinished. destruct (pt_once (cl_task c)) eqn:Ho; [apply same_refl|by split]. Qed.

Lemma ValidateDigest_ok c c' e : callback_ValidateDigest sha256 cfg c = (c', e) → same c c' ∧ cl_task c' = cl_task c.
Proof.
  unfold callback_ValidateDigest, localTaskStore_ValidateDigest.
  destruct (cc_calculateDigest cfg); [|intros [= <- <-]; split; [apply same_refl|done]].
  repeat case_match; intros; simplify_eq; by repeat split.
Qed.

(** A task that counts all bytes has all pieces, and the data file is the content. *)
Lemma completed_stored c : client_ok c → isCompleted (cl_task c) = true → pt_success (cl_task c) = false →
  (∀ i, 0 <= i < count → recorded c i) ∧
  ∃ metas, stored file content metas (length content) (cl_fs c) (cl_store c).
Proof using Hcut.
  intros [[Hbm _ Hrd Hcl Hl _] Hst] Hc%Z.eqb_eq Hs.
  destruct Hst as [[_ [Hnode Hnext Hmeta Hrw Hag Hps _ _]]|[? _]]; [|congruence].
  assert (∀ i, 0 <= i < count → recorded c i) as Hall.
  { intros i Hi. apply Hrd; [lia|]. apply readyBytes_full; [|done].
    pose proof (readyBytes_bounds (pt_readyPieces (cl_task c))). lia. }
  split; [exact Hall|].
  exists ((λ i, default (mkPieceMetadata 0 "" 0 (mkRange 0 0) 0) (ts_Pieces (cl_store c) !! i)) <$> seqZ 0 count).
  split; try done.
  - rewrite take_ge by lia. apply (agrees_covered _ _ (ts_Pieces (cl_store c))); [done|].
    intros k Hk. pose proof (cut_size Hcut) as Hps0. pose proof (cut_len Hcut) as Hlen.
    set (i := Z.of_nat k / pieceSize).
    assert (0 <= i < count ∧ i * pieceSize <= Z.of_nat k < i * pieceSize + pieceSize) as [Hi Hki].
    { pose proof (Z.div_mod (Z.of_nat k) pieceSize ltac:(lia)). pose proof (Z.mod_pos_bound (Z.of_nat k) pieceSize ltac:(lia)).
      subst i. nia. }
    destruct (Hall i Hi) as (m & Hm & Hr). exists i, m. split; [done|]. rewrite Hr. simpl. unfold sizeOf. lia.
  - intros i. case_decide as Hi.
    + rewrite list_lookup_fmap. destruct (decide (i < count)) as [Hlt|Hge].
      * rewrite lookup_seqZ_lt by lia. simpl. rewrite Z2Nat.id, Z.add_0_l by lia.
        destruct (Hall i ltac:(lia)) as (m & Hm & _). by rewrite Hm.
      * rewrite lookup_seqZ_ge by lia. simpl. destruct (ts_Pieces (cl_store c) !! i) as [m|] eqn:E; [|done].
        apply Hps in E. lia.
    + destruct (ts_Pieces (cl_store c) !! i) as [m|] eqn:E; [|done]. apply Hps in E. lia.
Qed.

Lemma finish_leads c : client_ok c → isCompleted (cl_task c) = true → leads c (finish sha256 cfg now c).1.
Proof using Hcut.
  intros Hok Hc. unfold finish. destruct (callback_ValidateDigest sha256 cfg c) as [c1 e] eqn:Hv.
  destruct (ValidateDigest_ok _ _ _ Hv) as [Hsame Ht1]. apply (leads_trans _ c1); [by apply same_leads|].
  intros Hok1. destruct e as [e|]; [apply same_leads; [apply cleanUnfinished_same|done]|].
  destruct (pt_once (cl_task c1)) eqn:Ho; [by apply leads_refl|].
  rewrite <-Ht1 in Hc. pose proof Hok1 as [Htk [[Hs Hst]|(_ & Ho' & _)]]; [|congruence].
  destruct (completed_stored c1 Hok1 Hc Hs) as (Hall & metas & Hstored).
  unfold callback_Done. cbn [updPT cl_fs cl_store cl_task].
  change (pt_totalPiece (sendEnd _)) with (pt_totalPiece (cl_task c1)).
  destruct (Store_holds cfg now file content metas (cl_fs c1) (cl_store c1) (cc_Output cfg) (pt_totalPiece (cl_task c1)))
    as (fs' & t' & -> & Hh & Ht' & _ & Hp'); [done|apply Hst..| |].
  { destruct (tk_total _ Htk) as [->|[-> ->]]; [left; lia|by right]. }
  destruct Htk as [? ? Hrd ? ? Htot].
  assert (∀ i c', cl_store c' = t' → recorded c1 i → recorded c' i) as Hrec.
  { intros i c' E. apply recorded_pieces. by rewrite E. }
  split; [split; [split|right]|]; simpl; try done.
  - intros i Hi Hm. destruct (Hrd i Hi Hm). split; [done|]. by apply (Hrec i).
  - by rewrite Ht'.
  - split_and!; [done..|]. split; [done|]. intros i Hi. by apply (Hrec i), Hall.
  - intros i. by apply Hrec.
Qed.

Lemma set_contentLength_leads c : client_ok c → leads c (updPT (set_pt_contentLength len) c).
Proof.
  intros [[? ? ? ? ? ?] Hst]. split; [split|done]; [split; try done; by right|].
  destruct Hst as [[? [? ? ? ? ? ? ? ?]]|]; [left; by split|by right].
Qed.

Lemma SetContentLength_leads c : client_ok c → leads c (filePeerTask_SetContentLength sha256 cfg now c len).1.
Proof using Hcut.
  intros Hok. eapply leads_trans; [by apply set_contentLength_leads|]. intros Hok1.
  unfold filePeerTask_SetContentLength. destruct (isCompleted _) eqn:Hc; [by apply finish_leads|by apply leads_refl].
Qed.

Lemma reportMark_leads c info c' new : client_ok c → isPiece info → recorded c (PieceNum info) →
  reportMark info c = Ok (c', new) → leads c c'.
Proof using Hcut.
  intros Hok (i & Hi & ->) Hrec. pose proof Hok as [[Hbm Hcap Hrd Hcl Hl Ht] Hst].
  pose proof (cut_count Hcut) as Hcnt. pose proof (cut_small Hcut). pose proof (sizeOf_bounds i Hi) as Hsz.
  unfold reportMark. simpl. destruct (IsSet_total _ i Hbm ltac:(lia)) as [[] Hr]; rewrite Hr; simpl.
  { intros [= <- <-]. by apply leads_refl. }
  set (b := pt_readyPieces (cl_task c)) in *.
  destruct (decide (i < 2 * bm_cap b)) as [Hlt|Hge]; [|rewrite Set_panics by (done || lia); done].
  destruct (Set_spec b i) as (b' & -> & Hbm' & Hcap' & _ & _ & Hm'); [done|lia|lia|]. simpl. intros [= <- <-].
  assert (¬ bm_mem b i) as Hn by (unfold bm_mem; congruence).
  pose proof (readyBytes_set b b' i Hi Hn Hm') as Hsum. pose proof (readyBytes_bounds b'). pose proof (readyBytes_bounds b).
  split; [split; [split|]|]; simpl; try done.
  - destruct (Z.leb_spec (bm_cap b) i); lia.
  - intros j Hj [->|Hm]%Hm'; [split; [lia|done]|by apply Hrd|done].
  - rewrite Hcl, int64_small by lia. lia.
  - destruct Hst as [[? [? ? ? ? ? ? ? ?]]|[? []]]; [left; by split|by right].
Qed.

(** *** The write of a piece *)

Definition writeRequest (info : PieceInfo) (r : Reader) : WritePieceRequest :=
  mkWritePieceRequest
    (mkPieceMetadata (PieceNum info) (PieceMd5 info) (PieceOffset info)
       (mkRange (int64 (RangeStart info)) (RangeSize info)) 0) false r.

(** What a write does to the pieces and to the names. *)
Lemma WritePiece_frame fs t i r fs' t' n err rest : 0 <= i < count →
  localTaskStore_WritePiece md5 fs now t (writeRequest (pieceAt i) r) = (fs', t', (n, err), rest) →
  fs_nodes fs' = fs_nodes fs ∧ fs_next fs' = fs_next fs ∧
  ts_DataFilePath t' = ts_DataFilePath t ∧ ts_metadataFile t' = ts_metadataFile t ∧ ts_metadataRW t' = ts_metadataRW t ∧
  md_TotalPieces (ts_meta t') = md_TotalPieces (ts_meta t) ∧
  match ts_Pieces t !! i with
  | Some _ => fs' = fs ∧ ts_Pieces t' = ts_Pieces t
  | None => ts_Pieces t' = ts_Pieces t ∧ is_Some err ∨
      err = None ∧ ∃ m, ts_Pieces t' = <[i := m]> (ts_Pieces t) ∧ pm_Range m = mkRange (i * pieceSize) (sizeOf i)
  end.
Proof using Hcut.
  intros Hi. pose proof (sizeOf_bounds i Hi). pose proof (cut_small Hcut).
  unfold localTaskStore_WritePiece, writeRequest. simpl. rewrite int64_small by lia.
  destruct (ts_Pieces t !! i) eqn:Hp.
  { destruct (discardPiece _ _) as [[? ?] ?]. intros [= <- <- <- <- <-]. by split_and!. }
  destruct (os_Open fs _) as [|ino]; [intros [= <- <- <- <- <-]; split_and!; try done; left; by eauto|].
  destruct (Z.ltb_spec (i * pieceSize) 0); [lia|].
  destruct (copyPiece _ _ _ _) as [[[fs1 k] e] rest1] eqn:Hc.
  assert (fs_nodes fs1 = fs_nodes fs ∧ fs_next fs1 = fs_next fs) as [Hn Hx].
  { revert Hc. unfold copyPiece. destruct r; simpl; by intros [= <- <- <- <-]. }
  destruct e; [intros [= <- <- <- <- <-]; split_and!; try done; left; by eauto|]. rewrite andb_true_r.
  destruct (Z.eqb_spec k (sizeOf i)) as [->|]; simpl; intros [= <- <- <- <- <-]; [|split_and!; try done; left; by eauto].
  unfold recordPiece. simpl. rewrite Hp. split_and!; try done. right. split; [done|]. eexists. by split.
Qed.

(** What a write records. *)
Lemma WritePiece_recorded c i r fs' t' n err rest : 0 <= i < count →
  localTaskStore_WritePiece md5 (cl_fs c) now (cl_store c) (writeRequest (pieceAt i) r) = (fs', t', (n, err), rest) →
  (∀ m, ts_Pieces (cl_store c) !! i = Some m → pm_Range m = mkRange (i * pieceSize) (sizeOf i)) →
  let c' := mkClient fs' t' (cl_task c) in (∀ j, recorded c j → recorded c' j) ∧ (err = None → recorded c' i).
Proof using Hcut.
  intros Hi Hw Hr c'. destruct (WritePiece_frame _ _ _ _ _ _ _ _ _ Hi Hw) as (_ & _ & _ & _ & _ & _ & Hp).
  destruct (ts_Pieces (cl_store c) !! i) as [m|] eqn:Hpi.
  - destruct Hp as [_ Hp]. split; [intros j; by apply recorded_pieces|]. intros _. apply (recorded_pieces c); [done|].
    exists m. auto.
  - destruct Hp as [[Hp [e ->]]|(_ & m & Hp & Hm)]; [split; [intros j; by apply recorded_pieces|done]|].
    split; [|intros _; exists m; simpl; rewrite Hp; split; [apply lookup_insert_eq|done]].
    intros j (m' & Hm' & Hr'). destruct (decide (j = i)) as [->|Hne]; [congruence|].
    exists m'. simpl. rewrite Hp. by rewrite lookup_insert_ne.
Qed.

(** The store after a write of a piece, whatever its outcome. *)
Lemma WritePiece_leads c i r fs' t' n err rest : client_ok c → 0 <= i < count →
  delivered r `prefix_of` drop (Z.to_nat (i * pieceSize)) content →
  localTaskStore_WritePiece md5 (cl_fs c) now (cl_store c) (writeRequest (pieceAt i) r) = (fs', t', (n, err), rest) →
  let c' := mkClient fs' t' (cl_task c) in leads c c' ∧ (err = None → recorded c' i).
Proof using Hcut.
  intros [[? ? Hrd ? ? ?] Hst] Hi Hpre Hw c'.
  pose proof (sizeOf_bounds i Hi). pose proof (cut_small Hcut).
  destruct (WritePiece_frame _ _ _ _ _ _ _ _ _ Hi Hw) as (Hn & Hx & Hpath & Hfile & Hrw & Htot & Hp).
  assert ((∀ j, recorded c j → recorded c' j) ∧ (err = None → recorded c' i)) as [Hmono Hnew].
  { eapply WritePiece_recorded; [done..|]. intros m Hm. destruct Hst as [[_ Hso]|(_ & _ & _ & Hall)]; [by eapply so_pieces|].
    destruct (Hall i Hi) as (m' & Hm' & ?). congruence. }
  split; [split; [split|done]|exact Hnew].
  - split; simpl; try done; [|by rewrite Htot]. intros j Hj Hm. destruct (Hrd j Hj Hm). auto.
  - destruct Hst as [[Hs Hso]|(Hs & Ho & Hh & Hall)]; [left|right]; simpl.
    + split; [done|]. destruct Hso as [Hnode ? ? ? Hag Hps ? ?].
      destruct (WritePiece_agrees md5 _ _ _ _ content file _ _ _ _ Hw) as [_ Hag']; simpl;
        rewrite ?int64_small by lia; [by apply os_Open_node|done..|lia|].
      split; simpl; rewrite ?Hpath, ?Hfile, ?Hrw, ?Hx; unfold os_Lstat in *; rewrite ?Hn; try done.
      * intros j m. destruct (ts_Pieces (cl_store c) !! i); [destruct Hp as [_ ->]; apply Hps|].
        destruct Hp as [[-> _]|(_ & m' & -> & Hr)]; [apply Hps|].
        rewrite lookup_insert_Some. intros [[<- <-]|[_ Hj]]; [done|by apply Hps].
      * unfold parentIsDir. by rewrite (os_Stat_nodes (cl_fs c)).
    + do 2 (split; [done|]). split; [|auto]. destruct (Hall i Hi) as (m & Hm & _). rewrite Hm in Hp.
      destruct Hp as [-> _]. done.
Qed.

Lemma downloadWrite_leads c info download c' r : client_ok c → isPiece info → honestDownload info download →
  downloadWrite md5 now waitN c info download = (c', r) →
  leads c c' ∧ (r = None → recorded c' (PieceNum info)).
Proof using Hcut.
  intros Hok (i & Hi & ->) Hh. unfold downloadWrite.
  destruct (waitN _); [intros [= <- <-]; split; [by apply leads_refl|done]|].
  destruct download as [e|rd]; [intros [= <- <-]; split; [by apply leads_refl|done]|].
  unfold writePiece. fold (writeRequest (pieceAt i) rd).
  destruct (localTaskStore_WritePiece _ _ _ _ _) as [[[fs' t'] [n err]] rest] eqn:Hw. intros [= <- <-].
  destruct (WritePiece_leads c i rd fs' t' n err rest Hok Hi Hh Hw) as [Hl Hr].
  assert (same (mkClient fs' t' (cl_task c)) (addTraffic n (mkClient fs' t' (cl_task c)))) as Hsame.
  { unfold addTraffic. destruct (0 <? n); [by apply updPT_same|apply same_refl]. }
  split; [eapply leads_trans; [done|by apply same_leads]|].
  intros He. destruct err; [done|]. eapply recorded_pieces; [apply Hsame|]. by apply Hr.
Qed.

(** *** The books *)

(** [callback.Update], when the task may just have learnt its number of pieces. *)
Lemma callback_Update_leads c f : client_ok c →
  let t := cl_task c in
  pt_readyPieces (f t) = pt_readyPieces t → pt_completedLength (f t) = pt_completedLength t →
  pt_contentLength (f t) = pt_contentLength t →
  pt_totalPiece (f t) = pt_totalPiece t ∨ pt_totalPiece (f t) = count →
  pt_success (f t) = pt_success t → pt_once (f t) = pt_once t →
  leads c (callback_Update sha256 now (updPT f c)).
Proof using Hcut.
  intros [[? ? Hrd ? ? Htot] Hst] t Hr Hc Hl Ht Hs Ho. subst t.
  unfold callback_Update, storeUpdate.
  set (t' := localTaskStore_UpdateTask _ _ _ _). cbn [updPT cl_fs cl_task].
  assert (ts_DataFilePath t' = ts_DataFilePath (cl_store c) ∧ ts_metadataFile t' = ts_metadataFile (cl_store c) ∧
    ts_metadataRW t' = ts_metadataRW (cl_store c) ∧ ts_Pieces t' = ts_Pieces (cl_store c) ∧
    md_TotalPieces (ts_meta t') =
      (if 0 <? pt_totalPiece (f (cl_task c)) then pt_totalPiece (f (cl_task c)) else md_TotalPieces (ts_meta (cl_store c))))
    as (Hpath & Hfile & Hrw & Hp & Hmt).
  { subst t'. unfold localTaskStore_UpdateTask. simpl.
    destruct (0 <? pt_totalPiece _), (decide _); split_and!; done. }
  pose proof (cut_count Hcut). split; [split|intros i; by apply recorded_pieces].
  - split; simpl; rewrite ?Hr, ?Hc, ?Hl; try done.
    + intros i Hi Hm. destruct (Hrd i Hi Hm). split; [done|]. by apply (recorded_pieces c).
    + rewrite Hmt. destruct Ht as [->| ->]; [|right; split; [done|]; destruct (Z.ltb_spec 0 count); lia].
      destruct Htot as [->|[-> ->]]; [by left|right]. split; [done|]. by destruct (0 <? count).
  - simpl. rewrite Hs, Ho. destruct Hst as [[? [? ? ? ? ? ? ? ?]]|(? & ? & Hh & Hall)]; [left|right].
    + split; [done|]. split; simpl; rewrite ?Hpath, ?Hfile, ?Hrw, ?Hp; done.
    + split_and!; [done..|]. split; [done|]. intros i Hi. apply (recorded_pieces c); [done|]. by apply Hall.
Qed.

Lemma callback_Update_keeps c : client_ok c → leads c (callback_Update sha256 now c).
Proof using Hcut.
  intros Hok. assert (updPT (λ t, t) c = c) as E by (by destruct c).
  pose proof (callback_Update_leads c (λ t, t) Hok) as H. simpl in H. rewrite E in H. apply H; by auto.
Qed.

Lemma updateBooks_leads packet c : honestPacket packet → client_ok c → leads c (updateBooks sha256 cfg now packet c).
Proof using Hcut.
  intros (_ & Ht & Hl) Hok. unfold updateBooks.
  set (c1 := if pt_totalPiece (cl_task c) <? _ then _ else _).
  set (c2 := if bool_decide _ && _ then _ else _). pose proof (cut_count Hcut).
  assert (leads c c1) as H1.
  { subst c1. destruct (Z.ltb_spec (pt_totalPiece (cl_task c)) (pp_TotalPiece packet)); [|by apply leads_refl].
    apply callback_Update_leads; try done. right. simpl. pose proof (tk_total _ (proj1 Hok)). lia. }
  assert (leads c c2) as H2.
  { eapply leads_trans; [exact H1|]. intros Hok1. subst c2. case_match; [|by apply leads_refl].
    apply callback_Update_leads; try done. by left. }
  destruct (Z.ltb_spec 0 (pp_ContentLength packet)); [|done].
  assert (pp_ContentLength packet = len) as -> by lia.
  eapply leads_trans; [exact H2|]. intros Hok2. eapply leads_trans; [by apply SetContentLength_leads|].
  apply callback_Update_keeps.
Qed.

(** ** The steps *)

Lemma honestWorker_mono c c' w : (∀ i, recorded c i → recorded c' i) → honestWorker c w → honestWorker c' w.
Proof. intros Hm. destruct w; simpl; try done. intros []. auto. Qed.

Lemma inv_leads p c' : content_inv p → leads (pu_client p) c' → content_inv (set_pu_client c' p).
Proof.
  intros [? ? ? Hw ?] [Hok Hm]. split; try done. eapply Forall_impl; [exact Hw|]. intros w. by apply honestWorker_mono.
Qed.

Lemma inv_main p m : content_inv p → honestMain m → content_inv (set_pu_main m p).
Proof. by intros [? ? ? ? ?] ?. Qed.

Lemma inv_worker p i w : content_inv p → honestWorker (pu_client p) w → content_inv (set_worker i w p).
Proof. intros [? ? ? ? ?] ?. split; try done. by apply Forall_insert. Qed.

Lemma inv_same p p' : content_inv p → same (pu_client p) (pu_client p') →
  pu_readyClosed p' = pu_readyClosed p → pu_requests p' = pu_requests p → pu_workers p' = pu_workers p →
  honestMain (pu_main p') → content_inv p'.
Proof.
  intros Hinv Hs Hc Hr Hw Hm. pose proof (same_leads _ _ Hs (ci_client _ Hinv)) as Hl.
  destruct (inv_leads p _ Hinv Hl) as [? ? ? ? ?]. split; simpl in *; rewrite ?Hc, ?Hr, ?Hw; done.
Qed.

Lemma received_content answer p p' : content_inv p → honest (PcReceive (RcRecv answer)) p →
  received answer p = Ok p' → content_inv p'.
Proof.
  intros Hinv Hh Hr. pose proof (ci_main _ Hinv) as Hm. unfold received in Hr. destruct answer as [k| |de].
  - destruct (negb _).
    + unfold isExitPeerPacketCode in Hr. destruct (decide _); simplify_eq; [|done].
      by eapply inv_same.
    + destruct (sp_MainPeer k); [|destruct (decide _); by simplify_eq]. simplify_eq.
      by eapply inv_same.
  - simplify_eq. by eapply inv_same.
  - destruct (pt_success _); [simplify_eq; by eapply inv_same|].
    destruct de as [[code message]|]; simpl in Hh.
    + destruct (Z.eqb_spec code Code_SchedNeedBackSource); [done|]. simplify_eq.
      by eapply inv_same.
    + simplify_eq. by eapply inv_same.
Qed.

Lemma receiveStep_content ch p p' : content_inv p → honest (PcReceive ch) p → receiveStep ch p = Ok (Some p') → content_inv p'.
Proof.
  intros Hinv Hh Hr. pose proof (ci_main _ Hinv) as Hm. unfold receiveStep in Hr.
  destruct (pu_receiver p), ch as [| |answer]; try done.
  2: { destruct (received answer p) as [q| |] eqn:E; simplify_eq/=. by eapply received_content. }
  all: destruct (ended p); rewrite ?andb_true_r, ?andb_false_r in Hr; try destruct (pu_ready p); simplify_eq;
    by eapply inv_same.
Qed.

Lemma prepare_content num ps answer p p' r : content_inv p →
  preparePieceTasks getPiecesMaxRetry num ps answer p = (p', r) →
  content_inv p' ∧ ∀ packet, r = POk packet → answer = inr packet.
Proof.
  intros Hinv. pose proof (ci_main _ Hinv) as Hm.
  unfold preparePieceTasks, getPieceTasks, prepareWith, nextPeer.
  repeat (case_match || simplify_option_eq); intros; simplify_eq/=; (split; [by eapply inv_same|by intros; simplify_eq]).
Qed.

Lemma gotPieces_content num packet p : content_inv p → honestPacket packet →
  content_inv (gotPieces sha256 cfg now registered num packet p).
Proof using Hcut.
  intros Hinv Hh. unfold gotPieces.
  destruct (if pu_initialized p then _ else _) as [p1 ok] eqn:E.
  pose proof (ci_main _ Hinv) as Hm. assert (content_inv p1) as Hinv1.
  { destruct (pu_initialized p); [by simplify_eq|].
    assert (content_inv (updTask (set_pt_contentLength (pp_ContentLength packet)) p)) as Hi1.
    { apply inv_leads; [done|]. destruct (ci_client _ Hinv) as [[? ? ? ? ? ?] Hst].
      split; [split|done]; [split; try done; apply Hh|].
      destruct Hst as [[? [? ? ? ? ? ? ? ?]]|]; [left; by split|by right]. }
    unfold initPull in E. destruct registered; simplify_eq.
    - by eapply inv_same; [exact Hi1|..].
    - destruct Hi1. split; try done. by apply Forall_replicate. }
  destruct ok; simpl; [|by apply inv_main].
  apply inv_main; [|simpl; apply Forall_fmap, Hh].
  apply inv_leads; [done|]. apply updateBooks_leads; [done|apply Hinv1].
Qed.

#[local] Notation mainStep := (mainStep md5 sha256 cfg now waitN registered getPiecesMaxRetry disableAutoBackSource
  computePieceSize sourceDigest sourceLength response).
#[local] Notation takeReady := (takeReady md5 sha256 cfg now waitN computePieceSize sourceDigest sourceLength response).

Lemma takeReady_content m p p' : content_inv p → honestMain m → takeReady m p = Ok (Some p') → content_inv p'.
Proof.
  intros Hinv Hm. unfold PullPieces.takeReady. destruct (pu_ready p); [|by rewrite (ci_open _ Hinv)].
  intros [= <-]. by eapply inv_same.
Qed.

Lemma startPrepare_content num limit p p' : content_inv p → startPrepare num limit p = Some p' → content_inv p'.
Proof.
  intros Hinv. unfold startPrepare, prepareWith. destruct (pu_packet p); [|done]. intros [= <-]. by eapply inv_same.
Qed.

Lemma takeFailed_content p num p' : content_inv p → takeFailed p = Some (num, p') → content_inv p'.
Proof.
  intros Hinv. unfold takeFailed. destruct (pt_failedPieces _); [done|]. intros [= <- <-].
  eapply inv_same; try done. apply Hinv.
Qed.

Lemma contextFailed_same c : same c (updPT contextFailed c).
Proof. unfold contextFailed. apply updPT_same; by destruct (_ =? failedCodeNotSet). Qed.

Lemma selectStep_content num limit ch p p' : content_inv p → selectStep num limit ch p = Ok (Some p') → content_inv p'.
Proof.
  intros Hinv. unfold selectStep. destruct ch; try done.
  - destruct (ended p || _); [done|]. intros [= H]. by eapply startPrepare_content.
  - destruct (pt_done _); [|done]. intros [= <-]. by apply inv_main.
  - destruct (pu_ctxDone p); [|done]. intros [= <-]. apply inv_main; [|done]. destruct (pt_success _); [done|].
    assert (content_inv (updTask contextFailed p)) as Hi.
    { apply inv_leads; [done|]. apply same_leads; [apply contextFailed_same|apply Hinv]. }
    eapply inv_same; try done. apply Hinv.
  - destruct (takeFailed p) as [[failed q]|] eqn:E; [|done]. intros [= H].
    eapply startPrepare_content; [by eapply takeFailed_content|done].
Qed.

Lemma dispatchStep_content num r reqs ch p p' : content_inv p → Forall (λ r, isPiece (dr_piece r)) (r :: reqs) →
  dispatchStep num r reqs ch p = Ok (Some p') → content_inv p'.
Proof.
  intros Hinv [Hr Hreqs]%Forall_cons. unfold dispatchStep.
  destruct (Bitmap_IsSet _ _) as [set| |]; [|done..]. simpl.
  destruct (if set then _ else _) as [requested| |]; [|done..]. simpl.
  set (q := set_pu_main (MDispatch num reqs) _).
  assert (content_inv q) as Hq by (by eapply inv_same).
  destruct ch; try done.
  - destruct (pt_done _); [|done]. by intros [= <-].
  - destruct (pu_ctxDone p); [|done]. intros [= <-]. destruct (pt_success _); [done|].
    apply inv_leads; [done|]. apply same_leads; [apply contextFailed_same|apply Hq].
  - destruct (_ <? _)%nat; [|done]. intros [= <-]. destruct Hq. split; try done. simpl. by apply Forall_app_2; [|constructor].
Qed.

Lemma mainStep_content ch p p' : content_inv p → honest (PcMain ch) p → mainStep ch p = Ok (Some p') → content_inv p'.
Proof using Hcut.
  intros Hinv Hh. pose proof (ci_main _ Hinv) as Hm. unfold PullPieces.mainStep, waitFirstPeerPacket, waitFailedPiece.
  destruct (pu_main p) as [| |num limit|num limit ps|limit|num reqs|num| | | |]; simpl in Hm; [done|..].
  - destruct ch; try done; [|by apply takeReady_content].
    destruct (pu_ctxDone p); [|done]. intros [= <-]. apply inv_main; [|done].
    case_bool_decide; [|done]. apply inv_leads; [done|]. apply same_leads; [by apply updPT_same|apply Hinv].
  - by apply selectStep_content.
  - destruct ch; try done. destruct (preparePieceTasks _ _ _ _ _) as [q r] eqn:E.
    destruct (prepare_content _ _ _ _ _ _ Hinv E) as [Hq Hr]. intros [= <-].
    destruct r as [ps'| |packet]; [by apply inv_main..|]. rewrite (Hr packet) in Hh by done. by apply gotPieces_content.
  - unfold waitPeerStep. destruct ch; try done; [..|by apply takeReady_content].
    + destruct (pt_done _); [|done]. intros [= <-]. by apply inv_main.
    + destruct (pu_ctxDone p); [|done]. intros [= <-]. apply inv_main; [|done]. destruct (pt_success _); [done|].
      apply inv_leads; [done|]. apply same_leads; [apply contextFailed_same|apply Hinv].
  - destruct reqs as [|r reqs]; [|by apply dispatchStep_content]. destruct ch; try done. intros [= <-]. by apply inv_main.
  - destruct ch; try done. destruct (getNextPieceNum _ _) as [next| |]; simpl; [|done..]. intros [= <-].
    apply inv_main; [done|]. by destruct (next =? -1).
  - destruct ch; try done. intros [= <-]. apply inv_main; [done|]. by destruct (isCompleted _).
  - destruct ch; try done; [destruct (pt_done _)|destruct (pu_ctxDone p)|]; try done; [intros [= <-]; by apply inv_main..|].
    destruct (takeFailed p) as [[failed q]|] eqn:E; [|done]. intros [= <-].
    apply inv_main; [|done]. by eapply takeFailed_content.
  - destruct ch; try done. intros [= <-]. eapply inv_same; try done. apply cleanUnfinished_same.
  - by destruct ch.
Qed.

#[local] Notation workerStep := (workerStep md5 sha256 cfg now waitN taskLimit).

Lemma workerStep_content i ch p p' : content_inv p → honest (PcWorker i ch) p → workerStep i ch p = Ok (Some p') →
  content_inv p'.
Proof using Hcut.
  intros Hinv Hh. pose proof Hinv as [Hok Hopen Hrq Hws Hm]. unfold PullPieces.workerStep. simpl in Hh.
  destruct (pu_workers p !! i) as [w|] eqn:Hw; [|done].
  pose proof (proj1 (Forall_lookup _ _) Hws i w Hw) as Hwi.
  destruct w as [|r|r|r|r|num limited|]; destruct ch as [| |download]; simpl in Hwi; try done.
  - destruct (pu_requests p) as [|r rest] eqn:E; [done|]. intros [= <-]. apply Forall_cons in Hrq as [Hr Hrest].
    by apply inv_worker.
  - destruct (ended p); [|done]. intros [= <-]. by apply inv_worker.
  - destruct (Bitmap_IsSet _ _) as [set| |]; simpl; [|done..]. intros [= <-].
    destruct set; [by apply inv_worker|]. destruct (taskLimit _); [|by apply inv_worker].
    apply inv_worker; [|done]. by eapply inv_same.
  - destruct (downloadWrite _ _ _ _ _ _) as [c' e] eqn:E. intros [= <-].
    destruct (downloadWrite_leads _ _ _ _ _ Hok Hwi Hh E) as [Hl Hr].
    destruct e; (apply inv_worker; [|by simpl; auto]); [|by apply inv_leads].
    apply inv_leads; [done|]. eapply leads_trans; [done|]. apply same_leads. by apply updPT_same.
  - destruct (reportMark _ _) as [[c' new]| |] eqn:E; simpl; [|done..]. intros [= <-].
    destruct Hwi as [Hp Hr]. apply inv_worker; [|by destruct new].
    apply inv_leads; [done|]. by eapply reportMark_leads.
  - intros [= <-]. apply inv_worker; [|done]. apply inv_leads; [done|]. unfold reportTail.
    set (c1 := updPT (sendProgress true _ false) _). assert (leads (pu_client p) c1) as Hl.
    { apply same_leads; [|done]. by split. }
    destruct (isCompleted (cl_task c1)) eqn:Hc; [|done]. eapply leads_trans; [done|]. intros Hok1. by apply finish_leads.
  - destruct (pu_ctxDone p); [|done]. intros [= <-]. apply inv_worker; [|done]. by eapply inv_same.
  - destruct (_ <? _)%nat; [|done]. intros [= <-]. destruct limited; apply inv_worker; try done; by eapply inv_same.
  - destruct (ended p); [|done]. intros [= <-]. destruct limited; apply inv_worker; try done; by eapply inv_same.
Qed.

Lemma run_inv sched p p' : content_inv p → honestRun sched p → runPull sched p = Ok (Some p') → content_inv p'.
Proof using Hcut.
  revert p. induction sched as [|ch sched IH]; intros p Hinv Hh H; [by injection H as <-|].
  cbn [PullPieces.runPull] in H. destruct Hh as [Hc Hh]. destruct (pullStep ch p) as [[q|]| |] eqn:Hq; simpl in H; try done.
  apply (IH q); [|done..]. destruct ch as [|ch|ch|i ch]; simpl in Hq.
  - injection Hq as <-. by destruct Hinv.
  - by eapply receiveStep_content.
  - by eapply mainStep_content.
  - by eapply workerStep_content.
Qed.

Lemma pullPieces_inv c : ready cfg file c → content_inv (pullPieces None c).
Proof using Hcut.
  intros [? ? ? ? Hd Hp Ht ? ?]. pose proof (cut_count Hcut) as Hcnt.
  revert Ht. generalize (pt_taskID (cl_task c)) (pt_peerID (cl_task c)). intros taskID peerID Ht.
  split; try done. split; [split; simpl; rewrite ?Ht; simpl; try done|left; simpl; rewrite Ht; split; [done|]].
  - apply NewBitmap_ok.
  - lia.
  - intros i Hi []%NewBitmap_empty. done.
  - unfold readyBytes. rewrite (sumOver_ext _ (λ _, 0)).
    + generalize (seqZ 0 count). induction l; simpl; lia.
    + intros i Hi%elem_of_seqZ. unfold readySize. rewrite decide_False; [done|]. apply NewBitmap_empty. lia.
  - by left.
  - by left.
  - split; try done; rewrite ?Hd, Hp.
    + split; [simpl; lia|]. intros num q. by rewrite lookup_empty.
    + intros i m. by rewrite lookup_empty.
Qed.

End Content.

(** C4: A file that is pulled from other peers is the content: in every schedule
    of the receiver, the loop and the workers, with peers that offer pieces of
    one content and deliver their bytes, or fail, or end early, a task that
    succeeds has the content at its output. *)
Theorem pulled_content md5 sha256 {C : MetadataCodec} cfg now waitN taskLimit registered getPiecesMaxRetry
    disableAutoBackSource computePieceSize sourceDigest sourceLength response
    content file pieceSize count pieceDigest sched c p :
  cut content pieceSize count → ready cfg file c →
  honestRun md5 sha256 cfg now waitN taskLimit registered getPiecesMaxRetry disableAutoBackSource computePieceSize
    sourceDigest sourceLength response content pieceSize count pieceDigest sched (pullPieces None c) →
  runPull md5 sha256 cfg now waitN taskLimit registered getPiecesMaxRetry disableAutoBackSource computePieceSize
    sourceDigest sourceLength response sched (pullPieces None c) = Ok (Some p) →
  pt_success (taskOf p) = true → holds (cl_fs (pu_client p)) (cc_Output cfg) content.
Proof.
  intros Hcut Hready Hh Hrun Hs.
  destruct (run_inv _ _ _ _ _ _ _ _ _ _ _ _ _ _ file _ _ _ Hcut sched _ _
    (pullPieces_inv _ _ _ _ _ _ Hcut c Hready) Hh Hrun) as [[_ Hst] _ _ _ _].
  unfold taskOf in Hs. destruct Hst as [[? _]|(_ & _ & ? & _)]; [congruence|done].
Qed.

(** The workers finish before the loop looks. *)
Definition demoPull : list PullChoice := demoRace ++ [PcWorker 1 WcGo; PcMain McGo; PcMain McGo].

Lemma pulled_content_witness :
  holds (cl_fs (pu_client (demoState demoPull))) ["out"; "file"] demoContent.
Proof.
  refine (pulled_content demoMd5 demoSha256 demoConfig 100 (λ _, None) (λ _, None) None 0 false (λ _, 3) "" 5
    (inl ErrShortRead) demoContent 2 3 2 (λ i, if i =? 0 then "m3" else "m2") demoPull demoClient _ _ _ _ _ _).
  - split; simpl; lia.
  - exact demo_ready.
  - vm_compute. split_and!; try done; [|by right|by right|by exists (drop 3 demoContent)|by exists []].
    constructor; [by exists 0|]. constructor; [by exists 1|constructor].
  - vm_compute. reflexivity.
  - vm_compute. reflexivity.
Defined.
