(* ===== verification/StorageProperties.v ===== *)
(** * StorageProperties: the stores of a daemon

    The books of the storage manager (the map of the tasks, the index by task
    and the list of marked stores agree), the search for a completed store, and
    the collection in two rounds. *)

From S2P Require Import Prelude World FileSystem LocalStorage GoFloat StorageManager.
From stdpp Require Import options.
Local Open Scope Z_scope.

(** ** The books *)

Record manager_ok (s : storageManager) : Prop := {
  mo_task : ∀ k id, sm_tasks s !! k = Some id → ∃ t, sm_heap s !! id = Some t ∧ keyOf t = k;
  mo_index : ∀ k id, sm_tasks s !! k = Some id → id ∈ default [] (sm_index s !! k_TaskID k);
  mo_indexed : ∀ tid ids id, sm_index s !! tid = Some ids → id ∈ ids →
    ∃ p, sm_tasks s !! mkPeerTaskMetadata p tid = Some id;
  mo_nodup : ∀ tid ids, sm_index s !! tid = Some ids → NoDup ids;
  mo_next : ∀ id, is_Some (sm_heap s !! id) → (id < sm_next s)%positive;
}.

(** The listed keys that are still tasks have a marked store. *)
Definition all_marked (ks : list PeerTaskMetadata) (s : storageManager) : Prop :=
  ∀ k id t, k ∈ ks → sm_tasks s !! k = Some id → sm_heap s !! id = Some t →
    ts_reclaimMarked t = true.

Lemma lookupTask_Some s k id t :
  lookupTask s k = Some (id, t) ↔ sm_tasks s !! k = Some id ∧ sm_heap s !! id = Some t.
Proof.
  unfold lookupTask. split.
  - intros H. destruct (sm_tasks s !! k) as [i|]; [|done]. simpl in H.
    destruct (sm_heap s !! i) as [t'|] eqn:Ht; [|done]. by simplify_eq/=.
  - intros [-> H]. simpl. by rewrite H.
Qed.

Lemma lookupTask_None s k : manager_ok s → lookupTask s k = None → sm_tasks s !! k = None.
Proof.
  intros Hok Hl. destruct (sm_tasks s !! k) as [id|] eqn:Hk; [|done].
  destruct (mo_task s Hok k id Hk) as (t & Ht & _).
  unfold lookupTask in Hl. rewrite Hk in Hl. simpl in Hl. by rewrite Ht in Hl.
Qed.

(** Two tasks do not share a store. *)
Lemma task_key_inj s k k' id :
  manager_ok s → sm_tasks s !! k = Some id → sm_tasks s !! k' = Some id → k = k'.
Proof.
  intros Hok H H'. destruct (mo_task s Hok k id H) as (t & Ht & <-).
  destruct (mo_task s Hok k' id H') as (t' & Ht' & <-). by simplify_eq.
Qed.

(** ** Steps that change stores only *)

(** The stores of [s'] are those of [s] up to their marks and access times. *)
Definition same_store (t t' : localTaskStore) : Prop :=
  ts_meta t' = ts_meta t ∧ ts_invalid t' = ts_invalid t ∧ ts_dataDir t' = ts_dataDir t ∧
  ts_metadataFilePath t' = ts_metadataFilePath t ∧ ts_expireTime t' = ts_expireTime t ∧
  (ts_reclaimMarked t = true → ts_reclaimMarked t' = true).

Record same_books (s s' : storageManager) : Prop := {
  sb_keep : sm_keepAlive s' = sm_keepAlive s;
  sb_tasks : sm_tasks s' = sm_tasks s;
  sb_index : sm_index s' = sm_index s;
  sb_next : sm_next s' = sm_next s;
  sb_option : sm_storeOption s' = sm_storeOption s;
  sb_marked : sm_markedReclaimTasks s' = sm_markedReclaimTasks s;
  sb_interval : sm_gcInterval s' = sm_gcInterval s;
  sb_heap : ∀ id, option_Forall2 same_store (sm_heap s !! id) (sm_heap s' !! id);
}.

Lemma same_store_refl t : same_store t t.
Proof. by split_and!. Qed.

Lemma same_store_trans t1 t2 t3 : same_store t1 t2 → same_store t2 t3 → same_store t1 t3.
Proof. unfold same_store. intros (?&?&?&?&?&?) (?&?&?&?&?&?). split_and!; congruence || auto. Qed.

#[export] Instance same_books_preorder : PreOrder same_books.
Proof.
  split.
  - intros s. split; try done. intros id. destruct (sm_heap s !! id); constructor.
    apply same_store_refl.
  - intros s1 s2 s3 [? ? ? ? ? ? ? H12] [? ? ? ? ? ? ? H23]. split; try congruence.
    intros id. specialize (H12 id). specialize (H23 id).
    inversion H12; inversion H23; try congruence; constructor. simplify_eq.
    by eapply same_store_trans; [done|]; congruence.
Qed.

Lemma manager_ok_same s s' : same_books s s' → manager_ok s → manager_ok s'.
Proof.
  intros [_ Ht Hi Hn _ _ _ Hh] [M1 M2 M3 M4 M5]. split; rewrite ?Ht, ?Hi, ?Hn; try done.
  - intros k id Hk. destruct (M1 k id Hk) as (t & Hid & <-). specialize (Hh id). rewrite Hid in Hh.
    inversion Hh as [? t' [Hm _] Ha Hb|]; simplify_eq. exists t'. split; [done|].
    unfold keyOf. by rewrite Hm.
  - intros id Hid. apply M5. specialize (Hh id). inversion Hh; simplify_eq; [done|].
    destruct Hid. congruence.
Qed.

Lemma setStore_same s id t t' :
  sm_heap s !! id = Some t → same_store t t' → same_books s (setStore id t' s).
Proof.
  intros Hid Hs. split; try done. intros i. simpl. destruct (decide (i = id)) as [->|Hne].
  - rewrite Hid, lookup_insert_eq. by constructor.
  - rewrite lookup_insert_ne by done. destruct (sm_heap s !! i); constructor. apply same_store_refl.
Qed.

Lemma markStore_same id s : same_books s (markStore id s).
Proof.
  unfold markStore. destruct (sm_heap s !! id) as [t|] eqn:Hid; [|reflexivity].
  destruct (MarkReclaim t) as [t' calls] eqn:Hm.
  assert (same_store t t') as Hs.
  { unfold MarkReclaim in Hm. destruct (ts_reclaimMarked t) eqn:Ht; simplify_eq/=; by split_and!. }
  destruct (setStore_same s id t t' Hid Hs). by split.
Qed.

Lemma markStore_marked id t s :
  sm_heap s !! id = Some t →
  ∃ t', sm_heap (markStore id s) !! id = Some t' ∧ ts_reclaimMarked t' = true.
Proof.
  intros Hid. unfold markStore. rewrite Hid. unfold MarkReclaim.
  destruct (ts_reclaimMarked t) eqn:Ht; simpl; rewrite lookup_insert_eq; eauto.
Qed.

Lemma markStore_other id id' s : id' ≠ id → sm_heap (markStore id s) !! id' = sm_heap s !! id'.
Proof.
  intros Hne. unfold markStore. destruct (sm_heap s !! id) as [t|]; [|done].
  destruct (MarkReclaim t). simpl. by rewrite lookup_insert_ne.
Qed.

(** What is marked stays marked. *)
Lemma same_marked s s' id t t' :
  same_books s s' → sm_heap s !! id = Some t → sm_heap s' !! id = Some t' →
  ts_reclaimMarked t = true → ts_reclaimMarked t' = true.
Proof.
  intros Hs Ht Ht' Hm. pose proof (sb_heap s s' Hs id) as Hh. rewrite Ht, Ht' in Hh.
  inversion Hh as [? ? (_&_&_&_&_&Hr)|]; simplify_eq. auto.
Qed.

Lemma same_lookup s s' id t :
  same_books s s' → sm_heap s !! id = Some t → ∃ t', sm_heap s' !! id = Some t' ∧ same_store t t'.
Proof.
  intros Hs Ht. pose proof (sb_heap s s' Hs id) as Hh. rewrite Ht in Hh.
  inversion Hh; simplify_eq; eauto.
Qed.

(** ** Steps that change the books *)

Definition removeTask (k : PeerTaskMetadata) (s : storageManager) : storageManager :=
  storageManager_cleanIndex (k_TaskID k) (k_PeerID k) (set_sm_tasks (delete k (sm_tasks s)) s).

Lemma removeTask_fields k s :
  sm_tasks (removeTask k s) = delete k (sm_tasks s) ∧ sm_heap (removeTask k s) = sm_heap s ∧
  sm_next (removeTask k s) = sm_next s ∧ sm_storeOption (removeTask k s) = sm_storeOption s ∧
  sm_markedReclaimTasks (removeTask k s) = sm_markedReclaimTasks s ∧
  sm_index (removeTask k s) =
    match sm_index s !! k_TaskID k with
    | Some ids => <[k_TaskID k := filter (λ id, peerOf s id ≠ k_PeerID k) ids]> (sm_index s)
    | None => sm_index s
    end.
Proof.
  unfold removeTask, storageManager_cleanIndex. simpl.
  by destruct (sm_index s !! k_TaskID k).
Qed.

Lemma peerOf_task s k id :
  manager_ok s → sm_tasks s !! k = Some id → peerOf s id = k_PeerID k.
Proof.
  intros Hok Hk. destruct (mo_task s Hok k id Hk) as (t & Ht & <-). unfold peerOf. by rewrite Ht.
Qed.

Lemma removeTask_index k s tid ids id :
  sm_index (removeTask k s) !! tid = Some ids → id ∈ ids →
  ∃ ids', sm_index s !! tid = Some ids' ∧ id ∈ ids' ∧
    (tid = k_TaskID k → peerOf s id ≠ k_PeerID k).
Proof.
  destruct (removeTask_fields k s) as (_ & _ & _ & _ & _ & ->).
  destruct (sm_index s !! k_TaskID k) as [l|] eqn:Hl.
  - destruct (decide (tid = k_TaskID k)) as [->|Hne].
    + rewrite lookup_insert_eq. intros [= <-] [Hp Hin]%list_elem_of_filter. eauto.
    + rewrite lookup_insert_ne by done. naive_solver.
  - intros Ht Hin. exists ids. do 2 (split; [done|]). intros ->. congruence.
Qed.

Lemma removeTask_ok k s : manager_ok s → manager_ok (removeTask k s).
Proof.
  intros Hok. pose proof Hok as [M1 M2 M3 M4 M5].
  pose proof (removeTask_index k s) as Hidx.
  destruct (removeTask_fields k s) as (Ht & Hh & Hn & _ & _ & Hi).
  split; rewrite ?Ht, ?Hh, ?Hn.
  - intros k' id. rewrite lookup_delete_Some. intros [_ Hk']. by apply M1.
  - intros k' id. rewrite lookup_delete_Some. intros [Hne Hk']. specialize (M2 k' id Hk').
    rewrite Hi. destruct (sm_index s !! k_TaskID k) as [l|] eqn:Hl; [|done].
    destruct (decide (k_TaskID k' = k_TaskID k)) as [Heq|Hne'].
    + rewrite Heq, lookup_insert_eq. simpl. rewrite Heq, Hl in M2. apply list_elem_of_filter.
      split; [|done]. rewrite (peerOf_task s k') by done. intros Hp. apply Hne.
      destruct k, k'. simpl in *. congruence.
    + by rewrite lookup_insert_ne.
  - intros tid ids id Hids Hin. destruct (Hidx tid ids id Hids Hin) as (ids' & Hids' & Hin' & Hp).
    destruct (M3 tid ids' id Hids' Hin') as [p Hpt]. exists p. apply lookup_delete_Some.
    split; [|done]. intros ->. simpl in Hp. by apply Hp; [|eapply peerOf_task in Hpt].
  - intros tid ids. rewrite Hi. destruct (sm_index s !! k_TaskID k) as [l|] eqn:Hl; [|apply M4].
    destruct (decide (tid = k_TaskID k)) as [->|Hne].
    + rewrite lookup_insert_eq. intros [= <-]. apply NoDup_filter. by eapply M4.
    + rewrite lookup_insert_ne by done. apply M4.
  - apply M5.
Qed.

(** A new store under a key that is not in use. *)
Lemma storeTask_ok k t s :
  manager_ok s → keyOf t = k → sm_tasks s !! k = None →
  manager_ok (storeTask k (newStore t s).2 (newStore t s).1).
Proof.
  intros [M1 M2 M3 M4 M5] Hkey Hnone. simpl.
  assert (sm_heap s !! sm_next s = None) as Hfresh.
  { apply eq_None_not_Some. intros Hs. apply M5 in Hs. lia. }
  assert (∀ k' id, sm_tasks s !! k' = Some id → id ≠ sm_next s) as Hne.
  { intros k' id Hk' ->. destruct (M1 _ _ Hk') as (? & ? & _). congruence. }
  split; simpl.
  - intros k' id [[<- <-]|[Hn Hk']]%lookup_insert_Some; [exists t; by rewrite lookup_insert_eq|].
    destruct (M1 _ _ Hk') as (t' & Ht' & Hkt). exists t'.
    rewrite lookup_insert_ne by (by apply not_eq_sym, (Hne k')). done.
  - intros k' id [[<- <-]|[Hn Hk']]%lookup_insert_Some.
    + rewrite lookup_insert_eq. simpl. set_solver.
    + specialize (M2 k' id Hk'). destruct (decide (k_TaskID k' = k_TaskID k)) as [Heq|Hd].
      * rewrite Heq, lookup_insert_eq in *. simpl. set_solver.
      * by rewrite lookup_insert_ne.
  - intros tid ids id [[<- <-]|[Hn Hids]]%lookup_insert_Some Hin.
    + apply elem_of_app in Hin as [Hin|Hin]; [|apply list_elem_of_singleton in Hin as ->].
      * destruct (sm_index s !! k_TaskID k) as [l|] eqn:Hl; [|set_solver].
        destruct (M3 _ _ _ Hl Hin) as [p Hp]. exists p. rewrite lookup_insert_ne; congruence.
      * exists (k_PeerID k). destruct k. by rewrite lookup_insert_eq.
    + destruct (M3 _ _ _ Hids Hin) as [p Hp]. exists p. rewrite lookup_insert_ne; congruence.
  - intros tid ids [[<- <-]|[Hn Hids]]%lookup_insert_Some; [|by eapply M4].
    apply NoDup_app. split; [|split; [|apply NoDup_singleton]].
    + destruct (sm_index s !! k_TaskID k) eqn:Hl; [by eapply M4|constructor].
    + intros id Hin Hs. apply list_elem_of_singleton in Hs as ->. destruct (sm_index s !! k_TaskID k) as [l|] eqn:Hl.
      * destruct (M3 _ _ _ Hl Hin) as [p Hp]. by eapply Hne.
      * set_solver.
  - intros id [t' Ht']. apply lookup_insert_Some in Ht' as [[<- _]|[_ Ht']]; [lia|].
    assert (id < sm_next s)%positive by eauto. lia.
Qed.

(** ** Every operation keeps the books *)

Section Operations.
Context (md5 : list byte → string) (sha256 : string → string) {C : MetadataCodec}.
Context (sameDev : fpath → bool) (canLink : bool).

Lemma CreateTask_ok fs now s req fs' s' err :
  manager_ok s →
  sm_tasks s !! mkPeerTaskMetadata (ct_PeerID (rq_Common req)) (ct_TaskID (rq_Common req)) = None →
  storageManager_CreateTask sameDev fs now s req = (fs', s', err) →
  manager_ok s' ∧ (err ≠ None → sm_tasks s' = sm_tasks s) ∧
  (err = None → ∃ id t, sm_heap s' !! id = Some t ∧
     sm_tasks s' = <[mkPeerTaskMetadata (ct_PeerID (rq_Common req)) (ct_TaskID (rq_Common req)) := id]>
       (sm_tasks s) ∧ ts_Pieces t = ∅ ∧ md_Done (ts_meta t) = false).
Proof.
  intros Hok Hnone. unfold storageManager_CreateTask.
  assert (manager_ok (Keep now s)) as Hk by (by destruct Hok; split).
  destruct (os_MkdirAll fs _) as [fs1 e1]. destruct (if decide _ then None else e1) as [e|].
  { intros [= _ <- <-]. done. }
  destruct (os_OpenCreate fs1 _) as [fs2 [e|metadata]].
  { intros [= _ <- <-]. done. }
  set (strategy := if decide _ then _ else _).
  match goal with |- context [let '(_, _) := ?x in _] => destruct x as [fs3 [e|path]] end.
  { intros [= _ <- <-]. done. }
  match goal with |- context [newStore ?t _] => set (store := t) end.
  pose proof (storeTask_ok (mkPeerTaskMetadata (ct_PeerID (rq_Common req)) (ct_TaskID (rq_Common req)))
    store (Keep now s) Hk eq_refl Hnone) as Hnew.
  simpl. intros [= _ <- <-]. split; [exact Hnew|]. split; [done|]. intros _.
  exists (sm_next s), store. simpl. by rewrite lookup_insert_eq.
Qed.

Lemma setStore_ok s id t t' :
  manager_ok s → sm_heap s !! id = Some t → keyOf t' = keyOf t → manager_ok (setStore id t' s).
Proof.
  intros [M1 M2 M3 M4 M5] Hid Hkey. split; simpl; try done.
  - intros k i Hk. destruct (decide (i = id)) as [->|Hne].
    + rewrite lookup_insert_eq. exists t'. split; [done|]. rewrite Hkey.
      destruct (M1 _ _ Hk) as (? & ? & ?). congruence.
    + rewrite lookup_insert_ne by done. by apply M1.
  - intros i. destruct (decide (i = id)) as [->|Hne]; [intros _; apply M5; eauto|].
    rewrite lookup_insert_ne by done. apply M5.
Qed.

(** *** The calls of one task do not change its key and its mark *)

Definition sameIdentity (t t' : localTaskStore) : Prop :=
  keyOf t' = keyOf t ∧ ts_reclaimMarked t' = ts_reclaimMarked t.

Lemma WritePiece_identity fs now t req fs' t' r rest :
  localTaskStore_WritePiece md5 fs now t req = (fs', t', r, rest) → sameIdentity t t'.
Proof.
  unfold localTaskStore_WritePiece, recordPiece. intros H.
  repeat (case_match; simplify_eq/=); done.
Qed.

Lemma ReadPiece_identity fs now t num r : sameIdentity t (localTaskStore_ReadPiece fs now t num r).1.
Proof. unfold localTaskStore_ReadPiece. repeat case_match; done. Qed.

Lemma ReadAllPieces_identity fs now t : sameIdentity t (localTaskStore_ReadAllPieces fs now t).1.
Proof. unfold localTaskStore_ReadAllPieces. repeat case_match; done. Qed.

Lemma GetPieces_identity now t req : sameIdentity t (localTaskStore_GetPieces now t req).1.
Proof. unfold localTaskStore_GetPieces. repeat case_match; done. Qed.

Lemma UpdateTask_identity now t req : sameIdentity t (localTaskStore_UpdateTask sha256 now t req).
Proof. unfold localTaskStore_UpdateTask. repeat case_match; done. Qed.

Lemma ValidateDigest_identity t : sameIdentity t (localTaskStore_ValidateDigest sha256 t).1.
Proof. unfold localTaskStore_ValidateDigest. repeat case_match; done. Qed.

Lemma Store_identity fs now t req fs' t' err :
  localTaskStore_Store canLink fs now t req = (fs', t', err) → sameIdentity t t'.
Proof. unfold localTaskStore_Store. intros H. repeat (case_match; simplify_eq/=); done. Qed.

End Operations.

(** ** The search for a completed store *)

Definition usable (t : localTaskStore) : bool :=
  negb (ts_invalid t) && negb (ts_reclaimMarked t) && md_Done (ts_meta t).

(** The stores up to their access times. *)
Definition stores (s : storageManager) : gmap positive localTaskStore := touch 0 <$> sm_heap s.

Definition reuseOf (taskID : string) (t : localTaskStore) : ReusePeerTask :=
  mkReusePeerTask (mkPeerTaskMetadata (md_PeerID (ts_meta t)) taskID)
    (md_ContentLength (ts_meta t)) (md_TotalPieces (ts_meta t)).

Lemma findCompleted_cons now tid id ids s t :
  sm_heap s !! id = Some t →
  ∃ s1, stores s1 = stores s ∧ same_books s s1 ∧
    findCompleted now tid (id :: ids) s =
      (if usable t then (s1, Some (reuseOf tid t)) else findCompleted now tid ids s1).
Proof.
  intros Hid. simpl. rewrite Hid. unfold usable. destruct (ts_invalid t) eqn:Hinv; simpl.
  { exists s. by split; [|split; [reflexivity|]]. }
  exists (setStore id (touch now t) s). split; [|split].
  - unfold stores. simpl. rewrite fmap_insert. apply insert_id. by rewrite lookup_fmap, Hid.
  - by eapply setStore_same.
  - destruct (ts_reclaimMarked t); [done|]. by destruct (md_Done (ts_meta t)).
Qed.

Lemma stores_lookup s s1 id t :
  stores s1 = stores s → sm_heap s !! id = Some t →
  ∃ t1, sm_heap s1 !! id = Some t1 ∧ usable t1 = usable t ∧ ∀ tid, reuseOf tid t1 = reuseOf tid t.
Proof.
  intros Hs Hid. apply (f_equal (.!! id)) in Hs. unfold stores in Hs.
  rewrite !lookup_fmap, Hid in Hs. destruct (sm_heap s1 !! id) as [t1|]; [|done].
  exists t1. split; [done|]. destruct t, t1. simpl in Hs. injection Hs as; by subst.
Qed.

Lemma findCompleted_spec now tid ids s :
  (∀ id, id ∈ ids → is_Some (sm_heap s !! id)) →
  let '(s', r) := findCompleted now tid ids s in
  same_books s s' ∧ stores s' = stores s ∧
  match r with
  | Some u => ∃ id t, id ∈ ids ∧ sm_heap s !! id = Some t ∧ usable t = true ∧ u = reuseOf tid t
  | None => ∀ id t, id ∈ ids → sm_heap s !! id = Some t → usable t = false
  end.
Proof.
  revert s. induction ids as [|id ids IH]; intros s Hin.
  { simpl. split; [reflexivity|]. split; [done|]. set_solver. }
  destruct (Hin id) as [t Hid]; [by left|].
  destruct (findCompleted_cons now tid id ids s t Hid) as (s1 & Hst & Hsb & ->).
  destruct (usable t) eqn:Hu.
  { do 2 (split; [done|]). exists id, t. by split; [left|]. }
  specialize (IH s1). destruct (findCompleted now tid ids s1) as [s' r].
  destruct IH as (Hsb' & Hst' & Hr).
  { intros i Hi. destruct (Hin i) as [ti Hti]; [by right|].
    destruct (stores_lookup s s1 i ti Hst Hti) as (t1 & -> & _). eauto. }
  split; [by etrans|]. split; [by rewrite Hst'|]. destruct r as [u|].
  - destruct Hr as (i & t1 & Hi & Ht1 & Hu1 & ->).
    destruct (Hin i) as [ti Hti]; [by right|].
    destruct (stores_lookup s s1 i ti Hst Hti) as (t1' & Ht1' & Hu' & Hre). simplify_eq.
    exists i, ti. split; [by right|]. split; [done|]. by rewrite <-Hu', Hre.
  - intros i ti [->|Hi]%elem_of_cons Hti; [by simplify_eq|].
    destruct (stores_lookup s s1 i ti Hst Hti) as (t1 & Ht1 & <- & _). by eapply Hr.
Qed.

Lemma FindCompletedTask_spec now s taskID :
  manager_ok s →
  let '(s', r) := storageManager_FindCompletedTask now s taskID in
  manager_ok s' ∧ same_books s s' ∧ stores s' = stores s ∧
  match r with
  | Some u => k_TaskID (ru_key u) = taskID ∧
      ∃ id t, lookupTask s (ru_key u) = Some (id, t) ∧ usable t = true ∧ u = reuseOf taskID t
  | None => ∀ k id t, k_TaskID k = taskID → lookupTask s k = Some (id, t) → usable t = false
  end.
Proof.
  intros Hok. pose proof Hok as [M1 M2 M3 M4 M5]. unfold storageManager_FindCompletedTask.
  destruct (sm_index s !! taskID) as [ids|] eqn:Hids.
  - pose proof (findCompleted_spec now taskID ids s) as Hf.
    destruct (findCompleted now taskID ids s) as [s' r]. destruct Hf as (Hsb & Hst & Hr).
    { intros id Hin. destruct (M3 _ _ _ Hids Hin) as [p Hp]. destruct (M1 _ _ Hp) as (t & ? & _). eauto. }
    split; [by eapply manager_ok_same|]. do 2 (split; [done|]).
    destruct r as [u|].
    + destruct Hr as (id & t & Hin & Hid & Hu & ->). split; [done|]. exists id, t.
      split; [|done]. apply lookupTask_Some. split; [|done].
      destruct (M3 _ _ _ Hids Hin) as [p Hp]. destruct (M1 _ _ Hp) as (t' & Ht' & Hk). simplify_eq.
      unfold reuseOf. simpl. by injection Hk as -> _.
    + intros k id t <- [Hk Hid]%lookupTask_Some. eapply Hr; [|done].
      specialize (M2 _ _ Hk). by rewrite Hids in M2.
  - split; [done|]. split; [reflexivity|]. split; [done|]. intros k id t <- [Hk Hid]%lookupTask_Some.
    specialize (M2 _ _ Hk). rewrite Hids in M2. simpl in M2. set_solver.
Qed.

(** [FindCompletedTask] answers a store of the task that is valid, complete
    and not marked for collection, with its length and piece count, exactly
    when the daemon has one. *)
Theorem FindCompletedTask_correct (now : Z) (s : storageManager) (taskID : string) :
  manager_ok s →
  let '(s', r) := storageManager_FindCompletedTask now s taskID in
  manager_ok s' ∧ stores s' = stores s ∧ sm_tasks s' = sm_tasks s ∧
  match r with
  | Some u => k_TaskID (ru_key u) = taskID ∧
      ∃ id t, lookupTask s (ru_key u) = Some (id, t) ∧ usable t = true ∧ u = reuseOf taskID t
  | None => ∀ k id t, k_TaskID k = taskID → lookupTask s k = Some (id, t) → usable t = false
  end.
Proof.
  intros Hok. pose proof (FindCompletedTask_spec now s taskID Hok) as Hf.
  destruct (storageManager_FindCompletedTask now s taskID) as [s' r].
  destruct Hf as (? & Hsb & ? & ?). split; [done|]. split; [done|]. split; [by apply sb_tasks|done].
Qed.

(** ** The collection *)

(** The stores up to their marks. *)
Definition unmarked (s : storageManager) : gmap positive localTaskStore :=
  set_ts_reclaimMarked false <$> sm_heap s.

(** [s'] is [s] with some more stores marked. *)
Definition marks (s s' : storageManager) : Prop := same_books s s' ∧ unmarked s' = unmarked s.

#[export] Instance marks_preorder : PreOrder marks.
Proof.
  split; [intros s; split; [reflexivity|done]|]. intros s1 s2 s3 [H12 U12] [H23 U23]. split; [by etrans|congruence].
Qed.

Lemma markStore_marks id s : marks s (markStore id s).
Proof.
  split; [apply markStore_same|]. unfold unmarked, markStore.
  destruct (sm_heap s !! id) as [t|] eqn:Hid; [|done].
  destruct (MarkReclaim t) as [t' calls] eqn:Hm. simpl. rewrite fmap_insert. apply insert_id.
  rewrite lookup_fmap, Hid. simpl. unfold MarkReclaim in Hm.
  destruct (ts_reclaimMarked t); by simplify_eq/=.
Qed.

Lemma marks_task s s' k id t :
  marks s s' → lookupTask s k = Some (id, t) →
  ∃ t', lookupTask s' k = Some (id, t') ∧
    set_ts_reclaimMarked false t' = set_ts_reclaimMarked false t ∧
    (ts_reclaimMarked t = true → ts_reclaimMarked t' = true).
Proof.
  intros [Hs Hu] [Hk Hid]%lookupTask_Some. destruct (same_lookup s s' id t Hs Hid) as (t' & Ht' & Hss).
  exists t'. split; [apply lookupTask_Some; by rewrite (sb_tasks _ _ Hs)|]. split; [|apply Hss].
  apply (f_equal (.!! id)) in Hu. unfold unmarked in Hu. rewrite !lookup_fmap, Hid, Ht' in Hu.
  by apply (inj Some) in Hu.
Qed.

Lemma marks_task_back s s' k id t' :
  marks s s' → lookupTask s' k = Some (id, t') →
  ∃ t, lookupTask s k = Some (id, t) ∧
    set_ts_reclaimMarked false t' = set_ts_reclaimMarked false t ∧
    (ts_reclaimMarked t = true → ts_reclaimMarked t' = true).
Proof.
  intros Hm [Hk Hid]%lookupTask_Some. pose proof Hm as [Hs _]. rewrite (sb_tasks _ _ Hs) in Hk.
  destruct (sm_heap s !! id) as [t|] eqn:Ht.
  - assert (lookupTask s k = Some (id, t)) as Hl by (by apply lookupTask_Some).
    destruct (marks_task s s' k id t Hm Hl) as (t2 & [_ Ht2]%lookupTask_Some & Heq & Hr).
    assert (t2 = t') as -> by congruence. eauto.
  - pose proof (sb_heap _ _ Hs id) as Hh. rewrite Ht, Hid in Hh. inversion Hh.
Qed.

(** Marks do not change what the decisions read. *)
Lemma CanReclaim_unmarked now t t' :
  set_ts_reclaimMarked false t' = set_ts_reclaimMarked false t →
  CanReclaim now t' = CanReclaim now t ∧ ts_meta t' = ts_meta t ∧
  ts_lastAccess t' = ts_lastAccess t.
Proof. destruct t, t'. intros [= -> -> -> -> -> -> -> ->]. done. Qed.

(** The key has a marked store. *)
Definition isMarked (s : storageManager) (k : PeerTaskMetadata) : Prop :=
  ∃ id t, lookupTask s k = Some (id, t) ∧ ts_reclaimMarked t = true.

Lemma isMarked_marks s s' k : marks s s' → isMarked s k → isMarked s' k.
Proof.
  intros Hm (id & t & Hl & Ht). destruct (marks_task s s' k id t Hm Hl) as (t' & Hl' & _ & Hr).
  exists id, t'. auto.
Qed.

Lemma markStore_isMarked s k id t : lookupTask s k = Some (id, t) → isMarked (markStore id s) k.
Proof.
  intros [Hk Hid]%lookupTask_Some. destruct (markStore_marked id t s Hid) as (t' & Ht' & Hm).
  exists id, t'. split; [|done]. apply lookupTask_Some.
  by rewrite (sb_tasks _ _ (markStore_same id s)).
Qed.

Definition expired (now : Z) (s : storageManager) (k : PeerTaskMetadata) : Prop :=
  ∃ id t, lookupTask s k = Some (id, t) ∧ CanReclaim now t = true.

Lemma expired_marks now s s' k : marks s s' → expired now s k ↔ expired now s' k.
Proof.
  intros Hm. split; intros (id & t & Hl & Ht).
  - destruct (marks_task s s' k id t Hm Hl) as (t' & Hl' & Heq & _). exists id, t'.
    apply (CanReclaim_unmarked now) in Heq as (-> & _). done.
  - destruct (marks_task_back s s' k id t Hm Hl) as (t' & Hl' & Heq & _). exists id, t'.
    apply (CanReclaim_unmarked now) in Heq as (<- & _). done.
Qed.

Lemma markExpired_spec now ks s m z s' m' z' :
  foldl (markExpired now) (s, m, z) ks = (s', m', z') →
  marks s s' ∧ (∀ k, k ∈ m' ↔ k ∈ m ∨ k ∈ ks ∧ expired now s k) ∧
  (∀ k, k ∈ ks → expired now s k → isMarked s' k).
Proof.
  revert s m z. induction ks as [|k ks IH]; intros s m z; simpl.
  { intros [= <- <- <-]. split; [reflexivity|]. set_solver. }
  destruct (lookupTask s k) as [[id t]|] eqn:Hl.
  - destruct (CanReclaim now t) eqn:Hc; intros Hf; destruct (IH _ _ _ Hf) as (Hm & Hin & Hmk).
    + pose proof (markStore_marks id s) as Hm1.
      split; [by etrans|]. split; [intros k'; rewrite Hin|intros k' Hk' He].
      * rewrite <-(expired_marks now s) by done.
        assert (expired now s k) by (by exists id, t). set_solver.
      * destruct (decide (k' ∈ ks)) as [Hks|Hnks].
        -- apply Hmk; [done|]. by apply (expired_marks now s).
        -- assert (k' = k) as -> by set_solver.
           eapply isMarked_marks; [done|]. by eapply markStore_isMarked.
    + assert (¬ expired now s k) as Hne by (intros (? & ? & ? & ?); congruence).
      split; [done|]. split; [intros k'; rewrite Hin|]; set_solver.
  - intros Hf. destruct (IH _ _ _ Hf) as (Hm & Hin & Hmk).
    assert (¬ expired now s k) as Hne by (intros (? & ? & ? & ?); congruence).
    split; [done|]. split; [intros k'; rewrite Hin|]; set_solver.
Qed.

(** A store that may go for its size: complete, or idle. *)
Definition mayGo (now : Z) (s : storageManager) (k : PeerTaskMetadata) : Prop :=
  ∃ id t, lookupTask s k = Some (id, t) ∧
    (md_Done (ts_meta t) = true ∨ sm_gcInterval s <= now - ts_lastAccess t).

Lemma oldTask_Some now s k id t :
  oldTask now s k = Some (id, t) ↔
  lookupTask s k = Some (id, t) ∧ ts_reclaimMarked t = false ∧
  (md_Done (ts_meta t) = true ∨ sm_gcInterval s <= now - ts_lastAccess t).
Proof.
  unfold oldTask. destruct (lookupTask s k) as [[i t']|]; simpl.
  2: { split; [done|]. by intros (? & _). }
  destruct (ts_reclaimMarked t') eqn:Hm.
  { split; [done|]. intros ([= -> ->] & ? & _). congruence. }
  destruct (md_Done (ts_meta t')) eqn:Hd; simpl.
  { split; [intros [= -> ->]; auto|by intros (? & _)]. }
  destruct (Z.ltb_spec (now - ts_lastAccess t') (sm_gcInterval s)) as [Hlt|Hge].
  - split; [done|]. intros ([= -> ->] & _ & [?|?]); [congruence|lia].
  - split; [intros [= -> ->]; auto|by intros (? & _)].
Qed.

Lemma mayGo_marks now s s' k : marks s s' → mayGo now s' k → mayGo now s k.
Proof.
  intros Hm (id & t' & Hl & Hg). destruct (marks_task_back s s' k id t' Hm Hl) as (t & Hl' & Heq & _).
  apply (CanReclaim_unmarked now) in Heq as (_ & Hmeta & Hacc). destruct Hm as [Hs _].
  exists id, t. split; [done|]. by rewrite <-Hmeta, <-Hacc, <-(sb_interval _ _ Hs).
Qed.

Lemma insertByAccess_perm x l : insertByAccess x l ≡ₚ x :: l.
Proof.
  induction l as [|y l IH]; simpl; [done|]. case_match; [|done]. rewrite IH. constructor.
Qed.

Lemma sortByAccess_perm l : sortByAccess l ≡ₚ l.
Proof.
  induction l as [|x l IH]; simpl; [done|]. rewrite insertByAccess_perm. by constructor.
Qed.

(** The listed stores are stores of tasks. *)
Definition live (s : storageManager) (x : positive * localTaskStore) : Prop :=
  ∃ t, lookupTask s (keyOf x.2) = Some (x.1, t).

Lemma live_marks s s' x : marks s s' → live s x → live s' x.
Proof.
  intros Hm [t Hl]. destruct (marks_task s s' _ _ _ Hm Hl) as (t' & Hl' & _). by exists t'.
Qed.

Lemma markOldest_spec tasks bytes s m s' m' :
  Forall (live s) tasks → markOldest tasks bytes s m = (s', m') →
  marks s s' ∧ ∃ l, m' = m ++ l ∧ Forall (isMarked s') l ∧ l `prefix_of` ((keyOf ∘ snd) <$> tasks).
Proof.
  revert bytes s m. induction tasks as [|[id t] tasks IH]; intros bytes s m Hlive; simpl.
  { intros [= <- <-]. split; [reflexivity|]. exists []. by rewrite app_nil_r. }
  apply Forall_cons in Hlive as [[t0 Hl] Hlive]. pose proof (markStore_marks id s) as Hm1.
  assert (Forall (live (markStore id s)) tasks) as Hlive1.
  { eapply Forall_impl; [done|]. intros x. by apply live_marks. }
  pose proof (markStore_isMarked s _ _ _ Hl) as Hk. simpl in Hk.
  destruct (_ <=? 0).
  - intros [= <- <-]. split; [done|]. exists [keyOf t]. split; [done|]. split; [by constructor|].
    apply prefix_cons. apply prefix_nil.
  - intros Hr. destruct (IH _ _ _ Hlive1 Hr) as (Hm & l & -> & Hmk & Hp). split; [by etrans|].
    exists (keyOf t :: l). rewrite <-(assoc_L (++)). split; [done|].
    split; [|by apply prefix_cons]. constructor; [|done]. by eapply isMarked_marks.
Qed.

Lemma oldTask_live now s ks :
  manager_ok s → Forall (live s) (sortByAccess (omap (oldTask now s) ks)).
Proof.
  intros Hok. rewrite sortByAccess_perm. apply Forall_forall. intros [id t] (k & _ & Hk)%list_elem_of_omap.
  apply oldTask_Some in Hk as (Hl & _). exists t. simpl.
  apply lookupTask_Some in Hl as [Hk Ht]. destruct (mo_task s Hok k id Hk) as (t' & Ht' & <-).
  assert (t' = t) as -> by congruence. by apply lookupTask_Some.
Qed.

Lemma markForSize_spec now usage ks s m size s' m' :
  manager_ok s → markForSize now usage ks s m size = (s', m') →
  marks s s' ∧ (∀ k, k ∈ m → k ∈ m') ∧
  (∀ k, k ∈ m' → k ∈ m ∨ isMarked s' k ∧ mayGo now s k).
Proof.
  intros Hok. unfold markForSize. destruct (storageManager_diskUsageExceed s usage) as [ue ub].
  destruct (_ || ue).
  2: { intros [= <- <-]. split; [reflexivity|]. set_solver. }
  intros Hr. apply markOldest_spec in Hr as (Hm & l & -> & Hmk & Hp); [|by apply oldTask_live].
  split; [done|]. split; [set_solver|]. intros k [?|Hin]%elem_of_app; [by left|]. right.
  split; [by eapply Forall_forall in Hmk|].
  assert (k ∈ (keyOf ∘ snd) <$> sortByAccess (omap (oldTask now s) ks)) as Hin'.
  { destruct Hp as [l2 ->]. set_solver. }
  apply list_elem_of_fmap in Hin' as ([id t] & -> & Hx). rewrite sortByAccess_perm in Hx.
  apply list_elem_of_omap in Hx as (k & _ & Hk).
  apply oldTask_Some in Hk as (Hl & _ & Hg). pose proof Hl as [Hk Ht]%lookupTask_Some.
  destruct (mo_task s Hok k id Hk) as (t' & Ht' & <-).
  assert (t' = t) as -> by congruence. by exists id, t.
Qed.

(** *** The stores marked before go *)

Lemma reclaimMarked_spec l fs s m fs' s' m' :
  manager_ok s → foldl reclaimMarked (fs, s, m) l = (fs', s', m') →
  manager_ok s' ∧ sm_heap s' = sm_heap s ∧
  (∀ k, sm_tasks s' !! k = if decide (k ∈ l) then None else sm_tasks s !! k) ∧
  (∀ k, k ∈ m' → k ∈ m) ∧ (∀ k, k ∈ m → k ∉ l → k ∈ m').
Proof.
  revert fs s m. induction l as [|k l IH]; intros fs s m Hok.
  { simpl. by intros [= <- <- <-]. }
  cbn [foldl reclaimMarked].
  destruct (lookupTask s k) as [[id t]|] eqn:Hl.
  - apply lookupTask_Some in Hl as [Hk Ht]. destruct (mo_task s Hok k id Hk) as (t' & Ht' & Hkey).
    assert (t' = t) as -> by congruence.
    assert (storageManager_cleanIndex (md_TaskID (ts_meta t)) (md_PeerID (ts_meta t))
      (set_sm_tasks (delete k (sm_tasks s)) s) = removeTask k s) as -> by (by rewrite <-Hkey).
    destruct (removeTask_fields k s) as (Hts & Hh & _).
    pose proof (removeTask_ok k s Hok) as Hok1. intros Hf.
    assert (∃ fs1 m1, foldl reclaimMarked (fs1, removeTask k s, m1) l = (fs', s', m') ∧
      (∀ k', k' ∈ m1 → k' ∈ m) ∧ (∀ k', k' ∈ m → k' ≠ k → k' ∈ m1)) as (fs1 & m1 & Hf1 & Hsub & Hsup).
    { destruct (Reclaim fs t) as [fs1 [e|]]; [by exists fs1, m|exists fs1, (remove_first k m)].
      split; [done|]. split; [intros k'; apply remove_first_subset|].
      intros k' Hin Hne. by apply remove_first_other. }
    destruct (IH _ _ _ Hok1 Hf1) as (Hok' & Hh' & Ht1 & Hs1 & Hs2).
    split; [done|]. split; [congruence|]. split; [|split; [naive_solver|set_solver]].
    intros k'. rewrite Ht1, Hts. destruct (decide (k' = k)) as [->|Hne].
    + rewrite lookup_delete_eq, (decide_True (P := k ∈ k :: l)) by left. by case_decide.
    + rewrite lookup_delete_ne by done. by destruct (decide (k' ∈ l)), (decide (k' ∈ k :: l)); set_solver.
  - intros Hf. destruct (IH _ _ _ Hok Hf) as (Hok' & Hh' & Ht1 & Hs1 & Hs2).
    do 2 (split; [done|]). split; [|split; [done|set_solver]].
    pose proof (lookupTask_None s k Hok Hl) as Hnone.
    intros k'. rewrite Ht1. destruct (decide (k' = k)) as [->|Hne].
    + rewrite Hnone. by repeat case_decide.
    + by destruct (decide (k' ∈ l)), (decide (k' ∈ k :: l)); set_solver.
Qed.

Lemma TryGC_spec fs now usage ks1 ks2 s fs' s' :
  manager_ok s → ks1 ≡ₚ elements (dom (sm_tasks s)) →
  storageManager_TryGC fs now usage ks1 ks2 s = (fs', s') →
  manager_ok s' ∧
  (∀ k, sm_tasks s' !! k =
     if decide (k ∈ sm_markedReclaimTasks s) then None else sm_tasks s !! k) ∧
  all_marked (sm_markedReclaimTasks s') s' ∧
  (∀ k, expired now s k → k ∉ sm_markedReclaimTasks s → k ∈ sm_markedReclaimTasks s') ∧
  (∀ k, k ∈ sm_markedReclaimTasks s' → expired now s k ∨ mayGo now s k).
Proof.
  intros Hok Hks. unfold storageManager_TryGC.
  destruct (foldl (markExpired now) (s, [], 0) ks1) as [[s1 m1] size] eqn:H1.
  apply markExpired_spec in H1 as (Hm1 & Hin1 & Hmk1).
  assert (manager_ok s1) as Hok1 by (eapply manager_ok_same; [apply Hm1|done]).
  destruct (markForSize now usage ks2 s1 m1 size) as [s2 m2] eqn:H2.
  apply markForSize_spec in H2 as (Hm2 & Hin2 & Hmk2); [|done].
  assert (marks s s2) as Hm by (by etrans).
  assert (manager_ok s2) as Hok2 by (eapply manager_ok_same; [apply Hm|done]).
  destruct (foldl reclaimMarked (fs, s2, m2) (sm_markedReclaimTasks s2)) as [[fs3 s3] m3] eqn:H3.
  apply reclaimMarked_spec in H3 as (Hok3 & Hh3 & Ht3 & Hsub & Hsup); [|done].
  rewrite (sb_marked s s2), (sb_tasks s s2) in * by apply Hm.
  intros [= <- <-]. simpl.
  assert (∀ k, k ∈ m1 → expired now s k) as Hexp by (intros k Hk%Hin1; set_solver).
  assert (∀ k, k ∈ m2 → isMarked s2 k) as Hall.
  { intros k Hk. apply Hmk2 in Hk as [Hk|[? _]]; [|done]. apply (isMarked_marks s1); [done|].
    apply Hmk1; [|by apply Hexp]. apply Hin1 in Hk. set_solver. }
  split; [by destruct Hok3; split|]. split; [done|]. split; [|split].
  - intros k id t Hk Htk Hid. simpl in *. rewrite Hh3 in Hid. rewrite Ht3 in Htk.
    case_decide; [done|]. destruct (Hall k (Hsub k Hk)) as (id' & t' & [Hl Ht']%lookupTask_Some & Hr).
    rewrite (sb_tasks s s2) in Hl by apply Hm. congruence.
  - intros k He Hnk. apply Hsup; [|done]. apply Hin2, Hin1. right. split; [|done].
    destruct He as (id & t & [Hl _]%lookupTask_Some & _). rewrite Hks. apply elem_of_elements.
    by apply elem_of_dom_2 in Hl.
  - intros k Hk%Hsub. apply Hmk2 in Hk as [Hk|[_ Hg]]; [left; by apply Hexp|right].
    exact (mayGo_marks now s s1 k Hm1 Hg).
Qed.

(** C16: the collection takes two rounds.  A round removes exactly the stores
    listed by the round before, lists the expired ones (and, for the size,
    complete or idle ones) for the next round, marks every store it lists, and
    keeps the map of the tasks and the index by task in agreement. *)
Theorem TryGC_two_rounds (fs : FS) (now : Z) (usage : option (float64 * Z))
    (ks1 ks2 : list PeerTaskMetadata) (s : storageManager) (fs' : FS) (s' : storageManager) :
  manager_ok s → ks1 ≡ₚ elements (dom (sm_tasks s)) →
  storageManager_TryGC fs now usage ks1 ks2 s = (fs', s') →
  manager_ok s' ∧
  (∀ k, sm_tasks s' !! k =
     if decide (k ∈ sm_markedReclaimTasks s) then None else sm_tasks s !! k) ∧
  all_marked (sm_markedReclaimTasks s') s' ∧
  (∀ k, expired now s k → k ∉ sm_markedReclaimTasks s → k ∈ sm_markedReclaimTasks s') ∧
  (∀ k, k ∈ sm_markedReclaimTasks s' → expired now s k ∨ mayGo now s k).
Proof. apply TryGC_spec. Qed.

(** ** The collection for the use of the disk *)

Definition total (l : list Z) : Z := foldr Z.add 0 l.

Lemma total_cons x l : total (x :: l) = x + total l.
Proof. done. Qed.

Lemma total_perm l l' : l ≡ₚ l' → total l = total l'.
Proof. induction 1; rewrite ?total_cons in *; lia. Qed.

Lemma total_nonneg l : Forall (Z.le 0) l → 0 <= total l.
Proof. induction 1; rewrite ?total_cons; [done|lia]. Qed.

Lemma total_pos (x : positive * localTaskStore) tasks :
  Forall (λ x, 0 < md_ContentLength (ts_meta x.2)) (x :: tasks) →
  0 < total ((λ x, md_ContentLength (ts_meta x.2)) <$> x :: tasks).
Proof.
  intros [Hx Hall]%Forall_cons. rewrite fmap_cons, total_cons.
  assert (0 <= total ((λ x, md_ContentLength (ts_meta x.2)) <$> tasks)); [|lia]. apply total_nonneg, Forall_fmap. eapply Forall_impl; [done|].
  intros y ?. simpl in *. lia.
Qed.

Arguments total : simpl never.

(** What a task adds to the size the collection sums up. *)
Definition liveSize (now : Z) (s : storageManager) (k : PeerTaskMetadata) : Z :=
  match lookupTask s k with
  | Some (_, t) => if CanReclaim now t then 0 else md_ContentLength (ts_meta t)
  | None => 0
  end.

Definition sized (s : storageManager) : Prop :=
  ∀ k id t, lookupTask s k = Some (id, t) → 0 < md_ContentLength (ts_meta t).

Lemma liveSize_nonneg now s k : sized s → 0 <= liveSize now s k.
Proof.
  intros Hs. unfold liveSize. destruct (lookupTask s k) as [[id t]|] eqn:Hl; [|done].
  specialize (Hs k id t Hl). destruct (CanReclaim now t); lia.
Qed.

Lemma liveSize_marks now s s' k : marks s s' → liveSize now s' k = liveSize now s k.
Proof.
  intros Hm. unfold liveSize. destruct (lookupTask s k) as [[id t]|] eqn:Hl.
  - destruct (marks_task s s' k id t Hm Hl) as (t' & -> & Heq & _).
    by destruct (CanReclaim_unmarked now t t' Heq) as (-> & -> & _).
  - destruct (lookupTask s' k) as [[id t']|] eqn:Hl'; [|done].
    destruct (marks_task_back s s' k id t' Hm Hl') as (t & ? & _). congruence.
Qed.

Lemma markExpired_size now ks s0 s m z s' m' z' :
  sized s0 → marks s0 s → 0 <= z → z + total (liveSize now s0 <$> ks) < 2 ^ 63 →
  foldl (markExpired now) (s, m, z) ks = (s', m', z') →
  z' = z + total (liveSize now s0 <$> ks).
Proof.
  intros Hs0. revert s m z. induction ks as [|k ks IH]; intros s m z Hm Hz Hbig.
  { simpl. intros [= _ _ <-]. unfold total. simpl. lia. }
  rewrite fmap_cons, total_cons in *.
  assert (0 <= total (liveSize now s0 <$> ks)) as Hnn.
  { apply total_nonneg, Forall_fmap, Forall_true. intros. by apply liveSize_nonneg. }
  pose proof (liveSize_nonneg now s0 k Hs0) as Hk0.
  cbn [foldl markExpired]. pose proof (liveSize_marks now s0 s k Hm) as Hk. unfold liveSize at 1 in Hk.
  destruct (lookupTask s k) as [[id t]|]; [destruct (CanReclaim now t)|]; intros Hf;
    rewrite <-Hk in *.
  - apply IH in Hf; [lia| |done|lia]. etrans; [done|apply markStore_marks].
  - rewrite int64_small in Hf by lia. apply IH in Hf; [lia|done|lia|lia].
  - apply IH in Hf; [lia|done|done|lia].
Qed.

Lemma markOldest_all tasks bytes s m s' m' :
  Forall (λ x, 0 < md_ContentLength (ts_meta x.2)) tasks →
  total ((λ x, md_ContentLength (ts_meta x.2)) <$> tasks) <= bytes < 2 ^ 63 →
  markOldest tasks bytes s m = (s', m') → m' = m ++ ((keyOf ∘ snd) <$> tasks).
Proof.
  revert bytes s m. induction tasks as [|[id t] tasks IH]; intros bytes s m Hpos Hb.
  { simpl. intros [= _ <-]. by rewrite app_nil_r. }
  apply Forall_cons in Hpos as [Hp Hpos].
  rewrite fmap_cons, total_cons in Hb. cbn [snd] in Hp, Hb.
  assert (0 <= total ((λ x, md_ContentLength (ts_meta x.2)) <$> tasks)) as Hnn.
  { destruct tasks; [done|]. pose proof (total_pos _ _ Hpos). lia. }
  cbn [markOldest]. rewrite int64_small by lia.
  destruct (Z.leb_spec (bytes - md_ContentLength (ts_meta t)) 0) as [Hle|Hgt].
  - intros [= _ <-]. destruct tasks as [|x tasks]; [done|]. exfalso.
    pose proof (total_pos _ _ Hpos). lia.
  - intros Hr. apply IH in Hr as ->; [by rewrite <-(assoc_L (++))|done|lia].
Qed.

(** The stores the second visit finds are not larger than what the first summed up. *)
Lemma oldTask_total now s s1 ks :
  sized s → marks s s1 → (∀ k, k ∈ ks → expired now s k → isMarked s1 k) →
  Forall (λ x, 0 < md_ContentLength (ts_meta x.2)) (omap (oldTask now s1) ks) ∧
  total ((λ x, md_ContentLength (ts_meta x.2)) <$> omap (oldTask now s1) ks) <=
    total (liveSize now s <$> ks).
Proof.
  intros Hsz Hm. induction ks as [|k ks IH]; intros Hmk; [by split|].
  destruct IH as [IH1 IH2]; [set_solver|]. rewrite fmap_cons, total_cons.
  pose proof (liveSize_nonneg now s k Hsz) as Hnn.
  assert (omap (oldTask now s1) (k :: ks) = match oldTask now s1 k with
    | Some x => x :: omap (oldTask now s1) ks | None => omap (oldTask now s1) ks end) as -> by done.
  destruct (oldTask now s1 k) as [[id t]|] eqn:Ho; [|split; [done|lia]].
  apply oldTask_Some in Ho as (Hl & Hr & _).
  destruct (marks_task_back s s1 k id t Hm Hl) as (t0 & Hl0 & Heq & _).
  destruct (CanReclaim_unmarked now t0 t Heq) as (Hc & Hmeta & _).
  rewrite fmap_cons, total_cons. cbn [snd]. rewrite Hmeta. split.
  - constructor; [|done]. simpl. rewrite Hmeta. by eapply Hsz.
  - enough (md_ContentLength (ts_meta t0) = liveSize now s k) by lia. unfold liveSize. rewrite Hl0.
    destruct (CanReclaim now t0) eqn:Hct; [|done]. exfalso.
    destruct (Hmk k) as (id' & t' & Hl' & Hr'); [left|by exists id, t0|]. congruence.
Qed.

(** The first visit leaves the stores that are not expired alone. *)
Lemma markExpired_kept now ks s m z s' m' z' k id t :
  foldl (markExpired now) (s, m, z) ks = (s', m', z') →
  lookupTask s k = Some (id, t) → CanReclaim now t = false → lookupTask s' k = Some (id, t).
Proof.
  revert s m z. induction ks as [|k' ks IH]; intros s m z; [by intros [= <- _ _]|].
  cbn [foldl markExpired]. destruct (lookupTask s k') as [[id' t']|] eqn:Hl'; [|apply IH].
  destruct (CanReclaim now t') eqn:Hc; [|apply IH]. intros Hf Hl Ht.
  apply (IH _ _ _ Hf); [|done]. apply lookupTask_Some in Hl as [Hk Hid], Hl' as [Hk' Hid'].
  apply lookupTask_Some. rewrite (sb_tasks _ _ (markStore_same id' s)). split; [done|].
  rewrite markStore_other; [done|]. intros ->. congruence.
Qed.

Lemma markForSize_all now usage ks s s1 m size excess s2 m2 k id t :
  manager_ok s1 → sized s → marks s s1 → (∀ k, k ∈ ks → expired now s k → isMarked s1 k) →
  total (liveSize now s <$> ks) <= size < 2 ^ 62 → so_DiskGCThreshold (sm_storeOption s1) = 0 →
  storageManager_diskUsageExceed s1 usage = (true, excess) → excess < 2 ^ 63 →
  markForSize now usage ks s1 m size = (s2, m2) →
  k ∈ ks → oldTask now s1 k = Some (id, t) → k ∈ m2.
Proof.
  intros Hok Hsz Hm Hmk Hsize Hth Huse Hex. unfold markForSize.
  destruct (oldTask_total now s s1 ks Hsz Hm Hmk) as [Hpos Htot]. rewrite Huse, Hth, orb_true_r.
  assert (0 <= total (liveSize now s <$> ks)) as Hnn.
  { apply total_nonneg, Forall_fmap, Forall_true. intros. by apply liveSize_nonneg. }
  rewrite Z.sub_0_r, int64_small by lia. intros Hr Hk Ho.
  apply markOldest_all in Hr as ->.
  - apply elem_of_app. right. apply list_elem_of_fmap. exists (id, t).
    rewrite sortByAccess_perm. split; [|apply list_elem_of_omap; eauto].
    apply oldTask_Some in Ho as [[Hk1 Ht1]%lookupTask_Some _].
    destruct (mo_task s1 Hok k id Hk1) as (t' & Ht' & <-). simpl. congruence.
  - by rewrite sortByAccess_perm.
  - rewrite (total_perm _ ((λ x, md_ContentLength (ts_meta x.2)) <$> omap (oldTask now s1) ks))
      by (by rewrite sortByAccess_perm).
    destruct (Z.ltb_spec excess size); lia.
Qed.

Lemma diskUsageExceed_range s usage b excess :
  storageManager_diskUsageExceed s usage = (b, excess) → excess < 2 ^ 63.
Proof.
  unfold storageManager_diskUsageExceed, int64OfFloat. intros H.
  repeat (case_match; simplify_eq/=); zbool; lia.
Qed.

(** with no quota configured, a disk over its usage threshold by any amount
    has every complete or idle store listed for collection, not the oldest
    ones that make up for the excess: the excess over the quota of zero is the
    size of all the stores. *)
Theorem usage_threshold_collects_everything (fs : FS) (now : Z) (usage : option (float64 * Z))
    (ks1 ks2 : list PeerTaskMetadata) (s : storageManager) (fs' : FS) (s' : storageManager)
    (excess : Z) (k : PeerTaskMetadata) (id : positive) (t : localTaskStore) :
  manager_ok s → sized s → total (liveSize now s <$> ks1) < 2 ^ 62 →
  ks1 ≡ₚ elements (dom (sm_tasks s)) → ks2 ≡ₚ elements (dom (sm_tasks s)) →
  so_DiskGCThreshold (sm_storeOption s) = 0 →
  storageManager_diskUsageExceed s usage = (true, excess) →
  storageManager_TryGC fs now usage ks1 ks2 s = (fs', s') →
  lookupTask s k = Some (id, t) → ts_reclaimMarked t = false → mayGo now s k →
  k ∉ sm_markedReclaimTasks s →
  k ∈ sm_markedReclaimTasks s'.
Proof.
  intros Hok Hsz Hbig Hks1 Hks2 Hth Huse Hgc Hl Hr Hgo Hnk.
  pose proof (diskUsageExceed_range _ _ _ _ Huse) as Hex.
  assert (k ∈ ks1 ∧ k ∈ ks2) as [Hk1 Hk2].
  { rewrite Hks1, Hks2, elem_of_elements. apply lookupTask_Some in Hl as [Hk _].
    by apply elem_of_dom_2 in Hk. }
  destruct (decide (CanReclaim now t = true)) as [He|He].
  { destruct (TryGC_spec _ _ _ _ _ _ _ _ Hok Hks1 Hgc) as (_ & _ & _ & Hexp & _).
    apply Hexp; [by exists id, t|done]. }
  unfold storageManager_TryGC in Hgc.
  destruct (foldl (markExpired now) (s, [], 0) ks1) as [[s1 m1] size] eqn:H1.
  pose proof (markExpired_size now ks1 s s [] 0 s1 m1 size Hsz (reflexivity s)
    ltac:(lia) ltac:(lia) H1) as Hsize.
  destruct (markExpired_spec _ _ _ _ _ _ _ _ H1) as (Hm1 & Hin1 & Hmk1).
  assert (manager_ok s1) as Hok1 by (eapply manager_ok_same; [apply Hm1|done]).
  destruct (markForSize now usage ks2 s1 m1 size) as [s2 m2] eqn:H2.
  assert (k ∈ m2) as Hkm.
  { destruct Hgo as (id' & t' & Hl' & Hgo). assert (t' = t) as -> by congruence.
    eapply (markForSize_all now usage ks2 s s1 m1 size excess s2 m2 k id t); try done.
    - intros k' Hk'. apply Hmk1. by rewrite Hks1, <-Hks2.
    - rewrite (total_perm _ (liveSize now s <$> ks1)) by (by rewrite Hks1, Hks2). lia.
    - by rewrite (sb_option s s1) by apply Hm1.
    - unfold storageManager_diskUsageExceed in *. by rewrite (sb_option s s1) by apply Hm1.
    - apply oldTask_Some. split; [|split; [done|]].
      + apply (markExpired_kept now ks1 s [] 0 s1 m1 size); [done..|]. by apply not_true_is_false.
      + by rewrite (sb_interval s s1) by apply Hm1. }
  apply markForSize_spec in H2 as (Hm2 & _); [|done].
  destruct (foldl reclaimMarked (fs, s2, m2) (sm_markedReclaimTasks s2)) as [[fs3 s3] m3] eqn:H3.
  assert (marks s s2) as Hm by (by etrans).
  apply reclaimMarked_spec in H3 as (_ & _ & _ & _ & Hsup).
  - rewrite (sb_marked s s2) in * by apply Hm. simplify_eq/=. by apply Hsup.
  - eapply manager_ok_same; [apply Hm|done].
Qed.
