(* ===== verification/StorageSteps.v ===== *)
(** * StorageSteps: the storage manager from its start

    Every operation of the storage manager keeps its books, from the reload of
    the stores on disk on, as rule induction over the steps of a daemon. *)

From S2P Require Import Prelude World FileSystem LocalStorage GoFloat StorageManager.
From S2P Require Import StorageProperties.
From stdpp Require Import options.
Local Open Scope Z_scope.

(** ** Directory listings *)

Lemma removelast_last {A} (l : list A) x : last l = Some x → l = removelast l ++ [x].
Proof.
  intros Hl. apply last_Some in Hl as [l' ->]. by rewrite removelast_last.
Qed.

Lemma NoDup_omap_inj {A B} (f : A → option B) l :
  (∀ x y z, f x = Some z → f y = Some z → x = y) → NoDup l → NoDup (omap f l).
Proof.
  intros Hinj. induction 1 as [|x l Hx Hl IH]; simpl; [constructor|].
  destruct (f x) as [z|] eqn:Hfx; [|done]. constructor; [|done].
  intros (y & Hy & Hfy)%list_elem_of_omap. by rewrite (Hinj x y z Hfx Hfy) in Hx.
Qed.

Lemma entries_NoDup fs dir : NoDup (entries fs dir).
Proof.
  unfold entries. rewrite merge_sort_Permutation. apply NoDup_omap_inj; [|apply NoDup_elements].
  intros p q name Hp Hq. destruct (last p) as [x|] eqn:Hlp; [|done].
  destruct (last q) as [y|] eqn:Hlq; [|done].
  apply removelast_last in Hlp, Hlq. case_decide as H1; [|done]. case_decide as H2; [|done].
  rewrite Hlp, Hlq. congruence.
Qed.

(** ** Fewer names *)

Definition fewer (fs fs' : FS) : Prop :=
  fs_nodes fs' ⊆ fs_nodes fs ∧ fs_data fs' = fs_data fs.

Lemma fewer_refl fs : fewer fs fs.
Proof. done. Qed.

Lemma fewer_trans fs1 fs2 fs3 : fewer fs1 fs2 → fewer fs2 fs3 → fewer fs1 fs3.
Proof. intros [? ?] [? ?]. split; [by etrans|congruence]. Qed.

Lemma follow_fewer fuel fs fs' p x :
  fewer fs fs' → follow fuel fs' p = Some x → follow fuel fs p = Some x.
Proof.
  intros [Hn _]. revert p. induction fuel as [|fuel IH]; intros p; unfold follow; fold follow;
    unfold os_Lstat; destruct (fs_nodes fs' !! p) as [n|] eqn:Hp; try done;
    rewrite (lookup_weaken _ _ _ _ Hp Hn); destruct n; auto.
Qed.

Lemma os_Open_fewer fs fs' p file :
  fewer fs fs' → os_Open fs' p = inr file → os_Open fs p = inr file.
Proof.
  intros Hf. unfold os_Open, os_Stat. destruct (follow 40 fs' p) as [[q n]|] eqn:Hq; [|done].
  rewrite (follow_fewer _ _ _ _ _ Hf Hq). done.
Qed.

Lemma os_Remove_fewer fs p : fewer fs (os_Remove fs p).1.
Proof.
  unfold os_Remove. destruct (os_Lstat fs p) as [[]|]; repeat case_decide; simpl;
    try apply fewer_refl; split; try done; apply delete_subseteq.
Qed.

(** ** The reload *)

Section Reload.
Context {C : MetadataCodec}.

(** The metadata in a directory of the data path name the task and the peer of
    the directory. *)
Definition honest (root : fpath) (fs : FS) : Prop :=
  ∀ taskID peerID file m, os_Open fs (root ++ [taskID; peerID] ++ [taskMetadata]) = inr file →
    json_Unmarshal (fileData fs file) = Some m → md_TaskID m = taskID ∧ md_PeerID m = peerID.

Lemma honest_fewer root fs fs' : fewer fs fs' → honest root fs → honest root fs'.
Proof.
  intros Hf Hh taskID peerID file m Ho Hu. apply (Hh taskID peerID file m).
  - by eapply os_Open_fewer.
  - unfold fileData in *. destruct Hf as [_ Hd]. by rewrite Hd in Hu.
Qed.

(** The tasks loaded so far: those of [tasks], and those of [taskID] with a peer in [peers]. *)
Definition loaded (tasks : list string) (taskID : string) (peers : list string)
    (s : storageManager) : Prop :=
  ∀ k, is_Some (sm_tasks s !! k) →
    k_TaskID k ∈ tasks ∨ k_TaskID k = taskID ∧ k_PeerID k ∈ peers.

Lemma loadPeer_ok root fs now taskID peerID s bad tasks peers :
  honest root fs → so_DataPath (sm_storeOption s) = root → manager_ok s →
  loaded tasks taskID peers s → taskID ∉ tasks → peerID ∉ peers →
  let s' := (loadPeer fs now taskID peerID (s, bad)).1 in
  manager_ok s' ∧ sm_storeOption s' = sm_storeOption s ∧ loaded tasks taskID (peers ++ [peerID]) s'.
Proof.
  intros Hh Hroot Hok Hld Hnt Hnp. unfold loadPeer. rewrite Hroot.
  assert (loaded tasks taskID (peers ++ [peerID]) s) as Hld1.
  { intros k Hk. destruct (Hld k Hk) as [?|[? ?]]; [by left|right]. set_solver. }
  destruct (os_Open fs ((root ++ [taskID; peerID]) ++ [taskMetadata])) as [e|file] eqn:Ho; [done|].
  destruct (json_Unmarshal (fileData fs file)) as [m|] eqn:Hm; [|done].
  match goal with |- context [newStore ?t _] => set (store := t) end.
  rewrite <-(assoc_L (++)) in Ho. destruct (Hh taskID peerID file m Ho Hm) as [<- <-].
  assert (sm_tasks s !! keyOf store = None) as Hnone.
  { apply eq_None_not_Some. intros Hk. destruct (Hld _ Hk) as [?|[_ ?]]; by simpl in *. }
  pose proof (storeTask_ok (keyOf store) store s Hok eq_refl Hnone) as Hnew. simpl.
  split; [exact Hnew|]. split; [done|].
  intros k Hk. simpl in Hk. destruct (decide (k = keyOf store)) as [->|Hne].
  - right. simpl. set_solver.
  - rewrite lookup_insert_ne in Hk by (intros Heq; apply Hne; by rewrite <-Heq). by apply Hld1.
Qed.

Lemma loadPeers_ok root fs now taskID tasks rest : ∀ peers s bad,
  honest root fs → so_DataPath (sm_storeOption s) = root → manager_ok s →
  loaded tasks taskID peers s → taskID ∉ tasks → NoDup (peers ++ rest) →
  let s' := (foldl (λ acc peerID, loadPeer fs now taskID peerID acc) (s, bad) rest).1 in
  manager_ok s' ∧ sm_storeOption s' = sm_storeOption s ∧ loaded tasks taskID (peers ++ rest) s'.
Proof.
  induction rest as [|peerID rest IH]; intros peers s bad Hh Hroot Hok Hld Hnt Hnd s'.
  { subst s'. simpl. by rewrite app_nil_r. }
  subst s'. cbn [foldl].
  destruct (loadPeer_ok root fs now taskID peerID s bad tasks peers) as (Hok1 & Ho1 & Hld1); [done..| |].
  { apply NoDup_app in Hnd as (_ & Hd & _). intros Hin. apply (Hd peerID Hin). left. }
  destruct (loadPeer fs now taskID peerID (s, bad)) as [s1 bad1]. simpl in *.
  rewrite (cons_middle peerID), (assoc_L (++)) in Hnd.
  destruct (IH (peers ++ [peerID]) s1 bad1) as (Hok2 & Ho2 & Hld2); [done|congruence|done..|].
  rewrite <-(assoc_L (++)) in Hld2. split; [done|]. split; [congruence|done].
Qed.

Lemma loadTask_ok root fs now taskID s bad tasks :
  honest root fs → so_DataPath (sm_storeOption s) = root → manager_ok s →
  loaded tasks "" [] s → taskID ∉ tasks →
  let '(fs', (s', _)) := loadTask now (fs, (s, bad)) taskID in
  fewer fs fs' ∧ manager_ok s' ∧ sm_storeOption s' = sm_storeOption s ∧
  loaded (tasks ++ [taskID]) "" [] s'.
Proof.
  intros Hh Hroot Hok Hld Hnt. unfold loadTask. rewrite Hroot.
  assert (loaded (tasks ++ [taskID]) "" [] s) as Hld1.
  { intros k Hk. destruct (Hld k Hk) as [?|[_ ?]]; [left|]; set_solver. }
  destruct (os_ReadDir fs (root ++ [taskID])) as [e|peers] eqn:Hrd; [done|].
  assert (NoDup peers) as Hnd.
  { unfold os_ReadDir in Hrd. destruct (os_Stat fs _) as [[]|]; simplify_eq. apply entries_NoDup. }
  destruct peers as [|p peers]; [split; [apply os_Remove_fewer|done]|].
  destruct (loadPeers_ok root fs now taskID tasks (p :: peers) [] s bad) as (Hok2 & Ho2 & Hld2);
    [done|done|done| |done|done|].
  { intros k Hk. destruct (Hld k Hk) as [?|[_ ?]]; [by left|set_solver]. }
  destruct (foldl _ (s, bad) (p :: peers)) as [s' bad']. simpl in *.
  do 3 (split; [done|]). intros k Hk. left. destruct (Hld2 k Hk) as [?|[-> _]]; set_solver.
Qed.

Lemma Reload_ok fs now s fs' s' err :
  honest (so_DataPath (sm_storeOption s)) fs → manager_ok s → sm_tasks s = ∅ →
  storageManager_ReloadPersistentTask fs now s = (fs', s', err) → manager_ok s'.
Proof.
  intros Hh Hok Hempty. unfold storageManager_ReloadPersistentTask.
  destruct (os_ReadDir fs _) as [e|dirs] eqn:Hrd.
  { by destruct e; intros [= _ <- _]. }
  assert (NoDup dirs) as Hnd.
  { unfold os_ReadDir in Hrd. destruct (os_Stat fs _) as [[]|]; simplify_eq. apply entries_NoDup. }
  assert (∀ rest done fs s bad, honest (so_DataPath (sm_storeOption s)) fs → manager_ok s →
    loaded done "" [] s → NoDup (done ++ rest) →
    manager_ok (foldl (loadTask now) (fs, (s, bad)) rest).2.1) as Hload.
  { clear. induction rest as [|d rest IH]; intros done fs s bad Hh Hok Hld Hnd; [by simpl|].
    cbn [foldl]. pose proof (loadTask_ok _ fs now d s bad done Hh eq_refl Hok Hld) as Hl.
    destruct (loadTask now (fs, (s, bad)) d) as [fs1 [s1 bad1]].
    destruct Hl as (Hf & Hok1 & Ho1 & Hld1).
    { apply NoDup_app in Hnd as (_ & Hd & _). intros Hin. apply (Hd d Hin). left. }
    rewrite (cons_middle d), (assoc_L (++)) in Hnd. apply (IH (done ++ [d])); [|done..].
    rewrite Ho1. by eapply honest_fewer. }
  specialize (Hload dirs [] fs s [] Hh Hok). destruct (foldl _ _ dirs) as [fs1 [s1 bad]].
  intros [= _ <- _]. apply Hload; [|done]. intros k. rewrite Hempty, lookup_empty. by intros [].
Qed.

(** The reload marks nothing. *)
Lemma Reload_marked fs now s fs' s' err :
  storageManager_ReloadPersistentTask fs now s = (fs', s', err) →
  sm_markedReclaimTasks s' = sm_markedReclaimTasks s.
Proof.
  unfold storageManager_ReloadPersistentTask. destruct (os_ReadDir fs _) as [[]|dirs]; try by intros [= _ <- _].
  pose proof (foldl_invariant (λ acc : FS * (storageManager * list fpath),
    sm_markedReclaimTasks acc.2.1 = sm_markedReclaimTasks s) (loadTask now) dirs (fs, (s, []))) as Hi.
  destruct (foldl (loadTask now) _ dirs) as [fs1 [s1 bad]]. intros [= _ <- _]. apply Hi; [|done].
  intros taskID [fs2 [s2 bad2]] _ Hs2. unfold loadTask. destruct (os_ReadDir _ _) as [e|peers]; [done|].
  destruct peers as [|p peers]; [done|]. cbn [fst snd].
  apply (foldl_invariant (λ acc : storageManager * list fpath, sm_markedReclaimTasks acc.1 = sm_markedReclaimTasks s));
    [|done].
  intros peerID [s3 bad3] _ Hs3. unfold loadPeer.
  destruct (os_Open _ _); [done|]. by destruct (json_Unmarshal _).
Qed.

End Reload.

(** ** The steps of a daemon *)

Section Steps.
Context (md5 : list byte → string) (sha256 : string → string) {C : MetadataCodec}.
Context (sameDev : fpath → bool) (canLink : bool).

(** One call of the storage manager at some time, or a change of the file
    system by others. *)
Inductive sm_step : FS * storageManager → FS * storageManager → Prop :=
  | step_others fs fs' s : sm_step (fs, s) (fs', s)
  | step_register fs now s req fs' s' err :
      storageManager_RegisterTask sameDev fs now s req = (fs', s', err) → sm_step (fs, s) (fs', s')
  | step_write fs now s k req fs' s' r rest :
      storageManager_WritePiece md5 fs now s k req = (fs', s', r, rest) → sm_step (fs, s) (fs', s')
  | step_read fs now s k num range s' r :
      storageManager_ReadPiece fs now s k num range = (s', r) → sm_step (fs, s) (fs, s')
  | step_readAll fs now s k s' r :
      storageManager_ReadAllPieces fs now s k = (s', r) → sm_step (fs, s) (fs, s')
  | step_store fs now s k req fs' s' err :
      storageManager_Store canLink fs now s k req = (fs', s', err) → sm_step (fs, s) (fs', s')
  | step_getPieces fs now s k req s' r :
      storageManager_GetPieces now s k req = (s', r) → sm_step (fs, s) (fs, s')
  | step_update fs now s k req s' err :
      storageManager_UpdateTask sha256 now s k req = (s', err) → sm_step (fs, s) (fs, s')
  | step_validate fs now s k s' err :
      storageManager_ValidateDigest sha256 now s k = (s', err) → sm_step (fs, s) (fs, s')
  | step_isInvalid fs now s k s' r :
      storageManager_IsInvalid now s k = (s', r) → sm_step (fs, s) (fs, s')
  | step_find fs now s taskID s' r :
      storageManager_FindCompletedTask now s taskID = (s', r) → sm_step (fs, s) (fs, s')
  | step_gc fs now usage ks1 ks2 s fs' s' :
      ks1 ≡ₚ elements (dom (sm_tasks s)) → ks2 ≡ₚ elements (dom (sm_tasks s)) →
      storageManager_TryGC fs now usage ks1 ks2 s = (fs', s') → sm_step (fs, s) (fs', s')
  | step_cleanUp fs ks s fs' s' :
      ks ≡ₚ elements (dom (sm_tasks s)) →
      storageManager_CleanUp fs ks s = (fs', s') → sm_step (fs, s) (fs', s').

Lemma Keep_ok now s : manager_ok s → manager_ok (Keep now s).
Proof. intros []. by split. Qed.

Lemma LoadTask_ok now s k s' r :
  storageManager_LoadTask now s k = (s', r) →
  s' = Keep now s ∧ match r with Some (id, t) => sm_heap s !! id = Some t | None => True end.
Proof.
  intros [= <- <-]. split; [done|].
  destruct (lookupTask s k) as [[id t]|] eqn:Hl; [|done]. by apply lookupTask_Some in Hl as [_ ?].
Qed.

(** What a step other than a collection does to the marks: the list and the
    marked stores stay, and no task changes its store. *)
Definition marksKept (s s' : storageManager) : Prop :=
  sm_markedReclaimTasks s' = sm_markedReclaimTasks s ∧
  (∀ id t t', sm_heap s !! id = Some t → sm_heap s' !! id = Some t' →
     ts_reclaimMarked t = true → ts_reclaimMarked t' = true) ∧
  (∀ k id, sm_tasks s' !! k = Some id → sm_tasks s !! k = Some id ∨ sm_tasks s !! k = None).

Lemma marksKept_same s s' : same_books s s' → marksKept s s'.
Proof.
  intros Hsb. split; [apply Hsb|]. split; [intros id t t'; by apply same_marked|].
  intros k id. rewrite (sb_tasks _ _ Hsb). auto.
Qed.

Lemma marksKept_Keep now s : marksKept s (Keep now s).
Proof. split; [done|]. split; [simpl; congruence|auto]. Qed.

Lemma setStore_step now s id t t' :
  manager_ok s → sm_heap s !! id = Some t → sameIdentity t t' →
  manager_ok (setStore id t' (Keep now s)) ∧ marksKept s (setStore id t' (Keep now s)).
Proof.
  intros Hok Hid [Hk Hm]. split; [by eapply setStore_ok; [apply Keep_ok| |]|].
  split; [done|]. split; [|auto]. intros i x x' Hx. simpl.
  destruct (decide (i = id)) as [->|Hne]; [rewrite lookup_insert_eq|rewrite lookup_insert_ne by done]; congruence.
Qed.

Lemma CreateTask_marks fs now s req fs' s' err :
  manager_ok s →
  sm_tasks s !! mkPeerTaskMetadata (ct_PeerID (rq_Common req)) (ct_TaskID (rq_Common req)) = None →
  storageManager_CreateTask sameDev fs now s req = (fs', s', err) → marksKept s s'.
Proof.
  intros Hok Hnone. unfold storageManager_CreateTask. destruct (os_MkdirAll fs _) as [fs1 e1].
  destruct (if decide _ then None else e1) as [e|]; [intros [= _ <- _]; apply (marksKept_Keep now)|].
  destruct (os_OpenCreate fs1 _) as [fs2 [e|metadata]]; [intros [= _ <- _]; apply (marksKept_Keep now)|].
  match goal with |- context [let '(_, _) := ?x in _] => destruct x as [fs3 [e|path]] end;
    intros [= _ <- _]; [apply (marksKept_Keep now)|].
  split; [done|]. split.
  - intros id t t' Ht. simpl. assert (id ≠ sm_next s) as Hne.
    { intros ->. assert (is_Some (sm_heap s !! sm_next s)) as H%(mo_next _ Hok) by eauto. lia. }
    rewrite lookup_insert_ne by done. congruence.
  - intros k id. simpl. intros [[<- _]|[_ Hk]]%lookup_insert_Some; [by right|by left].
Qed.

Lemma forceGC_ok ks : ∀ fs s fs' s',
  manager_ok s → storageManager_forceGC fs ks s = (fs', s') →
  manager_ok s' ∧ ∀ k, sm_tasks s' !! k = if decide (k ∈ ks) then None else sm_tasks s !! k.
Proof.
  unfold storageManager_forceGC. induction ks as [|k ks IH]; intros fs s fs' s' Hok.
  { simpl. by intros [= <- <-]. }
  cbn [foldl forceStep]. destruct (lookupTask s k) as [[id t]|] eqn:Hl; intros Hf.
  - change (storageManager_cleanIndex _ _ _) with (removeTask k s) in Hf.
    destruct (removeTask_fields k s) as (Hts & _).
    pose proof (markStore_same id (removeTask k s)) as Hsb.
    destruct (IH _ _ _ _ (manager_ok_same _ _ Hsb (removeTask_ok k s Hok)) Hf) as (Hok' & Ht).
    split; [done|]. intros k'. rewrite Ht, (sb_tasks _ _ Hsb), Hts.
    destruct (decide (k' = k)) as [->|Hne].
    + rewrite lookup_delete_eq, (decide_True (P := k ∈ k :: ks)) by left. by case_decide.
    + rewrite lookup_delete_ne by done. by destruct (decide (k' ∈ ks)), (decide (k' ∈ k :: ks)); set_solver.
  - destruct (IH _ _ _ _ Hok Hf) as (Hok' & Ht). split; [done|]. intros k'. rewrite Ht.
    destruct (decide (k' = k)) as [->|Hne].
    + rewrite (lookupTask_None s k Hok Hl). by repeat case_decide.
    + by destruct (decide (k' ∈ ks)), (decide (k' ∈ k :: ks)); set_solver.
Qed.

Lemma forceGC_marks fs ks s fs' s' : storageManager_forceGC fs ks s = (fs', s') →
  sm_markedReclaimTasks s' = sm_markedReclaimTasks s ∧
  ∀ id t t', sm_heap s !! id = Some t → sm_heap s' !! id = Some t' →
    ts_reclaimMarked t = true → ts_reclaimMarked t' = true.
Proof.
  unfold storageManager_forceGC. revert fs s. induction ks as [|k ks IH]; intros fs s.
  { simpl. intros [= _ <-]. split; [done|congruence]. }
  cbn [foldl forceStep]. destruct (lookupTask s k) as [[id0 t0]|]; [|apply IH].
  change (storageManager_cleanIndex _ _ _) with (removeTask k s).
  intros Hf. destruct (IH _ _ Hf) as [Hm Hh]. destruct (removeTask_fields k s) as (_ & Hheap & _ & _ & Hmark & _).
  pose proof (markStore_same id0 (removeTask k s)) as Hsb.
  split; [by rewrite Hm, (sb_marked _ _ Hsb)|]. intros id t t' Ht Ht' Hr. rewrite <-Hheap in Ht.
  destruct (same_lookup _ _ id t Hsb Ht) as (t1 & Ht1 & (_ & _ & _ & _ & _ & Hr1)). eauto.
Qed.

Ltac load_task :=
  match goal with
  | Hok : manager_ok _, H : context [storageManager_LoadTask ?now ?s ?k] |- _ =>
      let s1 := fresh "s" in let t := fresh "t" in
      destruct (storageManager_LoadTask now s k) as [s1 [[? t]|]] eqn:Hl;
      apply LoadTask_ok in Hl as [-> ?]; [|simplify_eq/=; by split; [apply Keep_ok|left; apply marksKept_Keep]]
  end.

(** Every step keeps the books; it keeps the marks, or marks all it lists. *)
Lemma sm_step_books c c' : sm_step c c' → manager_ok c.2 →
  manager_ok c'.2 ∧ (marksKept c.2 c'.2 ∨ all_marked (sm_markedReclaimTasks c'.2) c'.2).
Proof.
  destruct 1 as [ | fs now s req fs' s' err H | fs now s k req fs' s' r rest H
    | fs now s k num range s' r H | fs now s k s' r H | fs now s k req fs' s' err H
    | fs now s k req s' r H | fs now s k req s' err H | fs now s k s' err H
    | fs now s k s' r H | fs now s taskID s' r H | fs now usage ks1 ks2 s fs' s' Hk1 Hk2 H
    | fs ks s fs' s' Hks H ]; cbn [fst snd]; intros Hok.
  - split; [done|]. left. by apply marksKept_same.
  - unfold storageManager_RegisterTask in H. simpl in H.
    destruct (lookupTask s _) as [p|] eqn:Hl; simplify_eq; [by split; [apply Keep_ok|left; apply marksKept_Keep]|].
    apply (lookupTask_None s _ Hok) in Hl. split; [|left; exact (CreateTask_marks _ _ _ _ _ _ _ (Keep_ok now s Hok) Hl H)].
    by eapply CreateTask_ok in H as (? & _); [|apply Keep_ok|].
  - unfold storageManager_WritePiece in H. load_task.
    destruct (localTaskStore_WritePiece _ _ _ _ _) as [[[? ?] ?] ?] eqn:Hw. simplify_eq.
    apply WritePiece_identity in Hw. edestruct setStore_step; eauto.
  - unfold storageManager_ReadPiece in H. load_task.
    pose proof (ReadPiece_identity fs now t num range). destruct (localTaskStore_ReadPiece _ _ _ _ _).
    injection H as <- _. edestruct setStore_step; eauto.
  - unfold storageManager_ReadAllPieces in H. load_task.
    pose proof (ReadAllPieces_identity fs now t). destruct (localTaskStore_ReadAllPieces _ _ _).
    injection H as <- _. edestruct setStore_step; eauto.
  - unfold storageManager_Store in H. load_task.
    destruct (localTaskStore_Store _ _ _ _ _) as [[? ?] ?] eqn:Hw. simplify_eq.
    apply Store_identity in Hw. edestruct setStore_step; eauto.
  - unfold storageManager_GetPieces in H. load_task.
    pose proof (GetPieces_identity now t req). destruct (localTaskStore_GetPieces _ _ _).
    injection H as <- _. edestruct setStore_step; eauto.
  - unfold storageManager_UpdateTask in H. load_task. simplify_eq.
    edestruct setStore_step; eauto using UpdateTask_identity.
  - unfold storageManager_ValidateDigest in H. load_task.
    pose proof (ValidateDigest_identity sha256 t). destruct (localTaskStore_ValidateDigest _ _).
    injection H as <- _. edestruct setStore_step; eauto.
  - unfold storageManager_IsInvalid in H. load_task. simplify_eq. by split; [apply Keep_ok|left; apply marksKept_Keep].
  - pose proof (FindCompletedTask_spec now s taskID Hok) as Hf. rewrite H in Hf.
    destruct Hf as (? & Hsb & _). split; [done|left; by apply marksKept_same].
  - eapply TryGC_spec in H as (? & _ & ? & _); auto.
  - pose proof (forceGC_marks _ _ _ _ _ H) as [? ?]. eapply forceGC_ok in H as (? & Ht); [|done].
    split; [done|]. left. split; [done|]. split; [done|]. intros k id. rewrite Ht. case_decide; auto; done.
Qed.

Lemma sm_step_ok c c' : sm_step c c' → manager_ok c.2 → manager_ok c'.2.
Proof. intros Hst Hok. by destruct (sm_step_books c c' Hst Hok). Qed.

(** *** From the start *)

(** The data path of a new daemon, and honest metadata in it. *)
Definition startDisk (fs0 : FS) (opt : StorageOption) : FS :=
  match os_Stat fs0 (so_DataPath opt) with
  | Some _ => fs0
  | None => (os_MkdirAll fs0 (so_DataPath opt)).1
  end.

Lemma NewStorageManager_ok fs0 now strategy opt fs1 s1 :
  honest (so_DataPath opt) (startDisk fs0 opt) →
  NewStorageManager fs0 now strategy opt = (fs1, inr s1) →
  manager_ok s1 ∧ sm_markedReclaimTasks s1 = [].
Proof.
  intros Hh Hnew. unfold NewStorageManager in Hnew. unfold startDisk in Hh.
  assert (∃ fs2, honest (so_DataPath opt) fs2 ∧ (match os_Stat fs0 (so_DataPath opt) with
    | Some _ => (fs0, None) | None => os_MkdirAll fs0 (so_DataPath opt) end = (fs2, None)))
    as (fs2 & Hh2 & Hm).
  { destruct (os_Stat fs0 (so_DataPath opt)); [by eexists|].
    destruct (os_MkdirAll fs0 (so_DataPath opt)) as [fs2 [e|]]; [done|by eexists]. }
  rewrite Hm in Hnew. case_decide as Hs; [|done].
  destruct (storageManager_ReloadPersistentTask _ _ _) as [[? ?] ?] eqn:Hr. simplify_eq.
  split; [|exact (Reload_marked _ _ _ _ _ _ Hr)].
  eapply Reload_ok in Hr; [done|done| |done].
  split; simpl; intros *; by rewrite lookup_empty.
Qed.

(** C15: whatever a daemon does after its start - registrations, writes, reads,
    updates, searches, collections, in any order and with any changes of the
    disk by others - the map of its tasks and the index by task agree: every
    task has its own store with its own identity, the index lists a task's
    stores exactly, each once.  (At the start the metadata in a directory of the
    data path name the task and the peer of the directory.) *)
Theorem storage_books_kept (fs0 : FS) (now : Z) (strategy : string) (opt : StorageOption)
    (fs1 : FS) (s1 : storageManager) (c : FS * storageManager) :
  honest (so_DataPath opt) (startDisk fs0 opt) →
  NewStorageManager fs0 now strategy opt = (fs1, inr s1) →
  rtc sm_step (fs1, s1) c →
  manager_ok c.2.
Proof.
  intros Hh Hnew Hsteps. destruct (NewStorageManager_ok _ _ _ _ _ _ Hh Hnew) as [Hok _].
  change (manager_ok (fs1, s1).2) in Hok. clear -Hsteps Hok.
  induction Hsteps; [done|]. eauto using sm_step_ok.
Qed.

(** *** Marks *)

(** A step that does not register the key of a store that is listed for the next
    round but gone already: the peers of a daemon never use an ID twice. *)
Definition fresh_step (c c' : FS * storageManager) : Prop :=
  sm_step c c' ∧ ∀ k, k ∈ sm_markedReclaimTasks c.2 → sm_tasks c.2 !! k = None → sm_tasks c'.2 !! k = None.

Lemma fresh_step_marked c c' :
  fresh_step c c' → manager_ok c.2 → all_marked (sm_markedReclaimTasks c.2) c.2 →
  all_marked (sm_markedReclaimTasks c'.2) c'.2.
Proof.
  intros [Hst Hfresh] Hok Hall. destruct (sm_step_books c c' Hst Hok) as [_ [(Hm & Hh & Ht)|?]]; [|done].
  rewrite Hm. intros k id t' Hk Hid Ht'. destruct (Ht k id Hid) as [Hid0|Hnone].
  - destruct (mo_task _ Hok k id Hid0) as (t & Ht0 & _). eapply Hh; eauto.
  - by rewrite (Hfresh k Hk Hnone) in Hid.
Qed.

(** C38: at any time after the start of a daemon (whose calls do not register a
    listed key again, and whose disk names the stores as at the start of C15), a
    completed store handed out for reuse survives the next round of the
    collection, whatever the time and the use of the disk: the listed stores are
    marked, the search does not hand out marked stores, and a round removes
    listed stores only. *)
Theorem reuse_survives_collection (fs0 : FS) (start : Z) (strategy : string) (opt : StorageOption)
    (fs1 : FS) (s0 : storageManager) (fs : FS) (s s1 s2 : storageManager) (now now' : Z)
    (taskID : string) (u : ReusePeerTask) (fs' : FS) (usage : option (float64 * Z))
    (ks1 ks2 : list PeerTaskMetadata) :
  honest (so_DataPath opt) (startDisk fs0 opt) →
  NewStorageManager fs0 start strategy opt = (fs1, inr s0) →
  rtc fresh_step (fs1, s0) (fs, s) →
  storageManager_FindCompletedTask now s taskID = (s1, Some u) →
  ks1 ≡ₚ elements (dom (sm_tasks s1)) →
  storageManager_TryGC fs now' usage ks1 ks2 s1 = (fs', s2) →
  ∃ id, sm_tasks s2 !! ru_key u = Some id ∧ is_Some (sm_heap s2 !! id).
Proof.
  intros Hh Hnew Hsteps Hfind Hks Hgc.
  assert (manager_ok s ∧ all_marked (sm_markedReclaimTasks s) s) as [Hok Hall].
  { destruct (NewStorageManager_ok _ _ _ _ _ _ Hh Hnew) as [Hok0 Hm0].
    assert (all_marked (sm_markedReclaimTasks s0) s0) as Hall0 by (rewrite Hm0; intros ??? Hk; by apply elem_of_nil in Hk).
    change s with (fs, s).2. change s0 with (fs1, s0).2 in Hok0, Hall0. clear -Hsteps Hok0 Hall0.
    induction Hsteps as [|c1 c2 c3 Hst _ IH]; [done|].
    apply IH; [exact (sm_step_ok _ _ (proj1 Hst) Hok0)|by eapply fresh_step_marked]. }
  pose proof (FindCompletedTask_spec now s taskID Hok) as Hf.
  rewrite Hfind in Hf. destruct Hf as (Hok1 & Hsb & _ & _ & id & t & Hl & Hu & _).
  destruct (TryGC_spec _ _ _ _ _ _ _ _ Hok1 Hks Hgc) as (Hok2 & Ht2 & _).
  apply lookupTask_Some in Hl as [Hk Hid].
  assert (sm_tasks s2 !! ru_key u = Some id) as Hk2.
  { rewrite Ht2, (sb_tasks _ _ Hsb), (sb_marked _ _ Hsb). case_decide as Hin; [|done].
    specialize (Hall _ _ _ Hin Hk Hid). unfold usable in Hu. rewrite Hall in Hu.
    by destruct (ts_invalid t). }
  exists id. split; [done|]. destruct (mo_task _ Hok2 _ _ Hk2) as (t2 & ? & _). eauto.
Qed.

(** *** The access time *)

Lemma removeTask_keepAlive k s : sm_keepAlive (removeTask k s) = sm_keepAlive s.
Proof. unfold removeTask, storageManager_cleanIndex. by case_match. Qed.

Lemma reclaimMarked_keepAlive acc k :
  sm_keepAlive (reclaimMarked acc k).1.2 = sm_keepAlive acc.1.2.
Proof.
  destruct acc as [[fs s] m]. unfold reclaimMarked, storageManager_cleanIndex.
  destruct (lookupTask s k) as [[id t]|]; [|done].
  destruct (Reclaim fs t) as [fs' [e|]]; simpl; by case_match.
Qed.

Lemma TryGC_keepAlive fs now usage ks1 ks2 s fs' s' :
  manager_ok s → storageManager_TryGC fs now usage ks1 ks2 s = (fs', s') →
  sm_keepAlive s' = sm_keepAlive s.
Proof.
  intros Hok. unfold storageManager_TryGC.
  destruct (foldl (markExpired now) (s, [], 0) ks1) as [[s1 m1] size] eqn:H1.
  apply markExpired_spec in H1 as ([Hs1 _] & _).
  destruct (markForSize now usage ks2 s1 m1 size) as [s2 m2] eqn:H2.
  apply markForSize_spec in H2 as ([Hs2 _] & _); [|by eapply manager_ok_same].
  pose proof (foldl_invariant (λ acc, sm_keepAlive acc.1.2 = sm_keepAlive s2) reclaimMarked
    (sm_markedReclaimTasks s2) (fs, s2, m2)) as Hi.
  destruct (foldl reclaimMarked (fs, s2, m2) (sm_markedReclaimTasks s2)) as [[fs3 s3] m3].
  intros [= _ <-]. simpl in *. rewrite Hi; [|intros k acc _; by rewrite reclaimMarked_keepAlive|done].
  by rewrite (sb_keep _ _ Hs2), (sb_keep _ _ Hs1).
Qed.

Lemma forceStep_keepAlive acc k : sm_keepAlive (forceStep acc k).2 = sm_keepAlive acc.2.
Proof.
  destruct acc as [fs s]. unfold forceStep. destruct (lookupTask s k) as [[id t]|]; [|done].
  change (storageManager_cleanIndex _ _ _) with (removeTask k s). simpl.
  by rewrite (sb_keep _ _ (markStore_same _ _)), removeTask_keepAlive.
Qed.

Lemma CreateTask_keepAlive fs now s req fs' s' err :
  storageManager_CreateTask sameDev fs now s req = (fs', s', err) →
  sm_keepAlive s' = sm_keepAlive s.
Proof.
  unfold storageManager_CreateTask. destruct (os_MkdirAll fs _) as [fs1 e1].
  destruct (if decide _ then None else e1) as [e|]; [by intros [= _ <- _]|].
  destruct (os_OpenCreate fs1 _) as [fs2 [e|metadata]]; [by intros [= _ <- _]|].
  match goal with |- context [let '(_, _) := ?x in _] => destruct x as [fs3 [e|path]] end;
    by intros [= _ <- _].
Qed.

Lemma sm_step_keepAlive c c' :
  manager_ok c.2 → sm_step c c' → sm_keepAlive c'.2 = sm_keepAlive c.2.
Proof.
  intros Hok. destruct 1 as [ | fs now s req fs' s' err H | fs now s k req fs' s' r rest H
    | fs now s k num range s' r H | fs now s k s' r H | fs now s k req fs' s' err H
    | fs now s k req s' r H | fs now s k req s' err H | fs now s k s' err H
    | fs now s k s' r H | fs now s taskID s' r H | fs now usage ks1 ks2 s fs' s' Hk1 Hk2 H
    | fs ks s fs' s' Hks H ]; simpl in *; [done|..].
  - unfold storageManager_RegisterTask in H. simpl in H.
    destruct (lookupTask s _); [by simplify_eq|]. by apply CreateTask_keepAlive in H.
  - unfold storageManager_WritePiece in H. simpl in H.
    destruct (lookupTask s k) as [[id t]|]; [|by simplify_eq].
    destruct (localTaskStore_WritePiece _ _ _ _ _) as [[[? ?] ?] ?]. by simplify_eq.
  - unfold storageManager_ReadPiece in H. simpl in H.
    destruct (lookupTask s k) as [[id t]|]; [|by simplify_eq].
    destruct (localTaskStore_ReadPiece _ _ _ _ _). by simplify_eq.
  - unfold storageManager_ReadAllPieces in H. simpl in H.
    destruct (lookupTask s k) as [[id t]|]; [|by simplify_eq].
    destruct (localTaskStore_ReadAllPieces _ _ _). by simplify_eq.
  - unfold storageManager_Store in H. simpl in H.
    destruct (lookupTask s k) as [[id t]|]; [|by simplify_eq].
    destruct (localTaskStore_Store _ _ _ _ _) as [[? ?] ?]. by simplify_eq.
  - unfold storageManager_GetPieces in H. simpl in H.
    destruct (lookupTask s k) as [[id t]|]; [|by simplify_eq].
    destruct (localTaskStore_GetPieces _ _ _). by simplify_eq.
  - unfold storageManager_UpdateTask in H. simpl in H.
    destruct (lookupTask s k) as [[id t]|]; by simplify_eq.
  - unfold storageManager_ValidateDigest in H. simpl in H.
    destruct (lookupTask s k) as [[id t]|]; [|by simplify_eq].
    destruct (localTaskStore_ValidateDigest _ _). by simplify_eq.
  - unfold storageManager_IsInvalid in H. simpl in H.
    destruct (lookupTask s k) as [[id t]|]; by simplify_eq.
  - pose proof (FindCompletedTask_spec now s taskID Hok) as Hf. rewrite H in Hf.
    destruct Hf as (_ & Hsb & _). by apply sb_keep.
  - by eapply TryGC_keepAlive.
  - pose proof (foldl_invariant (λ acc, sm_keepAlive acc.2 = sm_keepAlive s) forceStep ks (fs, s)) as Hi.
    unfold storageManager_CleanUp, storageManager_forceGC in H. rewrite H in Hi. apply Hi; [|done].
    intros k acc _. by rewrite forceStep_keepAlive.
Qed.

(** the keep-alive time of the storage manager is that of its start for
    ever: [Keep] has a value receiver, so the calls that announce a use of the
    storage do not extend the life of the daemon. *)
Theorem keepalive_never_renewed (c c' : FS * storageManager) (now alive : Z) :
  manager_ok c.2 → rtc sm_step c c' →
  keepAlive_Alive now alive (sm_keepAlive c'.2) = keepAlive_Alive now alive (sm_keepAlive c.2).
Proof.
  intros Hok Hsteps. enough (sm_keepAlive c'.2 = sm_keepAlive c.2) as -> by done.
  induction Hsteps as [|c1 c2 c3 Hstep _ IH]; [done|].
  rewrite IH by (by eapply sm_step_ok). by apply sm_step_keepAlive.
Qed.

End Steps.
