(* ===== verification/StoreProperties.v ===== *)
(** * StoreProperties: the store of one task

    Pieces written in any order make up the content; what the store persists
    is what a restarted daemon loads; and the reader for which a whole piece is
    refused. *)

From S2P Require Import Prelude World FileSystem LocalStorage GoFloat StorageManager.
From S2P Require Import StorageProperties.
From stdpp Require Import options.
Local Open Scope Z_scope.

(** ** Pieces in any order *)

Section Pieces.
Context (md5 : list byte → string).

(** A sequence of writes, each at its time. *)
Definition writeAll (reqs : list (Z * WritePieceRequest)) (c : FS * localTaskStore)
    : FS * localTaskStore :=
  foldl (λ c req, (localTaskStore_WritePiece md5 c.1 req.1 c.2 req.2).1.1) c reqs.

(** The request writes bytes of the content at their place, as many as come. *)
Definition honestWrite (content : list byte) (req : WritePieceRequest) : Prop :=
  delivered (wp_Reader req) `prefix_of` drop (Z.to_nat (Start (pm_Range (wp_Piece req)))) content ∧
  Start (pm_Range (wp_Piece req)) <= Z.of_nat (length content).

Lemma WritePiece_invalid fs now t req :
  ts_invalid (localTaskStore_WritePiece md5 fs now t req).1.1.2 = ts_invalid t.
Proof. unfold localTaskStore_WritePiece, recordPiece. repeat case_match; done. Qed.

Lemma writeAll_agrees content file reqs : ∀ fs t,
  os_Open fs (ts_DataFilePath t) = inr file → agrees content (fileData fs file) (ts_Pieces t) →
  Forall (honestWrite content ∘ snd) reqs →
  let '(fs', t') := writeAll reqs (fs, t) in
  os_Open fs' (ts_DataFilePath t') = inr file ∧ agrees content (fileData fs' file) (ts_Pieces t') ∧
  ts_invalid t' = ts_invalid t.
Proof.
  induction reqs as [|[now req] reqs IH]; intros fs t Ho Ha Hall; [done|].
  apply Forall_cons in Hall as [[Hd Hs] Hall]. unfold writeAll. cbn [foldl fst snd].
  pose proof (WritePiece_invalid fs now t req) as Hinv.
  destruct (localTaskStore_WritePiece md5 fs now t req) as [[[fs1 t1] r] rest] eqn:Hw.
  destruct (WritePiece_agrees md5 fs now t req content file fs1 t1 r rest) as [Ho1 Ha1]; [done..|].
  specialize (IH fs1 t1 Ho1 Ha1 Hall). simpl in *. unfold writeAll in IH.
  destruct (foldl _ (fs1, t1) reqs). by rewrite <-Hinv.
Qed.

Lemma agrees_read content data pieces num p :
  agrees content data pieces → pieces !! num = Some p →
  0 <= Start (pm_Range p) ∧
  take (Z.to_nat (Length (pm_Range p))) (drop (Z.to_nat (Start (pm_Range p))) data) =
  take (Z.to_nat (Length (pm_Range p))) (drop (Z.to_nat (Start (pm_Range p))) content).
Proof.
  intros [_ Hp] Hnum. destruct (Hp num p Hnum) as (Hs & Hl & Hin). split; [done|].
  apply list_eq. intros i. destruct (decide (i < Z.to_nat (Length (pm_Range p)))%nat) as [Hi|Hi].
  - rewrite !lookup_take_lt, !lookup_drop by done. apply Hin. lia.
  - by rewrite !lookup_take_ge by lia.
Qed.

(** C7: pieces of a content written to an empty store in any order - with
    readers that fail or end early, pieces written twice, retries - leave a
    store that reads back every recorded piece as the bytes of the content in
    its range; and once the recorded pieces cover the content, the store reads
    back the content. *)
Theorem pieces_assemble_content (content : list byte) (file : inode) (fs fs' : FS)
    (t t' : localTaskStore) (reqs : list (Z * WritePieceRequest)) (now : Z) :
  os_Open fs (ts_DataFilePath t) = inr file → fileData fs file = [] → ts_Pieces t = ∅ →
  ts_invalid t = false → Forall (honestWrite content ∘ snd) reqs →
  writeAll reqs (fs, t) = (fs', t') →
  (∀ num p range, num ≠ -1 → ts_Pieces t' !! num = Some p →
     (localTaskStore_ReadPiece fs' now t' num range).2 =
     inr (take (Z.to_nat (Length (pm_Range p))) (drop (Z.to_nat (Start (pm_Range p))) content))) ∧
  ((∀ i : nat, (i < length content)%nat → ∃ num p, ts_Pieces t' !! num = Some p ∧
      Start (pm_Range p) <= Z.of_nat i < Start (pm_Range p) + Length (pm_Range p)) →
   (localTaskStore_ReadAllPieces fs' now t').2 = inr content).
Proof.
  intros Ho Hd Hp Hinv Hall Hw. pose proof (writeAll_agrees content file reqs fs t Ho) as Hag.
  rewrite Hw in Hag. destruct Hag as (Ho' & Ha' & Hinv'); [|done|].
  { rewrite Hd, Hp. split; [simpl; lia|]. intros ? ?. by rewrite lookup_empty. }
  rewrite Hinv in Hinv'. split.
  - intros num p range Hne Hnum. unfold localTaskStore_ReadPiece. rewrite Hinv'. simpl. rewrite Ho'.
    destruct (Z.eqb_spec num (-1)); [done|]. rewrite Hnum. simpl.
    destruct (agrees_read _ _ _ _ _ Ha' Hnum) as [Hs Hr].
    destruct (Z.ltb_spec (Start (pm_Range p)) 0); [lia|]. simpl. unfold readAt. by rewrite Hr.
  - intros Hcov. pose proof (agrees_covered _ _ _ Ha' Hcov) as Hdata.
    unfold localTaskStore_ReadAllPieces. rewrite Hinv'. simpl. by rewrite Ho', Hdata.
Qed.

(** a whole piece that reaches the store through a limited buffered reader
    with some of it in the buffer is refused as a short read, although all its
    bytes are in the file: the count of the buffered bytes is lost in a
    shadowed variable. *)
Theorem buffered_piece_refused (fs : FS) (now : Z) (t : localTaskStore) (req : WritePieceRequest)
    (file : inode) (buffered rest : list byte) (e : option StoreError) :
  os_Open fs (ts_DataFilePath t) = inr file → ts_Pieces t !! pm_Num (wp_Piece req) = None →
  buffered ≠ [] → 0 <= Start (pm_Range (wp_Piece req)) → wp_UnknownLength req = false →
  Length (pm_Range (wp_Piece req)) = Z.of_nat (length (buffered ++ rest)) →
  wp_Reader req = LimitedBuffered buffered (mkStream rest e) (Length (pm_Range (wp_Piece req))) →
  ∃ fs' t', localTaskStore_WritePiece md5 fs now t req =
      (fs', t', (Z.of_nat (length rest), Some ErrShortRead), mkStream [] e) ∧
    ts_Pieces t' = ts_Pieces t ∧
    fileData fs' file =
      splice (fileData fs file) (Z.to_nat (Start (pm_Range (wp_Piece req)))) (buffered ++ rest).
Proof.
  intros Ho Hnone Hb Hs Hu Hl Hr. rewrite length_app in Hl.
  assert (0 < length buffered)%nat by (destruct buffered; [done|simpl; lia]).
  unfold localTaskStore_WritePiece. cbn [touch set_ts_lastAccess ts_meta]. rewrite Hnone, Ho.
  destruct (Z.ltb_spec (Start (pm_Range (wp_Piece req))) 0); [lia|].
  unfold copyPiece. rewrite Hr, Hl.
  rewrite copyLimited_enough by (simpl; lia). cbn [s_data s_err].
  rewrite take_ge, drop_ge by lia. rewrite Hu.
  destruct (Z.eqb_spec (Z.of_nat (length rest)) (Z.of_nat (length buffered + length rest))); [lia|].
  do 2 eexists. split; [done|]. split; [done|]. rewrite !fileData_writeAt. by rewrite splice_splice.
Qed.

End Pieces.

(** ** What is persisted is what is loaded *)

Section Persist.
Context {C : MetadataCodec} {L : MetadataCodecLaws C}.

(** The metadata that [Store] saves. *)
Definition storedMeta (req : StoreRequest) (t : localTaskStore) : persistentMetadata :=
  let m := set_md_Done true (ts_meta t) in
  if 0 <? sr_TotalPieces req then set_md_TotalPieces (sr_TotalPieces req) m else m.

(** The metadata file of a store, in which nothing longer was saved before, and
    a destination, unless only the metadata is stored, which is a file or can be
    created. *)
Record storable (fs : FS) (t : localTaskStore) (req : StoreRequest) : Prop := {
  sto_rw : ts_metadataRW t = true;
  sto_metadata : os_Lstat fs (ts_metadataFilePath t) = Some (NodeFile (ts_metadataFile t));
  sto_next : (ts_metadataFile t < fs_next fs)%positive;
  sto_fits : (length (fileData fs (ts_metadataFile t)) ≤ length (json_Marshal (storedMeta req t)))%nat;
  sto_dest : sr_MetadataOnly req = true ∨
    sr_Destination req ≠ ts_metadataFilePath t ∧
    (os_Lstat fs (sr_Destination req) = None ∨ ∃ file, os_Lstat fs (sr_Destination req) = Some (NodeFile file));
}.

Lemma splice_start data bs : splice data 0 bs = bs ++ drop (length bs) data.
Proof.
  destruct (decide (bs = [])) as [->|Hne]; [done|]. by rewrite splice_eq by done.
Qed.

Lemma saveMetadata_saved fs t :
  ts_metadataRW t = true →
  ∃ fs1, saveMetadata fs t = (fs1, None) ∧ fs_nodes fs1 = fs_nodes fs ∧ fs_next fs1 = fs_next fs ∧
    fileData fs1 (ts_metadataFile t) =
      json_Marshal (ts_meta t) ++
      drop (length (json_Marshal (ts_meta t))) (fileData fs (ts_metadataFile t)).
Proof using All.
  intros Hrw. unfold saveMetadata. rewrite Hrw. eexists. split; [done|]. split; [done|]. split; [done|].
  by rewrite fileData_writeAt, splice_start.
Qed.

(** The metadata is where a reload looks for it. *)
Definition persisted (fs : FS) (t : localTaskStore) (m : persistentMetadata) : Prop :=
  os_Open fs (ts_metadataFilePath t) = inr (ts_metadataFile t) ∧
  json_Unmarshal (fileData fs (ts_metadataFile t)) = Some m.

Lemma persisted_nodes fs fs' t m :
  os_Lstat fs' (ts_metadataFilePath t) = Some (NodeFile (ts_metadataFile t)) →
  fileData fs' (ts_metadataFile t) = fileData fs (ts_metadataFile t) →
  persisted fs t m → persisted fs' t m.
Proof.
  intros Hl Hd [_ Hu]. split; [|by rewrite Hd]. unfold os_Open, os_Stat, follow. by rewrite Hl.
Qed.

(** Later steps on other names and files keep the saved metadata. *)
Lemma add_name_metadata fs mp mf dest n :
  os_Lstat fs mp = Some (NodeFile mf) → os_Lstat fs dest = None →
  os_Lstat (set_fs_nodes (<[dest := n]> (fs_nodes fs)) fs) mp = Some (NodeFile mf).
Proof.
  intros Hm Hd. unfold os_Lstat in *. simpl. rewrite lookup_insert_ne; [done|]. intros ->. congruence.
Qed.

(** The copy or the link to a destination that is not there. *)
Lemma destination_keeps canLink fs t req fs' (t1 t' : localTaskStore) m :
  os_Lstat fs (ts_metadataFilePath t) = Some (NodeFile (ts_metadataFile t)) →
  (ts_metadataFile t < fs_next fs)%positive → os_Lstat fs (sr_Destination req) = None → persisted fs t m →
  match (if (canLink : bool) then os_Link fs (ts_DataFilePath t1) (sr_Destination req) else (fs, Some EXDEV)) with
  | (fs, None) => (fs, t1, None)
  | (fs, Some _) =>
      match os_Open fs (ts_DataFilePath t1) with
      | inl e => (fs, t1, Some (ErrIO e))
      | inr file =>
          match os_OpenCreate fs (sr_Destination req) with
          | (fs, inl e) => (fs, t1, Some (ErrIO e))
          | (fs, inr dst) => (writeAt (truncate fs dst) dst 0 (fileData (truncate fs dst) file), t1, None)
          end
      end
  end = (fs', t', None) →
  t' = t1 ∧ persisted fs' t m.
Proof using All.
  intros Hmp Hnext Habs Hper.
  destruct (if canLink then os_Link fs _ _ else _) as [fs2 e] eqn:Hlink.
  assert (fs_data fs2 = fs_data fs ∧ (e = None ∨ fs2 = fs) ∧
    os_Lstat fs2 (ts_metadataFilePath t) = Some (NodeFile (ts_metadataFile t))) as (Hdata2 & He & Hm2).
  { destruct canLink; [|simplify_eq; auto]. unfold os_Link in Hlink.
    repeat case_match; simplify_eq; auto; split; try done; split; auto; by apply add_name_metadata. }
  destruct e as [e|].
  2: { intros [= <- <-]. split; [done|]. apply (persisted_nodes fs); [done| |done].
       unfold fileData. by rewrite Hdata2. }
  destruct He as [?| ->]; [done|]. destruct (os_Open fs _) as [?|src]; [done|].
  unfold os_OpenCreate. assert (os_Stat fs (sr_Destination req) = None) as ->.
  { unfold os_Stat, follow. simpl. by rewrite Habs. }
  rewrite linkTarget_absent by done.
  destruct (parentIsDir fs (sr_Destination req)); [|done]. intros [= <- <-].
  assert (ts_metadataFile t ≠ fs_next fs) as Hne by lia.
  split; [done|]. apply (persisted_nodes fs); [| |done].
  - unfold os_Lstat in *. simpl. rewrite lookup_insert_ne; [done|]. intros Heq. congruence.
  - rewrite fileData_writeAt_ne by done. unfold truncate, fileData in *. cbn [set_fs_data fs_data addFile].
    by rewrite !lookup_insert_ne by done.
Qed.

Lemma Store_metadata canLink fs now t req fs' t' :
  storable fs t req → sr_StoreOnly req = false →
  localTaskStore_Store canLink fs now t req = (fs', t', None) →
  ts_meta t' = storedMeta req t ∧ persisted fs' t (storedMeta req t).
Proof using All.
  intros [Hrw Hmp Hnext Hfits Hdest] Hso. unfold localTaskStore_Store. rewrite Hso.
  set (t1 := if 0 <? sr_TotalPieces req then _ else _).
  assert (ts_metadataFile t1 = ts_metadataFile t ∧ ts_metadataRW t1 = true ∧
    ts_meta t1 = storedMeta req t) as (Hf1 & Hrw1 & Hm1).
  { subst t1. unfold storedMeta. by destruct (0 <? sr_TotalPieces req). }
  destruct (saveMetadata_saved fs t1 Hrw1) as (fs1 & -> & Hn1 & Hx1 & Hd1).
  rewrite Hf1, Hm1, drop_ge, app_nil_r in Hd1 by done.
  assert (os_Lstat fs1 (ts_metadataFilePath t) = Some (NodeFile (ts_metadataFile t))) as Hl1
    by (unfold os_Lstat; by rewrite Hn1).
  assert (persisted fs1 t (storedMeta req t)) as Hper.
  { split; [unfold os_Open, os_Stat, follow; by rewrite Hl1|]. rewrite Hd1. apply Unmarshal_Marshal. }
  destruct (sr_MetadataOnly req); [intros [= <- <-]; by split|]. destruct Hdest as [?|[Hne Hdest]]; [done|].
  set (fs2 := match os_Stat fs1 _ with Some _ => _ | None => _ end).
  assert (os_Lstat fs2 (ts_metadataFilePath t) = Some (NodeFile (ts_metadataFile t)) ∧
    fs_data fs2 = fs_data fs1 ∧ fs_next fs2 = fs_next fs1 ∧ os_Lstat fs2 (sr_Destination req) = None)
    as (Hl2 & Hd2 & Hx2 & Habs).
  { subst fs2. unfold os_Stat, follow, os_Remove, os_Lstat in *. rewrite Hn1 in *.
    destruct Hdest as [Hd|[file Hd]]; rewrite Hd; simpl; rewrite ?Hn1; [done|].
    rewrite lookup_delete_ne, lookup_delete_eq by done. done. }
  intros Hrest. eapply (destination_keeps canLink fs2 t req fs' t1 t') in Hrest as [-> Hp]; [by split| | | |].
  - exact Hl2.
  - by rewrite Hx2, Hx1.
  - exact Habs.
  - apply (persisted_nodes fs1); [done| |done]. unfold fileData. by rewrite Hd2.
Qed.

(** C31: a store persists for a restart: after a [Store] that succeeded and was
    not asked to leave the metadata out, the reload of its directory finds it
    under the same task and peer with the very metadata it had, marked as done.
    (The metadata file is the one the store has opened, and nothing longer was
    saved in it before, since [saveMetadata] does not truncate it; the
    destination, if there is one, is a file or does not exist.) *)
Theorem stored_task_reloads (canLink : bool) (fs : FS) (now : Z) (t : localTaskStore)
    (req : StoreRequest) (fs' : FS) (t' : localTaskStore) (now' : Z) (s : storageManager)
    (taskID peerID : string) (bad : list fpath) :
  storable fs t req → sr_StoreOnly req = false →
  ts_metadataFilePath t = so_DataPath (sm_storeOption s) ++ [taskID; peerID] ++ [taskMetadata] →
  localTaskStore_Store canLink fs now t req = (fs', t', None) →
  let '(s', bad') := loadPeer fs' now' taskID peerID (s, bad) in
  bad' = bad ∧ ∃ id t2, lookupTask s' (mkPeerTaskMetadata peerID taskID) = Some (id, t2) ∧
    ts_meta t2 = ts_meta t' ∧ md_Done (ts_meta t2) = true ∧ ts_reclaimMarked t2 = false ∧
    ts_invalid t2 = false.
Proof using All.
  intros Hsto Hso Hpath Hstore.
  destruct (Store_metadata _ _ _ _ _ _ _ Hsto Hso Hstore) as (Hm & Ho & Hu).
  unfold loadPeer. rewrite <-(assoc_L (++)), <-Hpath, Ho, Hu, Hm. simpl. split; [done|].
  eexists _, _. split; [apply lookupTask_Some; simpl; by rewrite !lookup_insert_eq|].
  simpl. split; [done|]. split; [|done]. unfold storedMeta. by case_match.
Qed.

(** When something longer was saved before, and what is left of it behind the
    new metadata is not white space, the file is not read back: the reload takes
    the directory for broken, and the daemon removes it. *)
Theorem shorter_metadata_lost canLink fs now t req fs' t' now' (s : storageManager) taskID peerID bad b rest :
  ts_metadataRW t = true → os_Lstat fs (ts_metadataFilePath t) = Some (NodeFile (ts_metadataFile t)) →
  drop (length (json_Marshal (storedMeta req t))) (fileData fs (ts_metadataFile t)) = b :: rest →
  b ≠ Byte.x20 → b ≠ Byte.x09 → b ≠ Byte.x0a → b ≠ Byte.x0d →
  sr_StoreOnly req = false → sr_MetadataOnly req = true →
  ts_metadataFilePath t = so_DataPath (sm_storeOption s) ++ [taskID; peerID] ++ [taskMetadata] →
  localTaskStore_Store canLink fs now t req = (fs', t', None) →
  loadPeer fs' now' taskID peerID (s, bad) = (s, bad ++ [so_DataPath (sm_storeOption s) ++ [taskID; peerID]]).
Proof using All.
  intros Hrw Hl Hd ? ? ? ? Hso Hmo Hpath. unfold localTaskStore_Store. rewrite Hso, Hmo.
  set (t1 := if 0 <? sr_TotalPieces req then _ else _).
  assert (ts_metadataFile t1 = ts_metadataFile t ∧ ts_metadataRW t1 = true ∧
    ts_meta t1 = storedMeta req t) as (Hf1 & Hrw1 & Hm1).
  { subst t1. unfold storedMeta. by destruct (0 <? sr_TotalPieces req). }
  destruct (saveMetadata_saved fs t1 Hrw1) as (fs1 & -> & Hn1 & _ & Hd1). intros [= <- _].
  rewrite Hf1, Hm1, Hd in Hd1. unfold loadPeer. rewrite <-(assoc_L (++)), <-Hpath.
  assert (os_Open fs1 (ts_metadataFilePath t) = inr (ts_metadataFile t)) as ->.
  { unfold os_Open, os_Stat, follow, os_Lstat in *. by rewrite Hn1, Hl. }
  by rewrite Hd1, Unmarshal_trailing.
Qed.

End Persist.
