(* ===== verification/StorageDemo.v ===== *)
(** * StorageDemo: the theorems on the storage manager, evaluated

    The daemon of ClientDemo.v with one task: registered, then complete, with
    neither a quota nor a usage threshold configured. *)

From S2P Require Import Prelude World FileSystem LocalStorage GoFloat StorageManager Bitmap.
From S2P Require Import PeerTask PieceManager ClientDemo StorageProperties StorageSteps.
From S2P Require Import StoreProperties.
From Stdlib Require Import SpecFloat.
From stdpp Require Import options.
Local Open Scope Z_scope.

Lemma empty_ok s : sm_tasks s = ∅ → sm_index s = ∅ → sm_heap s = ∅ → manager_ok s.
Proof. intros H1 H2 H3. split; rewrite ?H1, ?H2, ?H3; intros *; by rewrite lookup_empty. Qed.

Lemma demoStart_ok : manager_ok demoStart.2.
Proof. apply empty_ok; vm_compute; reflexivity. Qed.

Notation demoStep := (sm_step demoMd5 demoSha256 (λ _, true) true) (only parsing).

Lemma demo_honest :
  honest (so_DataPath demoOption) (os_MkdirAll demoDisk (so_DataPath demoOption)).1.
Proof.
  intros taskID peerID file m Ho. exfalso. revert Ho.
  unfold os_Open, os_Stat, follow, os_Lstat.
  replace (fs_nodes (os_MkdirAll demoDisk (so_DataPath demoOption)).1) with
    (<[["data"] := NodeDir]> (<[["out"] := NodeDir]> {[ [] := NodeDir ]}) : gmap (list string) Node)
    by (vm_compute; reflexivity).
  rewrite !lookup_insert_ne, lookup_singleton_ne by discriminate. discriminate.
Qed.

Lemma demo_startDisk : honest (so_DataPath demoOption) (startDisk demoDisk demoOption).
Proof.
  unfold startDisk. replace (os_Stat demoDisk (so_DataPath demoOption)) with (@None Node) by (vm_compute; reflexivity).
  exact demo_honest.
Qed.

(** The results of the calls, as steps. *)
Lemma register_step fs s req : demoStep (fs, s) (storageManager_RegisterTask (λ _, true) fs 100 s req).1.
Proof.
  destruct (storageManager_RegisterTask _ _ _ _ _) as [[fs' s'] err] eqn:H.
  exact (step_register _ _ _ _ _ _ _ _ _ _ _ H).
Qed.

Lemma update_step fs s k req : demoStep (fs, s) (fs, (storageManager_UpdateTask demoSha256 150 s k req).1).
Proof.
  destruct (storageManager_UpdateTask _ _ _ _ _) as [s' err] eqn:H.
  exact (step_update _ _ _ _ _ _ _ _ _ _ _ H).
Qed.

Lemma store_step fs s k req : demoStep (fs, s) (storageManager_Store true fs 160 s k req).1.
Proof.
  destruct (storageManager_Store _ _ _ _ _ _) as [[fs' s'] err] eqn:H.
  exact (step_store _ _ _ _ _ _ _ _ _ _ _ _ H).
Qed.

(** The task with its five bytes fetched and stored. *)
Definition demoUpdated : storageManager :=
  (storageManager_UpdateTask demoSha256 150 demoRegistered.2 demoKey
     (mkUpdateTaskRequest 5 1 "" false)).1.

Definition demoDone : FS * storageManager :=
  (storageManager_Store true demoRegistered.1 160 demoUpdated demoKey
     (mkStoreRequest ["out"; "file"] false false 1)).1.

Lemma step_ok fs s c : demoStep (fs, s) c → manager_ok s → manager_ok c.2.
Proof. intros H Hok. exact (sm_step_ok _ _ _ _ _ _ H Hok). Qed.

Lemma demoDone_ok : manager_ok demoDone.2.
Proof.
  assert (manager_ok demoRegistered.2) as H1.
  { exact (step_ok _ _ _ (register_step demoStart.1 demoStart.2 (demoRequest "peer")) demoStart_ok). }
  assert (manager_ok demoUpdated) as H2.
  { exact (step_ok _ _ _ (update_step demoRegistered.1 demoRegistered.2 demoKey _) H1). }
  exact (step_ok _ _ _ (store_step demoRegistered.1 demoUpdated demoKey _) H2).
Qed.

Definition demoDoneStore : localTaskStore :=
  match lookupTask demoDone.2 demoKey with Some (_, t) => t | None => noStore end.

Lemma demoDone_task : lookupTask demoDone.2 demoKey = Some (1%positive, demoDoneStore).
Proof. vm_compute. reflexivity. Qed.

Lemma demoDone_marked : sm_markedReclaimTasks demoDone.2 = [].
Proof. vm_compute. reflexivity. Qed.

Lemma demoDone_keys : [demoKey] ≡ₚ elements (dom (sm_tasks demoDone.2)).
Proof. replace (elements (dom (sm_tasks demoDone.2))) with [demoKey]; [done|]. vm_compute. reflexivity. Qed.

Definition demoFound : storageManager * option ReusePeerTask :=
  storageManager_FindCompletedTask 170 demoDone.2 "task".

Lemma FindCompletedTask_correct_witness :
  demoFound.2 = Some (mkReusePeerTask demoKey 5 1) ∧ sm_tasks demoFound.1 = sm_tasks demoDone.2.
Proof.
  split; [vm_compute; reflexivity|].
  pose proof (FindCompletedTask_correct 170 demoDone.2 "task" demoDone_ok) as H. fold demoFound in H.
  destruct demoFound as [s' r]. exact (proj1 (proj2 (proj2 H))).
Defined.

(** At 2000 the store is expired. *)
Lemma TryGC_two_rounds_witness :
  demoKey ∈ sm_markedReclaimTasks
    (storageManager_TryGC demoDone.1 2000 None [demoKey] [demoKey] demoDone.2).2.
Proof.
  destruct (TryGC_two_rounds demoDone.1 2000 None [demoKey] [demoKey] demoDone.2
    (storageManager_TryGC demoDone.1 2000 None [demoKey] [demoKey] demoDone.2).1
    (storageManager_TryGC demoDone.1 2000 None [demoKey] [demoKey] demoDone.2).2
    demoDone_ok demoDone_keys (surjective_pairing _)) as (_ & _ & _ & H & _).
  apply H.
  - exists 1%positive, demoDoneStore. split; [exact demoDone_task|]. vm_compute. reflexivity.
  - rewrite demoDone_marked. apply not_elem_of_nil.
Defined.

Lemma demoFound_keys : [demoKey] ≡ₚ elements (dom (sm_tasks demoFound.1)).
Proof. replace (elements (dom (sm_tasks demoFound.1))) with [demoKey]; [done|]. vm_compute. reflexivity. Qed.

(** The calls of the demo register nothing that is listed. *)
Lemma demo_fresh : rtc (fresh_step demoMd5 demoSha256 (λ _, true) true) demoStart demoDone.
Proof.
  assert (∀ c c', demoStep c c' → sm_markedReclaimTasks c.2 = [] → fresh_step demoMd5 demoSha256 (λ _, true) true c c') as Hf.
  { intros c c' Hst Hm. split; [exact Hst|]. rewrite Hm. intros k Hk. by apply elem_of_nil in Hk. }
  apply (rtc_l _ _ demoRegistered).
  { apply Hf; [exact (register_step demoStart.1 demoStart.2 (demoRequest "peer"))|vm_compute; reflexivity]. }
  apply (rtc_l _ _ (demoRegistered.1, demoUpdated)).
  { apply Hf; [exact (update_step demoRegistered.1 demoRegistered.2 demoKey _)|vm_compute; reflexivity]. }
  apply rtc_once, Hf; [exact (store_step demoRegistered.1 demoUpdated demoKey _)|vm_compute; reflexivity].
Qed.

Lemma reuse_survives_collection_witness :
  ∃ id, sm_tasks (storageManager_TryGC demoDone.1 2000 None [demoKey] [demoKey]
      demoFound.1).2 !! demoKey = Some id.
Proof.
  destruct (reuse_survives_collection demoMd5 demoSha256 (λ _, true) true demoDisk 100 "" demoOption
    demoStart.1 demoStart.2 demoDone.1 demoDone.2 demoFound.1
    (storageManager_TryGC demoDone.1 2000 None [demoKey] [demoKey] demoFound.1).2 170 2000 "task"
    (mkReusePeerTask demoKey 5 1)
    (storageManager_TryGC demoDone.1 2000 None [demoKey] [demoKey] demoFound.1).1 None
    [demoKey] [demoKey]) as (id & H & _).
  - exact demo_startDisk.
  - vm_compute. reflexivity.
  - rewrite <-!surjective_pairing. exact demo_fresh.
  - vm_compute. reflexivity.
  - exact demoFound_keys.
  - apply surjective_pairing.
  - exists id. exact H.
Defined.

(** A disk of 10^12 bytes of which half a percent is used. *)
Definition demoUsage : option (float64 * Z) := Some (fdiv (fofZ 1) (fofZ 2), 10 ^ 12).

Lemma demoDone_only k id t :
  lookupTask demoDone.2 k = Some (id, t) → t = demoDoneStore.
Proof.
  intros Hl. pose proof Hl as [Hk _]%lookupTask_Some. apply elem_of_dom_2, elem_of_elements in Hk.
  rewrite <-demoDone_keys in Hk. apply list_elem_of_singleton in Hk as ->.
  rewrite demoDone_task in Hl. exact (eq_sym (f_equal snd (inj Some _ _ Hl))).
Qed.

Lemma usage_threshold_collects_everything_witness :
  demoKey ∈ sm_markedReclaimTasks
    (storageManager_TryGC demoDone.1 200 demoUsage [demoKey] [demoKey] demoDone.2).2.
Proof.
  apply (usage_threshold_collects_everything demoDone.1 200 demoUsage [demoKey] [demoKey] demoDone.2
    (storageManager_TryGC demoDone.1 200 demoUsage [demoKey] [demoKey] demoDone.2).1
    (storageManager_TryGC demoDone.1 200 demoUsage [demoKey] [demoKey] demoDone.2).2
    500000000000 demoKey 1%positive demoDoneStore).
  - exact demoDone_ok.
  - intros k id t Hl. rewrite (demoDone_only k id t Hl). vm_compute. reflexivity.
  - vm_compute. reflexivity.
  - exact demoDone_keys.
  - exact demoDone_keys.
  - vm_compute. reflexivity.
  - vm_compute. reflexivity.
  - apply surjective_pairing.
  - exact demoDone_task.
  - vm_compute. reflexivity.
  - exists 1%positive, demoDoneStore. split; [exact demoDone_task|]. left. vm_compute. reflexivity.
  - rewrite demoDone_marked. apply not_elem_of_nil.
Defined.

Lemma storage_books_kept_witness : manager_ok demoRegistered.2.
Proof.
  apply (storage_books_kept demoMd5 demoSha256 (λ _, true) true demoDisk 100 "" demoOption
    demoStart.1 demoStart.2 demoRegistered).
  - exact demo_startDisk.
  - vm_compute. reflexivity.
  - apply rtc_once. exact (register_step demoStart.1 demoStart.2 (demoRequest "peer")).
Defined.

Lemma keepalive_never_renewed_witness :
  keepAlive_Alive 1000 500 (sm_keepAlive demoDone.2) = false.
Proof.
  rewrite (keepalive_never_renewed demoMd5 demoSha256 (λ _, true) true (demoRegistered.1, demoUpdated)
    demoDone 1000 500).
  - vm_compute. reflexivity.
  - exact (step_ok _ _ _ (update_step demoRegistered.1 demoRegistered.2 demoKey _)
      (step_ok _ _ _ (register_step demoStart.1 demoStart.2 (demoRequest "peer")) demoStart_ok)).
  - apply rtc_once. exact (store_step demoRegistered.1 demoUpdated demoKey _).
Defined.

(** ** One store *)

Definition demoWrite (num start : Z) (bs : list byte) : WritePieceRequest :=
  mkWritePieceRequest (mkPieceMetadata num "" start (mkRange start (Z.of_nat (length bs))) 0) false
    (PlainReader (mkStream bs None)).

(** The second piece arrives before the first. *)
Definition demoWrites : list (Z * WritePieceRequest) :=
  [(0, demoWrite 1 3 [Byte.x64; Byte.x65]); (1, demoWrite 0 0 [Byte.x61; Byte.x62; Byte.x63])].

Definition demoWritten : FS * localTaskStore :=
  writeAll demoMd5 demoWrites (demoRegistered.1, demoStore).

Lemma demoWritten_pieces i :
  (i < 5)%nat → ∃ num p, ts_Pieces demoWritten.2 !! num = Some p ∧
    Start (pm_Range p) <= Z.of_nat i < Start (pm_Range p) + Length (pm_Range p).
Proof.
  intros Hi. destruct (decide (i < 3)%nat) as [H|H].
  - exists 0, (mkPieceMetadata 0 "" 0 (mkRange 0 3) 0). split; [vm_compute; reflexivity|simpl; lia].
  - exists 1, (mkPieceMetadata 1 "" 3 (mkRange 3 2) 0). split; [vm_compute; reflexivity|simpl; lia].
Qed.

Lemma demoWrites_honest : Forall (honestWrite demoContent ∘ snd) demoWrites.
Proof.
  repeat constructor; try (by vm_compute).
  - exists []. reflexivity.
  - exists [Byte.x64; Byte.x65]. reflexivity.
Qed.

Lemma pieces_assemble_content_witness :
  (localTaskStore_ReadAllPieces demoWritten.1 5 demoWritten.2).2 = inr demoContent.
Proof.
  apply (pieces_assemble_content demoMd5 demoContent 2%positive demoRegistered.1 demoWritten.1 demoStore
    demoWritten.2 demoWrites 5).
  - vm_compute. reflexivity.
  - vm_compute. reflexivity.
  - vm_compute. reflexivity.
  - vm_compute. reflexivity.
  - exact demoWrites_honest.
  - vm_compute. reflexivity.
  - intros i Hi. exact (demoWritten_pieces i Hi).
Defined.

Lemma buffered_piece_refused_witness :
  ∃ fs' t', localTaskStore_WritePiece demoMd5 demoRegistered.1 5 demoStore
    (mkWritePieceRequest (mkPieceMetadata 0 "" 0 (mkRange 0 3) 0) false
       (LimitedBuffered [Byte.x61] (mkStream [Byte.x62; Byte.x63] None) 3)) =
    (fs', t', (2, Some ErrShortRead), mkStream [] None).
Proof.
  destruct (buffered_piece_refused demoMd5 demoRegistered.1 5 demoStore
    (mkWritePieceRequest (mkPieceMetadata 0 "" 0 (mkRange 0 3) 0) false
       (LimitedBuffered [Byte.x61] (mkStream [Byte.x62; Byte.x63] None) 3))
    2%positive [Byte.x61] [Byte.x62; Byte.x63] None) as (fs' & t' & H & _).
  - vm_compute. reflexivity.
  - vm_compute. reflexivity.
  - discriminate.
  - vm_compute. discriminate.
  - reflexivity.
  - reflexivity.
  - reflexivity.
  - exists fs', t'. exact H.
Defined.

Lemma demo_storable : storable demoRegistered.1 demoStore (mkStoreRequest ["out"; "file"] false false 1).
Proof.
  split; [vm_compute; reflexivity..| |].
  - assert (length (fileData demoRegistered.1 (ts_metadataFile demoStore)) = 0%nat) as -> by (vm_compute; reflexivity). lia.
  - right. split; [vm_compute; discriminate|]. left. vm_compute. reflexivity.
Qed.

Definition demoStored : FS * localTaskStore * option StoreError :=
  localTaskStore_Store true demoRegistered.1 200 demoStore (mkStoreRequest ["out"; "file"] false false 1).

Lemma stored_task_reloads_witness :
  (loadPeer demoStored.1.1 300 "task" "peer" (demoStart.2, [])).2 = [].
Proof.
  pose proof (stored_task_reloads true demoRegistered.1 200 demoStore
    (mkStoreRequest ["out"; "file"] false false 1) demoStored.1.1 demoStored.1.2 300 demoStart.2
    "task" "peer" [] demo_storable eq_refl) as H.
  destruct (loadPeer demoStored.1.1 300 "task" "peer" (demoStart.2, [])) as [s' bad].
  apply H; vm_compute; reflexivity.
Defined.
