(* ===== verification/StreamTask.v ===== *)
(** * StreamTask: client/daemon/peer/peertask_stream.go and its callback

    A peer task that hands the content to a reader while it downloads.  The
    goroutines that download pieces report each of them to the goroutine that
    writes the pieces to a pipe, in order ([writeToPipe]).  They take steps
    under a schedule.  Who asks for which piece, and when the length of the
    content becomes known, are choices of the schedule: they are the business
    of the loop that pulls pieces (PullPieces.v) or of the download from the
    source (PieceManager.v).  [finish] and [cleanUnfinished] are one step each:
    behind the closing of [streamDone] they change nothing that the writer
    reads. *)

From S2P Require Import Prelude World FileSystem LocalStorage Bitmap PeerTask PieceManager PullPieces.
From stdpp Require Import pretty options.
Local Open Scope Z_scope.

(** ** client/config/headers.go, and the headers of HTTP *)

Definition HeaderDragonflyPeer : string := "X-Dragonfly-Peer".
Definition HeaderDragonflyTask : string := "X-Dragonfly-Task".
Definition HeaderContentLength : string := "Content-Length".
Definition HeaderTransferEncoding : string := "Transfer-Encoding".

(** ** The goroutines *)

(** One that downloads pieces. *)
Inductive Reporter :=
  | RpIdle
  | RpMark (dst : string) (piece : PieceInfo)   (* stored, before the lock of the report *)
  | RpTell (dst : string) (piece : PieceInfo)   (* marked, before the result is sent *)
  | RpSend (num : Z)                            (* at [successPieceCh <- num] *)
  | RpCheck                                     (* behind it *)
  | RpFailed (num : Z).                         (* at the select of a failure *)

Inductive PipeError :=
  | PipeStore (e : StoreError)
  | PipeClosed                                  (* by its reader *)
  | PipeContext.

(** [Start] and, once the first piece is there, [writeToPipe]. *)
Inductive PipeWriter :=
  | PwStart
  | PwWrite (desired : Z) (cache : gset Z)      (* before [writeOnePiece] *)
  | PwSelect (desired : Z) (cache : gset Z)
  | PwDrain (desired : Z)
  | PwReturned (err : option PipeError)
  | PwRefused.                                  (* [Start] has returned an error *)

Record Streamer := mkStreamer {
  ss_client : Client;
  ss_ctxDone : bool;
  ss_streamDone : bool;
  ss_running : bool;                            (* in [runningPeerTasks] of the manager *)
  ss_reporters : list Reporter;
  ss_writer : PipeWriter;
  ss_started : option (gmap string string * option string);   (* what [Start] has returned: attributes, error *)
  ss_pipe : list byte;                          (* what was read from the pipe *)
}.

Definition set_ss_client (c : Client) (s : Streamer) : Streamer :=
  mkStreamer c (ss_ctxDone s) (ss_streamDone s) (ss_running s) (ss_reporters s) (ss_writer s) (ss_started s) (ss_pipe s).
Definition set_ss_ctxDone (v : bool) (s : Streamer) : Streamer :=
  mkStreamer (ss_client s) v (ss_streamDone s) (ss_running s) (ss_reporters s) (ss_writer s) (ss_started s) (ss_pipe s).
Definition set_ss_ended (streamDone running : bool) (s : Streamer) : Streamer :=
  mkStreamer (ss_client s) (ss_ctxDone s) streamDone running (ss_reporters s) (ss_writer s) (ss_started s) (ss_pipe s).
Definition set_ss_writer (w : PipeWriter) (s : Streamer) : Streamer :=
  mkStreamer (ss_client s) (ss_ctxDone s) (ss_streamDone s) (ss_running s) (ss_reporters s) w (ss_started s) (ss_pipe s).
Definition set_ss_started (r : gmap string string * option string) (s : Streamer) : Streamer :=
  mkStreamer (ss_client s) (ss_ctxDone s) (ss_streamDone s) (ss_running s) (ss_reporters s) (ss_writer s) (Some r) (ss_pipe s).
Definition set_ss_pipe (bs : list byte) (s : Streamer) : Streamer :=
  mkStreamer (ss_client s) (ss_ctxDone s) (ss_streamDone s) (ss_running s) (ss_reporters s) (ss_writer s) (ss_started s) bs.
Definition set_reporter (i : nat) (r : Reporter) (s : Streamer) : Streamer :=
  mkStreamer (ss_client s) (ss_ctxDone s) (ss_streamDone s) (ss_running s) (<[i := r]> (ss_reporters s)) (ss_writer s)
    (ss_started s) (ss_pipe s).

Definition streamTask (s : Streamer) : filePeerTask := cl_task (ss_client s).
Definition updStream (f : filePeerTask → filePeerTask) (s : Streamer) : Streamer :=
  set_ss_client (updPT f (ss_client s)) s.

(** The attributes [Start] returns. *)
Definition taskAttributes (t : filePeerTask) : gmap string string :=
  <[HeaderDragonflyTask := pt_taskID t]> {[ HeaderDragonflyPeer := pt_peerID t ]}.
Definition streamAttributes (t : filePeerTask) : gmap string string :=
  (if pt_contentLength t =? -1 then <[HeaderTransferEncoding := "chunked"%string]>
   else <[HeaderContentLength := pretty (pt_contentLength t)]>) (taskAttributes t).

Section Stream.
Context (md5 : list byte → string) (sha256 : string → string) {C : MetadataCodec}.
Context (calculateDigest : bool) (now : Z).
(** The limiter of the piece manager, for a size. *)
Context (waitN : Z → option StoreError).

(** ** peertask_stream_callback.go *)

Definition streamCallback_Update (c : Client) : Client :=
  storeUpdate sha256 now
    (mkUpdateTaskRequest (pt_contentLength (cl_task c)) (pt_totalPiece (cl_task c)) (pt_md5 (cl_task c)) false) c.

(** The device does not matter: only the metadata are stored. *)
Definition streamCallback_Done (c : Client) : Client * option StoreError :=
  let t := cl_task c in
  let '(fs, store, err) :=
    localTaskStore_Store false (cl_fs c) now (cl_store c) (mkStoreRequest [] true false (pt_totalPiece t)) in
  let c := mkClient fs store t in
  match err with
  | Some e => (c, Some e)
  | None => (updPT (addResult (peerResult true Code_Success t)) c, None)
  end.

Definition streamCallback_Fail (c : Client) (code : Code) : Client :=
  updPT (λ t, addResult (peerResult false code t) t) c.

Definition streamCallback_ValidateDigest (c : Client) : Client * option StoreError :=
  if calculateDigest then
    let '(store, err) := localTaskStore_ValidateDigest sha256 (cl_store c) in
    (mkClient (cl_fs c) store (cl_task c), err)
  else (c, None).

(** ** The end of the task *)

Definition stream_finish (s : Streamer) : Streamer :=
  if pt_once (streamTask s) then s
  else
    let c := updPT (λ t, set_pt_success true (set_pt_once true t)) (ss_client s) in
    let c := updPT sendEnd (streamCallback_Update c) in
    let '(c, err) := streamCallback_Done c in
    let running := match err with Some _ => ss_running s | None => false end in
    set_ss_ended true running (set_ss_client (updPT (set_pt_done true) c) s).

Definition stream_cleanUnfinished (s : Streamer) : Streamer :=
  if pt_once (streamTask s) then s
  else
    let c := updPT (λ t, sendEnd (set_pt_once true t)) (ss_client s) in
    let c := streamCallback_Fail c (pt_failedCode (cl_task c)) in
    set_ss_ended true false (set_ss_client (updPT (set_pt_done true) c) s).

Definition stream_SetContentLength (i : Z) (s : Streamer) : Streamer :=
  let s := updStream (set_pt_contentLength i) s in
  if isCompleted (streamTask s) then stream_finish s else s.

Definition stream_SetTotalPieces (i : Z) (s : Streamer) : Streamer := updStream (set_pt_totalPiece i) s.

(** ** The pipe *)

(** [writeOnePiece]; [left] is the number of bytes the reader takes before it
    closes the pipe, when it does. *)
Definition writeOnePiece (pieceNum : Z) (left : option nat) (s : Streamer) : Streamer * option PipeError :=
  let c := ss_client s in
  match localTaskStore_ReadPiece (cl_fs c) now (cl_store c) pieceNum (mkRange 0 0) with
  | (store, r) =>
      let s := set_ss_client (mkClient (cl_fs c) store (cl_task c)) s in
      match r with
      | inl e => (s, Some (PipeStore e))
      | inr bs =>
          match left with
          | None => (set_ss_pipe (ss_pipe s ++ bs) s, None)
          | Some n => (set_ss_pipe (ss_pipe s ++ take n bs) s, Some PipeClosed)
          end
      end
  end.

(** The return of [writeToPipe], with its deferred [cancel]. *)
Definition leavePipe (err : option PipeError) (s : Streamer) : Streamer :=
  set_ss_ctxDone true (set_ss_writer (PwReturned err) s).

(** A number from [successPieceCh], at the head of the loop. *)
Definition gotNumber (desired cur : Z) (cache : gset Z) : PipeWriter :=
  if desired =? cur then PwWrite desired cache else PwSelect desired ({[cur]} ∪ cache).

Inductive WriterChoice :=
  | PcGo                             (* the pipe is read *)
  | PcLeft (n : nat)                 (* its reader takes [n] bytes and closes it *)
  | PcCtx
  | PcDone.                          (* [done] in [Start], [streamDone] in [writeToPipe] *)

(** The reader of the pipe in a turn that writes. *)
Definition leftOf (ch : WriterChoice) : option nat := match ch with PcLeft n => Some n | _ => None end.

Definition startError (default : string) (s : Streamer) : Streamer :=
  set_ss_writer PwRefused
    (set_ss_started
       (taskAttributes (streamTask s),
        Some (if bool_decide (pt_failedReason (streamTask s) = failedReasonNotSet) then default
              else pt_failedReason (streamTask s))) s).

(** A turn of [Start] or of [writeToPipe], other than the receipt of a number;
    [None]: the choice is not open. *)
Definition writerStep (ch : WriterChoice) (s : Streamer) : option Streamer :=
  match ss_writer s, ch with
  | PwStart, PcCtx =>
      if ss_ctxDone s then Some (startError "ctx.PeerTaskDone due to: context canceled" s) else None
  | PwStart, PcDone => if pt_done (streamTask s) then Some (startError "stream peer task early done" s) else None
  | PwWrite desired cache, (PcGo | PcLeft _) =>
      let cache := cache ∖ {[desired]} in
      Some (match writeOnePiece desired (leftOf ch) s with
            | (s, Some e) => leavePipe (Some e) s
            | (s, None) =>
                let desired := int32 (desired + 1) in
                set_ss_writer (if decide (desired ∈ cache) then PwWrite desired cache else PwSelect desired cache) s
            end)
  | PwSelect _ _, PcCtx => if ss_ctxDone s then Some (leavePipe (Some PipeContext) s) else None
  | PwSelect desired _, PcDone => if ss_streamDone s then Some (set_ss_writer (PwDrain desired) s) else None
  | PwDrain desired, (PcGo | PcLeft _) =>
      Some (if Bitmap_Settled (pt_readyPieces (streamTask s)) =? desired then
              let '(c, err) := streamCallback_ValidateDigest (ss_client s) in
              leavePipe (PipeStore <$> err) (set_ss_client c s)
            else
              match writeOnePiece desired (leftOf ch) s with
              | (s, Some e) => leavePipe (Some e) s
              | (s, None) => set_ss_writer (PwDrain (int32 (desired + 1))) s
              end)
  | _, _ => None
  end.

(** The receipt of a number from [successPieceCh], when somebody receives. *)
Definition receiveNumber (num : Z) (s : Streamer) : option Streamer :=
  match ss_writer s with
  | PwStart =>
      Some (set_ss_writer (gotNumber 0 num {[num]}) (set_ss_started (streamAttributes (streamTask s), None) s))
  | PwSelect desired cache => Some (set_ss_writer (gotNumber desired num cache) s)
  | _ => None
  end.

(** ** The downloads and their reports *)

Inductive ReportChoice :=
  | RpDownload (dst : string) (piece : PieceInfo) (notRetry : bool) (download : StoreError + Reader)
  | RpGo
  | RpExit.                          (* the end of the task or of its context *)

Definition stream_ended (s : Streamer) : bool := ss_ctxDone s || pt_done (streamTask s).

(** A download of a piece, and [ReportPieceResult] in steps. *)
Definition reportStep (i : nat) (ch : ReportChoice) (s : Streamer) : Outcome (option Streamer) :=
  let c := ss_client s in
  match ss_reporters s !! i, ch with
  | Some RpIdle, RpDownload dst piece notRetry download =>
      Ok (Some
        (match downloadWrite md5 now waitN c piece download with
         | (c, None) => set_reporter i (RpMark dst piece) (set_ss_client c s)
         | (c, Some end_) =>
             set_reporter i (if notRetry : bool then RpIdle else RpFailed (PieceNum piece))
               (set_ss_client
                  (reportFail (failResult c dst piece Code_ClientPieceDownloadFail (uint64 now) (uint64 end_)) c) s)
         end))
  | Some (RpMark dst piece), RpGo =>
      '(c, new) ← reportMark piece c;
      Ok (Some (set_reporter i (if new : bool then RpTell dst piece else RpIdle) (set_ss_client c s)))
  | Some (RpTell dst piece), RpGo =>
      Ok (Some (set_reporter i (RpSend (PieceNum piece))
                  (updStream (λ t, sendResult (set_pr_FinishedCount (Bitmap_Settled (pt_readyPieces t))
                                                 (successResult now c dst piece)) t) s)))
  | Some (RpSend num), RpGo => Ok (set_reporter i RpCheck <$> receiveNumber num s)
  | Some RpCheck, RpGo =>
      let s := set_reporter i RpIdle s in
      Ok (Some (if ss_ctxDone s then s else if isCompleted (streamTask s) then stream_finish s else s))
  | Some (RpFailed num), RpGo =>
      Ok (if (length (pt_failedPieces (cl_task c)) <? DefaultPieceChanSize)%nat
          then Some (set_reporter i RpIdle (updStream (λ t, set_pt_failedPieces (pt_failedPieces t ++ [num]) t) s))
          else None)
  | Some (RpFailed num), RpExit => Ok (if stream_ended s then Some (set_reporter i RpIdle s) else None)
  | _, _ => Ok None
  end.

(** ** Schedules *)

Inductive StreamChoice :=
  | ScCancel                                    (* the context of the request ends *)
  | ScLength (i : Z)                            (* SetContentLength *)
  | ScTotal (i : Z)                             (* SetTotalPieces *)
  | ScSign (md5 : string)                       (* SetPieceMd5Sign *)
  | ScUpdate                                    (* callback.Update *)
  | ScFinish                                    (* the end of [backSource] *)
  | ScClean (code : Code) (reason : string)     (* cleanUnfinished, for a reason *)
  | ScWriter (ch : WriterChoice)
  | ScReport (i : nat) (ch : ReportChoice).

Definition streamStep (ch : StreamChoice) (s : Streamer) : Outcome (option Streamer) :=
  match ch with
  | ScCancel => Ok (Some (set_ss_ctxDone true s))
  | ScLength i => Ok (Some (stream_SetContentLength i s))
  | ScTotal i => Ok (Some (stream_SetTotalPieces i s))
  | ScSign sign => Ok (Some (updStream (set_pt_md5 sign) s))
  | ScUpdate => Ok (Some (set_ss_client (streamCallback_Update (ss_client s)) s))
  | ScFinish => Ok (Some (stream_finish s))
  | ScClean code reason => Ok (Some (stream_cleanUnfinished (updStream (set_failed code reason) s)))
  | ScWriter ch => Ok (writerStep ch s)
  | ScReport i ch => reportStep i ch s
  end.

Fixpoint runStream (sched : list StreamChoice) (s : Streamer) : Outcome (option Streamer) :=
  match sched with
  | [] => Ok (Some s)
  | ch :: sched =>
      r ← streamStep ch s;
      match r with
      | Some s => runStream sched s
      | None => Ok None
      end
  end.

(** A task that was registered, with [n] goroutines that download for it. *)
Definition newStreamer (n : nat) (c : Client) : Streamer :=
  mkStreamer c false false true (replicate n RpIdle) PwStart None [].

End Stream.
