(* ===== verification/StreamProperties.v ===== *)
(** * StreamProperties: what the reader of a stream task gets

    Under every schedule of the downloads, of their reports and of the writer,
    the reader of the pipe gets the content from its start; all of it when the
    task succeeds and the pipe ends without an error; and the writer of a task
    that succeeded can always end so.  And how a task that failed ends without
    an error, and how a report waits forever. *)

From S2P Require Import Prelude World FileSystem LocalStorage Bitmap PeerTask PieceManager PullPieces.
From S2P Require Import SourceDownload SourceProperties ClientDemo PullProperties PullContent StoreProperties StreamTask.
From stdpp Require Import pretty options.
Local Open Scope Z_scope.

Section Flow.
Context (md5 : list byte → string) (sha256 : string → string) {C : MetadataCodec}.
Context (calculateDigest : bool) (now : Z) (waitN : Z → option StoreError).
Context (content : list byte) (file : inode) (pieceSize count : Z) (pieceDigest : Z → string).
Implicit Types (c : Client) (s : Streamer).

Notation len := (Z.of_nat (length content)).
Notation sizeOf := (PullContent.sizeOf content pieceSize).
Notation recorded := (PullContent.recorded content pieceSize).
Notation isPiece := (PullContent.isPiece content pieceSize count pieceDigest).
Notation readyOf c := (pt_readyPieces (cl_task c)).

(** The number of pieces that are ready. *)
Definition readyCount (b : Bitmap) : Z := sumOver (λ i, if decide (bm_mem b i) then 1 else 0) (seqZ 0 count).

(** The content in front of a piece. *)
Definition upTo (i : Z) : list byte := take (Z.to_nat (i * pieceSize)) content.

Record flow_ok c : Prop := {
  fl_bitmap : bitmap_ok (readyOf c);
  fl_cap : bm_cap (readyOf c) <= Z.max 64 (2 * count);
  fl_ready : ∀ i, 0 <= i → bm_mem (readyOf c) i → i < count ∧ recorded c i;
  fl_completed : pt_completedLength (cl_task c) = readyBytes content pieceSize count (readyOf c);
  fl_settled : bm_settled (readyOf c) = readyCount (readyOf c);
  fl_length : pt_contentLength (cl_task c) = -1 ∨ pt_contentLength (cl_task c) = len;
  fl_node : os_Lstat (cl_fs c) (ts_DataFilePath (cl_store c)) = Some (NodeFile file);
  fl_meta : ts_metadataFile (cl_store c) ≠ file;
  fl_agrees : agrees content (fileData (cl_fs c) file) (ts_Pieces (cl_store c));
  fl_pieces : ∀ i m, ts_Pieces (cl_store c) !! i = Some m →
    0 <= i < count ∧ pm_Range m = mkRange (i * pieceSize) (sizeOf i);
}.

Definition allReady c : Prop := ∀ i, 0 <= i < count → bm_mem (readyOf c) i.

Definition reporter_ok c (r : Reporter) : Prop :=
  match r with
  | RpMark _ piece => isPiece piece ∧ recorded c (PieceNum piece)
  | RpTell _ piece => isPiece piece
  | RpSend num => 0 <= num < count
  | _ => True
  end.

Definition writer_ok s : Prop :=
  match ss_writer s with
  | PwStart | PwRefused => ss_pipe s = []
  | PwWrite d cache => 0 <= d < count ∧ (∀ i, i ∈ cache → 0 <= i < count) ∧ ss_pipe s = upTo d
  | PwSelect d cache => 0 <= d <= count ∧ (∀ i, i ∈ cache → 0 <= i < count) ∧ ss_pipe s = upTo d
  | PwDrain d => 0 <= d <= count ∧ ss_pipe s = upTo d ∧ ss_streamDone s = true
  | PwReturned None => ss_streamDone s = true ∧ ∃ d, ss_pipe s = upTo d ∧ (pt_success (streamTask s) = true → d = count)
  | PwReturned (Some _) => ss_pipe s `prefix_of` content
  end.

Record stream_inv s : Prop := {
  si_flow : flow_ok (ss_client s);
  si_valid : (∀ err, ss_writer s ≠ PwReturned err) → ts_invalid (cl_store (ss_client s)) = false;
  si_once : ss_streamDone s = pt_once (streamTask s);
  si_success : pt_success (streamTask s) = true → pt_once (streamTask s) = true ∧ allReady (ss_client s);
  si_reporters : Forall (reporter_ok (ss_client s)) (ss_reporters s);
  si_writer : writer_ok s;
  si_started : ∀ attr err v, ss_started s = Some (attr, err) → attr !! HeaderContentLength = Some v → v = pretty len;
}.

Context (Hcut : cut content pieceSize count).
#[local] Set Default Proof Using "Type".

(** ** Counting *)

Lemma readyCount_set b b' i : 0 <= i < count → ¬ bm_mem b i → (∀ j, 0 <= j → bm_mem b' j ↔ j = i ∨ bm_mem b j) →
  readyCount b' = readyCount b + 1.
Proof.
  intros Hi Hn Hm. unfold readyCount.
  rewrite (sumOver_ext (λ j, if decide (bm_mem b' j) then 1 else 0)
    (λ j, if decide (j = i) then 1 else if decide (bm_mem b j) then 1 else 0)).
  - rewrite (sumOver_add (λ j, if decide (bm_mem b j) then 1 else 0) _ _ i); [|apply NoDup_seqZ|apply elem_of_seqZ; lia|].
    + rewrite (decide_True (P := i = i)), (decide_False (P := bm_mem b i)) by done. lia.
    + intros j Hj. by rewrite (decide_False (P := j = i)).
  - intros j Hj%elem_of_seqZ. specialize (Hm j ltac:(lia)). destruct Hm as [Hm1 Hm2].
    repeat case_decide; try done; exfalso; [by destruct (Hm1 H)|by apply H; apply Hm2; left|by apply H; apply Hm2; right].
Qed.

Lemma ones_sum k : 0 <= k → sumOver (λ _, 1) (seqZ 0 k) = k.
Proof.
  intros Hk. pattern k. apply natlike_ind; [done|clear k Hk; intros k Hk IH|done].
  unfold Z.succ. rewrite seqZ_app, sumOver_app, IH by lia. simpl. lia.
Qed.

Lemma readyCount_all b : (∀ i, 0 <= i < count → bm_mem b i) → readyCount b = count.
Proof using Hcut.
  intros Hall. pose proof (cut_count _ _ _ Hcut). unfold readyCount.
  rewrite (sumOver_ext _ (λ _, 1)); [apply ones_sum; lia|]. intros i Hi%elem_of_seqZ.
  rewrite decide_True; [done|]. apply Hall. lia.
Qed.

Lemma readyCount_bounds b : 0 <= readyCount b <= count.
Proof using Hcut.
  pose proof (cut_count _ _ _ Hcut).
  assert (0 <= readyCount b <= sumOver (λ _, 1) (seqZ 0 count)) as Hb.
  { apply sumOver_bounds. intros i _. case_decide; lia. }
  rewrite ones_sum in Hb by lia. lia.
Qed.

Lemma completed_all c : flow_ok c → isCompleted (cl_task c) = true → allReady c.
Proof using Hcut.
  intros [_ _ _ Hc _ Hl _ _ _ _] E%Z.eqb_eq. unfold allReady. eapply readyBytes_full; [exact Hcut|].
  pose proof (readyBytes_bounds _ _ _ Hcut (readyOf c)). lia.
Qed.

(** ** The pieces *)

Lemma upTo_next i : 0 <= i < count →
  upTo i ++ take (Z.to_nat (sizeOf i)) (drop (Z.to_nat (i * pieceSize)) content) = upTo (i + 1).
Proof using Hcut.
  intros Hi. pose proof (cut_size _ _ _ Hcut). pose proof (sizeOf_bounds _ _ _ Hcut i Hi) as (H1 & H2 & H3).
  unfold upTo. rewrite take_take_drop. unfold PullContent.sizeOf in *.
  destruct (Z.min_spec pieceSize (len - i * pieceSize)) as [[_ Hm]|[Hle Hm]].
  - f_equal. lia.
  - rewrite !take_ge; [done|..]; lia.
Qed.

Lemma upTo_all : upTo count = content.
Proof using Hcut. unfold upTo. pose proof (cut_len _ _ _ Hcut). apply take_ge. lia. Qed.

Lemma upTo_prefix i : upTo i `prefix_of` content.
Proof. unfold upTo. exists (drop (Z.to_nat (i * pieceSize)) content). by rewrite take_drop. Qed.

(** What [writeOnePiece] does, for any piece. *)
Lemma ReadPiece_flow c i t r : flow_ok c → ts_invalid (cl_store c) = false →
  localTaskStore_ReadPiece (cl_fs c) now (cl_store c) i (mkRange 0 0) = (t, r) → 0 <= i →
  t = touch now (cl_store c) ∧
  match r with
  | inl _ => ¬ recorded c i
  | inr bs => i < count ∧ bs = take (Z.to_nat (sizeOf i)) (drop (Z.to_nat (i * pieceSize)) content)
  end.
Proof.
  intros Hf Hv Hr Hi. destruct Hf as [_ _ _ _ _ _ Hn _ Ha Hp]. unfold localTaskStore_ReadPiece in Hr.
  rewrite Hv in Hr. simpl in Hr. rewrite (os_Open_node _ _ file Hn) in Hr.
  destruct (Z.eqb_spec i (-1)); [lia|]. destruct (ts_Pieces (cl_store c) !! i) as [m|] eqn:Hm; simpl in Hr.
  - destruct (Hp i m Hm) as [Hic Hrange]. destruct (agrees_read _ _ _ _ _ Ha Hm) as [Hs Hrd].
    rewrite Hrange in *. simpl in *. destruct (Z.ltb_spec (i * pieceSize) 0); [lia|]. injection Hr as <- <-.
    split; [done|]. split; [lia|]. exact Hrd.
  - injection Hr as <- <-. split; [done|]. intros (m & Hm' & _). congruence.
Qed.

(** ** The operations on the client *)

(** The invariant goes on, and what is recorded and ready stays. *)
Record moves c c' : Prop := {
  mv_flow : flow_ok c';
  mv_recorded : ∀ i, recorded c i → recorded c' i;
  mv_ready : ∀ i, 0 <= i → bm_mem (readyOf c) i → bm_mem (readyOf c') i;
  mv_valid : ts_invalid (cl_store c') = ts_invalid (cl_store c);
}.

(** What the invariant does not see. *)
Record calm c c' : Prop := {
  ca_nodes : fs_nodes (cl_fs c') = fs_nodes (cl_fs c);
  ca_data : fileData (cl_fs c') file = fileData (cl_fs c) file;
  ca_path : ts_DataFilePath (cl_store c') = ts_DataFilePath (cl_store c);
  ca_file : ts_metadataFile (cl_store c') = ts_metadataFile (cl_store c);
  ca_pieces : ts_Pieces (cl_store c') = ts_Pieces (cl_store c);
  ca_ready : readyOf c' = readyOf c;
  ca_completed : pt_completedLength (cl_task c') = pt_completedLength (cl_task c);
  ca_length : pt_contentLength (cl_task c') = pt_contentLength (cl_task c) ∨ pt_contentLength (cl_task c') = len;
}.

Lemma calm_flow c c' : calm c c' → flow_ok c → flow_ok c'.
Proof.
  intros [Hn Hd Hp Hf Hps Hr Hc Hl] [? ? Hrd ? ? Hlen Hnode ? ? ?].
  split; rewrite ?Hr, ?Hc, ?Hp, ?Hf, ?Hps, ?Hd; try done.
  - intros i Hi Hm. destruct (Hrd i Hi Hm). split; [done|]. by eapply recorded_pieces.
  - destruct Hl as [->|]; [done|by right].
  - unfold os_Lstat in *. by rewrite Hn.
Qed.

Lemma calm_moves c c' : calm c c' → ts_invalid (cl_store c') = ts_invalid (cl_store c) → flow_ok c → moves c c'.
Proof.
  intros Hc Hv Hf. split; [by eapply calm_flow|..].
  - intros i. apply recorded_pieces, Hc.
  - intros i _. by rewrite (ca_ready _ _ Hc).
  - done.
Qed.

Lemma moves_trans c c1 c' : moves c c1 → (flow_ok c1 → moves c1 c') → moves c c'.
Proof. intros [H1 ? ? ?] [? ? ? ?]%(λ H, H H1). split; auto. congruence. Qed.

Lemma updPT_calm c f :
  let t := cl_task c in
  pt_readyPieces (f t) = pt_readyPieces t → pt_completedLength (f t) = pt_completedLength t →
  pt_contentLength (f t) = pt_contentLength t ∨ pt_contentLength (f t) = len → calm c (updPT f c).
Proof. by split. Qed.

Lemma Update_calm c : calm c (streamCallback_Update sha256 now c) ∧
  ts_invalid (cl_store (streamCallback_Update sha256 now c)) = ts_invalid (cl_store c) ∧
  cl_task (streamCallback_Update sha256 now c) = cl_task c.
Proof.
  unfold streamCallback_Update, storeUpdate, localTaskStore_UpdateTask. simpl.
  destruct (0 <? _), (decide _); (split; [split; by auto|by split]).
Qed.

Lemma Done_calm c c' e : flow_ok c → streamCallback_Done now c = (c', e) →
  calm c c' ∧ ts_invalid (cl_store c') = ts_invalid (cl_store c) ∧ pt_success (cl_task c') = pt_success (cl_task c) ∧
  pt_once (cl_task c') = pt_once (cl_task c).
Proof.
  intros Hf. pose proof (fl_meta _ Hf) as Hm. unfold streamCallback_Done, localTaskStore_Store, saveMetadata. simpl.
  destruct (0 <? _); simpl; destruct (ts_metadataRW _); simpl; intros [= <- <-];
    (split; [split; simpl; try done; rewrite ?fileData_writeAt_ne by done; by auto|by split]).
Qed.

Lemma addTraffic_calm n c : calm c (addTraffic n c).
Proof. unfold addTraffic. destruct (0 <? n); split; by auto. Qed.

Lemma reportMark_moves c info c' new : flow_ok c → isPiece info → recorded c (PieceNum info) →
  reportMark info c = Ok (c', new) →
  moves c c' ∧ pt_success (cl_task c') = pt_success (cl_task c) ∧ pt_once (cl_task c') = pt_once (cl_task c).
Proof using Hcut.
  intros Hf (i & Hi & ->) Hrec. pose proof Hf as [Hbm Hcap Hrd Hcl Hset Hl ? ? ? ?].
  pose proof (cut_count _ _ _ Hcut). pose proof (cut_small _ _ _ Hcut). pose proof (sizeOf_bounds _ _ _ Hcut i Hi) as Hsz.
  unfold reportMark. simpl. destruct (IsSet_total _ i Hbm ltac:(lia)) as [[] Hr]; rewrite Hr; simpl.
  { intros [= <- <-]. split; [|done]. apply calm_moves; [split; by auto|done..]. }
  set (b := pt_readyPieces (cl_task c)) in *.
  destruct (decide (i < 2 * bm_cap b)) as [Hlt|Hge]; [|rewrite Set_panics by (done || lia); done].
  destruct (Set_spec b i) as (b' & -> & Hbm' & Hcap' & _ & Hset' & Hm'); [done|lia|lia|]. simpl. intros [= <- <-].
  assert (¬ bm_mem b i) as Hn by (unfold bm_mem; congruence).
  pose proof (readyBytes_set _ _ _ Hcut b b' i Hi Hn Hm') as Hsum. pose proof (readyCount_set b b' i Hi Hn Hm') as Hcnt.
  pose proof (readyBytes_bounds _ _ _ Hcut b'). pose proof (readyBytes_bounds _ _ _ Hcut b). pose proof (readyCount_bounds b).
  split; [|done]. split; [split|..]; simpl; try done.
  - destruct (Z.leb_spec (bm_cap b) i); lia.
  - intros j Hj [->|Hm]%Hm'; [split; [lia|done]|by apply Hrd|done].
  - rewrite Hcl, int64_small by lia. lia.
  - rewrite Hset', Hset, int32_small by lia. lia.
  - intros j Hj Hm. apply Hm'; [done|]. by right.
Qed.

Lemma downloadWrite_moves c info download c' r : flow_ok c → isPiece info → honestDownload content info download →
  downloadWrite md5 now waitN c info download = (c', r) →
  moves c c' ∧ (r = None → recorded c' (PieceNum info)) ∧
  pt_success (cl_task c') = pt_success (cl_task c) ∧ pt_once (cl_task c') = pt_once (cl_task c).
Proof using Hcut.
  intros Hf (i & Hi & ->) Hh. pose proof (calm_moves c c) as Hsame. unfold downloadWrite.
  destruct (waitN _); [intros [= <- <-]; split; [apply Hsame; [split; by auto|done..]|done]|].
  destruct download as [e|rd]; [intros [= <- <-]; split; [apply Hsame; [split; by auto|done..]|done]|].
  unfold writePiece. fold (writeRequest (pieceAt content pieceSize pieceDigest i) rd).
  destruct (localTaskStore_WritePiece _ _ _ _ _) as [[[fs' t'] [n err]] rest] eqn:Hw. intros [= <- <-].
  pose proof (WritePiece_invalid md5 (cl_fs c) now (cl_store c) (writeRequest (pieceAt content pieceSize pieceDigest i) rd)) as Hv.
  rewrite Hw in Hv. simpl in Hv. pose proof (cut_small _ _ _ Hcut). pose proof (sizeOf_bounds _ _ _ Hcut i Hi).
  destruct (WritePiece_frame md5 now content pieceSize count pieceDigest Hcut _ _ _ _ _ _ _ _ _ Hi Hw) as (Hn & Hx & Hpath & Hfile & _ & _ & Hp).
  pose proof Hf as [? ? Hrd ? ? ? Hnode ? Hag Hps].
  assert ((∀ j, recorded c j → recorded (mkClient fs' t' (cl_task c)) j) ∧
    (err = None → recorded (mkClient fs' t' (cl_task c)) i)) as [Hmono Hnew].
  { apply (WritePiece_recorded md5 now content pieceSize count pieceDigest Hcut c i rd _ _ _ _ _ Hi Hw). intros m Hm. by apply Hps. }
  assert (moves c (mkClient fs' t' (cl_task c))) as Hmv.
  { split; [split|..]; simpl; try done.
    - intros j Hj Hm. destruct (Hrd j Hj Hm). auto.
    - rewrite Hpath. unfold os_Lstat in *. by rewrite Hn.
    - by rewrite Hfile.
    - destruct (WritePiece_agrees md5 _ _ _ _ content file _ _ _ _ Hw) as [_ Hag']; simpl;
        rewrite ?int64_small by lia; [by apply os_Open_node|done..|lia|done].
    - intros j m. destruct (ts_Pieces (cl_store c) !! i); [destruct Hp as [_ ->]; apply Hps|].
      destruct Hp as [[-> _]|(_ & m' & -> & Hr)]; [apply Hps|].
      rewrite lookup_insert_Some. intros [[<- <-]|[_ Hj]]; [done|by apply Hps]. }
  pose proof (addTraffic_calm n (mkClient fs' t' (cl_task c))) as Ht.
  split; [eapply moves_trans; [done|]; intros; apply calm_moves; [done| |done]; unfold addTraffic; by destruct (0 <? n)|].
  split; [intros He; destruct err; [done|]; eapply recorded_pieces; [apply Ht|]; by apply Hnew|].
  unfold addTraffic. by destruct (0 <? n).
Qed.

(** ** The steps *)

Lemma reporter_mono c c' r : (∀ i, recorded c i → recorded c' i) → reporter_ok c r → reporter_ok c' r.
Proof. intros Hm. destruct r; simpl; try done. intros []. auto. Qed.

Lemma inv_moves s c' : stream_inv s → moves (ss_client s) c' →
  pt_success (cl_task c') = pt_success (streamTask s) → pt_once (cl_task c') = pt_once (streamTask s) →
  stream_inv (set_ss_client c' s).
Proof.
  intros [? Hv Ho Hs Hr Hw ?] [? Hrec Hrd Hval] E1 E2. split; simpl; try done.
  - intros Hne. rewrite Hval. by apply Hv.
  - unfold streamTask. simpl. by rewrite E2.
  - unfold streamTask. simpl. rewrite E1, E2. intros [? Hall]%Hs. split; [done|].
    intros i Hi. apply Hrd; [lia|]. by apply Hall.
  - eapply Forall_impl; [exact Hr|]. intros r. by apply reporter_mono.
  - unfold writer_ok in *. simpl. unfold streamTask. simpl. by rewrite E1.
Qed.

Lemma inv_calm s f : stream_inv s → calm (ss_client s) (updPT f (ss_client s)) →
  pt_success (f (streamTask s)) = pt_success (streamTask s) → pt_once (f (streamTask s)) = pt_once (streamTask s) →
  stream_inv (updStream f s).
Proof. intros Hinv Hc E1 E2. apply inv_moves; try done. apply calm_moves; [done..|apply Hinv]. Qed.

Lemma inv_reporter s i r : stream_inv s → reporter_ok (ss_client s) r → stream_inv (set_reporter i r s).
Proof. intros [? ? ? ? ? ? ?] ?. split; try done. by apply Forall_insert. Qed.

(** The end of the task: the writer is not beyond it. *)
Lemma inv_ended s c' running : stream_inv s → pt_once (streamTask s) = false → moves (ss_client s) c' →
  pt_once (cl_task c') = true → (pt_success (cl_task c') = true → allReady c') →
  stream_inv (set_ss_ended true running (set_ss_client c' s)).
Proof.
  intros [? Hv Ho Hs Hr Hw ?] Hfalse [? Hrec Hrd Hval] E2 Hall. rewrite Hfalse in Ho. split; simpl; try done.
  - intros Hne. rewrite Hval. by apply Hv.
  - intros ?. split; [done|]. by apply Hall.
  - eapply Forall_impl; [exact Hr|]. intros r. by apply reporter_mono.
  - unfold writer_ok in *. simpl. rewrite Ho in Hw.
    destruct (ss_writer s) as [| | |d|[e|]|]; try done; [by destruct Hw as (_ & _ & ?)|by destruct Hw].
Qed.

Lemma inv_finish s : stream_inv s → allReady (ss_client s) → stream_inv (stream_finish sha256 now s).
Proof.
  intros Hinv Hall. unfold stream_finish. destruct (pt_once (streamTask s)) eqn:Ho; [done|].
  set (c1 := updPT _ (ss_client s)). destruct (Update_calm c1) as (Hu & Huv & Hut).
  assert (moves (ss_client s) c1) as Hm1 by (apply calm_moves; [split; by auto|done|apply Hinv]).
  set (c2 := updPT sendEnd _). assert (moves (ss_client s) c2) as Hm2.
  { eapply moves_trans; [exact Hm1|]. intros Hf1.
    eapply moves_trans; [by apply calm_moves; [exact Hu|..]|]. intros. apply calm_moves; [apply updPT_calm; by auto|done..]. }
  destruct (streamCallback_Done now c2) as [c3 err] eqn:Hd.
  destruct (Done_calm _ _ _ (mv_flow _ _ Hm2) Hd) as (Hc3 & Hv3 & Hs3 & Ho3).
  assert (moves (ss_client s) (updPT (set_pt_done true) c3)) as Hm3.
  { eapply moves_trans; [exact Hm2|]. intros. eapply moves_trans; [by apply calm_moves; [exact Hc3|..]|].
    intros. apply calm_moves; [apply updPT_calm; by auto|done..]. }
  apply inv_ended; [done..| |].
  - change (pt_once (cl_task c3) = true). rewrite Ho3. change (pt_once (cl_task (streamCallback_Update sha256 now c1)) = true).
    by rewrite Hut.
  - intros _ i Hi. apply (mv_ready _ _ Hm3); [lia|]. by apply Hall.
Qed.

Lemma inv_clean s : stream_inv s → stream_inv (stream_cleanUnfinished s).
Proof.
  intros Hinv. unfold stream_cleanUnfinished. destruct (pt_once (streamTask s)) eqn:Ho; [done|].
  apply inv_ended; try done; [apply calm_moves; [split; by auto|done|apply Hinv]|].
  simpl. intros Hs. by apply (si_success _ Hinv).
Qed.

Lemma inv_length s : stream_inv s → stream_inv (stream_SetContentLength sha256 now len s).
Proof using Hcut.
  intros Hinv. unfold stream_SetContentLength.
  assert (stream_inv (updStream (set_pt_contentLength len) s)) as Hi.
  { apply inv_calm; [done|apply updPT_calm; by auto|done..]. }
  destruct (isCompleted _) eqn:Hc; [|done]. apply inv_finish; [done|]. eapply completed_all; [apply Hi|done].
Qed.

(** *** The writer *)

Lemma writeOnePiece_ok i left s s' err : stream_inv s → ts_invalid (cl_store (ss_client s)) = false → 0 <= i →
  ss_pipe s = upTo i → writeOnePiece now i left s = (s', err) →
  ∃ c', moves (ss_client s) c' ∧ cl_task c' = streamTask s ∧ cl_store c' = touch now (cl_store (ss_client s)) ∧
    match err with
    | None => i < count ∧ s' = set_ss_pipe (upTo (i + 1)) (set_ss_client c' s)
    | Some e => ∃ bs, s' = set_ss_pipe bs (set_ss_client c' s) ∧ bs `prefix_of` content ∧
        (left = None → ¬ recorded (ss_client s) i)
    end.
Proof using Hcut.
  intros Hinv Hv Hi Hp. unfold writeOnePiece.
  destruct (localTaskStore_ReadPiece _ _ _ _ _) as [t r] eqn:Hr.
  destruct (ReadPiece_flow _ _ _ _ (si_flow _ Hinv) Hv Hr Hi) as [-> Hrd].
  set (c' := mkClient _ _ _). assert (moves (ss_client s) c') as Hm.
  { apply calm_moves; [split; by auto|done|apply Hinv]. }
  destruct r as [e|bs].
  - intros [= <- <-]. exists c'. do 3 (split; [done|]). exists (ss_pipe s). split; [by destruct s|].
    rewrite Hp. split; [apply upTo_prefix|done].
  - destruct Hrd as [Hc ->]. pose proof (upTo_next i ltac:(lia)) as Hnext.
    destruct left as [n|]; intros [= <- <-]; exists c'; (do 3 (split; [done|])); simpl; rewrite Hp.
    + eexists. split; [done|]. split; [|done]. etrans; [|apply (upTo_prefix (i + 1))]. rewrite <-Hnext.
      apply prefix_app. eexists. symmetry. apply take_drop.
    + by rewrite Hnext.
Qed.

(** The turns of the writer leave the rest of the task alone. *)
Lemma inv_writer s w bs : stream_inv s → (∀ err, ss_writer s ≠ PwReturned err) →
  writer_ok (set_ss_writer w (set_ss_pipe bs s)) → stream_inv (set_ss_writer w (set_ss_pipe bs s)).
Proof. intros [? Hv ? ? ? ? ?] Hne Hw. split; try done. intros _. by apply Hv. Qed.

Lemma inv_ctx s : stream_inv s → stream_inv (set_ss_ctxDone true s).
Proof. by intros [? ? ? ? ? ? ?]. Qed.

Lemma inv_validated s d c err : stream_inv s → ss_writer s = PwDrain d → bm_settled (pt_readyPieces (streamTask s)) = d →
  streamCallback_ValidateDigest sha256 calculateDigest (ss_client s) = (c, err) →
  stream_inv (leavePipe (PipeStore <$> err) (set_ss_client c s)).
Proof using Hcut.
  intros Hinv Hw Hd Hv. assert (calm (ss_client s) c ∧ cl_task c = streamTask s) as [Hc Ht].
  { revert Hv. unfold streamCallback_ValidateDigest, localTaskStore_ValidateDigest.
    destruct calculateDigest; [|intros [= <- <-]; split; [split; by auto|done]].
    repeat case_match; intros; simplify_eq; (split; [split; by auto|done]). }
  pose proof Hinv as [Hf _ Ho Hs Hr Hwo Hst]. unfold writer_ok in Hwo. rewrite Hw in Hwo. destruct Hwo as (_ & Hp & Hdone).
  split; simpl; try done.
  - by eapply calm_flow.
  - intros Hne. by destruct (Hne (PipeStore <$> err)).
  - unfold streamTask. simpl. by rewrite Ht.
  - unfold streamTask. simpl. rewrite Ht. intros [? Hall]%Hs. split; [done|]. intros i Hi. rewrite (ca_ready _ _ Hc). by apply Hall.
  - eapply Forall_impl; [exact Hr|]. intros r. apply reporter_mono. intros i. apply recorded_pieces, Hc.
  - unfold writer_ok. simpl. destruct err as [e|]; simpl; [rewrite Hp; apply upTo_prefix|]. split; [done|].
    exists d. split; [done|]. unfold streamTask. simpl. rewrite Ht. intros [_ Hall]%Hs.
    rewrite <-Hd. unfold streamTask. rewrite (fl_settled _ Hf). by apply readyCount_all.
Qed.

(** A turn that writes: the next state of the writer is right when the piece was written. *)
Lemma inv_wrote i left s s' err (next : PipeWriter) : stream_inv s → (∀ err, ss_writer s ≠ PwReturned err) → 0 <= i →
  ss_pipe s = upTo i → writeOnePiece now i left s = (s', err) →
  (i < count → ∀ s1, ss_pipe s1 = upTo (i + 1) → ss_streamDone s1 = ss_streamDone s → writer_ok (set_ss_writer next s1)) →
  stream_inv (match err with Some e => leavePipe (Some e) s' | None => set_ss_writer next s' end).
Proof using Hcut.
  intros Hinv Hne Hi Hp Hw Hnext.
  destruct (writeOnePiece_ok i left s s' err) as (c' & Hm & Ht & _ & He); try done; [by apply (si_valid _ Hinv)|].
  assert (stream_inv (set_ss_client c' s)) as Hinv' by (apply inv_moves; [done..| |]; by rewrite Ht).
  destruct err as [e|].
  - destruct He as (bs & -> & Hb & _). unfold leavePipe. apply inv_ctx. by apply inv_writer.
  - destruct He as [Hc ->]. apply inv_writer; [done..|]. by apply Hnext.
Qed.

Lemma writerStep_inv ch s s' : stream_inv s → writerStep sha256 calculateDigest now ch s = Some s' → stream_inv s'.
Proof using Hcut.
  intros Hinv. pose proof (cut_count _ _ _ Hcut). pose proof (si_writer _ Hinv) as Hw. unfold writer_ok in Hw.
  unfold writerStep. destruct (ss_writer s) as [|d cache|d cache|d|err|] eqn:E; try done.
  - assert (∀ m, stream_inv (startError m s)) as Hstart.
    { intros m. destruct Hinv as [? Hv ? ? ? ? ?]. split; try done.
      - intros _. apply Hv. by rewrite E.
      - simpl. intros attr err v [= <- <-]. unfold taskAttributes. by rewrite lookup_insert_ne, lookup_singleton_ne. }
    destruct ch; try done; case_match; try done; intros [= <-]; apply Hstart.
  - destruct Hw as (Hd & Hcache & Hp). set (next := if decide (int32 (d + 1) ∈ cache ∖ {[d]}) then _ else _).
    assert (∀ s' err, writeOnePiece now d (leftOf ch) s = (s', err) →
      stream_inv (match err with Some e => leavePipe (Some e) s' | None => set_ss_writer next s' end)) as Hwrote.
    { intros s1 err Ho. apply (inv_wrote d (leftOf ch) s); [done|by rewrite E|lia|done..|]. intros Hc s2 Hp2 _.
      unfold writer_ok, next. simpl. rewrite int32_small by lia.
      assert (∀ i, i ∈ cache ∖ {[d]} → 0 <= i < count) as Hsub by (intros i [Hi _]%elem_of_difference; by apply Hcache).
      case_decide as Hin; simpl; split_and!; try done; try lia. apply Hsub in Hin. lia. }
    destruct ch; try done; destruct (writeOnePiece _ _ _ _) as [s1 [e|]]; intros [= <-]; exact (Hwrote _ _ eq_refl).
  - destruct Hw as (Hd & Hcache & Hp). destruct ch; try done.
    + destruct (ss_ctxDone s); [|done]. intros [= <-]. assert (s = set_ss_pipe (ss_pipe s) s) as Hs by (by destruct s).
      rewrite Hs. apply inv_ctx, inv_writer; [done|by rewrite E|]. unfold writer_ok. simpl. rewrite Hp. apply upTo_prefix.
    + destruct (ss_streamDone s) eqn:Hdone; [|done]. intros [= <-]. assert (s = set_ss_pipe (ss_pipe s) s) as Hs by (by destruct s).
      rewrite Hs. apply inv_writer; [done|by rewrite E|]. unfold writer_ok. simpl. done.
  - destruct Hw as (Hd & Hp & Hdone). set (next := PwDrain (int32 (d + 1))).
    assert (∀ s' err, writeOnePiece now d (leftOf ch) s = (s', err) →
      stream_inv (match err with Some e => leavePipe (Some e) s' | None => set_ss_writer next s' end)) as Hwrote.
    { intros s1 err Ho. apply (inv_wrote d (leftOf ch) s); [done|by rewrite E|lia|done..|]. intros Hc s2 Hp2 Hd2.
      unfold writer_ok, next. simpl. rewrite int32_small by lia. split; [lia|]. split; [done|]. by rewrite Hd2. }
    destruct ch; try done; (destruct (Z.eqb_spec (Bitmap_Settled (pt_readyPieces (streamTask s))) d) as [Hs|Hs];
      [destruct (streamCallback_ValidateDigest _ _ _) as [c err] eqn:Hv; intros [= <-]; by eapply inv_validated|
       destruct (writeOnePiece _ _ _ _) as [s1 [e|]]; intros [= <-]; exact (Hwrote _ _ eq_refl)]).
Qed.

(** *** The reports *)

Lemma receiveNumber_inv num s s' : stream_inv s → 0 <= num < count → receiveNumber num s = Some s' →
  stream_inv s' ∧ ss_client s' = ss_client s ∧ ss_reporters s' = ss_reporters s.
Proof using Hcut.
  intros Hinv Hn. pose proof Hinv as [Hf Hv ? ? ? Hw Hst]. unfold writer_ok in Hw. unfold receiveNumber.
  assert (∀ d cache, 0 <= d <= count → (∀ i, i ∈ cache → 0 <= i < count) → ss_pipe s = upTo d →
    ∀ s1, ss_pipe s1 = ss_pipe s → writer_ok (set_ss_writer (gotNumber d num cache) s1)) as Hgot.
  { intros d cache Hd Hc Hp s1 Hp1. unfold writer_ok, gotNumber. simpl. rewrite Hp1.
    destruct (Z.eqb_spec d num) as [->|]; simpl; split_and!; try done; try lia.
    intros i [->%elem_of_singleton|Hi]%elem_of_union; [done|by apply Hc]. }
  destruct (ss_writer s) as [|d cache|d cache|d|err|]; try done; intros [= <-]; (split; [|done]).
  - split; try done.
    + intros _. by apply Hv.
    + apply Hgot; [lia| |by rewrite Hw|done]. intros i ->%elem_of_singleton. done.
    + simpl. intros attr err v [= <- <-]. unfold streamAttributes, taskAttributes. pose proof (fl_length _ Hf) as Hl.
      unfold streamTask in *. destruct (Z.eqb_spec (pt_contentLength (cl_task (ss_client s))) (-1)) as [|Hne].
      * rewrite !lookup_insert_ne, lookup_singleton_ne by done. done.
      * rewrite lookup_insert_eq. intros [= <-]. destruct Hl as [?| ->]; done.
  - destruct Hw as (Hd & Hc & Hp). split; try done.
    + intros _. by apply Hv.
    + by apply Hgot.
Qed.

(** The choices of the schedule that come from outside: the pieces are those of
    the content, its length is the right one, and a download from the source
    ends with all of it. *)
Definition honestChoice (ch : StreamChoice) s : Prop :=
  match ch with
  | ScLength i => i = len
  | ScFinish => isCompleted (streamTask s) = true
  | ScReport _ (RpDownload _ piece _ download) => isPiece piece ∧ honestDownload content piece download
  | _ => True
  end.

Lemma reportStep_inv i ch s s' : stream_inv s → honestChoice (ScReport i ch) s →
  reportStep md5 sha256 now waitN i ch s = Ok (Some s') → stream_inv s'.
Proof using Hcut.
  intros Hinv Hh. unfold reportStep. destruct (ss_reporters s !! i) as [r|] eqn:Hr; [|done].
  pose proof (proj1 (Forall_lookup _ _) (si_reporters _ Hinv) i r Hr) as Hok.
  destruct r as [|dst piece|dst piece|num| |num], ch as [dst' piece' notRetry download| |]; simpl in Hh, Hok; try done.
  - destruct Hh as [Hp Hd]. destruct (downloadWrite _ _ _ _ _ _) as [c e] eqn:Hw.
    destruct (downloadWrite_moves _ _ _ _ _ (si_flow _ Hinv) Hp Hd Hw) as (Hm & Hrec & Hs & Ho). intros [= <-].
    destruct e as [end_|]; [apply inv_reporter; [|by destruct notRetry]|apply inv_reporter; [by apply inv_moves|by simpl; auto]].
    apply inv_moves; [done| |done..]. eapply moves_trans; [done|]. intros. apply calm_moves; [split; by auto|done..].
  - destruct (reportMark piece (ss_client s)) as [[c new]| |] eqn:Hm; simpl; [|done..]. intros [= <-].
    destruct Hok as [Hp Hrec]. destruct (reportMark_moves _ _ _ _ (si_flow _ Hinv) Hp Hrec Hm) as (Hmv & Hs & Ho).
    apply inv_reporter; [by apply inv_moves|by destruct new].
  - intros [= <-]. destruct Hok as (k & Hk & ->). apply inv_reporter; [|done].
    apply inv_calm; [done|apply updPT_calm; by auto|done..].
  - destruct (receiveNumber num s) as [s1|] eqn:Hn; simpl; [|done]. intros [= <-].
    destruct (receiveNumber_inv _ _ _ Hinv Hok Hn) as [Hi _]. by apply inv_reporter.
  - intros [= <-]. assert (stream_inv (set_reporter i RpIdle s)) as Hi by (by apply inv_reporter).
    destruct (ss_ctxDone _); [done|]. destruct (isCompleted _) eqn:Hc; [|done]. apply inv_finish; [done|].
    eapply completed_all; [apply Hi|done].
  - destruct (_ <? _)%nat; [|done]. intros [= <-]. apply inv_reporter; [|done].
    apply inv_calm; [done|apply updPT_calm; by auto|done..].
  - destruct (stream_ended s); [|done]. intros [= <-]. by apply inv_reporter.
Qed.

(** ** Runs *)

#[local] Notation streamStep := (streamStep md5 sha256 calculateDigest now waitN).
#[local] Notation runStream := (runStream md5 sha256 calculateDigest now waitN).

Fixpoint honestStream (sched : list StreamChoice) s : Prop :=
  match sched with
  | [] => True
  | ch :: sched => honestChoice ch s ∧ match streamStep ch s with Ok (Some s) => honestStream sched s | _ => True end
  end.

Lemma streamStep_inv ch s s' : stream_inv s → honestChoice ch s → streamStep ch s = Ok (Some s') → stream_inv s'.
Proof using Hcut.
  intros Hinv Hh. destruct ch; simpl in *.
  - intros [= <-]. by apply inv_ctx.
  - intros [= <-]. subst. by apply inv_length.
  - intros [= <-]. apply inv_calm; [done|apply updPT_calm; by auto|done..].
  - intros [= <-]. apply inv_calm; [done|apply updPT_calm; by auto|done..].
  - intros [= <-]. destruct (Update_calm (ss_client s)) as (Hc & Hv & Ht).
    apply inv_moves; [done| |by rewrite Ht..]. apply calm_moves; [done..|apply Hinv].
  - intros [= <-]. apply inv_finish; [done|]. eapply completed_all; [apply Hinv|done].
  - intros [= <-]. apply inv_clean. apply inv_calm; [done|apply updPT_calm; by auto|done..].
  - destruct (writerStep _ _ _ _ _) eqn:Hw; [|done]. intros [= <-]. by eapply writerStep_inv.
  - by apply reportStep_inv.
Qed.

Lemma runStream_inv sched s s' : stream_inv s → honestStream sched s → runStream sched s = Ok (Some s') → stream_inv s'.
Proof using Hcut.
  revert s. induction sched as [|ch sched IH]; intros s Hinv Hh H; [by injection H as <-|].
  cbn [StreamTask.runStream] in H. destruct Hh as [Hc Hh]. destruct (streamStep ch s) as [[q|]| |] eqn:Hq; simpl in H; try done.
  apply (IH q); [|done..]. by eapply streamStep_inv.
Qed.

(** A new task with its registered, empty store. *)
Record registered c : Prop := {
  rg_node : os_Lstat (cl_fs c) (ts_DataFilePath (cl_store c)) = Some (NodeFile file);
  rg_meta : ts_metadataFile (cl_store c) ≠ file;
  rg_data : fileData (cl_fs c) file = [];
  rg_pieces : ts_Pieces (cl_store c) = ∅;
  rg_valid : ts_invalid (cl_store c) = false;
  rg_task : cl_task c = newFilePeerTask (pt_taskID (cl_task c)) (pt_peerID (cl_task c));
}.

Lemma newStreamer_inv n c : registered c → stream_inv (newStreamer n c).
Proof using Hcut.
  intros [Hn Hm Hd Hp Hv Ht]. pose proof (cut_count _ _ _ Hcut) as Hcnt.
  revert Ht. generalize (pt_taskID (cl_task c)) (pt_peerID (cl_task c)). intros taskID peerID Ht.
  assert (∀ f : Z → Z, (∀ i, i ∈ seqZ 0 count → f i = 0) → sumOver f (seqZ 0 count) = 0) as Hzero.
  { intros f. generalize (seqZ 0 count). induction l as [|x l IH]; intros Hf; [done|]. simpl.
    rewrite Hf by apply list_elem_of_here. rewrite IH; [done|]. intros i Hi. apply Hf. by apply list_elem_of_further. }
  assert (∀ i, i ∈ seqZ 0 count → ¬ bm_mem NewBitmap i) as Hempty by (intros i Hi%elem_of_seqZ; apply NewBitmap_empty; lia).
  unfold newStreamer. split; simpl; unfold streamTask; simpl; rewrite ?Ht; try done.
  - split; rewrite ?Ht; simpl; try done.
    + apply NewBitmap_ok.
    + lia.
    + intros i Hi []%NewBitmap_empty. done.
    + symmetry. apply Hzero. intros i Hi. unfold readySize. by rewrite decide_False by auto.
    + symmetry. apply Hzero. intros i Hi. by rewrite decide_False by auto.
    + by left.
    + rewrite Hd, Hp. split; [simpl; lia|]. intros num q. by rewrite lookup_empty.
    + intros i m. by rewrite Hp, lookup_empty.
  - by apply Forall_replicate.
Qed.

(** ** The writer ends *)

(** The digest of the pieces is right, when it is asked for. *)
Definition digestRight s : Prop := (streamCallback_ValidateDigest sha256 calculateDigest (ss_client s)).2 = None.

(** The turns the writer still has before it. *)
Definition turnsLeft (w : PipeWriter) : Z :=
  match w with
  | PwWrite d _ => count - d + 2
  | PwSelect d _ => count - d + 1
  | PwDrain d => count - d
  | _ => -1
  end.

Record succeeding s : Prop := {
  su_inv : stream_inv s;
  su_success : pt_success (streamTask s) = true;
  su_digest : digestRight s;
  su_writing : 0 <= turnsLeft (ss_writer s);
}.

Lemma digestRight_meta s s' : ts_meta (cl_store (ss_client s')) = ts_meta (cl_store (ss_client s)) → digestRight s → digestRight s'.
Proof.
  unfold digestRight, streamCallback_ValidateDigest, localTaskStore_ValidateDigest. intros ->.
  destruct calculateDigest; [|done]. destruct (decide _); [done|]. destruct (_ <=? _); [done|]. by destruct (decide _).
Qed.

Lemma success_recorded s i : stream_inv s → pt_success (streamTask s) = true → 0 <= i < count → recorded (ss_client s) i.
Proof.
  intros [Hf _ _ Hs _ _ _] [_ Hall]%Hs Hi. apply (fl_ready _ Hf); [lia|]. by apply Hall.
Qed.

(** In a task that succeeded, every piece can be written. *)
Lemma write_succeeds s d : succeeding s → 0 <= d < count → ss_pipe s = upTo d →
  ∃ s', writeOnePiece now d None s = (s', None) ∧ digestRight s' ∧ pt_success (streamTask s') = true.
Proof using Hcut.
  intros [Hinv Hs Hdg Hw] Hd Hp. destruct (writeOnePiece now d None s) as [s' err] eqn:Ho.
  assert (∀ err, ss_writer s ≠ PwReturned err) as Hne by (intros e E; rewrite E in Hw; simpl in Hw; lia).
  destruct (writeOnePiece_ok d None s s' err) as (c' & Hm & Ht & Hst & He); [done|by apply (si_valid _ Hinv)|lia|done..|].
  destruct err as [e|].
  { destruct He as (bs & _ & _ & Hn). destruct (Hn eq_refl). by apply success_recorded. }
  destruct He as [_ ->]. eexists. split; [done|]. split; [|unfold streamTask in *; simpl; by rewrite Ht].
  eapply digestRight_meta; [|done]. simpl. by rewrite Hst.
Qed.

Lemma validated_task c c' err : streamCallback_ValidateDigest sha256 calculateDigest c = (c', err) → cl_task c' = cl_task c.
Proof.
  unfold streamCallback_ValidateDigest. destruct calculateDigest; [|by intros [= <- <-]].
  destruct (localTaskStore_ValidateDigest _ _). by intros [= <- <-].
Qed.

Lemma writer_turn s : succeeding s → ∃ ch s', (ch = PcGo ∨ ch = PcDone) ∧
  writerStep sha256 calculateDigest now ch s = Some s' ∧
  (ss_writer s' = PwReturned None ∧ pt_success (streamTask s') = true ∨ succeeding s' ∧ turnsLeft (ss_writer s') < turnsLeft (ss_writer s)).
Proof using Hcut.
  intros Hsu. pose proof Hsu as [Hinv Hs Hdg Hw]. pose proof (si_writer _ Hinv) as Hwo. unfold writer_ok in Hwo.
  pose proof (cut_count _ _ _ Hcut).
  assert (∀ ch s', writerStep sha256 calculateDigest now ch s = Some s' → digestRight s' → pt_success (streamTask s') = true →
    0 <= turnsLeft (ss_writer s') < turnsLeft (ss_writer s) →
    succeeding s' ∧ turnsLeft (ss_writer s') < turnsLeft (ss_writer s)) as Hgo.
  { intros ch s' Hst ? ? [? ?]. split; [|done]. split; try done. by eapply writerStep_inv. }
  unfold writerStep in *. destruct (ss_writer s) as [|d cache|d cache|d|err|] eqn:E; simpl in Hw; try lia.
  - destruct Hwo as (Hd & Hc & Hp). destruct (write_succeeds s d Hsu Hd Hp) as (s1 & Ho & Hdg1 & Hs1).
    specialize (Hgo PcGo). simpl in Hgo. rewrite Ho in Hgo.
    exists PcGo. eexists. split; [by left|]. simpl. rewrite Ho. split; [done|]. right. apply Hgo; [done..|].
    simpl. rewrite int32_small by lia. clear Hgo. destruct (decide _); simpl; lia.
  - exists PcDone. eexists. split; [by right|]. destruct Hwo as (Hd & _ & _).
    assert (ss_streamDone s = true) as Hdone by (rewrite (si_once _ Hinv); by apply (si_success _ Hinv)).
    rewrite Hdone. split; [done|]. right. apply (Hgo PcDone); [by rewrite Hdone|done..|]. simpl. lia.
  - destruct Hwo as (Hd & Hp & _). specialize (Hgo PcGo). simpl in Hgo.
    assert (Bitmap_Settled (pt_readyPieces (streamTask s)) = count) as Hset.
    { unfold Bitmap_Settled, streamTask. rewrite (fl_settled _ (si_flow _ Hinv)). apply readyCount_all. by apply (si_success _ Hinv). }
    exists PcGo. eexists. split; [by left|]. split; [done|]. simpl. rewrite Hset in *.
    destruct (Z.eqb_spec count d) as [|Hne].
    + left. destruct (streamCallback_ValidateDigest _ _ _) as [c err] eqn:Hv. unfold digestRight in Hdg. rewrite Hv in Hdg.
      simpl in Hdg. subst err. split; [done|]. unfold streamTask. simpl. by rewrite (validated_task _ _ _ Hv).
    + right. destruct (write_succeeds s d Hsu ltac:(lia) Hp) as (s1 & Ho & Hdg1 & Hs1). rewrite Ho in *.
      apply Hgo; [done..|]. simpl. rewrite int32_small by lia. lia.
Qed.

Lemma writer_ends s : succeeding s → ∃ sched s', Forall (λ ch, ch = ScWriter PcGo ∨ ch = ScWriter PcDone) sched ∧
  Z.of_nat (length sched) <= turnsLeft (ss_writer s) + 1 ∧ runStream sched s = Ok (Some s') ∧
  ss_writer s' = PwReturned None ∧ pt_success (streamTask s') = true ∧ honestStream sched s.
Proof using Hcut.
  intros Hsu. remember (Z.to_nat (turnsLeft (ss_writer s))) as n eqn:Hn. revert s Hsu Hn.
  induction n as [n IH] using lt_wf_ind. intros s Hsu Hn. pose proof (su_writing _ Hsu) as Hpos.
  destruct (writer_turn s Hsu) as (ch & s1 & Hch & Hst & Hnext).
  assert (ScWriter ch = ScWriter PcGo ∨ ScWriter ch = ScWriter PcDone) as Hch' by (destruct Hch as [->| ->]; auto).
  destruct Hnext as [[Hret Hs]|[Hsu1 Hlt]].
  - exists [ScWriter ch], s1. cbn [StreamTask.runStream StreamTask.streamStep honestStream honestChoice]. rewrite Hst. simpl.
    split_and!; try done; [by apply Forall_singleton|lia].
  - pose proof (su_writing _ Hsu1). destruct (IH (Z.to_nat (turnsLeft (ss_writer s1))) ltac:(lia) s1 Hsu1 eq_refl)
      as (sched & s2 & Hall & Hlen & Hrun & Hret & Hs & Hh).
    exists (ScWriter ch :: sched), s2. cbn [StreamTask.runStream StreamTask.streamStep honestStream honestChoice]. rewrite Hst. simpl.
    split_and!; try done; [by constructor|lia].
Qed.

Lemma returned_content s : stream_inv s → ss_writer s = PwReturned None → pt_success (streamTask s) = true → ss_pipe s = content.
Proof using Hcut.
  intros Hinv E Hs. pose proof (si_writer _ Hinv) as Hw. unfold writer_ok in Hw. rewrite E in Hw.
  destruct Hw as (_ & d & -> & Hd). rewrite Hd by done. apply upTo_all.
Qed.

Lemma pipe_prefix s : stream_inv s → ss_pipe s `prefix_of` content.
Proof.
  intros Hinv. pose proof (si_writer _ Hinv) as Hw. unfold writer_ok in Hw. pose proof upTo_prefix as Hp.
  destruct (ss_writer s) as [|d cache|d cache|d|[e|]|].
  - rewrite Hw. apply prefix_nil.
  - destruct Hw as (_ & _ & ->). apply Hp.
  - destruct Hw as (_ & _ & ->). apply Hp.
  - destruct Hw as (_ & -> & _). apply Hp.
  - done.
  - destruct Hw as (_ & d & -> & _). apply Hp.
  - rewrite Hw. apply prefix_nil.
Qed.

End Flow.

(** C5: The reader of a stream task gets the content: in every schedule of the
    goroutines that download pieces, of their reports and of the writer, what
    was read from the pipe is the start of the content; it is all of it when
    the pipe ends without an error and the task succeeded; and a content length
    among the attributes is its length. *)
Theorem stream_delivers md5 sha256 {C : MetadataCodec} calculateDigest now waitN content file pieceSize count pieceDigest
    n sched c s :
  cut content pieceSize count → registered file c →
  honestStream md5 sha256 calculateDigest now waitN content pieceSize count pieceDigest sched (newStreamer n c) →
  runStream md5 sha256 calculateDigest now waitN sched (newStreamer n c) = Ok (Some s) →
  ss_pipe s `prefix_of` content ∧
  (ss_writer s = PwReturned None → pt_success (streamTask s) = true → ss_pipe s = content) ∧
  ∀ attr err v, ss_started s = Some (attr, err) → attr !! HeaderContentLength = Some v →
    v = pretty (Z.of_nat (length content)).
Proof.
  intros Hcut Hreg Hh Hrun. pose proof (newStreamer_inv content file pieceSize count pieceDigest Hcut n c Hreg) as H0.
  pose proof (runStream_inv _ _ _ _ _ _ _ _ _ _ Hcut _ _ _ H0 Hh Hrun) as Hinv.
  split; [by eapply pipe_prefix|]. split; [by eapply returned_content|apply Hinv].
Qed.

(** C25: A stream task that has succeeded can always be read to its end: at any
    point of any schedule at which the writer is at work, when the digest of
    the pieces is right, the turns of the writer alone, at most three more than
    there are pieces, hand the rest of the content to the reader and end the
    pipe without an error; no report is needed for it. *)
Theorem stream_completes md5 sha256 {C : MetadataCodec} calculateDigest now waitN content file pieceSize count pieceDigest
    n sched c s :
  cut content pieceSize count → registered file c →
  honestStream md5 sha256 calculateDigest now waitN content pieceSize count pieceDigest sched (newStreamer n c) →
  runStream md5 sha256 calculateDigest now waitN sched (newStreamer n c) = Ok (Some s) →
  pt_success (streamTask s) = true → digestRight sha256 calculateDigest s → 0 <= turnsLeft count (ss_writer s) →
  ∃ sched' s', Forall (λ ch, ch = ScWriter PcGo ∨ ch = ScWriter PcDone) sched' ∧ Z.of_nat (length sched') <= count + 3 ∧
    runStream md5 sha256 calculateDigest now waitN sched' s = Ok (Some s') ∧
    ss_writer s' = PwReturned None ∧ ss_pipe s' = content.
Proof.
  intros Hcut Hreg Hh Hrun Hs Hdg Hw. pose proof (newStreamer_inv content file pieceSize count pieceDigest Hcut n c Hreg) as H0.
  pose proof (runStream_inv _ _ _ _ _ _ _ _ _ _ Hcut _ _ _ H0 Hh Hrun) as Hinv.
  destruct (writer_ends md5 sha256 calculateDigest now waitN content file pieceSize count pieceDigest Hcut s)
    as (sched' & s' & Hall & Hlen & Hrun' & Hret & Hs' & Hh'); [by split|].
  pose proof (runStream_inv _ _ _ _ _ _ _ _ _ _ Hcut _ _ _ Hinv Hh' Hrun') as Hinv'.
  exists sched', s'. split_and!; try done; [|by eapply returned_content].
  pose proof (si_writer _ _ _ _ _ _ Hinv) as Hwo. unfold writer_ok in Hwo.
  destruct (ss_writer s); simpl in *; lia.
Qed.

(** ** The reports that are not received *)

(** The writer does not receive any more. *)
Definition noReceiver (w : PipeWriter) : Prop := match w with PwReturned _ | PwRefused | PwDrain _ => True | _ => False end.

Section Waiting.
Context (md5 : list byte → string) (sha256 : string → string) {C : MetadataCodec}.
Context (calculateDigest : bool) (now : Z) (waitN : Z → option StoreError) (i : nat) (num : Z).

Definition waiting (s : Streamer) : Prop := noReceiver (ss_writer s) ∧ ss_reporters s !! i = Some (RpSend num).

Lemma finish_waiting s : waiting s → waiting (stream_finish sha256 now s).
Proof. unfold stream_finish. destruct (pt_once _); [done|]. by destruct (streamCallback_Done _ _). Qed.

Lemma writerStep_waiting ch s s' : waiting s → writerStep sha256 calculateDigest now ch s = Some s' → waiting s'.
Proof.
  intros [Hw Hi] Hst. unfold writerStep in Hst.
  assert (∀ d left s2 err, writeOnePiece now d left s = (s2, err) → ss_reporters s2 = ss_reporters s) as Hwr.
  { intros d left s3 err. unfold writeOnePiece. repeat case_match; intros; by simplify_eq. }
  destruct (ss_writer s) as [| | |d| |]; try done. destruct ch as [|k| |]; try done;
    (destruct (Bitmap_Settled _ =? _);
     [by destruct (streamCallback_ValidateDigest _ _ _); simplify_eq|
      destruct (writeOnePiece _ _ _ _) as [s3 [e|]] eqn:Ho; apply Hwr in Ho; simplify_eq; (split; [done|]); simpl; by rewrite Ho]).
Qed.

Lemma reportStep_waiting j ch s s' : waiting s → reportStep md5 sha256 now waitN j ch s = Ok (Some s') → waiting s'.
Proof.
  intros [Hw Hi] E. unfold reportStep in E.
  assert (receiveNumber num s = None ∧ ∀ k, receiveNumber k s = None) as [Hn Hnone].
  { unfold receiveNumber. by destruct (ss_writer s). }
  destruct (decide (j = i)) as [->|Hne]; [rewrite Hi in E; destruct ch; try done; by rewrite Hn in E|].
  assert (∀ s r, waiting s → waiting (set_reporter j r s)) as Hother.
  { intros s2 r [? ?]. split; [done|]. simpl. by rewrite list_lookup_insert_ne. }
  destruct (ss_reporters s !! j) as [[| | |k| |]|], ch; try done.
  - destruct (downloadWrite _ _ _ _ _ _) as [c [e|]]; injection E as <-; by apply Hother.
  - destruct (reportMark _ _) as [[c new]| |]; simpl in E; try done. injection E as <-. by apply Hother.
  - injection E as <-. by apply Hother.
  - by rewrite Hnone in E.
  - injection E as <-. destruct (ss_ctxDone _); [by apply Hother|].
    destruct (isCompleted _); [apply finish_waiting|]; by apply Hother.
  - destruct (_ <? _)%nat; [|done]. injection E as <-. by apply Hother.
  - destruct (stream_ended s); [|done]. injection E as <-. by apply Hother.
Qed.

(** A report that waits for the writer waits forever once the writer drains the
    pipe or has returned: the send is in no select, and the end of the context
    does not wake it. *)
Theorem report_waits_forever sched s s' : waiting s →
  runStream md5 sha256 calculateDigest now waitN sched s = Ok (Some s') → waiting s'.
Proof.
  revert s. induction sched as [|ch sched IH]; intros s Hw H; [by injection H as <-|].
  cbn [runStream] in H. destruct (streamStep _ _ _ _ _ ch s) as [[s1|]| |] eqn:E; simpl in H; try done.
  apply (IH s1); [|done]. clear IH H. destruct ch as [|k|k|sign| | |code reason|ch|j ch]; simpl in E.
  - by injection E as <-.
  - injection E as <-. unfold stream_SetContentLength. destruct (isCompleted _); [by apply finish_waiting|done].
  - by injection E as <-.
  - by injection E as <-.
  - by injection E as <-.
  - injection E as <-. by apply finish_waiting.
  - injection E as <-. unfold stream_cleanUnfinished. by destruct (pt_once _).
  - destruct (writerStep _ _ _ _ _) as [s2|] eqn:Hst; [|done]. injection E as <-. by eapply writerStep_waiting.
  - by eapply reportStep_waiting.
Qed.

End Waiting.

(** ** Witnesses *)

Definition demoReport (i : nat) (k : nat) : StreamChoice :=
  ScReport i (RpDownload "parent" (nth k demoPieces (mkPieceInfo 0 0 0 "" 0 0)) false
                (demoDownload (if decide (k = 0)%nat then take 3 demoContent else drop 3 demoContent))).

Definition demoStreaming (calculateDigest : bool) (sched : list StreamChoice) : Streamer :=
  match runStream demoMd5 demoSha256 calculateDigest 100 (λ _, None) sched (newStreamer 2 demoClient) with
  | Ok (Some s) => s
  | _ => newStreamer 2 demoClient
  end.

(** The second piece comes first, and the length is known last. *)
Definition demoStream : list StreamChoice :=
  [ScTotal 2; ScSign "sm3m2"; demoReport 1 1; demoReport 0 0;
   ScReport 1 RpGo; ScReport 1 RpGo; ScReport 1 RpGo; ScReport 1 RpGo;
   ScReport 0 RpGo; ScReport 0 RpGo; ScReport 0 RpGo; ScLength 5].

Definition demoDrain : list StreamChoice := [ScWriter PcGo; ScWriter PcGo; ScWriter PcDone; ScWriter PcGo].

Lemma demoClient_registered : registered 2 demoClient.
Proof. split; [vm_compute; reflexivity|vm_compute; discriminate|vm_compute; reflexivity..]. Qed.

Lemma stream_delivers_witness : ss_pipe (demoStreaming true (demoStream ++ demoDrain)) = demoContent.
Proof.
  refine (proj1 (proj2 (stream_delivers demoMd5 demoSha256 true 100 (λ _, None) demoContent 2 3 2
    (λ i, if i =? 0 then "m3" else "m2") 2 (demoStream ++ demoDrain) demoClient _ _ _ _ _)) _ _).
  - split; simpl; lia.
  - exact demoClient_registered.
  - vm_compute. split_and!; try done; [by exists 1|by exists []|by exists 0|by exists (drop 3 demoContent)].
  - vm_compute. reflexivity.
  - vm_compute. reflexivity.
  - vm_compute. reflexivity.
Defined.

Lemma stream_completes_witness : ∃ sched s,
  runStream demoMd5 demoSha256 true 100 (λ _, None) sched (demoStreaming true demoStream) = Ok (Some s) ∧
  ss_writer s = PwReturned None ∧ ss_pipe s = demoContent.
Proof.
  destruct (stream_completes demoMd5 demoSha256 true 100 (λ _, None) demoContent 2 3 2
    (λ i, if i =? 0 then "m3" else "m2") 2 demoStream demoClient (demoStreaming true demoStream))
    as (sched & s & _ & _ & H & Hw & Hp).
  - split; simpl; lia.
  - exact demoClient_registered.
  - vm_compute. split_and!; try done; [by exists 1|by exists []|by exists 0|by exists (drop 3 demoContent)].
  - vm_compute. reflexivity.
  - vm_compute. reflexivity.
  - vm_compute. reflexivity.
  - vm_compute. intros [=].
  - exists sched, s. exact (conj H (conj Hw Hp)).
Defined.

(** Without digests, the reader of a task that failed gets a part of the content
    and a regular end: [cleanUnfinished] closes [streamDone] as [finish] does. *)
Definition demoFailing : list StreamChoice :=
  [demoReport 0 0; ScReport 0 RpGo; ScReport 0 RpGo; ScReport 0 RpGo; ScReport 0 RpGo; ScWriter PcGo;
   ScClean Code_SchedPeerGone reasonPeerGoneFromScheduler; ScWriter PcDone; ScWriter PcGo].

Theorem failed_stream_ends_regularly : ∃ s,
  runStream demoMd5 demoSha256 false 100 (λ _, None) demoFailing (newStreamer 2 demoClient) = Ok (Some s) ∧
  pt_success (streamTask s) = false ∧ ss_writer s = PwReturned None ∧ ss_pipe s = take 3 demoContent.
Proof. exists (demoStreaming false demoFailing). vm_compute. done. Qed.

(** A single piece that is marked before the length is set: [Start] may find the
    task done before it has received the piece, and refuses it. *)
Theorem complete_stream_refused : ∃ sched s,
  runStream demoMd5 demoSha256 false 100 (λ _, None) sched (newStreamer 2 demoClient) = Ok (Some s) ∧
  pt_success (streamTask s) = true ∧ snd <$> ss_started s = Some (Some "stream peer task early done"%string).
Proof.
  exists [demoReport 0 0; demoReport 1 1; ScReport 0 RpGo; ScReport 1 RpGo; ScLength 5; ScWriter PcDone].
  eexists. split; [vm_compute; reflexivity|]. by vm_compute.
Qed.
