(* ===== verification/FileUtils.v ===== *)
(** * FileUtils: pkg/util/fileutils

    The helpers over os that the storage drivers of the CDN call. *)

From S2P Require Import Prelude FileSystem.
From stdpp Require Import options.

Inductive FileError :=
  | FileIO (e : IOError)
  | ErrNotRegular
  | ErrIsDirectory.

#[export] Instance FileError_eq_dec : EqDecision FileError.
Proof. solve_decision. Defined.

Definition fileutils_MkdirAll (fs : FS) (dir : fpath) : FS * option FileError :=
  let '(fs, err) := os_MkdirAll fs dir in (fs, FileIO <$> err).

Definition PathExist (fs : FS) (p : fpath) : bool :=
  match os_Lstat fs p with Some _ => true | None => false end.

Definition IsDir (fs : FS) (p : fpath) : bool :=
  match os_Stat fs p with Some NodeDir => true | _ => false end.

Definition IsRegular (fs : FS) (p : fpath) : bool :=
  match os_Stat fs p with Some (NodeFile _) => true | _ => false end.

Definition IsSymbolicLink (fs : FS) (p : fpath) : bool :=
  match os_Lstat fs p with Some (NodeSymlink _) => true | _ => false end.

Definition DeleteFile (fs : FS) (p : fpath) : FS * option FileError :=
  if PathExist fs p then
    if IsDir fs p then (fs, Some ErrNotRegular)
    else let '(fs, err) := os_Remove fs p in (fs, FileIO <$> err)
  else (fs, None).

(** How [OpenFile] opens: all of them with [O_CREATE]. *)
Inductive OpenMode := OpenTrunc | OpenPlain.

Definition fileutils_OpenFile (mode : OpenMode) (fs : FS) (p : fpath) : FS * (FileError + inode) :=
  let open fs :=
    let '(fs, r) := match mode with OpenTrunc => os_OpenTrunc fs p | OpenPlain => os_OpenCreate fs p end in
    (fs, match r with inl e => inl (FileIO e) | inr ino => inr ino end) in
  if PathExist fs p then open fs
  else
    match fileutils_MkdirAll fs (removelast p) with
    | (fs, Some e) => (fs, inl e)
    | (fs, None) => open fs
    end.

Definition fileutils_Link (fs : FS) (oldname newname : fpath) : FS * option FileError :=
  let link fs := let '(fs, err) := os_Link fs oldname newname in (fs, FileIO <$> err) in
  if PathExist fs newname then
    if IsDir fs newname then (fs, Some ErrIsDirectory)
    else
      match DeleteFile fs newname with
      | (fs, Some e) => (fs, Some e)
      | (fs, None) => link fs
      end
  else
    match fileutils_MkdirAll fs (removelast newname) with
    | (fs, Some e) => (fs, Some e)
    | (fs, None) => link fs
    end.

Definition SymbolicLink (fs : FS) (oldname newname : fpath) : FS * option FileError :=
  let replace :=
    match (if PathExist fs newname then os_Remove fs newname else (fs, None)) with
    | (fs, Some e) => (fs, Some (FileIO e))
    | (fs, None) =>
        match fileutils_MkdirAll fs (removelast newname) with
        | (fs, Some e) => (fs, Some e)
        | (fs, None) => let '(fs, err) := os_Symlink fs oldname newname in (fs, FileIO <$> err)
        end
    end in
  if PathExist fs newname && IsSymbolicLink fs newname && PathExist fs oldname then
    match os_Readlink fs newname with
    | inl e => (fs, Some (FileIO e))
    | inr dstPath => if decide (dstPath = oldname) then (fs, None) else replace
    end
  else replace.

Definition IsEmptyDir (fs : FS) (p : fpath) : FileError + bool :=
  match os_Stat fs p with
  | None => inl (FileIO ENOENT)
  | Some NodeDir => inr (bool_decide (entries fs p = []))
  | Some _ => inl (FileIO ENOTDIR)
  end.

Definition MoveFile (fs : FS) (src dst : fpath) : FS * option FileError :=
  if negb (IsRegular fs src) then (fs, Some ErrNotRegular)
  else
    match (if PathExist fs dst && negb (IsDir fs dst) then DeleteFile fs dst else (fs, None)) with
    | (fs, Some e) => (fs, Some e)
    | (fs, None) => let '(fs, err) := os_Rename fs src dst in (fs, FileIO <$> err)
    end.
