(* ===== verification/StoreDriver.v ===== *)
(** * StoreDriver: cdn/storedriver

    The storage driver of the CDN over the local file system
    (local/local_driver.go) and the checks of its requests (store_util.go).
    A call is one step: the locks, by path and offset, serialise the calls on
    one part of a file, and calls on different offsets write different parts.
    The slice bounds of [PutBytes], the one panic, are the error [DriverPanic]. *)

From S2P Require Import Prelude FileSystem FileUtils.
From stdpp Require Import options.
Local Open Scope Z_scope.

(** A key is the list of the elements of its path. *)
Record Raw := mkRaw {
  raw_Bucket : string;
  raw_Key : fpath;
  raw_Offset : Z;      (* int64 *)
  raw_Length : Z;      (* int64 *)
  raw_Trunc : bool;
  raw_TruncSize : Z;   (* int64 *)
  raw_Append : bool;
}.

Record StorageInfo := mkStorageInfo { si_Size : Z }.

Inductive DriverError :=
  | ErrNegativeOffset
  | ErrNegativeLength
  | ErrOffsetTooLarge
  | ErrLengthTooLarge
  | ErrNegativeTruncSize
  | ErrDataEnds           (* io.EOF of CopyN *)
  | ErrData (message : string)
  | ErrFile (e : FileError)
  | DriverPanic.

#[export] Instance DriverError_eq_dec : EqDecision DriverError.
Proof. solve_decision. Defined.

(** [os.IsNotExist] *)
Definition isNotExist (e : DriverError) : bool := bool_decide (e = ErrFile (FileIO ENOENT)).

Definition CheckGetRaw (raw : Raw) (fileLength : Z) : option DriverError :=
  if raw_Offset raw <? 0 then Some ErrNegativeOffset
  else if raw_Length raw <? 0 then Some ErrNegativeLength
  else if fileLength <? raw_Offset raw then Some ErrOffsetTooLarge
  else if fileLength <? int64 (raw_Offset raw + raw_Length raw) then Some ErrLengthTooLarge
  else None.

Definition CheckPutRaw (raw : Raw) : option DriverError :=
  if raw_Offset raw <? 0 then Some ErrNegativeOffset
  else if raw_Length raw <? 0 then Some ErrNegativeLength
  else None.

Definition CheckTrunc (raw : Raw) : option DriverError :=
  if raw_Trunc raw && (raw_TruncSize raw <? 0) then Some ErrNegativeTruncSize else None.

Section Driver.
Context (BaseDir : fpath).

Definition driver_GetPath (raw : Raw) : fpath :=
  BaseDir ++ (if decide (raw_Bucket raw = ""%string) then [] else [raw_Bucket raw]) ++ raw_Key raw.

Definition driver_preparePath (fs : FS) (raw : Raw) : FS * (DriverError + fpath) :=
  let dir := BaseDir ++ (if decide (raw_Bucket raw = ""%string) then [] else [raw_Bucket raw]) in
  match fileutils_MkdirAll fs dir with
  | (fs, Some e) => (fs, inl (ErrFile e))
  | (fs, None) => (fs, inr (dir ++ raw_Key raw))
  end.

Definition driver_statPath (fs : FS) (raw : Raw) : DriverError + (fpath * Node) :=
  match os_Stat fs (driver_GetPath raw) with
  | None => inl (ErrFile (FileIO ENOENT))
  | Some n => inr (driver_GetPath raw, n)
  end.

(** The size [os.Stat] tells. *)
Definition statSize (fs : FS) (n : Node) : Z := lstatSize fs n.

(** The bytes the reader of [Get] delivers, read now. *)
Definition driver_Get (fs : FS) (raw : Raw) : DriverError + list byte :=
  match driver_statPath fs raw with
  | inl e => inl e
  | inr (path, info) =>
      match CheckGetRaw raw (statSize fs info) with
      | Some e => inl e
      | None =>
          match os_Open fs path with
          | inl _ => inr []
          | inr f =>
              let data := drop (Z.to_nat (raw_Offset raw)) (fileData fs f) in
              inr (if 0 <? raw_Length raw then take (Z.to_nat (raw_Length raw)) data else data)
          end
      end
  end.

Definition driver_GetBytes (fs : FS) (raw : Raw) : DriverError + list byte :=
  match driver_statPath fs raw with
  | inl e => inl e
  | inr (path, info) =>
      match CheckGetRaw raw (statSize fs info) with
      | Some e => inl e
      | None =>
          match os_Open fs path with
          | inl e => inl (ErrFile (FileIO e))
          | inr f =>
              let data := drop (Z.to_nat (raw_Offset raw)) (fileData fs f) in
              inr (if raw_Length raw =? 0 then data
                   else take (Z.to_nat (raw_Length raw)) data)
          end
      end
  end.

(** The file of [Put] and [PutBytes], opened as the request says. *)
Definition openRaw (fs : FS) (raw : Raw) (path : fpath) : FS * (FileError + inode) :=
  fileutils_OpenFile (if raw_Trunc raw then OpenTrunc else OpenPlain) fs path.

(** Bytes written to it: at the end when it was opened to append. *)
Definition writeRaw (fs : FS) (raw : Raw) (f : inode) (data : list byte) : FS :=
  let off := if negb (raw_Trunc raw) && raw_Append raw
             then length (fileData fs f) else Z.to_nat (raw_Offset raw) in
  writeAt fs f off data.

Definition driver_Put (fs : FS) (raw : Raw) (data : option (Stream DriverError))
    : FS * option DriverError :=
  match CheckPutRaw raw with
  | Some e => (fs, Some e)
  | None =>
      match driver_preparePath fs raw with
      | (fs, inl e) => (fs, Some e)
      | (fs, inr path) =>
          match data with
          | None => (fs, None)
          | Some data =>
              match CheckTrunc raw with
              | Some e => (fs, Some e)
              | None =>
                  match openRaw fs raw path with
                  | (fs, inl e) => (fs, Some (ErrFile e))
                  | (fs, inr f) =>
                      let fs := if raw_Trunc raw
                                then truncateTo fs f (Z.to_nat (raw_TruncSize raw)) else fs in
                      if 0 <? raw_Length raw then
                        let '(bs, _, err) := copyLimited data (raw_Length raw) in
                        (writeRaw fs raw f bs,
                         if Z.of_nat (length bs) =? raw_Length raw then None
                         else Some (default ErrDataEnds err))
                      else (writeRaw fs raw f (s_data data), s_err data)
                  end
              end
          end
      end
  end.

Definition driver_PutBytes (fs : FS) (raw : Raw) (data : list byte) : FS * option DriverError :=
  match CheckPutRaw raw with
  | Some e => (fs, Some e)
  | None =>
      match driver_preparePath fs raw with
      | (fs, inl e) => (fs, Some e)
      | (fs, inr path) =>
          match openRaw fs raw path with
          | (fs, inl e) => (fs, Some (ErrFile e))
          | (fs, inr f) =>
              if raw_Trunc raw && (raw_TruncSize raw <? 0) then (fs, Some (ErrFile (FileIO EINVAL)))
              else
                let fs := if raw_Trunc raw
                          then truncateTo fs f (Z.to_nat (raw_TruncSize raw)) else fs in
                if 0 <? raw_Length raw then
                  if Z.of_nat (length data) <? raw_Length raw then (fs, Some DriverPanic)
                  else (writeRaw fs raw f (take (Z.to_nat (raw_Length raw)) data), None)
                else (writeRaw fs raw f data, None)
          end
      end
  end.

Definition driver_Stat (fs : FS) (raw : Raw) : DriverError + StorageInfo :=
  match driver_statPath fs raw with
  | inl e => inl e
  | inr (_, info) => inr (mkStorageInfo (statSize fs info))
  end.

Definition driver_Exits (fs : FS) (raw : Raw) : bool := PathExist fs (driver_GetPath raw).

(** A directory that is not empty stays, without an error. *)
Definition driver_Remove (fs : FS) (raw : Raw) : FS * option DriverError :=
  match driver_statPath fs raw with
  | inl e => (fs, Some e)
  | inr (path, info) =>
      if raw_Trunc raw || negb (bool_decide (info = NodeDir)) then (os_RemoveAll fs path, None)
      else
        match IsEmptyDir fs path with
        | inl e => (fs, Some (ErrFile e))
        | inr true => (os_RemoveAll fs path, None)
        | inr false => (fs, None)
        end
  end.

Definition driver_CreateBaseDir (fs : FS) : FS * option DriverError :=
  let '(fs, err) := fileutils_MkdirAll fs BaseDir in (fs, ErrFile <$> err).

Definition driver_MoveFile (fs : FS) (src dst : fpath) : FS * option DriverError :=
  let '(fs, err) := MoveFile fs src dst in (fs, ErrFile <$> err).

(** What [Walk] calls its function with. *)
Definition driver_Walk (fs : FS) (raw : Raw) : DriverError + list (fpath * Node) :=
  match driver_statPath fs raw with
  | inl e => inl e
  | inr (path, _) => inr (walk fs path)
  end.

End Driver.
