(* ===== verification/CdnTask.v ===== *)
(** * CdnTask: cdn/supervisor/task

    The seed tasks of the CDN and their manager (task.go, manager.go,
    manager_util.go).  The manager hands out pointers to its tasks, and keeps
    them on a heap here.  [AddOrUpdate] is two steps, as its two critical
    sections: the registration under the read lock of the task, the look-up of
    the length under the write lock.  The source and the clock are arguments. *)

From S2P Require Import Prelude Text Ranges World PieceSize.
From Stdlib Require Import Ascii.
From stdpp Require Import options.
Local Open Scope Z_scope.

(** ** task.go *)

(** PieceInfo *)
Record SeedPiece := mkSeedPiece {
  sp_PieceNum : Z;      (* uint32 *)
  sp_PieceMd5 : string;
  sp_PieceRange : ByteRange;
  sp_OriginRange : ByteRange;
  sp_PieceLen : Z;      (* uint32 *)
  sp_PieceStyle : Z;    (* enum *)
}.

#[export] Instance SeedPiece_eq_dec : EqDecision SeedPiece.
Proof. solve_decision. Defined.

Record SeedTask := mkSeedTask {
  st_ID : string;
  st_RawURL : string;
  st_TaskURL : string;
  st_SourceFileLength : Z;   (* int64 *)
  st_CdnFileLength : Z;      (* int64 *)
  st_PieceSize : Z;          (* int32 *)
  st_CdnStatus : string;
  st_TotalPieceCount : Z;    (* int32 *)
  st_SourceRealDigest : string;
  st_PieceMd5Sign : string;
  st_Digest : string;
  st_Tag : string;
  st_Range : string;
  st_Filter : string;
  st_Header : option (gmap string string);   (* nil or a map *)
  st_Pieces : gmap Z SeedPiece;
}.

Definition UnknownSourceFileLen : Z := -2.
Definition UnknownTotalPieceCount : Z := -1.

Definition StatusWaiting : string := "WAITING".
Definition StatusRunning : string := "RUNNING".
Definition StatusFailed : string := "FAILED".
Definition StatusSuccess : string := "SUCCESS".
Definition StatusSourceError : string := "SOURCE_ERROR".

Definition set_st_Status (v : string) (t : SeedTask) : SeedTask :=
  mkSeedTask (st_ID t) (st_RawURL t) (st_TaskURL t) (st_SourceFileLength t) (st_CdnFileLength t)
    (st_PieceSize t) v (st_TotalPieceCount t) (st_SourceRealDigest t) (st_PieceMd5Sign t)
    (st_Digest t) (st_Tag t) (st_Range t) (st_Filter t) (st_Header t) (st_Pieces t).
Definition set_st_Pieces (v : gmap Z SeedPiece) (t : SeedTask) : SeedTask :=
  mkSeedTask (st_ID t) (st_RawURL t) (st_TaskURL t) (st_SourceFileLength t) (st_CdnFileLength t)
    (st_PieceSize t) (st_CdnStatus t) (st_TotalPieceCount t) (st_SourceRealDigest t)
    (st_PieceMd5Sign t) (st_Digest t) (st_Tag t) (st_Range t) (st_Filter t) (st_Header t) v.
(** The fields [AddOrUpdate] fills in. *)
Definition set_st_Source (length : Z) (header : option (gmap string string)) (pieceSize total : Z)
    (t : SeedTask) : SeedTask :=
  mkSeedTask (st_ID t) (st_RawURL t) (st_TaskURL t) length (st_CdnFileLength t) pieceSize
    (st_CdnStatus t) total (st_SourceRealDigest t) (st_PieceMd5Sign t) (st_Digest t) (st_Tag t)
    (st_Range t) (st_Filter t) header (st_Pieces t).
(** The fields an update fills in. *)
Definition set_st_Result (status realDigest sign : string) (sourceLength cdnLength total : Z)
    (t : SeedTask) : SeedTask :=
  mkSeedTask (st_ID t) (st_RawURL t) (st_TaskURL t) sourceLength cdnLength (st_PieceSize t) status
    total realDigest sign (st_Digest t) (st_Tag t) (st_Range t) (st_Filter t) (st_Header t)
    (st_Pieces t).

Definition NewSeedTask (FilterURLParam : string → list string → string) (taskID rawURL : string)
    (urlMeta : option UrlMeta) : SeedTask :=
  let m := default (mkUrlMeta "" "" "" "" ∅) urlMeta in
  mkSeedTask taskID rawURL (FilterURLParam rawURL (strings_Split "&"%char (meta_Filter m)))
    UnknownSourceFileLen 0 0 StatusWaiting UnknownTotalPieceCount "" "" (meta_Digest m)
    (meta_Tag m) (meta_Range m) (meta_Filter m)
    (match urlMeta with Some m => Some (meta_Header m) | None => None end) ∅.

(** The copy shares its maps with the task: what it copies into them is there. *)
Definition SeedTask_Clone (t : SeedTask) : SeedTask := t.

Definition IsSuccess (t : SeedTask) : bool := bool_decide (st_CdnStatus t = StatusSuccess).
Definition IsFrozen (t : SeedTask) : bool :=
  bool_decide (st_CdnStatus t = StatusFailed) || bool_decide (st_CdnStatus t = StatusWaiting) ||
  bool_decide (st_CdnStatus t = StatusSourceError).
Definition IsError (t : SeedTask) : bool :=
  bool_decide (st_CdnStatus t = StatusFailed) || bool_decide (st_CdnStatus t = StatusSourceError).
Definition IsDone (t : SeedTask) : bool :=
  bool_decide (st_CdnStatus t = StatusFailed) || bool_decide (st_CdnStatus t = StatusSuccess) ||
  bool_decide (st_CdnStatus t = StatusSourceError).

Definition StartTrigger (t : SeedTask) : SeedTask := set_st_Pieces ∅ (set_st_Status StatusRunning t).

(** ** The source *)

Record SourceError := mkSourceError { se_notReachable : bool; se_message : string }.

(** A request for part of a resource, or all of it. *)
Record SourceRequest := mkSourceRequest {
  sq_URL : string;
  sq_Header : option (gmap string string);
  sq_Range : option string;
}.

(** ** manager.go *)

Inductive TaskError :=
  | errTaskNotFound
  | errURLUnreachable
  | errTaskIDConflict
  | errUpdateInfo              (* no update, or one without a status *)
  | errSource (e : SourceError).

Notation taskRef := positive (only parsing).

Record TaskConfig := mkTaskConfig {
  tc_ExpireTime : Z;           (* ns *)
  tc_FailAccessInterval : Z;   (* ns *)
}.

(** The keys of a [sync.Map] are of any type: of the unreachable tasks, task IDs
    and pointers to tasks. *)
Record TaskManager := mkTaskManager {
  tm_heap : gmap taskRef SeedTask;
  tm_taskStore : gmap string taskRef;
  tm_accessTimeMap : gmap string Z;
  tm_unreachable : gmap (string + taskRef) Z;
}.

Definition NewTaskManager : TaskManager := mkTaskManager ∅ ∅ ∅ ∅.

Definition set_tm_heap (v : gmap taskRef SeedTask) (tm : TaskManager) : TaskManager :=
  mkTaskManager v (tm_taskStore tm) (tm_accessTimeMap tm) (tm_unreachable tm).
Definition set_tm_taskStore (v : gmap string taskRef) (tm : TaskManager) : TaskManager :=
  mkTaskManager (tm_heap tm) v (tm_accessTimeMap tm) (tm_unreachable tm).
Definition set_tm_unreachable (v : gmap (string + taskRef) Z) (tm : TaskManager) : TaskManager :=
  mkTaskManager (tm_heap tm) (tm_taskStore tm) (tm_accessTimeMap tm) v.

Definition updTask (f : SeedTask → SeedTask) (r : taskRef) (tm : TaskManager) : TaskManager :=
  set_tm_heap (alter f r (tm_heap tm)) tm.

(** [accessTimeMap.Store(id, time.Now())] *)
Definition touchTask (now : Z) (id : string) (tm : TaskManager) : TaskManager :=
  mkTaskManager (tm_heap tm) (tm_taskStore tm) (<[id := now]> (tm_accessTimeMap tm)) (tm_unreachable tm).

Definition zeroTask : SeedTask :=
  mkSeedTask "" "" "" 0 0 0 "" 0 "" "" "" "" "" "" None ∅.
Definition getRef (tm : TaskManager) (r : taskRef) : SeedTask := default zeroTask (tm_heap tm !! r).

Definition IsSame (task1 task2 : SeedTask) : bool :=
  bool_decide (st_ID task1 = st_ID task2) && bool_decide (st_TaskURL task1 = st_TaskURL task2) &&
  bool_decide (st_Range task1 = st_Range task2) && bool_decide (st_Tag task1 = st_Tag task2) &&
  bool_decide (st_Digest task1 = st_Digest task2) && bool_decide (st_Filter task1 = st_Filter task2).

Definition deleteTask (taskID : string) (tm : TaskManager) : TaskManager :=
  mkTaskManager (tm_heap tm) (delete taskID (tm_taskStore tm)) (delete taskID (tm_accessTimeMap tm))
    (delete (inl taskID) (tm_unreachable tm)).

Section Manager.
Context (config : TaskConfig).

(** The first section of [AddOrUpdate]: a source that was not reachable is left
    alone for a while. *)
Definition AddOrUpdate_unreachable (now : Z) (id : string) (tm : TaskManager)
    : TaskManager * option TaskError :=
  match tm_unreachable tm !! inl id with
  | Some unreachableTime =>
      if now - unreachableTime <? tc_FailAccessInterval config
      then (touchTask now id tm, Some errURLUnreachable)
      else (set_tm_unreachable (delete (inl id) (tm_unreachable tm)) tm, None)
  | None => (tm, None)
  end.

(** [LoadOrStore] and the checks behind it: the task, and whether its length has
    to be looked up. *)
Definition AddOrUpdate_store (now : Z) (registerTask : taskRef) (tm : TaskManager)
    : TaskManager * (TaskError + (bool * taskRef)) :=
  let reg := getRef tm registerTask in
  let id := st_ID reg in
  let '(tm, seedTask, loaded) :=
    match tm_taskStore tm !! id with
    | Some actual => (tm, actual, true)
    | None => (set_tm_taskStore (<[id := registerTask]> (tm_taskStore tm)) tm, registerTask, false)
    end in
  if loaded && negb (bool_decide (seedTask = registerTask) || IsSame (getRef tm seedTask) reg)
  then (touchTask now id tm, inl errTaskIDConflict)
  else (tm, inr (bool_decide (st_SourceFileLength (getRef tm seedTask) = UnknownSourceFileLen), seedTask)).

(** The second section.  To build the request may fail as well. *)
Definition AddOrUpdate_length (now : Z) (GetContentLength : SourceRequest → SourceError + Z)
    (registerTask seedTask : taskRef) (tm : TaskManager) : TaskManager * (TaskError + taskRef) :=
  if negb (bool_decide (st_SourceFileLength (getRef tm seedTask) = UnknownSourceFileLen))
  then (tm, inr seedTask)
  else
    let reg := getRef tm registerTask in
    let request := mkSourceRequest (st_RawURL reg) (st_Header reg)
                     (if IsBlank (st_Range reg) then None else Some (st_Range reg)) in
    match GetContentLength request with
    | inl e =>
        let tm := if se_notReachable e
                  then set_tm_unreachable (<[inr registerTask := now]> (tm_unreachable tm)) tm else tm in
        (touchTask now (st_ID reg) tm, inl (errSource e))
    | inr sourceFileLength =>
        let tm := updTask (λ t, set_st_Source sourceFileLength (st_Header t) (st_PieceSize t)
                                  (st_TotalPieceCount t) t) seedTask tm in
        let reg := getRef tm registerTask in
        let pieceSize := ComputePieceSize (st_SourceFileLength reg) in
        let total t := if 0 <? sourceFileLength
                       then int32 (Z.quot (int64 (st_SourceFileLength reg + (pieceSize - 1))) pieceSize)
                       else st_TotalPieceCount t in
        (updTask (λ t, set_st_Source sourceFileLength
                         (match st_Header reg with Some h => Some h | None => st_Header t end)
                         (int32 pieceSize) (total t) t) seedTask tm,
         inr seedTask)
    end.

Definition AddOrUpdate (now : Z) (GetContentLength : SourceRequest → SourceError + Z)
    (registerTask : taskRef) (tm : TaskManager) : TaskManager * (TaskError + taskRef) :=
  match AddOrUpdate_unreachable now (st_ID (getRef tm registerTask)) tm with
  | (tm, Some e) => (tm, inl e)
  | (tm, None) =>
      match AddOrUpdate_store now registerTask tm with
      | (tm, inl e) => (tm, inl e)
      | (tm, inr (false, seedTask)) => (tm, inr seedTask)
      | (tm, inr (true, seedTask)) => AddOrUpdate_length now GetContentLength registerTask seedTask tm
      end
  end.

Definition tm_Get (now : Z) (taskID : string) (tm : TaskManager) : TaskManager * (TaskError + taskRef) :=
  match tm_taskStore tm !! taskID with
  | Some r => (touchTask now taskID tm, inr r)
  | None => (tm, inl errTaskNotFound)
  end.

Definition tm_Exist (taskID : string) (tm : TaskManager) : option SeedTask :=
  getRef tm <$> tm_taskStore tm !! taskID.

(** manager_util.go, on the task found. *)
Definition applyUpdate (u : SeedTask) (t : SeedTask) : SeedTask :=
  if negb (IsSuccess u) then
    if IsSuccess t then t else set_st_Status (st_CdnStatus u) t
  else
    set_st_Result (st_CdnStatus u)
      (if IsBlank (st_SourceRealDigest u) then st_SourceRealDigest t else st_SourceRealDigest u)
      (if IsBlank (st_PieceMd5Sign u) then st_PieceMd5Sign t else st_PieceMd5Sign u)
      (if 0 <=? st_SourceFileLength u then st_SourceFileLength u else st_SourceFileLength t)
      (if 0 <? st_CdnFileLength u then st_CdnFileLength u else st_CdnFileLength t)
      (if 0 <=? st_SourceFileLength u then st_TotalPieceCount u else st_TotalPieceCount t) t.

Definition updateTask (taskID : string) (update : option SeedTask) (tm : TaskManager)
    : TaskManager * option TaskError :=
  match update with
  | None => (tm, Some errUpdateInfo)
  | Some u =>
      if IsBlank (st_CdnStatus u) then (tm, Some errUpdateInfo)
      else
        match tm_taskStore tm !! taskID with
        | None => (tm, Some errTaskNotFound)
        | Some r => (updTask (applyUpdate u) r tm, None)
        end
  end.

Definition tm_Update (now : Z) (taskID : string) (update : option SeedTask) (tm : TaskManager)
    : TaskManager * option TaskError :=
  match updateTask taskID update tm with
  | (tm, Some e) => (tm, Some e)
  | (tm, None) => (touchTask now taskID tm, None)
  end.

Definition tm_UpdateProgress (now : Z) (taskID : string) (info : SeedPiece) (tm : TaskManager)
    : TaskManager * option TaskError :=
  match tm_taskStore tm !! taskID with
  | None => (tm, Some errTaskNotFound)
  | Some r =>
      (touchTask now taskID
         (updTask (λ t, set_st_Pieces (<[sp_PieceNum info := info]> (st_Pieces t)) t) r tm), None)
  end.

Definition tm_GetProgress (now : Z) (taskID : string) (tm : TaskManager)
    : TaskManager * (TaskError + gmap Z SeedPiece) :=
  match tm_taskStore tm !! taskID with
  | None => (tm, inl errTaskNotFound)
  | Some r => (touchTask now taskID tm, inr (st_Pieces (getRef tm r)))
  end.

Definition tm_Delete (taskID : string) (tm : TaskManager) : TaskManager := deleteTask taskID tm.

(** One call of the function of [Range], with a key and its access time, which
    [Range] has read before the lock was taken. *)
Definition tm_GC_visit (now : Z) (tm : TaskManager) (entry : string * Z) : TaskManager :=
  let '(taskID, atime) := entry in
  if now - atime <? tc_ExpireTime config then tm else deleteTask taskID tm.

Definition tm_GC (now : Z) (entries : list (string * Z)) (tm : TaskManager) : TaskManager :=
  foldl (tm_GC_visit now) tm entries.

End Manager.
