(* ===== verification/CdnTaskProperties.v ===== *)
(** * CdnTaskProperties: the books of the CDN's task manager

    What a registration fills in, what becomes of one that is repeated after an
    error, and what holds in every state the manager reaches. *)

From S2P Require Import Prelude Text Ranges World PieceSize CdnTask.
From stdpp Require Import options.
Local Open Scope Z_scope.

Lemma getRef_updTask f r tm t :
  tm_heap tm !! r = Some t → getRef (updTask f r tm) r = f t.
Proof. intros Ht. unfold getRef, updTask. simpl. by rewrite lookup_alter_eq, Ht. Qed.

Lemma getRef_updTask_ne f r r' tm : r ≠ r' → getRef (updTask f r tm) r' = getRef tm r'.
Proof. intros Hne. unfold getRef, updTask. simpl. by rewrite lookup_alter_ne. Qed.

Lemma ceil_count L ps :
  0 < L → 0 < ps → let n := Z.quot (L + (ps - 1)) ps in 0 < n ∧ (n - 1) * ps < L <= n * ps.
Proof.
  intros HL Hps n. subst n. rewrite Z.quot_div_nonneg by lia.
  pose proof (Z.div_mod (L + (ps - 1)) ps ltac:(lia)).
  pose proof (Z.mod_pos_bound (L + (ps - 1)) ps Hps). nia.
Qed.

Section Registration.
Context (config : TaskConfig) (now : Z).

(** A task that its pointer is new to the manager. *)
Definition fresh (tm : TaskManager) (r : taskRef) (t : SeedTask) : Prop :=
  tm_heap tm !! r = Some t ∧ tm_taskStore tm !! st_ID t = None ∧
  tm_unreachable tm !! inl (st_ID t) = None ∧ st_SourceFileLength t = UnknownSourceFileLen.

Lemma AddOrUpdate_fresh get tm r t :
  fresh tm r t →
  AddOrUpdate config now get r tm =
    AddOrUpdate_length now get r r (set_tm_taskStore (<[st_ID t := r]> (tm_taskStore tm)) tm).
Proof.
  intros (Hh & Hs & Hu & Hl). unfold AddOrUpdate, AddOrUpdate_unreachable, AddOrUpdate_store.
  assert (getRef tm r = t) as Hr by (unfold getRef; by rewrite Hh). rewrite Hr, Hu, Hr, Hs. simpl.
  unfold getRef. simpl. rewrite Hh. simpl. by rewrite bool_decide_eq_true_2.
Qed.

(** a first registration.  The length that the source answers decides the
    size of the pieces, and their number is the least that covers the file. *)
Theorem AddOrUpdate_sizes (get : SourceRequest → SourceError + Z) (tm : TaskManager) (r : taskRef)
    (t : SeedTask) (L : Z) :
  fresh tm r t → 0 < L < 2 ^ 52 →
  get (mkSourceRequest (st_RawURL t) (st_Header t)
         (if IsBlank (st_Range t) then None else Some (st_Range t))) = inr L →
  ∃ tm', AddOrUpdate config now get r tm = (tm', inr r) ∧ tm_taskStore tm' !! st_ID t = Some r ∧
    let t' := getRef tm' r in
    st_SourceFileLength t' = L ∧ st_PieceSize t' = ComputePieceSize L ∧
    (st_TotalPieceCount t' - 1) * st_PieceSize t' < L <= st_TotalPieceCount t' * st_PieceSize t'.
Proof.
  intros Hf HL Hget. pose proof Hf as (Hh & _ & _ & Hl). rewrite (AddOrUpdate_fresh _ _ _ t) by done.
  set (tm0 := set_tm_taskStore _ tm).
  assert (tm_heap tm0 !! r = Some t) as Hh0 by done.
  unfold AddOrUpdate_length. assert (getRef tm0 r = t) as Hr by (unfold getRef; by rewrite Hh0).
  rewrite Hr, bool_decide_eq_true_2 by done. cbn [negb]. rewrite Hget.
  eexists. split; [done|]. split; [simpl; apply lookup_insert_eq|].
  erewrite getRef_updTask; [|simpl; by rewrite lookup_alter_eq, Hh]. cbn zeta.
  rewrite (getRef_updTask _ _ _ t) by done. cbn [st_SourceFileLength st_PieceSize st_TotalPieceCount set_st_Source].
  pose proof (ComputePieceSize_range L) as Hps. unfold DefaultPieceSize, DefaultPieceSizeLimit in Hps.
  rewrite (proj2 (Z.ltb_lt 0 L)), (int32_small (ComputePieceSize L)), (int64_small (L + _)) by lia.
  destruct (ceil_count L (ComputePieceSize L)) as [Hn Hc]; [lia..|].
  rewrite int32_small; [done|]. nia.
Qed.

(** a registration repeated after the source failed.  The task of the first
    registration is still there, and the length that is looked up is written to
    it, but the number and the size of the pieces are computed from the length
    in the second request, which is unknown: whatever the length is, the task
    has no pieces and the default piece size. *)
Theorem AddOrUpdate_retry_miscounts (get1 get2 : SourceRequest → SourceError + Z)
    (tm tm1 tm2 : TaskManager) (r1 r2 : taskRef) (t1 t2 : SeedTask) (e : SourceError) (L : Z) :
  fresh tm r1 t1 → r1 ≠ r2 → tm_heap tm !! r2 = Some t2 → IsSame t1 t2 = true →
  st_SourceFileLength t2 = UnknownSourceFileLen →
  (∀ q, get1 q = inl e) → (∀ q, get2 q = inr L) → 0 < L →
  AddOrUpdate config now get1 r1 tm = (tm1, inl (errSource e)) →
  AddOrUpdate config now get2 r2 tm1 = (tm2, inr r1) →
  st_SourceFileLength (getRef tm2 r1) = L ∧ st_TotalPieceCount (getRef tm2 r1) = 0 ∧
  st_PieceSize (getRef tm2 r1) = DefaultPieceSize.
Proof.
  intros Hf Hne H2 Hsame Hl2 Hget1 Hget2 HL. pose proof Hf as (Hh & Hs & Hu & Hl1).
  assert (st_ID t1 = st_ID t2) as Hid by (unfold IsSame in Hsame; zbool; done).
  rewrite (AddOrUpdate_fresh _ _ _ t1) by done. set (tm0 := set_tm_taskStore _ tm).
  unfold AddOrUpdate_length at 1. assert (getRef tm0 r1 = t1) as -> by (unfold getRef, tm0; simpl; by rewrite Hh).
  rewrite bool_decide_eq_true_2 by done. cbn [negb]. rewrite Hget1. intros [= <-].
  match goal with |- AddOrUpdate _ _ _ _ ?x = _ → _ => set (tm1' := x) end.
  assert (tm_heap tm1' = tm_heap tm ∧ tm_taskStore tm1' = <[st_ID t1 := r1]> (tm_taskStore tm) ∧
    tm_unreachable tm1' !! inl (st_ID t1) = None) as (Hh1 & Hs1 & Hu1).
  { unfold tm1'. destruct (se_notReachable e); simpl; split_and!; try done. by rewrite lookup_insert_ne. }
  clearbody tm1'. assert (getRef tm1' r2 = t2 ∧ getRef tm1' r1 = t1) as [Hr2 Hr1]
    by (unfold getRef; by rewrite Hh1, H2, Hh).
  unfold AddOrUpdate, AddOrUpdate_unreachable, AddOrUpdate_store.
  rewrite Hr2, <-Hid, Hu1, Hr2, <-Hid, Hs1, lookup_insert_eq, Hr1, Hsame, orb_true_r. cbn [andb negb].
  rewrite Hl1, bool_decide_eq_true_2 by done. unfold AddOrUpdate_length.
  rewrite Hr1, Hl1, bool_decide_eq_true_2 by done. cbn [negb]. rewrite Hget2. intros [= <-].
  erewrite getRef_updTask; [|simpl; rewrite lookup_alter_eq, Hh1, Hh; done].
  rewrite getRef_updTask_ne, Hr2, Hl2 by done.
  cbn [st_SourceFileLength st_PieceSize st_TotalPieceCount set_st_Source].
  rewrite (proj2 (Z.ltb_lt 0 L)) by lia. done.
Qed.

End Registration.

(** ** Every reachable state *)

Section Steps.
Context (config : TaskConfig).

Inductive tm_step : TaskManager → TaskManager → Prop :=
  | tm_step_new tm r t :
      tm_heap tm !! r = None → st_Pieces t = ∅ →
      tm_step tm (set_tm_heap (<[r := t]> (tm_heap tm)) tm)
  | tm_step_unreachable tm now id :
      tm_step tm (AddOrUpdate_unreachable config now id tm).1
  | tm_step_store tm now r :
      is_Some (tm_heap tm !! r) → tm_step tm (AddOrUpdate_store now r tm).1
  | tm_step_length tm now get r s :
      tm_step tm (AddOrUpdate_length now get r s tm).1
  | tm_step_Get tm now id : tm_step tm (tm_Get now id tm).1
  | tm_step_Update tm now id u : tm_step tm (tm_Update now id u tm).1
  | tm_step_UpdateProgress tm now id p : tm_step tm (tm_UpdateProgress now id p tm).1
  | tm_step_GetProgress tm now id : tm_step tm (tm_GetProgress now id tm).1
  | tm_step_Delete tm id : tm_step tm (tm_Delete id tm)
  | tm_step_GC tm now entries : tm_step tm (tm_GC config now entries tm)
  | tm_step_trigger tm r : tm_step tm (updTask StartTrigger r tm).

Record tm_ok (tm : TaskManager) : Prop := {
  to_stored : ∀ id r, tm_taskStore tm !! id = Some r → ∃ t, tm_heap tm !! r = Some t ∧ st_ID t = id;
  to_unreachable : ∀ id, tm_unreachable tm !! inl id = None;
  to_pieces : ∀ r t n p, tm_heap tm !! r = Some t → st_Pieces t !! n = Some p → sp_PieceNum p = n;
}.

Lemma touchTask_ok now id tm : tm_ok tm → tm_ok (touchTask now id tm).
Proof. by intros []. Qed.

(** An update of a task that keeps its ID and files its pieces under their
    numbers. *)
Lemma updTask_ok f r tm :
  (∀ t, st_ID (f t) = st_ID t) →
  (∀ t, (∀ n p, st_Pieces t !! n = Some p → sp_PieceNum p = n) →
        ∀ n p, st_Pieces (f t) !! n = Some p → sp_PieceNum p = n) →
  tm_ok tm → tm_ok (updTask f r tm).
Proof.
  intros Hid Hp [Hs Hu Hpc]. split; simpl; [|done|].
  - intros id r' Hr'. destruct (Hs id r' Hr') as (t & Ht & Hti). rewrite lookup_alter.
    case_decide; [|eauto]. subst. rewrite Ht. exists (f t). split; [done|]. by rewrite Hid.
  - intros r' t n p. rewrite lookup_alter. case_decide as Hr; [|apply Hpc]. subst r'.
    destruct (tm_heap tm !! r) as [t0|] eqn:Ht; simpl; [|done]. intros [= <-].
    apply Hp. intros. by eapply Hpc.
Qed.

Lemma deleteTask_ok id tm : tm_ok tm → tm_ok (deleteTask id tm).
Proof.
  intros [Hs Hu Hp]. split; simpl; [|intros; rewrite lookup_delete; by case_decide|done].
  intros id' r [_ Hr]%lookup_delete_Some. eauto.
Qed.

Lemma unreachable_ok now id tm : tm_ok tm → AddOrUpdate_unreachable config now id tm = (tm, None).
Proof. intros Hok. unfold AddOrUpdate_unreachable. by rewrite (to_unreachable _ Hok). Qed.

Lemma store_ok now r tm :
  is_Some (tm_heap tm !! r) → tm_ok tm → tm_ok (AddOrUpdate_store now r tm).1.
Proof.
  intros [t Ht] Hok. unfold AddOrUpdate_store.
  assert (getRef tm r = t) as -> by (unfold getRef; by rewrite Ht).
  destruct (tm_taskStore tm !! st_ID t) as [r'|] eqn:Hs; simpl.
  - destruct (negb _); simpl; [by apply touchTask_ok|done].
  - destruct Hok as [Hst Hu Hp]. split; simpl; [|done..].
    intros id r' [[<- <-]|[_ Hr']]%lookup_insert_Some; eauto.
Qed.

Lemma length_ok now get r s tm : tm_ok tm → tm_ok (AddOrUpdate_length now get r s tm).1.
Proof.
  intros Hok. unfold AddOrUpdate_length. destruct (negb _); [done|].
  destruct (get _) as [e|L]; simpl.
  - apply touchTask_ok. destruct (se_notReachable e); [|done]. destruct Hok as [Hs Hu Hp].
    split; simpl; [done| |done]. intros id. by rewrite lookup_insert_ne.
  - by do 2 (apply updTask_ok; [done|done|]).
Qed.

Lemma tm_step_ok tm tm' : tm_step tm tm' → tm_ok tm → tm_ok tm'.
Proof.
  destruct 1 as [tm r t Hr Hp| | | | |tm now id u|tm now id p| | |tm now order|]; intros Hok.
  - destruct Hok as [Hs Hu Hpc]. split; simpl; [|done|].
    + intros id r' Hr'. destruct (Hs id r' Hr') as (t' & Ht' & ?). exists t'.
      rewrite lookup_insert_ne by congruence. done.
    + intros r' t' n p [[<- <-]|[_ Ht']]%lookup_insert_Some; [by rewrite Hp|by eapply Hpc].
  - by rewrite unreachable_ok.
  - by apply store_ok.
  - by apply length_ok.
  - unfold tm_Get. destruct (tm_taskStore tm !! id); simpl; [by apply touchTask_ok|done].
  - unfold tm_Update, updateTask. destruct u as [u|]; simpl; [|done].
    destruct (IsBlank (st_CdnStatus u)); [done|]. destruct (tm_taskStore tm !! id); simpl; [|done].
    apply touchTask_ok, updTask_ok; [..|done]; intros t; unfold applyUpdate;
      destruct (negb (IsSuccess u)), (IsSuccess t); done.
  - unfold tm_UpdateProgress. destruct (tm_taskStore tm !! id); simpl; [|done].
    apply touchTask_ok, updTask_ok; [done| |done]. intros t Ht n q. simpl.
    intros [[<- <-]|[_ Hq]]%lookup_insert_Some; [done|by apply Ht].
  - unfold tm_GetProgress. destruct (tm_taskStore tm !! id); simpl; [by apply touchTask_ok|done].
  - by apply deleteTask_ok.
  - unfold tm_GC. apply foldl_invariant; [|done]. intros id tm1 _ Hok1. unfold tm_GC_visit.
    destruct id as [id atime]. case_match; [done|]. by apply deleteTask_ok.
  - apply updTask_ok; [done| |done]. intros t _ n p. simpl. by rewrite lookup_empty.
Qed.

(** C18: the books of the tasks, in every state reached by any sequence of the
    manager's steps: a task is stored under its own ID and a piece under its own
    number; and no source is ever known as unreachable, so that no registration
    is turned away, because the manager files the unreachable tasks under their
    pointers and looks them up by their IDs. *)
Theorem task_books_kept (tm : TaskManager) :
  rtc tm_step NewTaskManager tm →
  (∀ id r, tm_taskStore tm !! id = Some r → ∃ t, tm_heap tm !! r = Some t ∧ st_ID t = id) ∧
  (∀ r t n p, tm_heap tm !! r = Some t → st_Pieces t !! n = Some p → sp_PieceNum p = n) ∧
  (∀ now get r, (AddOrUpdate config now get r tm).2 ≠ inl errURLUnreachable).
Proof.
  intros Hreach. assert (tm_ok tm) as Hok.
  { assert (tm_ok NewTaskManager) as H0 by (by split).
    induction Hreach; eauto using tm_step_ok. }
  split_and!; [apply (to_stored _ Hok)|apply (to_pieces _ Hok)|].
  intros now get r. unfold AddOrUpdate. rewrite unreachable_ok by done.
  unfold AddOrUpdate_store, AddOrUpdate_length.
  destruct (tm_taskStore tm !! _); simpl; repeat case_match; simplify_eq; done.
Qed.

End Steps.

(** ** Witnesses *)

Definition demoSeedTask : SeedTask := NewSeedTask (λ url _, url) "task" "http://host/file" None.
Definition demoTasks : TaskManager := mkTaskManager {[ 1%positive := demoSeedTask; 2%positive := demoSeedTask ]} ∅ ∅ ∅.
Definition demoTaskConfig : TaskConfig := mkTaskConfig 1800 180.

Lemma demoTasks_fresh : fresh demoTasks 1 demoSeedTask.
Proof. split_and!; vm_compute; reflexivity. Qed.

Lemma AddOrUpdate_sizes_witness : ∃ tm',
  AddOrUpdate demoTaskConfig 0 (λ _, inr 10000000) 1 demoTasks = (tm', inr 1%positive) ∧
  st_SourceFileLength (getRef tm' 1) = 10000000.
Proof.
  destruct (AddOrUpdate_sizes demoTaskConfig 0 (λ _, inr 10000000) demoTasks 1 demoSeedTask 10000000
    demoTasks_fresh ltac:(lia) eq_refl) as (tm' & H1 & _ & H2 & _).
  exists tm'. split; [exact H1|exact H2].
Defined.

Lemma AddOrUpdate_retry_miscounts_witness :
  let e := mkSourceError true "down" in
  let tm1 := (AddOrUpdate demoTaskConfig 0 (λ _, inl e) 1 demoTasks).1 in
  let tm2 := (AddOrUpdate demoTaskConfig 1 (λ _, inr 10000000) 2 tm1).1 in
  st_TotalPieceCount (getRef tm2 1) = 0.
Proof.
  intros e tm1 tm2.
  apply (AddOrUpdate_retry_miscounts demoTaskConfig 0 (λ _, inl e) (λ _, inr 10000000) demoTasks tm1 tm2
    1 2 demoSeedTask demoSeedTask e 10000000 demoTasks_fresh); [done| |vm_compute; reflexivity..| |].
  - vm_compute. reflexivity.
  - reflexivity.
  - reflexivity.
Defined.

Lemma task_books_kept_witness :
  let tm := (AddOrUpdate_store 0 1 (set_tm_heap {[ 1%positive := demoSeedTask ]} NewTaskManager)).1 in
  (∃ t, tm_heap tm !! 1%positive = Some t ∧ st_ID t = "task"%string) ∧
  (AddOrUpdate demoTaskConfig 5 (λ _, inr 7) 1 tm).2 ≠ inl errURLUnreachable.
Proof.
  intros tm. assert (rtc (tm_step demoTaskConfig) NewTaskManager tm) as Hreach.
  { eapply rtc_l; [by apply (tm_step_new _ NewTaskManager 1 demoSeedTask)|].
    eapply rtc_l; [|apply rtc_refl]. refine (tm_step_store _ _ 0 1 _). vm_compute. by eexists. }
  destruct (task_books_kept demoTaskConfig tm Hreach) as (H1 & _ & H3). split.
  - apply H1. vm_compute. reflexivity.
  - apply H3.
Defined.
