(* ===== verification/CdnStorage.v ===== *)
(** * CdnStorage: cdn/supervisor/cdn/storage

    The metadata of a task in the CDN's storage and the records of its pieces
    (storage.go), with the text of a record and its parser, and the interface
    that the storage managers offer to the rest of the CDN: its operations
    ([CdnStore]) and what they promise ([CdnStoreLaws]). *)

From S2P Require Import Prelude Text Ranges World FileSystem FileUtils StoreDriver CdnTask.
From Stdlib Require Import Ascii.
From stdpp Require Import options.
Local Open Scope Z_scope.

(** ** storage.go *)

Record FileMetadata := mkFileMetadata {
  fm_TaskID : string;
  fm_TaskURL : string;
  fm_PieceSize : Z;         (* int32 *)
  fm_SourceFileLen : Z;     (* int64 *)
  fm_AccessTime : Z;        (* int64, ms *)
  fm_Interval : Z;          (* int64, ms *)
  fm_CdnFileLength : Z;     (* int64 *)
  fm_Digest : string;
  fm_SourceRealDigest : string;
  fm_Tag : string;
  fm_ExpireInfo : gmap string string;
  fm_Finish : bool;
  fm_Success : bool;
  fm_TotalPieceCount : Z;   (* int32 *)
  fm_PieceMd5Sign : string;
  fm_Range : string;
  fm_Filter : string;
}.

Record PieceMetaRecord := mkPieceMetaRecord {
  pmr_PieceNum : Z;         (* uint32 *)
  pmr_PieceLen : Z;         (* uint32 *)
  pmr_Md5 : string;
  pmr_Range : ByteRange;
  pmr_OriginRange : ByteRange;
  pmr_PieceStyle : Z;       (* int32 *)
}.

#[export] Instance PieceMetaRecord_eq_dec : EqDecision PieceMetaRecord.
Proof. solve_decision. Defined.

Inductive CdnError :=
  | ErrTaskNotPersisted
  | ErrDriver (e : DriverError)
  | ErrMetadataFormat
  | ErrPieceRecord
  | ErrInconsistent (cause : string)
  | ErrExpired
  | ErrSource (e : SourceError)
  | ErrNoRangeSupport
  | ErrBreakRange
  | ErrReadSource (e : DriverError)
  | ErrCancelled
  | ErrResult (cause : string)
  | ErrProgress (e : TaskError).

Definition fieldSeparator : ascii := ":".

Definition PieceMetaRecord_String (r : PieceMetaRecord) : string :=
  strings_Join fieldSeparator
    [fmt_Sprint (pmr_PieceNum r); fmt_Sprint (pmr_PieceLen r); pmr_Md5 r;
     ByteRange_String (pmr_Range r); ByteRange_String (pmr_OriginRange r);
     fmt_Sprint (pmr_PieceStyle r)].

(** Missing fields panic, which the function recovers from: an error as well. *)
Definition ParsePieceMetaRecord (value : string) : CdnError + PieceMetaRecord :=
  match strings_Split fieldSeparator value with
  | f0 :: f1 :: f2 :: f3 :: f4 :: f5 :: _ =>
      match strconv_ParseUint 32 f0, strconv_ParseUint 32 f1, GetRange f3, GetRange f4,
            strconv_ParseInt 8 f5 with
      | Some pieceNum, Some pieceLen, inr pieceRange, inr originRange, Some pieceStyle =>
          inr (mkPieceMetaRecord pieceNum pieceLen f2 pieceRange originRange pieceStyle)
      | _, _, _, _, _ => inl ErrPieceRecord
      end
  | _ => inl ErrPieceRecord
  end.

(** The records the CDN writes. *)
Definition record_ok (r : PieceMetaRecord) : Prop :=
  0 <= pmr_PieceNum r < 2 ^ 32 ∧ 0 <= pmr_PieceLen r < 2 ^ 32 ∧
  strings_Contains fieldSeparator (pmr_Md5 r) = false ∧
  strings_Contains "010" (pmr_Md5 r) = false ∧
  range_ok (pmr_Range r) ∧ range_ok (pmr_OriginRange r) ∧ 0 <= pmr_PieceStyle r < 2 ^ 7.

Lemma String_ByteRange_notIn c r :
  range_ok r → digitValue c = None → c ≠ separator → strings_Contains c (ByteRange_String r) = false.
Proof.
  intros [Hr _] Hc Hne. unfold ByteRange_String. rewrite strings_Contains_app. cbn [strings_Contains].
  rewrite !allDigits_notIn by (first [done | apply allDigits_Sprint; lia]).
  by rewrite bool_decide_eq_false_2.
Qed.

Lemma record_fields_notIn c r :
  record_ok r → digitValue c = None → c ≠ separator → strings_Contains c (pmr_Md5 r) = false →
  Forall (λ s, strings_Contains c s = false)
    [fmt_Sprint (pmr_PieceNum r); fmt_Sprint (pmr_PieceLen r); pmr_Md5 r;
     ByteRange_String (pmr_Range r); ByteRange_String (pmr_OriginRange r);
     fmt_Sprint (pmr_PieceStyle r)].
Proof.
  intros (H1 & H2 & _ & _ & H5 & H6 & H7) Hc Hne Hm.
  repeat constructor; try done; first [by apply String_ByteRange_notIn |
    apply allDigits_notIn; [done|apply allDigits_Sprint; lia]].
Qed.

(** The round trip of a record. *)
Lemma Parse_String_record r : record_ok r → ParsePieceMetaRecord (PieceMetaRecord_String r) = inr r.
Proof.
  intros Hr. pose proof Hr as (H1 & H2 & H3 & H4 & H5 & H6 & H7).
  unfold ParsePieceMetaRecord, PieceMetaRecord_String.
  rewrite strings_Split_Join; [|done|by apply record_fields_notIn].
  rewrite !ParseUint_Sprint, !GetRange_String, ParseInt_Sprint by (first [done|lia]). by destruct r.
Qed.

(** ** The file of the records *)

Definition newline : ascii := "010".

Definition bytesOf (s : string) : list byte := String.list_byte_of_string s.
Definition textOf (bs : list byte) : string := String.string_of_list_byte bs.

Definition recordLine (r : PieceMetaRecord) : list byte :=
  bytesOf (PieceMetaRecord_String r +:+ String newline "").

Fixpoint mapRecords (lines : list string) : CdnError + list PieceMetaRecord :=
  match lines with
  | [] => inr []
  | l :: lines =>
      match ParsePieceMetaRecord l, mapRecords lines with
      | inl e, _ | _, inl e => inl e
      | inr r, inr rs => inr (r :: rs)
      end
  end.

(** The records of the file: [ReadPieceMetaRecords] behind its read. *)
Definition parseRecords (data : list byte) : CdnError + list PieceMetaRecord :=
  mapRecords (strings_Split newline (strings_TrimSpace (textOf data))).

(** The whole file, as [WritePieceMetaRecords] writes it. *)
Definition joinRecords (rs : list PieceMetaRecord) : list byte :=
  bytesOf (strings_Join newline (PieceMetaRecord_String <$> rs)).

Lemma textOf_bytesOf s : textOf (bytesOf s) = s.
Proof. apply String.string_of_list_byte_of_string. Qed.

Lemma bytesOf_app s t : bytesOf (s +:+ t) = bytesOf s ++ bytesOf t.
Proof.
  induction s as [|c s IH]; [done|]. change (String c s +:+ t) with (String c (s +:+ t)).
  change (byte_of_ascii c :: bytesOf (s +:+ t) = byte_of_ascii c :: (bytesOf s ++ bytesOf t)). by f_equal.
Qed.

Definition starts (s : string) : Prop := ∃ c t, s = String c t ∧ isSpace c = false.
Definition ends (s : string) : Prop := ∃ t c, s = t +:+ String c "" ∧ isSpace c = false.

Lemma starts_app s t : starts s → starts (s +:+ t).
Proof. intros (c & s' & -> & Hc). by exists c, (s' +:+ t). Qed.

Lemma ends_app s t : ends t → ends (s +:+ t).
Proof. intros (t' & c & -> & Hc). exists (s +:+ t'), c. by rewrite str_app_assoc. Qed.

Lemma starts_digits s : allDigits s → s ≠ ""%string → starts s.
Proof. destruct s as [|c s]; [done|]. intros [Hc _] _. exists c, s. split; [done|]. by apply isSpace_digit. Qed.

Lemma ends_digits s : allDigits s → s ≠ ""%string → ends s.
Proof.
  induction s as [|c s IH]; [done|]. intros [Hc Hs] _. destruct s as [|d s].
  - exists ""%string, c. split; [done|]. by apply isSpace_digit.
  - apply (ends_app (String c "") (String d s)). by apply IH.
Qed.

Lemma TrimSpace_bounded s t :
  starts s → ends s → trimRight isSpace t = ""%string → strings_TrimSpace (s +:+ t) = s.
Proof.
  intros (c & s' & Hs & Hc) (u & d & He & Hd) Ht. unfold strings_TrimSpace.
  assert (trimLeft isSpace (s +:+ t) = s +:+ t) as ->.
  { rewrite Hs. change (String c s' +:+ t) with (String c (s' +:+ t)). by apply trimLeft_id. }
  rewrite He, str_app_assoc. change (String d "" +:+ t) with (String d t).
  by apply trimRight_app.
Qed.

Lemma Sprint_ok z : 0 <= z → allDigits (fmt_Sprint z) ∧ fmt_Sprint z ≠ ""%string.
Proof.
  intros Hz. split; [by apply allDigits_Sprint|]. rewrite fmt_Sprint_nonneg by done. apply pretty_nonempty.
Qed.

Lemma Join_starts sep l x : starts x → starts (strings_Join sep (x :: l)).
Proof. intros Hx. destruct l; [done|]. by apply starts_app. Qed.

Lemma Join_ends sep l : l ≠ [] → (∀ x, x ∈ l → ends x) → ends (strings_Join sep l).
Proof.
  intros Hne Hl. induction l as [|x l IH]; [done|]. destruct l as [|y l]; [apply Hl; set_solver|].
  change (strings_Join sep (x :: y :: l)) with (x +:+ (String sep "" +:+ strings_Join sep (y :: l))).
  do 2 apply ends_app. apply IH; set_solver.
Qed.

Lemma record_starts r : record_ok r → starts (PieceMetaRecord_String r).
Proof. intros (H1 & _). destruct (Sprint_ok (pmr_PieceNum r)); [lia|]. by apply Join_starts, starts_digits. Qed.

Lemma record_ends r : record_ok r → ends (PieceMetaRecord_String r).
Proof.
  intros (_ & _ & _ & _ & _ & _ & H7). destruct (Sprint_ok (pmr_PieceStyle r)); [lia|].
  unfold PieceMetaRecord_String. cbn [strings_Join].
  repeat match goal with |- ends (?a +:+ String ?c ?b) =>
    change (a +:+ String c b) with (a +:+ (String c "" +:+ b)); do 2 apply ends_app end.
  by apply ends_digits.
Qed.

Lemma record_no_newline r :
  record_ok r → strings_Contains newline (PieceMetaRecord_String r) = false.
Proof.
  intros Hr. pose proof Hr as (_ & _ & _ & Hm & _).
  pose proof (record_fields_notIn newline r Hr eq_refl ltac:(done) Hm) as Hf.
  unfold PieceMetaRecord_String. revert Hf. generalize [fmt_Sprint (pmr_PieceNum r); fmt_Sprint (pmr_PieceLen r);
    pmr_Md5 r; ByteRange_String (pmr_Range r); ByteRange_String (pmr_OriginRange r); fmt_Sprint (pmr_PieceStyle r)].
  induction 1 as [|x l Hx Hl IH]; [done|]. destruct l as [|y l]; [done|].
  change (strings_Join fieldSeparator (x :: y :: l)) with (x +:+ String fieldSeparator (strings_Join fieldSeparator (y :: l))).
  rewrite strings_Contains_app, Hx. simpl in *. by rewrite IH.
Qed.

Lemma mapRecords_String rs : Forall record_ok rs → mapRecords (PieceMetaRecord_String <$> rs) = inr rs.
Proof.
  induction 1 as [|r rs Hr Hrs IH]; [done|]. rewrite fmap_cons. cbn [mapRecords].
  by rewrite Parse_String_record, IH.
Qed.

(** What is written is read back, with or without white space at the end. *)
Lemma parseRecords_text rs t :
  rs ≠ [] → Forall record_ok rs → trimRight isSpace t = ""%string →
  parseRecords (joinRecords rs ++ bytesOf t) = inr rs.
Proof.
  intros Hne Hall Ht. unfold parseRecords, joinRecords. rewrite <-bytesOf_app, textOf_bytesOf.
  rewrite TrimSpace_bounded; [| | |done].
  - rewrite strings_Split_Join; [by apply mapRecords_String|by intros ?%fmap_nil_inv|].
    apply Forall_fmap. eapply Forall_impl; [done|]. apply record_no_newline.
  - destruct Hall as [|r rs Hr Hall]; [done|]. rewrite fmap_cons. by apply Join_starts, record_starts.
  - apply Join_ends; [by intros ?%fmap_nil_inv|]. intros x (r & -> & Hr)%list_elem_of_fmap.
    rewrite Forall_forall in Hall. by apply record_ends, Hall.
Qed.

(** Lines appended one by one. *)
Definition recordLines (rs : list PieceMetaRecord) : list byte := concat (recordLine <$> rs).

Lemma recordLines_join rs : rs ≠ [] → recordLines rs = joinRecords rs ++ bytesOf (String newline "").
Proof.
  intros Hne. induction rs as [|r rs IH]; [done|]. destruct rs as [|r' rs].
  - unfold recordLines, recordLine, joinRecords. simpl. by rewrite app_nil_r, bytesOf_app.
  - change (recordLine r ++ recordLines (r' :: rs) =
      bytesOf (PieceMetaRecord_String r +:+ (String newline "" +:+
        strings_Join newline (PieceMetaRecord_String <$> r' :: rs))) ++ bytesOf (String newline "")).
    rewrite IH by done. unfold recordLine, joinRecords. by rewrite !bytesOf_app, <-!(assoc_L (++)).
Qed.

Lemma parseRecords_lines rs : rs ≠ [] → Forall record_ok rs → parseRecords (recordLines rs) = inr rs.
Proof. intros Hne Hall. rewrite recordLines_join by done. by apply parseRecords_text. Qed.

(** ** The interface of the storage managers *)

Class CdnStore (S : Type) := {
  ResetRepo : SeedTask → S → S * option CdnError;
  StatDownloadFile : string → S → CdnError + StorageInfo;
  WriteDownloadFile : string → Z → Z → Stream DriverError → S → S * option CdnError;
  ReadDownloadFile : string → S → CdnError + list byte;
  ReadFileMetadata : string → S → CdnError + FileMetadata;
  WriteFileMetadata : string → FileMetadata → S → S * option CdnError;
  WritePieceMetaRecords : string → list PieceMetaRecord → S → S * option CdnError;
  AppendPieceMetadata : string → PieceMetaRecord → S → S * option CdnError;
  ReadPieceMetaRecords : string → S → CdnError + list PieceMetaRecord;
  DeleteTask : string → S → S * option CdnError;
}.

(** What a storage holds of a task.  The file of the records is [closed] when
    its last line has an end, so that a line can be appended. *)
Record TaskFiles := mkTaskFiles {
  tf_data : list byte;
  tf_meta : option FileMetadata;
  tf_records : list PieceMetaRecord;
  tf_closed : bool;
}.

Definition newFiles : TaskFiles := mkTaskFiles [] None [] true.

(** Task IDs are digests in hexadecimal: at least three characters, no dot. *)
Definition id_ok (id : string) : Prop :=
  (3 ≤ String.length id)%nat ∧ strings_Contains "." id = false.

Class CdnStoreLaws (S : Type) `{CdnStore S} := {
  store_inv : S → Prop;
  stores : S → string → TaskFiles → Prop;

  (** An operation on one task leaves the others alone. *)
  framed (id : string) (s s' : S) : Prop :=
    store_inv s' ∧ ∀ id' f, id' ≠ id → id_ok id' → stores s id' f → stores s' id' f;

  ResetRepo_law t s : store_inv s → id_ok (st_ID t) →
    ∃ s', ResetRepo t s = (s', None) ∧ framed (st_ID t) s s' ∧ stores s' (st_ID t) newFiles;
  Stat_law id f s : store_inv s → id_ok id → stores s id f →
    StatDownloadFile id s = inr (mkStorageInfo (Z.of_nat (length (tf_data f))));
  WriteDownload_law id f off bs s : store_inv s → id_ok id → stores s id f → bs ≠ [] → 0 <= off →
    ∃ s', WriteDownloadFile id off (Z.of_nat (length bs)) (mkStream bs None) s = (s', None) ∧
      framed id s s' ∧
      stores s' id (mkTaskFiles (splice (tf_data f) (Z.to_nat off) bs) (tf_meta f) (tf_records f) (tf_closed f));
  ReadDownload_law id f s : store_inv s → id_ok id → stores s id f →
    ReadDownloadFile id s = inr (tf_data f);
  ReadMetadata_law id f m s : store_inv s → id_ok id → stores s id f → tf_meta f = Some m →
    ReadFileMetadata id s = inr m;
  NoMetadata_law id f s : store_inv s → id_ok id → stores s id f → tf_meta f = None →
    ∃ e, ReadFileMetadata id s = inl e;
  WriteMetadata_law id f m s : store_inv s → id_ok id → stores s id f →
    ∃ s', WriteFileMetadata id m s = (s', None) ∧ framed id s s' ∧
      stores s' id (mkTaskFiles (tf_data f) (Some m) (tf_records f) (tf_closed f));
  WriteRecords_law id f rs s : store_inv s → id_ok id → stores s id f → Forall record_ok rs →
    ∃ s', WritePieceMetaRecords id rs s = (s', None) ∧ framed id s s' ∧
      stores s' id (mkTaskFiles (tf_data f) (tf_meta f) rs (bool_decide (rs = [])));
  Append_law id f r s : store_inv s → id_ok id → stores s id f → tf_closed f = true → record_ok r →
    ∃ s', AppendPieceMetadata id r s = (s', None) ∧ framed id s s' ∧
      stores s' id (mkTaskFiles (tf_data f) (tf_meta f) (tf_records f ++ [r]) true);
  ReadRecords_law id f s : store_inv s → id_ok id → stores s id f →
    (tf_records f ≠ [] → ReadPieceMetaRecords id s = inr (tf_records f)) ∧
    (tf_records f = [] → ∃ e, ReadPieceMetaRecords id s = inl e);
  Delete_law id s : store_inv s → id_ok id →
    ∃ s', DeleteTask id s = (s', None) ∧ framed id s s' ∧
      (∃ e, ReadFileMetadata id s' = inl e) ∧ StatDownloadFile id s' = inl ErrTaskNotPersisted;
}.
