(* ===== verification/DiskStorage.v ===== *)
(** * DiskStorage: cdn/supervisor/cdn/storage/disk and path_util.go

    The storage manager that keeps everything on disk, over the driver of
    StoreDriver.v.  JSON is a class with the documented behaviour.  The manager
    implements the interface of CdnStorage.v. *)

From S2P Require Import Prelude Text Ranges World FileSystem FileUtils StoreDriver CdnTask CdnStorage.
From Stdlib Require Import Ascii.
From stdpp Require Import options.
Local Open Scope Z_scope.

Class MetaCodec := {
  marshalMeta : FileMetadata → list byte;
  unmarshalMeta : list byte → option FileMetadata;
}.

Class MetaCodecLaws `{MetaCodec} := {
  unmarshal_marshal m : unmarshalMeta (marshalMeta m) = Some m;
}.

(** ** path_util.go *)

Definition DownloadHome : string := "download".
Definition UploadHome : string := "upload".

(** [path.Join(getParentKey(taskID), name)]: an empty element is dropped. *)
Definition getParentKey (taskID : string) : fpath :=
  let parent := SubString taskID 0 3 in if decide (parent = ""%string) then [] else [parent].

Definition getDownloadKey (taskID : string) : fpath := getParentKey taskID ++ [taskID].
Definition getTaskMetadataKey (taskID : string) : fpath := getParentKey taskID ++ [taskID +:+ ".meta"].
Definition getPieceMetadataKey (taskID : string) : fpath := getParentKey taskID ++ [taskID +:+ ".piece"].

Definition GetDownloadRaw (taskID : string) : Raw := mkRaw DownloadHome (getDownloadKey taskID) 0 0 false 0 false.
Definition GetUploadRaw (taskID : string) : Raw := mkRaw UploadHome (getDownloadKey taskID) 0 0 false 0 false.
Definition GetTaskMetadataRaw (taskID : string) : Raw :=
  mkRaw DownloadHome (getTaskMetadataKey taskID) 0 0 true 0 false.
Definition GetPieceMetadataRaw (taskID : string) : Raw :=
  mkRaw DownloadHome (getPieceMetadataKey taskID) 0 0 false 0 false.
Definition GetAppendPieceMetadataRaw (taskID : string) : Raw :=
  mkRaw DownloadHome (getPieceMetadataKey taskID) 0 0 false 0 true.
Definition GetParentRaw (taskID : string) : Raw := mkRaw DownloadHome (getParentKey taskID) 0 0 false 0 false.

(** ** disk.go *)

Definition liftDriver {A} (r : DriverError + A) : CdnError + A :=
  match r with inl e => inl (ErrDriver e) | inr a => inr a end.
Definition liftErr (r : FS * option DriverError) : FS * option CdnError := (r.1, ErrDriver <$> r.2).

Section Disk.
Context (BaseDir : fpath) `{MetaCodec}.

Definition disk_AppendPieceMetadata (taskID : string) (record : PieceMetaRecord) (fs : FS)
    : FS * option CdnError :=
  liftErr (driver_PutBytes BaseDir fs (GetAppendPieceMetadataRaw taskID) (recordLine record)).

Definition disk_ReadPieceMetaRecords (taskID : string) (fs : FS) : CdnError + list PieceMetaRecord :=
  match driver_GetBytes BaseDir fs (GetPieceMetadataRaw taskID) with
  | inl e => inl (ErrDriver e)
  | inr bytes => parseRecords bytes
  end.

Definition disk_WriteDownloadFile (taskID : string) (offset len : Z) (data : Stream DriverError) (fs : FS)
    : FS * option CdnError :=
  let raw := GetDownloadRaw taskID in
  let raw := mkRaw (raw_Bucket raw) (raw_Key raw) offset len (raw_Trunc raw) (raw_TruncSize raw)
               (raw_Append raw) in
  liftErr (driver_Put BaseDir fs raw (Some data)).

Definition disk_ReadFileMetadata (taskID : string) (fs : FS) : CdnError + FileMetadata :=
  match driver_GetBytes BaseDir fs (GetTaskMetadataRaw taskID) with
  | inl e => inl (ErrDriver e)
  | inr bytes => match unmarshalMeta bytes with Some m => inr m | None => inl ErrMetadataFormat end
  end.

Definition disk_WriteFileMetadata (taskID : string) (metadata : FileMetadata) (fs : FS)
    : FS * option CdnError :=
  liftErr (driver_PutBytes BaseDir fs (GetTaskMetadataRaw taskID) (marshalMeta metadata)).

Definition disk_WritePieceMetaRecords (taskID : string) (records : list PieceMetaRecord) (fs : FS)
    : FS * option CdnError :=
  let raw := GetPieceMetadataRaw taskID in
  let raw := mkRaw (raw_Bucket raw) (raw_Key raw) (raw_Offset raw) (raw_Length raw) true 0 (raw_Append raw) in
  liftErr (driver_PutBytes BaseDir fs raw (joinRecords records)).

Definition disk_ReadDownloadFile (taskID : string) (fs : FS) : CdnError + list byte :=
  liftDriver (driver_Get BaseDir fs (GetDownloadRaw taskID)).

Definition disk_StatDownloadFile (taskID : string) (fs : FS) : CdnError + StorageInfo :=
  match driver_Stat BaseDir fs (GetDownloadRaw taskID) with
  | inl e => inl (if isNotExist e then ErrTaskNotPersisted else ErrDriver e)
  | inr info => inr info
  end.

(** Removing, where a file that is not there is no error. *)
Definition removeIfThere (fs : FS) (raw : Raw) : FS * option DriverError :=
  match driver_Remove BaseDir fs raw with
  | (fs, Some e) => (fs, if isNotExist e then None else Some e)
  | r => r
  end.

Fixpoint removeAllOf (fs : FS) (raws : list Raw) : FS * option DriverError :=
  match raws with
  | [] => (fs, None)
  | raw :: raws =>
      match removeIfThere fs raw with
      | (fs, Some e) => (fs, Some e)
      | (fs, None) => removeAllOf fs raws
      end
  end.

Definition disk_DeleteTask (taskID : string) (fs : FS) : FS * option CdnError :=
  match removeAllOf fs [GetTaskMetadataRaw taskID; GetPieceMetadataRaw taskID; GetDownloadRaw taskID;
                        GetUploadRaw taskID] with
  | (fs, Some e) => (fs, Some (ErrDriver e))
  | (fs, None) => ((driver_Remove BaseDir fs (GetParentRaw taskID)).1, None)
  end.

Definition disk_ResetRepo (seedTask : SeedTask) (fs : FS) : FS * option CdnError :=
  match disk_DeleteTask (st_ID seedTask) fs with
  | (fs, Some e) => (fs, Some e)
  | (fs, None) =>
      let downloadPath := driver_GetPath BaseDir (GetDownloadRaw (st_ID seedTask)) in
      match fileutils_MkdirAll fs (removelast downloadPath) with
      | (fs, Some e) => (fs, Some (ErrDriver (ErrFile e)))
      | (fs, None) =>
          match os_OpenTrunc fs downloadPath with
          | (fs, inl e) => (fs, Some (ErrDriver (ErrFile (FileIO e))))
          | (fs, inr _) =>
              let '(fs, err) := SymbolicLink fs downloadPath
                                  (driver_GetPath BaseDir (GetUploadRaw (st_ID seedTask))) in
              (fs, (λ e, ErrDriver (ErrFile e)) <$> err)
          end
      end
  end.

#[export] Instance disk_store : CdnStore FS := {
  ResetRepo := disk_ResetRepo;
  StatDownloadFile := disk_StatDownloadFile;
  WriteDownloadFile := disk_WriteDownloadFile;
  ReadDownloadFile := disk_ReadDownloadFile;
  ReadFileMetadata := disk_ReadFileMetadata;
  WriteFileMetadata := disk_WriteFileMetadata;
  WritePieceMetaRecords := disk_WritePieceMetaRecords;
  AppendPieceMetadata := disk_AppendPieceMetadata;
  ReadPieceMetaRecords := disk_ReadPieceMetaRecords;
  DeleteTask := disk_DeleteTask;
}.

End Disk.
