(* ===== verification/DiskLaws.v ===== *)
(** * DiskLaws: the disk manager implements the storage interface

    The invariant of the directory that the disk manager owns, what each
    operation of DiskStorage.v does to the three files of a task, and the laws
    of CdnStorage.v. *)

From S2P Require Import Prelude Text Ranges World FileSystem FileUtils StoreDriver CdnTask CdnStorage.
From S2P Require Import DiskStorage.
From Stdlib Require Import Ascii.
From stdpp Require Import options.
Local Open Scope Z_scope.

Section Laws.
Context (BaseDir : fpath) `{MetaCodecLaws}.

Notation at_ h x n := (BaseDir ++ [h; x; n]).
Notation nodes fs := (fs_nodes fs).

(** ** The directory *)

Inductive layout : list string → Node → Prop :=
  | layout_home h : layout [h] NodeDir
  | layout_bucket h x : layout [h; x] NodeDir
  | layout_file x n ino : layout [DownloadHome; x; n] (NodeFile ino)
  | layout_link x n : layout [UploadHome; x; n] (NodeSymlink (at_ DownloadHome x n)).

Record disk_inv (fs : FS) : Prop := {
  di_base : ∀ q, q `prefix_of` BaseDir → nodes fs !! q = Some NodeDir;
  di_layout : ∀ rel n, rel ≠ [] → nodes fs !! (BaseDir ++ rel) = Some n → layout rel n;
  di_next : ∀ q ino, nodes fs !! q = Some (NodeFile ino) → (ino < fs_next fs)%positive;
  di_inj : ∀ q q' ino, nodes fs !! q = Some (NodeFile ino) → nodes fs !! q' = Some (NodeFile ino) →
    BaseDir `prefix_of` q → q = q';
}.

(** The files and links other than [p] are as they were. *)
Definition others (p : fpath) (fs fs' : FS) : Prop :=
  ∀ h x n, at_ h x n ≠ p → nodes fs' !! at_ h x n = nodes fs !! at_ h x n ∧
    ∀ ino, nodes fs !! at_ h x n = Some (NodeFile ino) → fileData fs' ino = fileData fs ino.

Definition fileAt (fs : FS) (p : fpath) (bs : list byte) : Prop :=
  ∃ ino, nodes fs !! p = Some (NodeFile ino) ∧ fileData fs ino = bs.

Lemma others_refl p fs : others p fs fs.
Proof. done. Qed.

Lemma others_trans p fs1 fs2 fs3 : others p fs1 fs2 → others p fs2 fs3 → others p fs1 fs3.
Proof.
  intros H12 H23 h x n Hne. destruct (H12 h x n Hne) as [Hn1 Hd1], (H23 h x n Hne) as [Hn2 Hd2].
  split; [by rewrite Hn2|]. intros ino Hi. rewrite Hd2; [by apply Hd1|]. by rewrite Hn1.
Qed.

Lemma others_fileAt p fs fs' h x n bs :
  others p fs fs' → at_ h x n ≠ p → fileAt fs (at_ h x n) bs → fileAt fs' (at_ h x n) bs.
Proof.
  intros Ho Hne (ino & Hi & Hd). destruct (Ho h x n Hne) as [Hn Hd']. exists ino.
  rewrite Hn. split; [done|]. rewrite Hd' by done. done.
Qed.

(** What only concerns the data keeps the invariant. *)
Lemma disk_inv_data fs fs' :
  nodes fs' = nodes fs → fs_next fs' = fs_next fs → disk_inv fs → disk_inv fs'.
Proof. intros Hn Hx [H1 H2 H3 H4]. split; rewrite ?Hn, ?Hx; done. Qed.

Lemma others_writeAt fs h x n ino off bs :
  disk_inv fs → nodes fs !! at_ h x n = Some (NodeFile ino) →
  others (at_ h x n) fs (writeAt fs ino off bs).
Proof.
  intros Hinv Hi h' x' n' Hne. split; [done|]. intros ino' Hi'.
  apply fileData_writeAt_ne. intros <-. apply Hne. symmetry.
  eapply (di_inj _ Hinv); [done..|]. by apply prefix_app_r.
Qed.

Lemma others_truncateTo fs h x n ino k :
  disk_inv fs → nodes fs !! at_ h x n = Some (NodeFile ino) →
  others (at_ h x n) fs (truncateTo fs ino k).
Proof.
  intros Hinv Hi h' x' n' Hne. split; [done|]. intros ino' Hi'.
  unfold fileData, truncateTo. simpl. rewrite lookup_insert_ne; [done|]. intros <-. apply Hne.
  symmetry. eapply (di_inj _ Hinv); [done..|]. by apply prefix_app_r.
Qed.

(** ** Directories *)

Definition mkDir (p : fpath) (fs : FS) : FS := set_fs_nodes (<[p := NodeDir]> (nodes fs)) fs.

Lemma mkDir_id p fs : nodes fs !! p = Some NodeDir → mkDir p fs = fs.
Proof. intros Hp. unfold mkDir, set_fs_nodes. rewrite insert_id by done. by destruct fs. Qed.

Lemma Stat_node fs p n :
  nodes fs !! p = Some n → (∀ d, n ≠ NodeSymlink d) → os_Stat fs p = Some n.
Proof.
  intros Hp Hn. unfold os_Stat, follow, os_Lstat. simpl. rewrite Hp. destruct n; try done.
  by destruct (Hn dest).
Qed.

Lemma Stat_absent fs p : nodes fs !! p = None → os_Stat fs p = None.
Proof. intros Hp. unfold os_Stat, follow, os_Lstat. simpl. by rewrite Hp. Qed.

Lemma mkdirs_existing fs done l rest :
  (∀ q, q `prefix_of` (done ++ l) → nodes fs !! q = Some NodeDir) →
  mkdirs fs done (l ++ rest) = mkdirs fs (done ++ l) rest.
Proof.
  revert done. induction l as [|x l IH]; intros d Hd; [by rewrite app_nil_r|].
  cbn [app mkdirs]. rewrite (Stat_node _ _ NodeDir); [|apply Hd|done].
  - rewrite IH, <-(assoc_L (++)); [done|]. by rewrite <-(assoc_L (++)).
  - exists l. by rewrite <-(assoc_L (++)).
Qed.

Lemma mkdirs_one fs d x rest :
  nodes fs !! (d ++ [x]) = None ∨ nodes fs !! (d ++ [x]) = Some NodeDir →
  mkdirs fs d (x :: rest) = mkdirs (mkDir (d ++ [x]) fs) (d ++ [x]) rest.
Proof.
  intros [Hp|Hp]; cbn [mkdirs].
  - rewrite Stat_absent by done. unfold os_Lstat. by rewrite Hp.
  - rewrite (Stat_node _ _ NodeDir) by done. by rewrite mkDir_id.
Qed.

Lemma layout_dir fs rel : disk_inv fs → (length rel = 1 ∨ length rel = 2)%nat →
  nodes fs !! (BaseDir ++ rel) = None ∨ nodes fs !! (BaseDir ++ rel) = Some NodeDir.
Proof.
  intros Hinv Hl. destruct (nodes fs !! (BaseDir ++ rel)) as [n|] eqn:Hn; [right|by left].
  apply (di_layout _ Hinv) in Hn; [|by destruct rel; destruct Hl].
  by inversion Hn; subst; simpl in Hl; try lia.
Qed.

Lemma mkDir_inv fs rel : disk_inv fs → (length rel = 1 ∨ length rel = 2)%nat →
  disk_inv (mkDir (BaseDir ++ rel) fs).
Proof.
  intros Hinv Hl. split; simpl.
  - intros q Hq. rewrite lookup_insert_ne; [by apply (di_base _ Hinv)|]. intros <-.
    apply prefix_length in Hq. rewrite length_app in Hq. lia.
  - intros rel' n Hne [[Heq <-]|[_ Hn]]%lookup_insert_Some; [|by apply (di_layout _ Hinv)].
    apply app_inv_head in Heq as <-. destruct rel as [|a [|b [|]]]; simpl in Hl; try lia; constructor.
  - intros q ino [[_ ?]|[_ Hq]]%lookup_insert_Some; [done|by eapply (di_next _ Hinv)].
  - intros q q' ino [[_ ?]|[_ Hq]]%lookup_insert_Some; [done|].
    intros [[_ ?]|[_ Hq']]%lookup_insert_Some; [done|]. by apply (di_inj _ Hinv q q' ino).
Qed.

Lemma others_mkDir p fs rel : (length rel ≤ 2)%nat → others p fs (mkDir (BaseDir ++ rel) fs).
Proof.
  intros Hl h x n _. split; [|done]. simpl. rewrite lookup_insert_ne; [done|].
  intros Heq%app_inv_head. subst rel. simpl in Hl. lia.
Qed.

Lemma MkdirAll_home fs h :
  disk_inv fs → os_MkdirAll fs (BaseDir ++ [h]) = (mkDir (BaseDir ++ [h]) fs, None).
Proof.
  intros Hinv. unfold os_MkdirAll. rewrite mkdirs_existing by apply (di_base _ Hinv).
  simpl app at 1. rewrite mkdirs_one; [done|]. apply layout_dir; [done|by left].
Qed.

Lemma MkdirAll_bucket fs h x :
  disk_inv fs → os_MkdirAll fs (BaseDir ++ [h; x]) =
    (mkDir (BaseDir ++ [h; x]) (mkDir (BaseDir ++ [h]) fs), None).
Proof.
  intros Hinv. unfold os_MkdirAll. rewrite mkdirs_existing by apply (di_base _ Hinv).
  simpl app at 1. rewrite mkdirs_one by (apply layout_dir; [done|by left]).
  rewrite mkdirs_one; rewrite <-(assoc_L (++)); [done|].
  apply layout_dir; [|by right]. apply mkDir_inv; [done|by left].
Qed.

(** ** Opening a file to write it *)

Lemma removelast_at h x n : removelast (at_ h x n) = BaseDir ++ [h; x].
Proof.
  replace (at_ h x n) with ((BaseDir ++ [h; x]) ++ [n]) by by rewrite <-(assoc_L (++)).
  apply removelast_last.
Qed.

Lemma layout_at fs x n : disk_inv fs →
  nodes fs !! at_ DownloadHome x n = None ∨
  ∃ ino, nodes fs !! at_ DownloadHome x n = Some (NodeFile ino).
Proof.
  intros Hinv. destruct (nodes fs !! at_ DownloadHome x n) as [nd|] eqn:Hn; [right|by left].
  apply (di_layout _ Hinv) in Hn; [|done]. inversion Hn; subst. by eexists.
Qed.

Lemma addFile_inv fs x n : disk_inv fs → nodes fs !! at_ DownloadHome x n = None →
  disk_inv (addFile fs (at_ DownloadHome x n)).
Proof.
  intros Hinv Habs. split; simpl.
  - intros q Hq. rewrite lookup_insert_ne; [by apply (di_base _ Hinv)|]. intros <-.
    apply prefix_length in Hq. rewrite length_app in Hq. simpl in Hq. lia.
  - intros rel nd Hne [[Heq <-]|[_ Hn]]%lookup_insert_Some; [|by apply (di_layout _ Hinv)].
    apply app_inv_head in Heq as <-. constructor.
  - intros q ino [[_ [= <-]]|[_ Hq]]%lookup_insert_Some; [lia|].
    apply (di_next _ Hinv) in Hq. lia.
  - intros q q' ino [[<- [= <-]]|[_ Hq]]%lookup_insert_Some
      [[<- Hi]|[_ Hq']]%lookup_insert_Some Hpre; try done.
    + apply (di_next _ Hinv) in Hq'. lia.
    + injection Hi as <-. apply (di_next _ Hinv) in Hq. lia.
    + by apply (di_inj _ Hinv q q' ino).
Qed.

Lemma others_addFile fs p : disk_inv fs → others p fs (addFile fs p).
Proof.
  intros Hinv h x n Hne. split; simpl; [by rewrite lookup_insert_ne|]. intros ino Hi.
  apply (di_next _ Hinv) in Hi. unfold fileData. simpl. rewrite lookup_insert_ne; [done|lia].
Qed.

(** What the file at [p] holds, nothing when it is not there. *)
Definition contentAt (fs : FS) (p : fpath) : list byte :=
  match nodes fs !! p with Some (NodeFile ino) => fileData fs ino | _ => [] end.

Lemma fileAt_content fs p bs : fileAt fs p bs → contentAt fs p = bs.
Proof. intros (ino & Hi & Hd). unfold contentAt. by rewrite Hi. Qed.

Lemma OpenCreate_ok fs x n :
  disk_inv fs →
  (nodes fs !! at_ DownloadHome x n = None → nodes fs !! (BaseDir ++ [DownloadHome; x]) = Some NodeDir) →
  let p := at_ DownloadHome x n in
  ∃ fs' ino, os_OpenCreate fs p = (fs', inr ino) ∧ disk_inv fs' ∧
    nodes fs' !! p = Some (NodeFile ino) ∧ others p fs fs' ∧ fileData fs' ino = contentAt fs p.
Proof.
  intros Hinv Hdir p. unfold os_OpenCreate, contentAt.
  destruct (layout_at fs x n Hinv) as [Habs|[ino Hi]].
  - fold p in Habs. rewrite Stat_absent, linkTarget_absent by done. unfold parentIsDir, p.
    rewrite removelast_at, (Stat_node _ _ NodeDir) by auto. fold p.
    eexists _, _. split; [done|]. split; [by apply addFile_inv|].
    split; [simpl; apply lookup_insert_eq|]. split; [by apply others_addFile|].
    rewrite Habs. unfold fileData. simpl. by rewrite lookup_insert_eq.
  - fold p in Hi. rewrite (Stat_node _ _ (NodeFile ino)) by done. exists fs, ino.
    rewrite Hi. done.
Qed.

Lemma OpenTrunc_ok fs x n :
  disk_inv fs →
  (nodes fs !! at_ DownloadHome x n = None → nodes fs !! (BaseDir ++ [DownloadHome; x]) = Some NodeDir) →
  let p := at_ DownloadHome x n in
  ∃ fs' ino, os_OpenTrunc fs p = (fs', inr ino) ∧ disk_inv fs' ∧
    nodes fs' !! p = Some (NodeFile ino) ∧ others p fs fs' ∧ fileData fs' ino = [].
Proof.
  intros Hinv Hdir p. destruct (OpenCreate_ok fs x n Hinv Hdir) as (fs1 & ino & He & Hinv1 & Hi & Ho & _).
  unfold os_OpenTrunc. fold p in He, Hi, Ho |- *. rewrite He.
  exists (truncate fs1 ino), ino. split; [done|]. split; [by apply (disk_inv_data fs1)|]. split; [done|].
  split; [|unfold fileData; simpl; by rewrite lookup_insert_eq].
  eapply others_trans; [done|]. intros h x' n' Hne. split; [done|]. intros ino' Hi'.
  unfold fileData. simpl. rewrite lookup_insert_ne; [done|]. intros <-. apply Hne. symmetry.
  eapply (di_inj _ Hinv1); [done..|]. by apply prefix_app_r.
Qed.

Lemma OpenFile_ok mode fs x n :
  disk_inv fs →
  let p := at_ DownloadHome x n in
  ∃ fs' ino, fileutils_OpenFile mode fs p = (fs', inr ino) ∧ disk_inv fs' ∧
    nodes fs' !! p = Some (NodeFile ino) ∧ others p fs fs' ∧
    fileData fs' ino = (if mode is OpenTrunc then [] else contentAt fs p).
Proof.
  intros Hinv p.
  assert (∀ fs0, disk_inv fs0 → others p fs fs0 → contentAt fs0 p = contentAt fs p →
    (nodes fs0 !! p = None → nodes fs0 !! (BaseDir ++ [DownloadHome; x]) = Some NodeDir) →
    ∃ fs' ino, (let '(fs1, r) := match mode with OpenTrunc => os_OpenTrunc fs0 p
                                 | OpenPlain => os_OpenCreate fs0 p end in
      (fs1, match r with inl e => inl (FileIO e) | inr ino => inr ino end)) = (fs', inr ino) ∧
    disk_inv fs' ∧ nodes fs' !! p = Some (NodeFile ino) ∧ others p fs fs' ∧
    fileData fs' ino = (if mode is OpenTrunc then [] else contentAt fs p)) as Hopen.
  { intros fs0 Hinv0 Ho0 Hc0 Hd0. destruct mode.
    - destruct (OpenTrunc_ok fs0 x n Hinv0 Hd0) as (fs1 & ino & He & Hinv1 & Hi & Ho & Hd).
      fold p in He, Hi, Ho. rewrite He. eauto 10 using others_trans.
    - destruct (OpenCreate_ok fs0 x n Hinv0 Hd0) as (fs1 & ino & He & Hinv1 & Hi & Ho & Hd).
      fold p in He, Hi, Ho, Hd. rewrite He, <-Hc0. eauto 10 using others_trans. }
  unfold fileutils_OpenFile, PathExist, os_Lstat. destruct (nodes fs !! p) as [nd|] eqn:Hp.
  - apply Hopen; [done|done|done|]. congruence.
  - unfold fileutils_MkdirAll, p. rewrite removelast_at, MkdirAll_bucket by done. simpl fmap. fold p.
    assert (nodes (mkDir (BaseDir ++ [DownloadHome; x]) (mkDir (BaseDir ++ [DownloadHome]) fs)) !! p =
      nodes fs !! p) as Hsame.
    { simpl. rewrite !lookup_insert_ne; [done|..]; unfold p; intros Heq%app_inv_head; done. }
    apply Hopen.
    + apply mkDir_inv; [|by right]. apply mkDir_inv; [done|by left].
    + eapply others_trans; apply others_mkDir; simpl; lia.
    + unfold contentAt. rewrite Hsame. done.
    + intros _. simpl. apply lookup_insert_eq.
Qed.

(** ** Writing *)

Lemma preparePath_ok fs x n off len trunc app :
  disk_inv fs →
  driver_preparePath BaseDir fs (mkRaw DownloadHome [x; n] off len trunc 0 app) =
    (mkDir (BaseDir ++ [DownloadHome]) fs, inr (at_ DownloadHome x n)).
Proof.
  intros Hinv. unfold driver_preparePath, fileutils_MkdirAll. simpl raw_Bucket. simpl raw_Key.
  rewrite decide_False by done. rewrite MkdirAll_home by done. simpl fmap.
  by rewrite <-(assoc_L (++)).
Qed.

Lemma mkHome_ok fs p :
  disk_inv fs → let fs1 := mkDir (BaseDir ++ [DownloadHome]) fs in
  disk_inv fs1 ∧ others p fs fs1 ∧ ∀ h x n, contentAt fs1 (at_ h x n) = contentAt fs (at_ h x n).
Proof.
  intros Hinv fs1. split; [apply mkDir_inv; [done|by left]|].
  split; [apply others_mkDir; simpl; lia|]. intros h x n. unfold contentAt, fs1. simpl.
  rewrite lookup_insert_ne; [done|]. by intros Heq%app_inv_head.
Qed.

Lemma fileAt_writeAt fs p ino off bs :
  nodes fs !! p = Some (NodeFile ino) → fileAt (writeAt fs ino off bs) p (splice (fileData fs ino) off bs).
Proof. intros Hi. exists ino. split; [done|]. apply fileData_writeAt. Qed.

Lemma splice_nil bs : splice [] 0 bs = bs.
Proof. exact (splice_append [] bs). Qed.

Lemma PutBytes_ok fs x n trunc app data :
  disk_inv fs →
  let p := at_ DownloadHome x n in
  ∃ fs', driver_PutBytes BaseDir fs (mkRaw DownloadHome [x; n] 0 0 trunc 0 app) data = (fs', None) ∧
    disk_inv fs' ∧ others p fs fs' ∧
    fileAt fs' p (if trunc then data else if app then contentAt fs p ++ data
                  else splice (contentAt fs p) 0 data).
Proof.
  intros Hinv p. unfold driver_PutBytes. simpl CheckPutRaw. cbn match.
  rewrite preparePath_ok by done. fold p. unfold openRaw. simpl raw_Trunc.
  destruct (mkHome_ok fs p Hinv) as (Hinv1 & Ho1 & Hc1). set (fs1 := mkDir _ fs) in *.
  destruct (OpenFile_ok (if trunc then OpenTrunc else OpenPlain) fs1 x n Hinv1)
    as (fs2 & ino & He & Hinv2 & Hi & Ho2 & Hd). fold p in He, Hi, Ho2, Hd. rewrite He. clear He.
  assert (others p fs fs2) as Ho by (by eapply others_trans). simpl raw_TruncSize. simpl raw_Length.
  destruct trunc; simpl.
  - eexists. split; [done|]. split; [by apply (disk_inv_data fs2)|].
    set (fs3 := truncateTo fs2 ino 0).
    assert (disk_inv fs3) as Hinv3 by (by apply (disk_inv_data fs2)).
    split.
    + eapply others_trans; [exact Ho|]. eapply others_trans; [by apply others_truncateTo|].
      by apply others_writeAt.
    + unfold writeRaw. simpl. assert (fileData fs3 ino = []) as Hd3.
      { unfold fileData, fs3. simpl. by rewrite lookup_insert_eq. }
      pose proof (fileAt_writeAt fs3 p ino 0 data Hi) as Hw. by rewrite Hd3, splice_nil in Hw.
  - eexists. split; [done|]. unfold writeRaw. simpl. split; [by apply (disk_inv_data fs2)|].
    split; [eapply others_trans; [exact Ho|by apply others_writeAt]|].
    rewrite (Hc1 DownloadHome x n : contentAt fs1 p = contentAt fs p) in Hd. rewrite <-Hd. destruct app; [|by apply fileAt_writeAt].
    rewrite <-splice_append. by apply fileAt_writeAt.
Qed.

Lemma Put_ok fs x n off bs :
  disk_inv fs → bs ≠ [] → 0 <= off →
  let p := at_ DownloadHome x n in
  ∃ fs', driver_Put BaseDir fs (mkRaw DownloadHome [x; n] off (Z.of_nat (length bs)) false 0 false)
      (Some (mkStream bs None)) = (fs', None) ∧
    disk_inv fs' ∧ others p fs fs' ∧ fileAt fs' p (splice (contentAt fs p) (Z.to_nat off) bs).
Proof.
  intros Hinv Hne Hoff p. unfold driver_Put.
  assert (CheckPutRaw (mkRaw DownloadHome [x; n] off (Z.of_nat (length bs)) false 0 false) = None) as ->.
  { unfold CheckPutRaw. simpl. rewrite !(proj2 (Z.ltb_ge _ _)) by lia. done. }
  rewrite preparePath_ok by done. fold p. unfold openRaw. simpl raw_Trunc. simpl CheckTrunc. cbn match.
  destruct (mkHome_ok fs p Hinv) as (Hinv1 & Ho1 & Hc1). set (fs1 := mkDir _ fs) in *.
  destruct (OpenFile_ok OpenPlain fs1 x n Hinv1) as (fs2 & ino & He & Hinv2 & Hi & Ho2 & Hd).
  fold p in He, Hi, Ho2, Hd. rewrite He. clear He. simpl raw_Length.
  assert (0 < Z.of_nat (length bs)) as Hlen by (destruct bs; [done|simpl; lia]).
  rewrite (proj2 (Z.ltb_lt 0 _)) by done. rewrite copyLimited_enough by (simpl; lia). simpl s_data.
  rewrite Nat2Z.id, firstn_all, Z.eqb_refl. unfold writeRaw. simpl.
  eexists. split; [done|]. split; [by apply (disk_inv_data fs2)|]. split.
  - eapply others_trans; [by eapply others_trans|]. by apply others_writeAt.
  - rewrite (Hc1 DownloadHome x n : contentAt fs1 p = contentAt fs p) in Hd. rewrite <-Hd. by apply fileAt_writeAt.
Qed.

(** ** Reading *)

Lemma statPath_file fs x n off len trunc app bs :
  fileAt fs (at_ DownloadHome x n) bs →
  ∃ ino, driver_statPath BaseDir fs (mkRaw DownloadHome [x; n] off len trunc 0 app) =
      inr (at_ DownloadHome x n, NodeFile ino) ∧ fileData fs ino = bs ∧
    os_Open fs (at_ DownloadHome x n) = inr ino.
Proof.
  intros (ino & Hi & Hd). exists ino. split_and!; [|done|].
  - unfold driver_statPath, driver_GetPath. simpl. by rewrite (Stat_node _ _ (NodeFile ino)).
  - unfold os_Open. by rewrite (Stat_node _ _ (NodeFile ino)).
Qed.

Lemma GetBytes_ok fs x n trunc app bs :
  fileAt fs (at_ DownloadHome x n) bs →
  driver_GetBytes BaseDir fs (mkRaw DownloadHome [x; n] 0 0 trunc 0 app) = inr bs ∧
  driver_Get BaseDir fs (mkRaw DownloadHome [x; n] 0 0 trunc 0 app) = inr bs.
Proof.
  intros Hf. destruct (statPath_file fs x n 0 0 trunc app bs Hf) as (ino & Hs & Hd & Ho).
  unfold driver_GetBytes, driver_Get. rewrite Hs.
  assert (∀ k, 0 <= k → CheckGetRaw (mkRaw DownloadHome [x; n] 0 0 trunc 0 app) k = None) as Hck.
  { intros k Hk. unfold CheckGetRaw. simpl raw_Offset. simpl raw_Length. change (int64 (0 + 0)) with 0.
    by rewrite !(proj2 (Z.ltb_ge _ _)) by lia. }
  rewrite Hck by (unfold statSize, lstatSize; lia). rewrite Ho. simpl. by rewrite Hd, drop_0.
Qed.

Lemma GetBytes_absent fs x n trunc app :
  nodes fs !! at_ DownloadHome x n = None →
  driver_GetBytes BaseDir fs (mkRaw DownloadHome [x; n] 0 0 trunc 0 app) = inl (ErrFile (FileIO ENOENT)).
Proof.
  intros Ha. unfold driver_GetBytes, driver_statPath, driver_GetPath. simpl. by rewrite Stat_absent.
Qed.

(** ** Removing *)

Lemma RemoveAll_lookup fs p q :
  nodes (os_RemoveAll fs p) !! q = if isUnder p q then None else nodes fs !! q.
Proof.
  unfold os_RemoveAll. simpl. rewrite map_lookup_filter.
  destruct (nodes fs !! q) as [n|]; simpl; [|by destruct (isUnder p q)].
  destruct (isUnder p q) eqn:Hu; [by rewrite option_guard_False|by rewrite option_guard_True].
Qed.

Lemma isUnder_base rel q : rel ≠ [] → q `prefix_of` BaseDir → isUnder (BaseDir ++ rel) q = false.
Proof.
  intros Hne Hq. apply bool_decide_eq_false. intros Hp. apply prefix_length in Hp, Hq.
  rewrite length_app in Hp. destruct rel; [done|simpl in Hp; lia].
Qed.

Lemma RemoveAll_inv fs rel : disk_inv fs → rel ≠ [] → disk_inv (os_RemoveAll fs (BaseDir ++ rel)).
Proof.
  intros Hinv Hne.
  assert (∀ q nd, nodes (os_RemoveAll fs (BaseDir ++ rel)) !! q = Some nd → nodes fs !! q = Some nd) as Hsub.
  { intros q nd. rewrite RemoveAll_lookup. by destruct (isUnder _ _). }
  split.
  - intros q Hq. rewrite RemoveAll_lookup, isUnder_base by done. by apply (di_base _ Hinv).
  - intros rel' nd Hne' Hn. apply (di_layout _ Hinv); auto.
  - intros q ino Hq. apply (di_next _ Hinv q); auto.
  - intros q q' ino Hq Hq' Hpre. apply (di_inj _ Hinv q q' ino); auto.
Qed.

Lemma others_RemoveAll fs h x n : others (at_ h x n) fs (os_RemoveAll fs (at_ h x n)).
Proof.
  intros h' x' n' Hne. rewrite RemoveAll_lookup.
  assert (isUnder (at_ h x n) (at_ h' x' n') = false) as ->; [|done].
  apply bool_decide_eq_false. intros [l Hl]. apply Hne. rewrite <-(assoc_L (++)) in Hl.
  apply app_inv_head in Hl as Hl'. simpl in Hl'. destruct l; [|done]. by rewrite Hl'.
Qed.

Lemma removeIfThere_ok fs x n trunc :
  disk_inv fs →
  let p := at_ DownloadHome x n in
  ∃ fs', removeIfThere BaseDir fs (mkRaw DownloadHome [x; n] 0 0 trunc 0 false) = (fs', None) ∧
    disk_inv fs' ∧ nodes fs' !! p = None ∧ others p fs fs'.
Proof.
  intros Hinv p. unfold removeIfThere, driver_Remove, driver_statPath, driver_GetPath.
  simpl raw_Bucket. rewrite decide_False by done. simpl raw_Key. simpl app at 2. fold p.
  destruct (layout_at fs x n Hinv) as [Ha|[ino Hi]].
  - rewrite Stat_absent by done. simpl. eauto using others_refl.
  - rewrite (Stat_node _ _ (NodeFile ino)) by done. simpl raw_Trunc.
    rewrite bool_decide_false by done. simpl negb. rewrite orb_true_r. eexists. split; [done|].
    split; [by apply RemoveAll_inv|]. split; [|apply others_RemoveAll].
    rewrite RemoveAll_lookup. unfold isUnder. by rewrite bool_decide_true.
Qed.

(** The link of an upload is followed, and its target is gone: it stays. *)
Lemma removeIfThere_upload fs x n :
  disk_inv fs → nodes fs !! at_ DownloadHome x n = None →
  removeIfThere BaseDir fs (mkRaw UploadHome [x; n] 0 0 false 0 false) = (fs, None).
Proof.
  intros Hinv Ha. unfold removeIfThere, driver_Remove, driver_statPath, driver_GetPath.
  simpl raw_Bucket. rewrite decide_False by done. simpl raw_Key. simpl app at 2.
  assert (os_Stat fs (at_ UploadHome x n) = None) as ->; [|done].
  destruct (nodes fs !! at_ UploadHome x n) as [nd|] eqn:Hn; [|by apply Stat_absent].
  pose proof (di_layout _ Hinv [UploadHome; x; n] nd ltac:(done) Hn) as Hl. inversion Hl; subst.
  unfold os_Stat. change (follow 40 fs (at_ UploadHome x n)) with
    (match os_Lstat fs (at_ UploadHome x n) with
     | Some (NodeSymlink dest) => follow 39 fs dest | Some nd => Some (at_ UploadHome x n, nd) | None => None end).
  unfold os_Lstat. rewrite Hn. change (follow 39 fs (at_ DownloadHome x n)) with
    (match os_Lstat fs (at_ DownloadHome x n) with
     | Some (NodeSymlink dest) => follow 38 fs dest | Some nd => Some (at_ DownloadHome x n, nd) | None => None end).
  unfold os_Lstat. by rewrite Ha.
Qed.

Lemma entries_nil fs dir n : entries fs dir = [] → nodes fs !! (dir ++ [n]) = None.
Proof.
  unfold entries. intros Hnil. destruct (nodes fs !! (dir ++ [n])) as [nd|] eqn:Hn; [|done]. exfalso.
  match type of Hnil with merge_sort ?R ?l = [] =>
    pose proof (merge_sort_Permutation R l) as Hperm; assert (n ∈ l) as Hin end.
  { apply list_elem_of_omap. exists (dir ++ [n]). rewrite last_snoc, removelast_last, decide_True by done.
    split; [|done]. apply elem_of_elements, elem_of_dom. by eexists. }
  rewrite Hnil in Hperm. rewrite <-Hperm in Hin. by apply elem_of_nil in Hin.
Qed.

Lemma Remove_parent_ok fs x p :
  disk_inv fs → let fs' := (driver_Remove BaseDir fs (mkRaw DownloadHome [x] 0 0 false 0 false)).1 in
  disk_inv fs' ∧ others p fs fs'.
Proof.
  intros Hinv. cbv zeta. unfold driver_Remove, driver_statPath, driver_GetPath.
  simpl raw_Bucket. rewrite decide_False by done. simpl raw_Key.
  change ([DownloadHome] ++ [x]) with [DownloadHome; x].
  destruct (layout_dir fs [DownloadHome; x] Hinv ltac:(by right)) as [Ha|Hd].
  { rewrite Stat_absent by done. split; [done|apply others_refl]. }
  rewrite (Stat_node _ _ NodeDir) by done. simpl raw_Trunc. rewrite bool_decide_true by done. simpl.
  unfold IsEmptyDir. rewrite (Stat_node _ _ NodeDir) by done.
  case_bool_decide as He; simpl; [|split; [done|apply others_refl]]. split; [by apply RemoveAll_inv|].
  intros h y n _. rewrite RemoveAll_lookup. destruct (isUnder _ _) eqn:Hu; [|done].
  apply bool_decide_eq_true in Hu as [l Hl]. rewrite <-(assoc_L (++)) in Hl.
  apply app_inv_head in Hl. simpl in Hl. injection Hl as -> -> <-.
  pose proof (entries_nil fs _ n He) as Hn. rewrite <-(assoc_L (++)) in Hn. simpl in Hn.
  rewrite Hn. done.
Qed.

(** ** The names of a task *)

Definition px (id : string) : string := SubString id 0 3.
Notation downloadOf id := (at_ DownloadHome (px id) id).
Notation metaOf id := (at_ DownloadHome (px id) (id +:+ ".meta")).
Notation pieceOf id := (at_ DownloadHome (px id) (id +:+ ".piece")).
Notation uploadOf id := (at_ UploadHome (px id) id).

Definition mine (id : string) (p : fpath) : Prop :=
  p = downloadOf id ∨ p = metaOf id ∨ p = pieceOf id ∨ p = uploadOf id.

Lemma parentKey_ok id : id_ok id → getParentKey id = [px id].
Proof.
  intros [Hl _]. unfold getParentKey. rewrite decide_False; [done|]. unfold SubString.
  rewrite (proj2 (Z.leb_gt _ 0)), (proj2 (Z.ltb_ge _ 3)) by lia. simpl. destruct id; [simpl in Hl; lia|done].
Qed.

Lemma Contains_dot s t : strings_Contains "." (s +:+ String "." t) = true.
Proof. rewrite strings_Contains_app. simpl. by rewrite orb_true_r. Qed.

Lemma app_dot_ne id id' t : id_ok id → id ≠ id' +:+ String "." t.
Proof. intros [_ Hc] ->. by rewrite Contains_dot in Hc. Qed.

(** The names of two tasks differ. *)
Lemma mine_apart id id' p : id_ok id → id_ok id' → id ≠ id' → mine id p → ¬ mine id' p.
Proof.
  intros Hid Hid' Hne.
  assert (∀ s t, id +:+ String "." s ≠ id' +:+ String "." t) as Hdot.
  { intros s t Heq. apply Hne. destruct Hid as [_ Hc], Hid' as [_ Hc']. clear Hne. revert id' Hc' Heq.
    induction id as [|a id IH]; intros [|b id'] Hc' Heq; [done|..].
    - injection Heq as <- _. done.
    - injection Heq as -> _. done.
    - apply orb_false_iff in Hc as [_ Hc], Hc' as [_ Hc']. injection Heq as <- Heq. f_equal. by apply IH. }
  intros [->|[->|[->| ->]]] [Heq|[Heq|[Heq|Heq]]]; apply app_inv_head in Heq; try done;
    injection Heq as _ Heq; first [by apply Hne | by eapply (app_dot_ne id) in Heq
    | symmetry in Heq; by eapply (app_dot_ne id') in Heq | by apply Hdot in Heq].
Qed.

(** The files of the other tasks are as they were. *)
Definition apart (id : string) (fs fs' : FS) : Prop :=
  ∀ h x n, ¬ mine id (at_ h x n) → nodes fs' !! at_ h x n = nodes fs !! at_ h x n ∧
    ∀ ino, nodes fs !! at_ h x n = Some (NodeFile ino) → fileData fs' ino = fileData fs ino.

Lemma others_apart id p fs fs' : mine id p → others p fs fs' → apart id fs fs'.
Proof. intros Hm Ho h x n Hnm. apply Ho. intros Heq. apply Hnm. by rewrite Heq. Qed.

Lemma apart_trans id fs1 fs2 fs3 : apart id fs1 fs2 → apart id fs2 fs3 → apart id fs1 fs3.
Proof.
  intros H12 H23 h x n Hne. destruct (H12 h x n Hne) as [Hn1 Hd1], (H23 h x n Hne) as [Hn2 Hd2].
  split; [by rewrite Hn2|]. intros ino Hi. rewrite Hd2; [by apply Hd1|]. by rewrite Hn1.
Qed.


Lemma str_length_app (s t : string) : String.length (s +:+ t) = (String.length s + String.length t)%nat.
Proof.
  induction s as [|c s IH]; [done|]. change (String c s +:+ t) with (String c (s +:+ t)). simpl. by rewrite IH.
Qed.

(** The names of one task differ. *)
Lemma names_ne id t h x y : at_ h x (id +:+ String "." t) ≠ at_ h y id.
Proof.
  intros Heq%app_inv_head. injection Heq as _ Heq. apply (f_equal String.length) in Heq.
  rewrite str_length_app in Heq. simpl in Heq. lia.
Qed.

Lemma suffixes_ne id h x y : at_ h x (id +:+ ".meta") ≠ at_ h y (id +:+ ".piece").
Proof.
  intros Heq%app_inv_head. injection Heq as _ Heq. apply (f_equal String.length) in Heq.
  rewrite !str_length_app in Heq. simpl in Heq. lia.
Qed.

Lemma homes_ne x y n m : at_ UploadHome x n ≠ at_ DownloadHome y m.
Proof. by intros Heq%app_inv_head. Qed.

(** ** Deleting and creating a task *)

Lemma removeAllOf_cons fs raw raws fs' :
  removeIfThere BaseDir fs raw = (fs', None) →
  removeAllOf BaseDir fs (raw :: raws) = removeAllOf BaseDir fs' raws.
Proof. intros He. simpl. by rewrite He. Qed.

Lemma DeleteTask_ok fs id :
  disk_inv fs → id_ok id →
  ∃ fs', disk_DeleteTask BaseDir id fs = (fs', None) ∧ disk_inv fs' ∧ apart id fs fs' ∧
    nodes fs' !! downloadOf id = None ∧ nodes fs' !! metaOf id = None ∧ nodes fs' !! pieceOf id = None ∧
    nodes fs' !! uploadOf id = nodes fs !! uploadOf id.
Proof.
  intros Hinv Hid. unfold disk_DeleteTask, GetTaskMetadataRaw, GetPieceMetadataRaw, GetDownloadRaw, GetUploadRaw,
    GetParentRaw, getTaskMetadataKey, getPieceMetadataKey, getDownloadKey. rewrite parentKey_ok by done.
  simpl app.
  destruct (removeIfThere_ok fs (px id) (id +:+ ".meta") true Hinv) as (fs1 & He1 & Hinv1 & Hn1 & Ho1).
  destruct (removeIfThere_ok fs1 (px id) (id +:+ ".piece") false Hinv1) as (fs2 & He2 & Hinv2 & Hn2 & Ho2).
  destruct (removeIfThere_ok fs2 (px id) id false Hinv2) as (fs3 & He3 & Hinv3 & Hn3 & Ho3).
  rewrite (removeAllOf_cons _ _ _ _ He1), (removeAllOf_cons _ _ _ _ He2), (removeAllOf_cons _ _ _ _ He3).
  rewrite (removeAllOf_cons _ _ _ fs3) by (by apply removeIfThere_upload). simpl removeAllOf.
  destruct (Remove_parent_ok fs3 (px id) [] Hinv3) as [Hinv4 Ho4].
  set (fs4 := (driver_Remove _ _ _).1) in *. exists fs4. split; [done|]. split; [done|].
  assert (∀ h x n, at_ h x n ≠ []) as Hnil by (intros ??? ?; by destruct BaseDir).
  split.
  - eapply apart_trans; [|intros h x n _; by apply Ho4].
    eapply apart_trans; [|eapply others_apart; [|exact Ho3]; unfold mine; auto].
    eapply apart_trans; eapply others_apart; [|exact Ho1| |exact Ho2]; unfold mine; auto.
  - split_and!.
    + rewrite (proj1 (Ho4 _ _ _ (Hnil _ _ _))). done.
    + rewrite (proj1 (Ho4 _ _ _ (Hnil _ _ _))), (proj1 (Ho3 _ _ _ (names_ne id _ _ _ _))).
      rewrite (proj1 (Ho2 _ _ _ (suffixes_ne id _ _ _))). done.
    + rewrite (proj1 (Ho4 _ _ _ (Hnil _ _ _))), (proj1 (Ho3 _ _ _ (names_ne id _ _ _ _))). done.
    + rewrite (proj1 (Ho4 _ _ _ (Hnil _ _ _))), (proj1 (Ho3 _ _ _ (homes_ne _ _ _ _))).
      rewrite (proj1 (Ho2 _ _ _ (homes_ne _ _ _ _))). apply (Ho1 _ _ _ (homes_ne _ _ _ _)).
Qed.

Lemma addLink_inv fs x n : disk_inv fs →
  disk_inv (set_fs_nodes (<[at_ UploadHome x n := NodeSymlink (at_ DownloadHome x n)]> (nodes fs)) fs).
Proof.
  intros Hinv. split; simpl.
  - intros q Hq. rewrite lookup_insert_ne; [by apply (di_base _ Hinv)|]. intros <-.
    apply prefix_length in Hq. rewrite length_app in Hq. simpl in Hq. lia.
  - intros rel nd Hne [[Heq <-]|[_ Hn]]%lookup_insert_Some; [|by apply (di_layout _ Hinv)].
    apply app_inv_head in Heq as <-. constructor.
  - intros q ino [[_ ?]|[_ Hq]]%lookup_insert_Some; [done|by eapply (di_next _ Hinv)].
  - intros q q' ino [[_ ?]|[_ Hq]]%lookup_insert_Some; [done|].
    intros [[_ ?]|[_ Hq']]%lookup_insert_Some; [done|]. by apply (di_inj _ Hinv q q' ino).
Qed.

Lemma mkBucket_ok fs h x p : disk_inv fs →
  let fs' := mkDir (BaseDir ++ [h; x]) (mkDir (BaseDir ++ [h]) fs) in
  disk_inv fs' ∧ others p fs fs' ∧ nodes fs' !! (BaseDir ++ [h; x]) = Some NodeDir.
Proof.
  intros Hinv fs'. split_and!.
  - apply mkDir_inv; [|by right]. apply mkDir_inv; [done|by left].
  - eapply others_trans; apply others_mkDir; simpl; lia.
  - simpl. apply lookup_insert_eq.
Qed.

Lemma SymbolicLink_ok fs x n ino :
  disk_inv fs → nodes fs !! at_ DownloadHome x n = Some (NodeFile ino) →
  let p := at_ UploadHome x n in
  ∃ fs', SymbolicLink fs (at_ DownloadHome x n) p = (fs', None) ∧ disk_inv fs' ∧ others p fs fs' ∧
    nodes fs' !! p = Some (NodeSymlink (at_ DownloadHome x n)).
Proof.
  intros Hinv Hi p. unfold SymbolicLink, PathExist, IsSymbolicLink, os_Readlink, os_Lstat. rewrite Hi.
  destruct (nodes fs !! p) as [nd|] eqn:Hn.
  - pose proof (di_layout _ Hinv [UploadHome; x; n] nd ltac:(done) Hn) as Hl. inversion Hl; subst. simpl.
    rewrite decide_True by done. eauto using others_refl.
  - simpl. unfold fileutils_MkdirAll, p. rewrite removelast_at, MkdirAll_bucket by done. simpl fmap. fold p.
    destruct (mkBucket_ok fs UploadHome x p Hinv) as (Hinv1 & Ho1 & Hd1). set (fs1 := mkDir _ (mkDir _ fs)) in *.
    assert (nodes fs1 !! p = None) as Hn1.
    { simpl. rewrite !lookup_insert_ne; [done|..]; unfold p; by intros Heq%app_inv_head. }
    unfold os_Symlink, os_Lstat, parentIsDir. rewrite Hn1. unfold p at 1. rewrite removelast_at.
    rewrite (Stat_node _ _ NodeDir) by done. eexists. split; [done|]. split; [by apply addLink_inv|].
    split; [|simpl; apply lookup_insert_eq].
    eapply others_trans; [done|]. intros h y m Hne. split; [|done]. simpl. by rewrite lookup_insert_ne.
Qed.

Lemma ResetRepo_ok fs t :
  disk_inv fs → id_ok (st_ID t) → let id := st_ID t in
  ∃ fs', disk_ResetRepo BaseDir t fs = (fs', None) ∧ disk_inv fs' ∧ apart id fs fs' ∧
    fileAt fs' (downloadOf id) [] ∧ nodes fs' !! metaOf id = None ∧ nodes fs' !! pieceOf id = None ∧
    nodes fs' !! uploadOf id = Some (NodeSymlink (downloadOf id)).
Proof.
  intros Hinv Hid id. unfold disk_ResetRepo. fold id.
  destruct (DeleteTask_ok fs id Hinv Hid) as (fs1 & -> & Hinv1 & Ha1 & Hd1 & Hm1 & Hp1 & _).
  unfold driver_GetPath, GetDownloadRaw, GetUploadRaw, getDownloadKey. rewrite parentKey_ok by done. simpl raw_Bucket.
  rewrite !decide_False by done. simpl raw_Key. change ([DownloadHome] ++ [px id; id]) with [DownloadHome; px id; id].
  change ([UploadHome] ++ [px id; id]) with [UploadHome; px id; id].
  unfold fileutils_MkdirAll. rewrite removelast_at, MkdirAll_bucket by done. simpl fmap.
  destruct (mkBucket_ok fs1 DownloadHome (px id) (downloadOf id) Hinv1) as (Hinv2 & Ho2 & Hb).
  set (fs2 := mkDir _ (mkDir _ fs1)) in *.
  destruct (OpenTrunc_ok fs2 (px id) id Hinv2 (λ _, Hb)) as (fs3 & ino & -> & Hinv3 & Hi3 & Ho3 & Hd3).
  destruct (SymbolicLink_ok fs3 (px id) id ino Hinv3 Hi3) as (fs4 & -> & Hinv4 & Ho4 & Hl4).
  assert (others (downloadOf id) fs1 fs3) as Ho13 by (by eapply others_trans).
  exists fs4. split; [done|]. split; [done|]. split_and!.
  - eapply apart_trans; [exact Ha1|]. eapply apart_trans; [|eapply others_apart; [|exact Ho4]; unfold mine; auto].
    eapply others_apart; [|exact Ho13]; unfold mine; auto.
  - eapply others_fileAt; [exact Ho4|apply not_eq_sym, homes_ne|by exists ino].
  - rewrite (proj1 (Ho4 _ _ _ (not_eq_sym (homes_ne _ _ _ _)))), (proj1 (Ho13 _ _ _ (names_ne id _ _ _ _))). done.
  - rewrite (proj1 (Ho4 _ _ _ (not_eq_sym (homes_ne _ _ _ _)))), (proj1 (Ho13 _ _ _ (names_ne id _ _ _ _))). done.
  - done.
Qed.

(** ** The laws of the interface *)

Definition metaIs (fs : FS) (p : fpath) (m : option FileMetadata) : Prop :=
  match m with None => nodes fs !! p = None | Some m => fileAt fs p (marshalMeta m) end.

Definition recordsAre (fs : FS) (p : fpath) (rs : list PieceMetaRecord) (closed : bool) : Prop :=
  if closed then (rs = [] ∧ nodes fs !! p = None) ∨ fileAt fs p (recordLines rs)
  else rs ≠ [] ∧ fileAt fs p (joinRecords rs).

Record disk_stores (fs : FS) (id : string) (f : TaskFiles) : Prop := {
  ds_data : fileAt fs (downloadOf id) (tf_data f);
  ds_link : nodes fs !! uploadOf id = Some (NodeSymlink (downloadOf id));
  ds_meta : metaIs fs (metaOf id) (tf_meta f);
  ds_records : recordsAre fs (pieceOf id) (tf_records f) (tf_closed f);
  ds_ok : Forall record_ok (tf_records f);
}.

Lemma others_metaIs p fs fs' h x n m :
  others p fs fs' → at_ h x n ≠ p → metaIs fs (at_ h x n) m → metaIs fs' (at_ h x n) m.
Proof.
  intros Ho Hne. destruct m as [m|]; simpl; [by apply (others_fileAt p)|].
  by rewrite (proj1 (Ho _ _ _ Hne)).
Qed.

Lemma others_recordsAre p fs fs' h x n rs c :
  others p fs fs' → at_ h x n ≠ p → recordsAre fs (at_ h x n) rs c → recordsAre fs' (at_ h x n) rs c.
Proof.
  intros Ho Hne. unfold recordsAre.
  destruct c; intros [[? H1]|H1] || intros [H1 H2].
  - left. by rewrite (proj1 (Ho _ _ _ Hne)).
  - right. by apply (others_fileAt p fs).
  - split; [done|]. by apply (others_fileAt p fs).
Qed.

Lemma apart_stores id fs fs' id' f :
  apart id fs fs' → id_ok id → id_ok id' → id' ≠ id → disk_stores fs id' f → disk_stores fs' id' f.
Proof.
  intros Ha Hid Hid' Hne [Hd Hl Hm Hr Hok].
  assert (∀ h x n, mine id' (at_ h x n) → nodes fs' !! at_ h x n = nodes fs !! at_ h x n ∧
    ∀ bs, fileAt fs (at_ h x n) bs → fileAt fs' (at_ h x n) bs) as Hs.
  { intros h x n Hm'. destruct (Ha h x n) as [Hn Hf]; [by apply (mine_apart id' id)|].
    split; [done|]. intros bs (ino & Hi & Hb). exists ino. by rewrite Hn, Hf. }
  unfold mine in Hs. split; [apply Hs; auto|rewrite (proj1 (Hs _ _ _ ltac:(auto))); done| | |done].
  - destruct (Hs DownloadHome (px id') (id' +:+ ".meta")) as [Hn Hf]; [auto|].
    destruct (tf_meta f); simpl in *; [auto|by rewrite Hn].
  - destruct (Hs DownloadHome (px id') (id' +:+ ".piece")) as [Hn Hf]; [auto|].
    unfold recordsAre in *. rewrite Hn. destruct (tf_closed f); naive_solver.
Qed.

Definition disk_framed (id : string) (fs fs' : FS) : Prop :=
  disk_inv fs' ∧ ∀ id' f, id' ≠ id → id_ok id' → disk_stores fs id' f → disk_stores fs' id' f.

Lemma disk_framed_intro id fs fs' : id_ok id → disk_inv fs' → apart id fs fs' → disk_framed id fs fs'.
Proof. intros Hid Hinv Ha. split; [done|]. intros id' f Hne Hid'. by apply (apart_stores id). Qed.

Lemma disk_framed_others id p fs fs' :
  id_ok id → mine id p → disk_inv fs' → others p fs fs' → disk_framed id fs fs'.
Proof. intros. by apply disk_framed_intro, (others_apart id p). Qed.

Lemma disk_ReadRecords id f fs : id_ok id → disk_stores fs id f →
  (tf_records f ≠ [] → disk_ReadPieceMetaRecords BaseDir id fs = inr (tf_records f)) ∧
  (tf_records f = [] → ∃ e, disk_ReadPieceMetaRecords BaseDir id fs = inl e).
Proof.
  intros Hid [_ _ _ Hr Hok]. unfold disk_ReadPieceMetaRecords, GetPieceMetadataRaw, getPieceMetadataKey.
  rewrite parentKey_ok by done. simpl app. unfold recordsAre in Hr.
  assert (∀ bs, fileAt fs (pieceOf id) bs → driver_GetBytes BaseDir fs
    (mkRaw DownloadHome [px id; id +:+ ".piece"] 0 0 false 0 false) = inr bs) as Hget.
  { intros bs Hf. by apply GetBytes_ok. }
  destruct (tf_closed f).
  - destruct Hr as [[Hnil Ha]|Hf].
    + rewrite Hnil, GetBytes_absent by done. split; [done|eauto].
    + rewrite (Hget _ Hf). split; [|intros ->; by eexists]. intros Hne. by apply parseRecords_lines.
  - destruct Hr as [Hne Hf]. rewrite (Hget _ Hf). split; [|done]. intros _.
    rewrite <-(app_nil_r (joinRecords _)). by apply (parseRecords_text _ "").
Qed.

Lemma disk_Append id f r fs :
  disk_inv fs → id_ok id → disk_stores fs id f → tf_closed f = true → record_ok r →
  ∃ fs', disk_AppendPieceMetadata BaseDir id r fs = (fs', None) ∧ disk_framed id fs fs' ∧
    disk_stores fs' id (mkTaskFiles (tf_data f) (tf_meta f) (tf_records f ++ [r]) true).
Proof.
  intros Hinv Hid [Hd Hl Hm Hr Hok] Hc Hrec.
  unfold disk_AppendPieceMetadata, GetAppendPieceMetadataRaw, getPieceMetadataKey. rewrite parentKey_ok by done.
  destruct (PutBytes_ok fs (px id) (id +:+ ".piece") false true (recordLine r) Hinv) as (fs' & He & Hinv' & Ho & Hf).
  simpl app. rewrite He. exists fs'. split; [done|].
  split; [eapply disk_framed_others; [done| |done|exact Ho]; unfold mine; auto|]. split; simpl.
  - eapply others_fileAt; [exact Ho|apply not_eq_sym, names_ne|done].
  - rewrite (proj1 (Ho _ _ _ (homes_ne _ _ _ _))). done.
  - eapply others_metaIs; [exact Ho|apply suffixes_ne|done].
  - right. rewrite Hc in Hr. unfold recordLines. rewrite fmap_app, concat_app. simpl. rewrite app_nil_r.
    destruct Hr as [[Hnil Ha]|Hf0].
    + rewrite Hnil. unfold contentAt in Hf. by rewrite Ha in Hf.
    + by rewrite (fileAt_content _ _ _ Hf0) in Hf.
  - by apply Forall_app_2; [|constructor].
Qed.

Lemma disk_WriteRecords id f rs fs :
  disk_inv fs → id_ok id → disk_stores fs id f → Forall record_ok rs →
  ∃ fs', disk_WritePieceMetaRecords BaseDir id rs fs = (fs', None) ∧ disk_framed id fs fs' ∧
    disk_stores fs' id (mkTaskFiles (tf_data f) (tf_meta f) rs (bool_decide (rs = []))).
Proof.
  intros Hinv Hid [Hd Hl Hm Hr Hok] Hrs.
  unfold disk_WritePieceMetaRecords, GetPieceMetadataRaw, getPieceMetadataKey. rewrite parentKey_ok by done.
  destruct (PutBytes_ok fs (px id) (id +:+ ".piece") true false (joinRecords rs) Hinv) as (fs' & He & Hinv' & Ho & Hf).
  simpl. rewrite He. exists fs'. split; [done|].
  split; [eapply disk_framed_others; [done| |done|exact Ho]; unfold mine; auto|]. split; simpl; [| | | |done].
  - eapply others_fileAt; [exact Ho|apply not_eq_sym, names_ne|done].
  - rewrite (proj1 (Ho _ _ _ (homes_ne _ _ _ _))). done.
  - eapply others_metaIs; [exact Ho|apply suffixes_ne|done].
  - case_bool_decide as Hnil; [right; by rewrite Hnil in *|by split].
Qed.

Lemma disk_WriteMetadata id f m fs :
  disk_inv fs → id_ok id → disk_stores fs id f →
  ∃ fs', disk_WriteFileMetadata BaseDir id m fs = (fs', None) ∧ disk_framed id fs fs' ∧
    disk_stores fs' id (mkTaskFiles (tf_data f) (Some m) (tf_records f) (tf_closed f)).
Proof.
  intros Hinv Hid [Hd Hl Hm Hr Hok].
  unfold disk_WriteFileMetadata, GetTaskMetadataRaw, getTaskMetadataKey. rewrite parentKey_ok by done.
  destruct (PutBytes_ok fs (px id) (id +:+ ".meta") true false (marshalMeta m) Hinv) as (fs' & He & Hinv' & Ho & Hf).
  simpl app. rewrite He. exists fs'. split; [done|].
  split; [eapply disk_framed_others; [done| |done|exact Ho]; unfold mine; auto|]. split; simpl; [| |done| |done].
  - eapply others_fileAt; [exact Ho|apply not_eq_sym, names_ne|done].
  - rewrite (proj1 (Ho _ _ _ (homes_ne _ _ _ _))). done.
  - eapply others_recordsAre; [exact Ho|apply not_eq_sym, suffixes_ne|done].
Qed.

Lemma disk_WriteDownload id f off bs fs :
  disk_inv fs → id_ok id → disk_stores fs id f → bs ≠ [] → 0 <= off →
  ∃ fs', disk_WriteDownloadFile BaseDir id off (Z.of_nat (length bs)) (mkStream bs None) fs = (fs', None) ∧
    disk_framed id fs fs' ∧
    disk_stores fs' id (mkTaskFiles (splice (tf_data f) (Z.to_nat off) bs) (tf_meta f) (tf_records f) (tf_closed f)).
Proof.
  intros Hinv Hid [Hd Hl Hm Hr Hok] Hne Hoff.
  unfold disk_WriteDownloadFile, GetDownloadRaw, getDownloadKey. rewrite parentKey_ok by done.
  destruct (Put_ok fs (px id) id off bs Hinv Hne Hoff) as (fs' & He & Hinv' & Ho & Hf). simpl. rewrite He.
  rewrite (fileAt_content _ _ _ Hd) in Hf. exists fs'. split; [done|].
  split; [eapply disk_framed_others; [done| |done|exact Ho]; unfold mine; auto|]. split; simpl; [done| | | |done].
  - rewrite (proj1 (Ho _ _ _ (homes_ne _ _ _ _))). done.
  - eapply others_metaIs; [exact Ho|apply names_ne|done].
  - eapply others_recordsAre; [exact Ho|apply names_ne|done].
Qed.

Lemma disk_ResetRepo_law t fs :
  disk_inv fs → id_ok (st_ID t) →
  ∃ fs', disk_ResetRepo BaseDir t fs = (fs', None) ∧ disk_framed (st_ID t) fs fs' ∧
    disk_stores fs' (st_ID t) newFiles.
Proof.
  intros Hinv Hid. destruct (ResetRepo_ok fs t Hinv Hid) as (fs' & He & Hinv' & Ha & Hd & Hm & Hp & Hl).
  exists fs'. split; [done|]. split; [by apply disk_framed_intro|]. split; simpl; [done|done|done| |done].
  by left.
Qed.

Lemma disk_Stat_law id f fs : disk_inv fs → id_ok id → disk_stores fs id f →
  disk_StatDownloadFile BaseDir id fs = inr (mkStorageInfo (Z.of_nat (length (tf_data f)))).
Proof.
  intros Hinv Hid [Hd _ _ _ _]. unfold disk_StatDownloadFile, driver_Stat, GetDownloadRaw, getDownloadKey.
  rewrite parentKey_ok by done. destruct (statPath_file fs (px id) id 0 0 false false _ Hd) as (ino & Hs & <- & _).
  simpl app. by rewrite Hs.
Qed.

Lemma disk_ReadDownload_law id f fs : disk_inv fs → id_ok id → disk_stores fs id f →
  disk_ReadDownloadFile BaseDir id fs = inr (tf_data f).
Proof.
  intros Hinv Hid [Hd _ _ _ _]. unfold disk_ReadDownloadFile, GetDownloadRaw, getDownloadKey.
  rewrite parentKey_ok by done. simpl app. by rewrite (proj2 (GetBytes_ok _ _ _ false false _ Hd)).
Qed.

Lemma ReadFileMetadata_path id fs : id_ok id →
  disk_ReadFileMetadata BaseDir id fs =
    match driver_GetBytes BaseDir fs (mkRaw DownloadHome [px id; id +:+ ".meta"] 0 0 true 0 false) with
    | inl e => inl (ErrDriver e)
    | inr bytes => match unmarshalMeta bytes with Some m => inr m | None => inl ErrMetadataFormat end
    end.
Proof.
  intros Hid. unfold disk_ReadFileMetadata, GetTaskMetadataRaw, getTaskMetadataKey. by rewrite parentKey_ok.
Qed.

Lemma disk_ReadMetadata_law id f m fs : disk_inv fs → id_ok id → disk_stores fs id f → tf_meta f = Some m →
  disk_ReadFileMetadata BaseDir id fs = inr m.
Proof using All.
  intros Hinv Hid [_ _ Hm _ _] Heq. rewrite Heq in Hm. rewrite ReadFileMetadata_path by done.
  by rewrite (proj1 (GetBytes_ok _ _ _ true false _ Hm)), unmarshal_marshal.
Qed.

Lemma disk_NoMetadata id fs : id_ok id → nodes fs !! metaOf id = None →
  ∃ e, disk_ReadFileMetadata BaseDir id fs = inl e.
Proof. intros Hid Ha. rewrite ReadFileMetadata_path, GetBytes_absent by done. by eexists. Qed.

Lemma disk_NoMetadata_law id f fs : disk_inv fs → id_ok id → disk_stores fs id f → tf_meta f = None →
  ∃ e, disk_ReadFileMetadata BaseDir id fs = inl e.
Proof. intros Hinv Hid [_ _ Hm _ _] Heq. rewrite Heq in Hm. by apply disk_NoMetadata. Qed.

Lemma disk_Delete_law id fs : disk_inv fs → id_ok id →
  ∃ fs', disk_DeleteTask BaseDir id fs = (fs', None) ∧ disk_framed id fs fs' ∧
    (∃ e, disk_ReadFileMetadata BaseDir id fs' = inl e) ∧
    disk_StatDownloadFile BaseDir id fs' = inl ErrTaskNotPersisted.
Proof.
  intros Hinv Hid. destruct (DeleteTask_ok fs id Hinv Hid) as (fs' & He & Hinv' & Ha & Hd & Hm & _).
  exists fs'. split; [done|]. split; [by apply disk_framed_intro|]. split; [by apply disk_NoMetadata|].
  unfold disk_StatDownloadFile, driver_Stat, GetDownloadRaw, getDownloadKey, driver_statPath, driver_GetPath.
  rewrite parentKey_ok by done. simpl. by rewrite Stat_absent.
Qed.

#[export] Instance disk_store_laws : @CdnStoreLaws FS (disk_store BaseDir) :=
  @Build_CdnStoreLaws FS (disk_store BaseDir) disk_inv disk_stores disk_ResetRepo_law disk_Stat_law
    disk_WriteDownload disk_ReadDownload_law disk_ReadMetadata_law disk_NoMetadata_law disk_WriteMetadata
    disk_WriteRecords disk_Append (λ id f fs _, disk_ReadRecords id f fs) disk_Delete_law.

End Laws.
