(* ===== verification/Digests.v ===== *)
(** * Digests: pkg/util/digestutils

    The digests of files and pieces (digest.go).  The hash functions of Go's
    crypto packages are a class: the hexadecimal sum of bytes.  A running hash
    is the algorithm and the bytes written to it; [None] is the nil interface. *)

From S2P Require Import Prelude Text FileSystem FileUtils.
From Stdlib Require Import Ascii.
From stdpp Require Import options.
Local Open Scope Z_scope.

Inductive Algorithm := Sha256Hash | Md5Hash.

#[export] Instance Algorithm_eq_dec : EqDecision Algorithm.
Proof. solve_decision. Defined.

Definition Algorithm_String (a : Algorithm) : string :=
  match a with Sha256Hash => "sha256" | Md5Hash => "md5" end.

(** The map of the algorithms, by name. *)
Definition Algorithms (name : string) : option Algorithm :=
  if decide (name = "sha256"%string) then Some Sha256Hash
  else if decide (name = "md5"%string) then Some Md5Hash else None.

Class Hashes := hexSum : Algorithm → list byte → string.

(** [hex.EncodeToString]: digits and the letters a to f. *)
Definition isHex (c : ascii) : bool :=
  let n := N_of_ascii c in (N.leb 48 n && N.leb n 57) || (N.leb 97 n && N.leb n 102).

Fixpoint allHex (s : string) : bool :=
  match s with EmptyString => true | String c s => isHex c && allHex s end.

(** The sums are sixteen and thirty-two bytes, two digits each. *)
Class HashesLaws `{Hashes} := {
  hexSum_hex a bs : allHex (hexSum a bs) = true;
  hexSum_length a bs :
    String.length (hexSum a bs) = match a with Md5Hash => 32%nat | Sha256Hash => 64%nat end;
}.

Record Hash := mkHash { h_algorithm : Algorithm; h_written : list byte }.

Definition hash_New (a : Algorithm) : Hash := mkHash a [].
Definition hash_Write (bs : list byte) (h : Hash) : Hash := mkHash (h_algorithm h) (h_written h ++ bs).

Definition digestutils_Parse (digest : string) : list string :=
  let isBlankChar c := Ascii.eqb c " " in
  strings_Split ":" (trimRight isBlankChar (trimLeft isBlankChar digest)).

Definition CreateHash (hashType : string) : option Hash := hash_New <$> Algorithms hashType.

Section Digests.
Context `{Hashes}.

Definition ToHashString (h : Hash) : string := hexSum (h_algorithm h) (h_written h).

Definition digestutils_Sha256 (values : list string) : string :=
  match values with
  | [] => ""
  | _ =>
      ToHashString (foldl (λ h content, hash_Write (String.list_byte_of_string content) h)
                      (hash_New Sha256Hash) values)
  end.

Definition Md5Bytes (bs : list byte) : string := ToHashString (hash_Write bs (hash_New Md5Hash)).

Definition Md5Reader {E} (reader : Stream E) : string :=
  match s_err reader with
  | Some _ => ""
  | None => ToHashString (hash_Write (s_data reader) (hash_New Md5Hash))
  end.

Definition HashFile (fs : FS) (file : fpath) (hashType : option Algorithm) : string :=
  if negb (IsRegular fs file) then ""
  else
    match os_Open fs file, hashType with
    | inr f, Some a => ToHashString (hash_Write (fileData fs f) (hash_New a))
    | _, _ => ""
    end.

(** limitreader's [Digest]: <algo>:<hex_value> of what was read. *)
Definition LimitReader_Digest (digest : option Hash) (digestType : option Algorithm) : string :=
  match digest with
  | Some h => default "" (Algorithm_String <$> digestType) +:+ String ":" (ToHashString h)
  | None => ""
  end.

End Digests.

Lemma allHex_notIn c s : allHex s = true → isHex c = false → strings_Contains c s = false.
Proof.
  intros Hs Hc. induction s as [|d s IH]; [done|]. simpl in *. apply andb_prop in Hs as [Hd Hs].
  rewrite IH by done. rewrite bool_decide_eq_false_2; [done|]. intros ->. congruence.
Qed.

Lemma hexSum_nonempty `{HashesLaws} a bs : hexSum a bs ≠ ""%string.
Proof. intros Heq. pose proof (hexSum_length a bs) as Hl. rewrite Heq in Hl. by destruct a. Qed.

Lemma Algorithms_String a : Algorithms (Algorithm_String a) = Some a.
Proof. by destruct a. Qed.

Lemma hash_Write_nil h : hash_Write [] h = h.
Proof. destruct h. unfold hash_Write. simpl. by rewrite app_nil_r. Qed.

Lemma hash_Write_app h b1 b2 : hash_Write b2 (hash_Write b1 h) = hash_Write (b1 ++ b2) h.
Proof. unfold hash_Write. simpl. by rewrite (assoc_L (++)). Qed.
