(* ===== verification/CdnMetadata.v ===== *)
(** * CdnMetadata: cdn/supervisor/cdn/metadata_manager.go

    The manager of the two metadata files of a task, over any storage.  Each
    operation holds the lock of the task, so it is one step. *)

From S2P Require Import Prelude Text Ranges World FileSystem StoreDriver CdnTask CdnStorage Digests.
From Stdlib Require Import Ascii.
From stdpp Require Import options.
Local Open Scope Z_scope.

(** ** Setters *)

Definition set_fm_Access (accessTime interval : Z) (m : FileMetadata) : FileMetadata :=
  mkFileMetadata (fm_TaskID m) (fm_TaskURL m) (fm_PieceSize m) (fm_SourceFileLen m) accessTime interval
    (fm_CdnFileLength m) (fm_Digest m) (fm_SourceRealDigest m) (fm_Tag m) (fm_ExpireInfo m) (fm_Finish m)
    (fm_Success m) (fm_TotalPieceCount m) (fm_PieceMd5Sign m) (fm_Range m) (fm_Filter m).

Definition set_fm_ExpireInfo (v : gmap string string) (m : FileMetadata) : FileMetadata :=
  mkFileMetadata (fm_TaskID m) (fm_TaskURL m) (fm_PieceSize m) (fm_SourceFileLen m) (fm_AccessTime m)
    (fm_Interval m) (fm_CdnFileLength m) (fm_Digest m) (fm_SourceRealDigest m) (fm_Tag m) v (fm_Finish m)
    (fm_Success m) (fm_TotalPieceCount m) (fm_PieceMd5Sign m) (fm_Range m) (fm_Filter m).

(** The fields that a result changes. *)
Definition set_fm_Result (finish success : bool) (cdnLength sourceLen total : Z) (real sign : string)
    (m : FileMetadata) : FileMetadata :=
  mkFileMetadata (fm_TaskID m) (fm_TaskURL m) (fm_PieceSize m) sourceLen (fm_AccessTime m)
    (fm_Interval m) cdnLength (fm_Digest m) real (fm_Tag m) (fm_ExpireInfo m) finish
    success total sign (fm_Range m) (fm_Filter m).

Definition byNum (a b : PieceMetaRecord) : Prop := pmr_PieceNum a <= pmr_PieceNum b.
#[export] Instance byNum_dec : RelDecision byNum.
Proof. intros a b. unfold byNum. apply _. Defined.

(** [sort.Slice] by number.  Numbers that are equal may come in any order; the
    code that calls it compares or reports them by number only. *)
Definition sortRecords (rs : list PieceMetaRecord) : list PieceMetaRecord :=
  merge_sort byNum rs.

(** ** The manager *)

Definition metadataOf (now : Z) (seedTask : SeedTask) : FileMetadata :=
  mkFileMetadata (st_ID seedTask) (st_TaskURL seedTask) (st_PieceSize seedTask) (st_SourceFileLength seedTask)
    now 0 (st_CdnFileLength seedTask) (st_Digest seedTask) "" (st_Tag seedTask) ∅ false false
    (st_TotalPieceCount seedTask) "" (st_Range seedTask) (st_Filter seedTask).

Definition mergeResult (metadata origin : FileMetadata) : FileMetadata :=
  if fm_Success metadata then
    set_fm_Result (fm_Finish metadata) true (fm_CdnFileLength metadata) (fm_SourceFileLen metadata)
      (if 0 <? fm_TotalPieceCount metadata then fm_TotalPieceCount metadata else fm_TotalPieceCount origin)
      (if IsBlank (fm_SourceRealDigest metadata) then fm_SourceRealDigest origin
       else fm_SourceRealDigest metadata)
      (if IsBlank (fm_PieceMd5Sign metadata) then fm_PieceMd5Sign origin else fm_PieceMd5Sign metadata) origin
  else
    set_fm_Result (fm_Finish metadata) false (fm_CdnFileLength origin) (fm_SourceFileLen origin)
      (fm_TotalPieceCount origin) (fm_SourceRealDigest origin) (fm_PieceMd5Sign origin) origin.

Section Manager.
Context {St : Type} `{CdnStore St} `{Hashes}.

Definition writeFileMetadataByTask (now : Z) (seedTask : SeedTask) (s : St) : St * (CdnError + FileMetadata) :=
  let metadata := metadataOf now seedTask in
  match WriteFileMetadata (st_ID seedTask) metadata s with
  | (s, Some e) => (s, inl e)
  | (s, None) => (s, inr metadata)
  end.

(** The metadata read, changed and written back. *)
Definition modifyMetadata (taskID : string) (f : FileMetadata → FileMetadata) (s : St) : St * option CdnError :=
  match ReadFileMetadata taskID s with
  | inl e => (s, Some e)
  | inr originMetadata => WriteFileMetadata taskID (f originMetadata) s
  end.

Definition updateAccessTime (taskID : string) (accessTime : Z) (s : St) : St * option CdnError :=
  modifyMetadata taskID (λ m,
    let interval := int64 (accessTime - fm_AccessTime m) in
    set_fm_Access accessTime (if interval <=? 0 then 0 else interval) m) s.

Definition updateExpireInfo (taskID : string) (expireInfo : gmap string string) (s : St) : St * option CdnError :=
  modifyMetadata taskID (set_fm_ExpireInfo expireInfo) s.

Definition updateStatusAndResult (taskID : string) (metadata : FileMetadata) (s : St) : St * option CdnError :=
  modifyMetadata taskID (mergeResult metadata) s.

Definition appendPieceMetadata (taskID : string) (record : PieceMetaRecord) (s : St) : St * option CdnError :=
  AppendPieceMetadata taskID record s.

Definition writePieceMetaRecords (taskID : string) (records : list PieceMetaRecord) (s : St)
    : St * option CdnError := WritePieceMetaRecords taskID records s.

Definition readPieceMetaRecords (taskID : string) (s : St) : CdnError + list PieceMetaRecord :=
  match ReadPieceMetaRecords taskID s with
  | inl e => inl e
  | inr records => inr (sortRecords records)
  end.

Definition md5Sign (records : list PieceMetaRecord) : string := digestutils_Sha256 (pmr_Md5 <$> records).

Definition getPieceMd5Sign (taskID : string) (s : St) : CdnError + (string * list PieceMetaRecord) :=
  match ReadPieceMetaRecords taskID s with
  | inl e => inl e
  | inr records => let records := sortRecords records in inr (md5Sign records, records)
  end.

End Manager.

(** ** What the operations do to a task that is stored *)

Lemma sortRecords_Permutation rs : sortRecords rs ≡ₚ rs.
Proof. apply merge_sort_Permutation. Qed.

Lemma sortRecords_Sorted rs : StronglySorted byNum (sortRecords rs).
Proof. apply StronglySorted_merge_sort; [intros a b c|intros a b]; unfold byNum; lia. Qed.

(** With different numbers there is one sorted order. *)
Lemma sortRecords_unique rs rs' :
  rs ≡ₚ rs' → StronglySorted (λ a b, pmr_PieceNum a < pmr_PieceNum b) rs' → sortRecords rs = rs'.
Proof.
  intros Hp Hs. pose proof (sortRecords_Sorted rs) as Hs1.
  assert (sortRecords rs ≡ₚ rs') as Hp1 by (by rewrite sortRecords_Permutation).
  assert (NoDup (pmr_PieceNum <$> rs')) as Hnd.
  { clear -Hs. induction Hs as [|r rs Hs IH Hall]; simpl; constructor; [|done].
    intros (x & Heq & Hx)%list_elem_of_fmap. rewrite Forall_forall in Hall. specialize (Hall x Hx). lia. }
  revert Hs Hs1 Hp1 Hnd. generalize (sortRecords rs) as l. clear. intros l. revert l.
  induction rs' as [|r rs' IH]; intros l Hs Hl Hp Hnd; [by apply Permutation_nil_r in Hp|].
  destruct l as [|x l]; [by apply Permutation_nil_cons in Hp|].
  apply StronglySorted_inv in Hs as [Hs Hall]. apply StronglySorted_inv in Hl as [Hl Hall'].
  assert (x = r) as ->.
  { assert (x ∈ r :: rs') as [Hx|Hx]%elem_of_cons by (rewrite <-Hp; left); [done|].
    assert (r ∈ x :: l) as [Hr|Hr]%elem_of_cons by (rewrite Hp; left); [done|].
    rewrite Forall_forall in Hall, Hall'. specialize (Hall x Hx). specialize (Hall' r Hr).
    unfold byNum in *. lia. }
  f_equal. apply IH; [done|done|by apply Permutation_cons_inv in Hp|by inversion Hnd].
Qed.

Section Laws.
Context {St : Type} `{CdnStoreLaws St}.

Lemma modifyMetadata_ok id f g m s :
  store_inv s → id_ok id → stores s id f → tf_meta f = Some m →
  ∃ s', modifyMetadata id g s = (s', None) ∧ framed id s s' ∧
    stores s' id (mkTaskFiles (tf_data f) (Some (g m)) (tf_records f) (tf_closed f)).
Proof.
  intros Hinv Hid Hst Hm. unfold modifyMetadata. rewrite (ReadMetadata_law id f m) by done.
  by apply WriteMetadata_law.
Qed.

End Laws.
