(* ===== verification/CdnDetector.v ===== *)
(** * CdnDetector: cdn/supervisor/cdn/cache_detector.go and downloader.go

    What the storage already holds of a task, and the request for the rest of
    it.  The clients of the sources (pkg/source) are the class [CdnSource]. *)

From S2P Require Import Prelude Text Ranges World FileSystem StoreDriver CdnTask CdnStorage Digests CdnMetadata.
From Stdlib Require Import Ascii.
From stdpp Require Import options.
Local Open Scope Z_scope.

(** ** The source *)

Record SourceResponse := mkSourceResponse {
  sr_Body : Stream DriverError;
  sr_LastModified : string;
  sr_ETag : string;
}.

(** What the code asks of a source: of an error of [IsExpired] only that it did
    not say that the resource has expired. *)
Class CdnSource := {
  url_Parse : string → bool;
  IsExpired : SourceRequest → string → string → bool;
  IsSupportRange : SourceRequest → SourceError + bool;
  source_Download : SourceRequest → SourceError + SourceResponse;
}.

Definition LastModified : string := "X-Dragonfly-Last-Modified".
Definition ETag : string := "X-Dragonfly-ETag".

(** The value of a key of a Go map, the zero value when it is not there. *)
Definition mapGet (m : gmap string string) (k : string) : string := default ""%string (m !! k).

(** ** cache_detector.go *)

Record cacheResult := mkCacheResult {
  cr_BreakPoint : Z;      (* int64 *)
  cr_PieceMetaRecords : list PieceMetaRecord;
  cr_FileMetadata : FileMetadata;
}.

(** The cause of an inconsistency, [None] when there is none. *)
Definition checkMetadata (seedTask : SeedTask) (metadata : FileMetadata) : option string :=
  if negb (bool_decide (fm_TaskID metadata = st_ID seedTask)) then Some "TaskID"%string
  else if negb (bool_decide (fm_TaskURL metadata = st_TaskURL seedTask)) then Some "taskURL"%string
  else if negb (bool_decide (fm_PieceSize metadata = st_PieceSize seedTask)) then Some "piece size"%string
  else if negb (bool_decide (st_Range seedTask = fm_Range metadata)) then Some "range"%string
  else if negb (bool_decide (st_Digest seedTask = fm_Digest metadata)) then Some "digest"%string
  else if negb (bool_decide (st_Tag seedTask = fm_Tag metadata)) then Some "tag"%string
  else if negb (bool_decide (st_Filter seedTask = fm_Filter metadata)) then Some "filter"%string
  else None.

Section Detector.
Context {St : Type} `{CdnStore St} `{Hashes} `{CdnSource}.

(** The bytes of the piece are read into both hashes; when there are too few of
    them the error is [errors.Wrap(nil, ...)], which is nil. *)
Definition checkPieceContent (reader : list byte) (pieceRecord : PieceMetaRecord) (fileDigest : option Hash)
    : Outcome (list byte * option Hash * option CdnError) :=
  let n := Z.to_nat (pmr_PieceLen pieceRecord) in
  let content := take n reader in
  let reader := drop n reader in
  match fileDigest, content with
  | None, _ :: _ => Panic NilDereference
  | _, _ =>
      let fileDigest := hash_Write content <$> fileDigest in
      let err :=
        if negb (Z.of_nat (length content) =? pmr_PieceLen pieceRecord) then None
        else if bool_decide (Md5Bytes content = pmr_Md5 pieceRecord) then None
        else Some (ErrInconsistent "piece md5 sign") in
      Ok (reader, fileDigest, err)
  end.

(** The loop of [detectByReadFile]: the pieces that are there, from [index] on. *)
Fixpoint checkRecords (index : Z) (tempRecords : list PieceMetaRecord) (reader : list byte)
    (fileDigest : option Hash) (breakPoint : Z) : Outcome (Z * list PieceMetaRecord * option Hash) :=
  match tempRecords with
  | [] => Ok (breakPoint, [], fileDigest)
  | r :: tempRecords =>
      if negb (uint32 index =? pmr_PieceNum r) then Ok (breakPoint, [], fileDigest)
      else
        '(reader, fileDigest, err) ← checkPieceContent reader r fileDigest;
        match err with
        | Some _ => Ok (breakPoint, [], fileDigest)
        | None =>
            let breakPoint := int64 (uint64 (EndIndex (pmr_OriginRange r) + 1)) in
            '(breakPoint, records, fileDigest) ←
              checkRecords (index + 1) tempRecords reader fileDigest breakPoint;
            Ok (breakPoint, r :: records, fileDigest)
        end
  end.

Definition detectByReadFile (taskID : string) (metadata : FileMetadata) (fileDigest : option Hash) (s : St)
    : Outcome (St * option Hash * (CdnError + cacheResult)) :=
  match ReadDownloadFile taskID s with
  | inl e => Ok (s, fileDigest, inl e)
  | inr reader =>
      match readPieceMetaRecords taskID s with
      | inl e => Ok (s, fileDigest, inl e)
      | inr tempRecords =>
          '(breakPoint, pieceMetaRecords, fileDigest) ← checkRecords 0 tempRecords reader fileDigest 0;
          let '(s, err) :=
            if negb (bool_decide (length tempRecords = length pieceMetaRecords))
            then writePieceMetaRecords taskID pieceMetaRecords s else (s, None) in
          Ok (s, fileDigest,
              match err with
              | Some e => inl e
              | None => inr (mkCacheResult breakPoint pieceMetaRecords metadata)
              end)
      end
  end.

Definition detectByReadMetaFile (taskID : string) (fileMetadata : FileMetadata) (s : St)
    : CdnError + cacheResult :=
  if negb (fm_Success fileMetadata) then inl (ErrInconsistent "success flag")
  else
    match getPieceMd5Sign taskID s with
    | inl e => inl e
    | inr (sign, pieceMetaRecords) =>
        if (0 <? fm_TotalPieceCount fileMetadata) &&
           negb (Z.of_nat (length pieceMetaRecords) =? fm_TotalPieceCount fileMetadata)
        then inl (ErrInconsistent "total piece count")
        else if negb (bool_decide (fm_PieceMd5Sign fileMetadata = ""%string)) &&
                negb (bool_decide (sign = fm_PieceMd5Sign fileMetadata))
        then inl (ErrInconsistent "piece md5 sign")
        else
          match StatDownloadFile taskID s with
          | inl e => inl e
          | inr storageInfo =>
              if negb (fm_CdnFileLength fileMetadata =? si_Size storageInfo)
              then inl (ErrInconsistent "file size")
              else inr (mkCacheResult (-1) pieceMetaRecords fileMetadata)
          end
    end.

Definition doDetect (seedTask : SeedTask) (fileDigest : option Hash) (s : St)
    : Outcome (St * option Hash * (CdnError + cacheResult)) :=
  match StatDownloadFile (st_ID seedTask) s with
  | inl e => Ok (s, fileDigest, inl e)
  | inr _ =>
      match ReadFileMetadata (st_ID seedTask) s with
      | inl e => Ok (s, fileDigest, inl e)
      | inr fileMetadata =>
          match checkMetadata seedTask fileMetadata with
          | Some cause => Ok (s, fileDigest, inl (ErrInconsistent cause))
          | None =>
              if negb (url_Parse (st_RawURL seedTask)) then Ok (s, fileDigest, inl (ErrInconsistent "URL"))
              else
                let request range := mkSourceRequest (st_RawURL seedTask) (st_Header seedTask) range in
                if IsExpired (request None) (mapGet (fm_ExpireInfo fileMetadata) LastModified)
                     (mapGet (fm_ExpireInfo fileMetadata) ETag)
                then Ok (s, fileDigest, inl ErrExpired)
                else if fm_Finish fileMetadata then
                  Ok (s, fileDigest, detectByReadMetaFile (st_ID seedTask) fileMetadata s)
                else
                  match IsSupportRange (request (Some "0-0"%string)) with
                  | inl e => Ok (s, fileDigest, inl (ErrSource e))
                  | inr false => Ok (s, fileDigest, inl ErrNoRangeSupport)
                  | inr true => detectByReadFile (st_ID seedTask) fileMetadata fileDigest s
                  end
          end
      end
  end.

Definition resetCache (now : Z) (seedTask : SeedTask) (s : St) : St * (CdnError + FileMetadata) :=
  match ResetRepo seedTask s with
  | (s, Some e) => (s, inl e)
  | (s, None) => writeFileMetadataByTask now seedTask s
  end.

Definition detectCache (now : Z) (seedTask : SeedTask) (fileDigest : option Hash) (s : St)
    : Outcome (St * option Hash * (CdnError + cacheResult)) :=
  '(s, fileDigest, result) ← doDetect seedTask fileDigest s;
  match result with
  | inl _ =>
      let '(s, r) := resetCache now seedTask s in
      Ok (s, fileDigest, match r with inl e => inl e | inr metadata => inr (mkCacheResult 0 [] metadata) end)
  | inr result => Ok ((updateAccessTime (st_ID seedTask) now s).1, fileDigest, inr result)
  end.

(** ** downloader.go *)

Definition getBreakRange (breakPoint : Z) (taskRange : string) (fileTotalLength : Z) : CdnError + string :=
  if (breakPoint <=? 0) || (fileTotalLength <=? 0) then inl ErrBreakRange
  else if IsBlank taskRange then
    inr (fmt_Sprint breakPoint +:+ String "-" (fmt_Sprint (int64 (fileTotalLength - 1))))
  else
    match ParseRange taskRange (uint64 fileTotalLength) with
    | inl _ => inl ErrBreakRange
    | inr requestRange =>
        if int64 (uint64 (EndIndex requestRange - StartIndex requestRange + 1)) <=? breakPoint
        then inl ErrBreakRange
        else inr (fmt_Sprint (uint64 (StartIndex requestRange + uint64 breakPoint)) +:+
                  String "-" (fmt_Sprint (EndIndex requestRange)))
    end.

Definition cdn_download (seedTask : SeedTask) (breakPoint : Z) (s : St)
    : St * (CdnError + Stream DriverError) :=
  match (if 0 <? breakPoint then getBreakRange breakPoint (st_Range seedTask) (st_SourceFileLength seedTask)
         else inr (st_Range seedTask)) with
  | inl e => (s, inl e)
  | inr breakRange =>
      if negb (url_Parse (st_RawURL seedTask)) then (s, inl (ErrInconsistent "URL"))
      else
        match source_Download (mkSourceRequest (st_RawURL seedTask) (st_Header seedTask)
                (if IsBlank breakRange then None else Some breakRange)) with
        | inl e => (s, inl (ErrSource e))
        | inr response =>
            ((updateExpireInfo (st_ID seedTask)
                (<[LastModified := sr_LastModified response]> {[ ETag := sr_ETag response ]}) s).1,
             inr (sr_Body response))
        end
  end.

End Detector.
