(* ===== verification/CdnProgress.v ===== *)
(** * CdnProgress: cdn/supervisor/progress/manager.go and publisher

    Who watches the pieces of a task, and the publication of the pieces and of
    the end of the task.  A subscriber is its history here: the pieces it
    started with, those it was notified of, and whether it was closed;
    CdnSubscriber.v has its goroutine and what that sends for a history.  The
    calls on one task are serialised by its lock. *)

From S2P Require Import Prelude Text Ranges World CdnTask.
From Stdlib Require Import Ascii.
From stdpp Require Import options.
Local Open Scope Z_scope.

Notation subRef := positive (only parsing).

Record Subscription := mkSubscription {
  sb_taskID : string;
  sb_pieces : gmap Z SeedPiece;      (* copied from the task *)
  sb_notified : list SeedPiece;
  sb_closed : bool;
}.

Record ProgressManager := mkProgressManager {
  pg_taskManager : TaskManager;
  pg_seedTaskSubjects : gmap string (list subRef);
  pg_subscribers : gmap subRef Subscription;   (* the heap *)
}.

Definition set_pg_taskManager (v : TaskManager) (pm : ProgressManager) : ProgressManager :=
  mkProgressManager v (pg_seedTaskSubjects pm) (pg_subscribers pm).

(** ** The publisher *)

Definition Notify (piece : SeedPiece) (sub : Subscription) : Subscription :=
  mkSubscription (sb_taskID sub) (sb_pieces sub) (sb_notified sub ++ [piece]) (sb_closed sub).

(** [Close], once. *)
Definition sub_Close (sub : Subscription) : Subscription :=
  mkSubscription (sb_taskID sub) (sb_pieces sub) (sb_notified sub) true.

Definition NotifySubscribers (piece : SeedPiece) (subs : list subRef) (heap : gmap subRef Subscription)
    : gmap subRef Subscription := foldl (λ heap s, alter (Notify piece) s heap) heap subs.

Definition RemoveAllSubscribers (subs : list subRef) (heap : gmap subRef Subscription)
    : gmap subRef Subscription := foldl (λ heap s, alter sub_Close s heap) heap subs.

(** ** The manager *)

(** The pieces sorted by number. *)
Definition sortedPieces (pieces : gmap Z SeedPiece) : list SeedPiece :=
  omap (λ num, pieces !! num) (merge_sort Z.le (elements (dom pieces))).

(** The channel [WatchSeedProgress] returns: one that a goroutine fills with the
    pieces of a task that is done, or that of a new subscriber. *)
Inductive Watch :=
  | WatchPieces (pieces : list SeedPiece)
  | WatchSubscriber (sub : subRef).

Definition WatchSeedProgress (now : Z) (taskID : string) (pm : ProgressManager)
    : ProgressManager * (TaskError + Watch) :=
  match tm_Get now taskID (pg_taskManager pm) with
  | (tm, inl e) => (set_pg_taskManager tm pm, inl e)
  | (tm, inr r) =>
      let pm := set_pg_taskManager tm pm in
      let seedTask := getRef tm r in
      if IsDone seedTask then (pm, inr (WatchPieces (sortedPieces (st_Pieces seedTask))))
      else
        let sub := fresh (dom (pg_subscribers pm)) in
        let subscribers := default [] (pg_seedTaskSubjects pm !! taskID) in
        (mkProgressManager (pg_taskManager pm)
           (<[taskID := subscribers ++ [sub]]> (pg_seedTaskSubjects pm))
           (<[sub := mkSubscription (st_ID seedTask) (st_Pieces seedTask) [] false]> (pg_subscribers pm)),
         inr (WatchSubscriber sub))
  end.

Definition PublishPiece (now : Z) (taskID : string) (record : SeedPiece) (pm : ProgressManager)
    : ProgressManager * option TaskError :=
  let heap :=
    match pg_seedTaskSubjects pm !! taskID with
    | Some subs => NotifySubscribers record subs (pg_subscribers pm)
    | None => pg_subscribers pm
    end in
  let '(tm, err) := tm_UpdateProgress now taskID record (pg_taskManager pm) in
  (mkProgressManager tm (pg_seedTaskSubjects pm) heap, err).

Definition PublishTask (now : Z) (taskID : string) (seedTask : option SeedTask) (pm : ProgressManager)
    : ProgressManager * option TaskError :=
  match tm_Update now taskID seedTask (pg_taskManager pm) with
  | (tm, Some e) => (set_pg_taskManager tm pm, Some e)
  | (tm, None) =>
      match pg_seedTaskSubjects pm !! taskID with
      | Some subs =>
          (mkProgressManager tm (delete taskID (pg_seedTaskSubjects pm))
             (RemoveAllSubscribers subs (pg_subscribers pm)), None)
      | None => (set_pg_taskManager tm pm, None)
      end
  end.

(** ** The subscribers of a task see its pieces *)

(** Registered subscribers are of their task, and open. *)
Definition subjects_ok (pm : ProgressManager) : Prop :=
  ∀ id subs, pg_seedTaskSubjects pm !! id = Some subs → NoDup subs ∧
    ∀ s, s ∈ subs → ∃ sub, pg_subscribers pm !! s = Some sub ∧ sb_closed sub = false.

Lemma foldl_alter_notin (f : Subscription → Subscription) subs (heap : gmap subRef Subscription) s :
  s ∉ subs → foldl (λ h x, alter f x h) heap subs !! s = heap !! s.
Proof.
  revert heap. induction subs as [|x subs IH]; intros heap Hs; [done|]. simpl.
  rewrite IH by set_solver. rewrite lookup_alter_ne; [done|set_solver].
Qed.

Lemma foldl_alter_in (f : Subscription → Subscription) subs (heap : gmap subRef Subscription) s :
  NoDup subs → s ∈ subs → foldl (λ h x, alter f x h) heap subs !! s = f <$> heap !! s.
Proof.
  revert heap. induction subs as [|x subs IH]; intros heap Hnd Hs; [by apply elem_of_nil in Hs|].
  apply NoDup_cons in Hnd as [Hx Hnd]. simpl. apply elem_of_cons in Hs as [->|Hs].
  - rewrite foldl_alter_notin by done. apply lookup_alter_eq.
  - rewrite IH by done. rewrite lookup_alter_ne; [done|set_solver].
Qed.
