(* ===== verification/CdnSubscriber.v ===== *)
(** * CdnSubscriber: the subscriber of cdn/supervisor/progress/progress.go

    The goroutine of a subscriber ([readLoop], [sendPieces]), the calls on it
    ([Notify], [Close]), which the lock of the task serialises, and the
    receiver of its channel, as a transition system at the granularity of the
    calls of sync and of the channels.  The send of a piece and its deletion from
    the map are one step: the goroutine holds the lock of the map over both, and
    no other goroutine reads the map without it. *)

From S2P Require Import Prelude Text Ranges World CdnTask CdnProgress.
From stdpp Require Import options.
Local Open Scope Z_scope.

(** Where the goroutine is; [holdsL]: between the lock and the unlock of
    [cond.L]. *)
Inductive Loop :=
  | LSelect                 (* the select of the loop *)
  | LDone                   (* behind [<-sub.done] *)
  | LDrain                  (* ... and in [L.Lock], pieces being left *)
  | LLock                   (* in [L.Lock] of the default branch *)
  | LCheck                  (* before the condition of the wait *)
  | LPreWait                (* the condition held, before [cond.Wait] *)
  | LWaiting                (* in [cond.Wait] *)
  | LWoken                  (* signalled, in the [L.Lock] of [Wait] *)
  | LSend (nums : list Z)   (* in [sendPieces]: the numbers still to send *)
  | LExited.                (* the channel is closed *)

Definition holdsL (l : Loop) : bool :=
  match l with LCheck | LPreWait | LSend _ => true | _ => false end.

(** Where the caller is: before a call, before the signal of [Notify], inside
    [Close], or behind it. *)
Inductive Caller := CNext | CSignal | CClose1 | CClose2 | CFinished.

Record Sub := mkSub {
  su_pieces : gmap Z SeedPiece;
  su_pieceChan : list SeedPiece;     (* the buffer, of 100 *)
  su_closed : bool;
  su_done : bool;                    (* [done] is closed *)
  su_ctxDone : bool;
  su_loop : Loop;
  su_caller : Caller;
  su_todo : list SeedPiece;          (* the pieces that will be published *)
  su_receiving : bool;               (* somebody receives *)
  su_received : list SeedPiece;
}.

Definition pieceChanSize : nat := 100.

Definition newSub (pieces : gmap Z SeedPiece) (todo : list SeedPiece) : Sub :=
  mkSub pieces [] false false false LSelect CNext todo true [].

(** The numbers [sendPieces] goes through. *)
Definition pieceNums (pieces : gmap Z SeedPiece) : list Z := merge_sort Z.le (elements (dom pieces)).

Definition set_loop (l : Loop) (s : Sub) : Sub :=
  mkSub (su_pieces s) (su_pieceChan s) (su_closed s) (su_done s) (su_ctxDone s) l (su_caller s) (su_todo s)
    (su_receiving s) (su_received s).
Definition set_caller (closed done : bool) (l : Loop) (c : Caller) (s : Sub) : Sub :=
  mkSub (su_pieces s) (su_pieceChan s) closed done (su_ctxDone s) l c (su_todo s) (su_receiving s) (su_received s).

(** [cond.Signal] *)
Definition signal (l : Loop) : Loop := match l with LWaiting => LWoken | _ => l end.

Inductive sub_step : Sub → Sub → Prop :=
  (* readLoop *)
  | step_ctx s : su_loop s = LSelect → su_ctxDone s = true → sub_step s (set_loop LExited s)
  | step_done s : su_loop s = LSelect → su_done s = true → sub_step s (set_loop LDone s)
  | step_default s : su_loop s = LSelect → su_ctxDone s = false → su_done s = false → sub_step s (set_loop LLock s)
  | step_return s : su_loop s = LDone → su_pieces s = ∅ → sub_step s (set_loop LExited s)
  | step_left s : su_loop s = LDone → su_pieces s ≠ ∅ → sub_step s (set_loop LDrain s)
  | step_drain s : su_loop s = LDrain → sub_step s (set_loop (LSend (pieceNums (su_pieces s))) s)
  | step_lock s : su_loop s = LLock → sub_step s (set_loop LCheck s)
  | step_empty s : su_loop s = LCheck → su_pieces s = ∅ → su_closed s = false → sub_step s (set_loop LPreWait s)
  | step_ready s : su_loop s = LCheck → (su_pieces s ≠ ∅ ∨ su_closed s = true) →
      sub_step s (set_loop (LSend (pieceNums (su_pieces s))) s)
  | step_wait s : su_loop s = LPreWait → sub_step s (set_loop LWaiting s)
  | step_woken s : su_loop s = LWoken → sub_step s (set_loop LCheck s)
  | step_send s num nums piece : su_loop s = LSend (num :: nums) → su_pieces s !! num = Some piece →
      (length (su_pieceChan s) < pieceChanSize)%nat →
      sub_step s (mkSub (delete num (su_pieces s)) (su_pieceChan s ++ [piece]) (su_closed s) (su_done s) (su_ctxDone s)
                    (LSend nums) (su_caller s) (su_todo s) (su_receiving s) (su_received s))
  | step_sent s : su_loop s = LSend [] → sub_step s (set_loop LSelect s)
  (* Notify *)
  | step_notify s piece todo : su_caller s = CNext → su_todo s = piece :: todo → holdsL (su_loop s) = false →
      sub_step s (mkSub (<[sp_PieceNum piece := piece]> (su_pieces s)) (su_pieceChan s) (su_closed s) (su_done s)
                    (su_ctxDone s) (su_loop s) CSignal todo (su_receiving s) (su_received s))
  | step_signal s : su_caller s = CSignal → sub_step s (set_caller (su_closed s) (su_done s) (signal (su_loop s)) CNext s)
  (* Close *)
  | step_close s : su_caller s = CNext → su_todo s = [] → sub_step s (set_caller true (su_done s) (su_loop s) CClose1 s)
  | step_close_signal s : su_caller s = CClose1 →
      sub_step s (set_caller (su_closed s) (su_done s) (signal (su_loop s)) CClose2 s)
  | step_close_done s : su_caller s = CClose2 → sub_step s (set_caller (su_closed s) true (su_loop s) CFinished s)
  (* the receiver, and the end of its request *)
  | step_receive s piece rest : su_receiving s = true → su_pieceChan s = piece :: rest →
      sub_step s (mkSub (su_pieces s) rest (su_closed s) (su_done s) (su_ctxDone s) (su_loop s) (su_caller s)
                    (su_todo s) (su_receiving s) (su_received s ++ [piece]))
  | step_leave s :
      sub_step s (mkSub (su_pieces s) (su_pieceChan s) (su_closed s) (su_done s) true (su_loop s) (su_caller s)
                    (su_todo s) false (su_received s)).

(** ** Nothing is lost and nothing is sent twice *)

Definition values (m : gmap Z SeedPiece) : list SeedPiece := (map_to_list m).*2.

Definition keyed (m : gmap Z SeedPiece) : Prop := ∀ n p, m !! n = Some p → sp_PieceNum p = n.

(** All the pieces of the history are somewhere. *)
Definition everywhere (s : Sub) : list SeedPiece :=
  su_received s ++ su_pieceChan s ++ values (su_pieces s) ++ su_todo s.

Record sub_inv (all : list SeedPiece) (s : Sub) : Prop := {
  si_all : everywhere s ≡ₚ all;
  si_keyed : keyed (su_pieces s);
  si_sending : ∀ nums, su_loop s = LSend nums → NoDup nums ∧ ∀ n, n ∈ nums → is_Some (su_pieces s !! n);
  si_closing : su_caller s = CClose1 ∨ su_caller s = CClose2 ∨ su_caller s = CFinished → su_todo s = [];
  si_done : su_done s = true → su_caller s = CFinished;
  si_draining : su_loop s = LDone ∨ su_loop s = LDrain → su_done s = true;
  si_exited : su_loop s = LExited → su_ctxDone s = false → su_done s = true ∧ su_pieces s = ∅;
}.

Lemma values_insert m n p : m !! n = None → values (<[n := p]> m) ≡ₚ p :: values m.
Proof. intros Hn. unfold values. by rewrite map_to_list_insert. Qed.

Lemma values_delete m n p : m !! n = Some p → values m ≡ₚ p :: values (delete n m).
Proof.
  intros Hn. rewrite <-(insert_delete_id m n p) at 1 by done. apply values_insert. apply lookup_delete_eq.
Qed.

Lemma elem_of_values m p : keyed m → p ∈ values m ↔ m !! sp_PieceNum p = Some p.
Proof.
  intros Hk. unfold values. rewrite list_elem_of_fmap. split.
  - intros ([n q] & -> & Hin%elem_of_map_to_list). simpl. by rewrite (Hk n q Hin).
  - intros Hp. exists (sp_PieceNum p, p). split; [done|]. by apply elem_of_map_to_list.
Qed.

Lemma pieceNums_spec m : NoDup (pieceNums m) ∧ ∀ n, n ∈ pieceNums m ↔ is_Some (m !! n).
Proof.
  unfold pieceNums. pose proof (merge_sort_Permutation Z.le (elements (dom m))) as Hp. split.
  - rewrite Hp. apply NoDup_elements.
  - intros n. rewrite Hp, elem_of_elements, elem_of_dom. done.
Qed.

Lemma signal_LSend l nums : signal l = LSend nums → l = LSend nums.
Proof. by destruct l. Qed.

(** The goroutine moves on. *)
Lemma set_loop_inv all s l :
  sub_inv all s →
  (∀ nums, l = LSend nums → NoDup nums ∧ ∀ n, n ∈ nums → is_Some (su_pieces s !! n)) →
  (l = LDone ∨ l = LDrain → su_done s = true) →
  (l = LExited → su_ctxDone s = false → su_done s = true ∧ su_pieces s = ∅) →
  sub_inv all (set_loop l s).
Proof. by intros []; split. Qed.

Lemma all_sent_inv all s :
  sub_inv all s → sub_inv all (set_loop (LSend (pieceNums (su_pieces s))) s).
Proof.
  intros Hi. apply set_loop_inv; [done| |by intros [?|?]|done].
  intros nums [= <-]. destruct (pieceNums_spec (su_pieces s)) as [Hnd Hin]. split; [done|]. intros n. apply Hin.
Qed.

(** A piece to come has a number that is not in use. *)
Lemma todo_fresh all s piece todo :
  NoDup (sp_PieceNum <$> all) → sub_inv all s → su_todo s = piece :: todo → su_pieces s !! sp_PieceNum piece = None.
Proof.
  intros Hnd [Ha Hk _ _ _ _ _] Ht. destruct (su_pieces s !! sp_PieceNum piece) as [q|] eqn:Hq; [|done]. exfalso.
  rewrite <-Ha in Hnd. unfold everywhere in Hnd. rewrite Ht, !fmap_app in Hnd.
  apply NoDup_app in Hnd as (_ & _ & Hnd). apply NoDup_app in Hnd as (_ & _ & Hnd).
  apply NoDup_app in Hnd as (_ & Hno & _). apply (Hno (sp_PieceNum piece)); [|simpl; left].
  apply list_elem_of_fmap. exists q. pose proof (Hk _ _ Hq) as Hqn. split; [done|].
  apply elem_of_values; [done|]. by rewrite Hqn.
Qed.

Lemma send_inv all s num nums piece :
  sub_inv all s → su_loop s = LSend (num :: nums) → su_pieces s !! num = Some piece →
  sub_inv all (mkSub (delete num (su_pieces s)) (su_pieceChan s ++ [piece]) (su_closed s) (su_done s) (su_ctxDone s)
                 (LSend nums) (su_caller s) (su_todo s) (su_receiving s) (su_received s)).
Proof.
  intros [Ha Hk Hse Hcl Hdo Hdr Hex] Hl Hp. destruct (Hse _ Hl) as [Hnd Hin]. apply NoDup_cons in Hnd as [Hn Hnd].
  split; unfold everywhere in *; cbn [su_pieces su_pieceChan su_closed su_done su_ctxDone su_loop su_caller su_todo su_received];
    [|by intros n q [_ Hq]%lookup_delete_Some; apply Hk| |done|done|by intros [?|?]|done].
  - rewrite <-Ha, (values_delete _ _ _ Hp). solve_Permutation.
  - intros nums' [= <-]. split; [done|]. intros n Hn'. rewrite lookup_delete_ne by (by intros ->).
    apply Hin. by right.
Qed.

Lemma notify_inv all s piece todo :
  NoDup (sp_PieceNum <$> all) → sub_inv all s → su_caller s = CNext → su_todo s = piece :: todo →
  holdsL (su_loop s) = false →
  sub_inv all (mkSub (<[sp_PieceNum piece := piece]> (su_pieces s)) (su_pieceChan s) (su_closed s) (su_done s)
                 (su_ctxDone s) (su_loop s) CSignal todo (su_receiving s) (su_received s)).
Proof.
  intros Hnd Hi Hc Ht Hh. pose proof (todo_fresh _ _ _ _ Hnd Hi Ht) as Hfr. destruct Hi as [Ha Hk Hse Hcl Hdo Hdr Hex].
  assert (su_done s = false) as Hd.
  { destruct (su_done s) eqn:Hd; [|done]. specialize (Hdo eq_refl). congruence. }
  split; unfold everywhere in *; cbn [su_pieces su_pieceChan su_closed su_done su_ctxDone su_loop su_caller su_todo su_received].
  - rewrite <-Ha, Ht, values_insert by done. solve_Permutation.
  - intros n q [[<- <-]|[_ Hq]]%lookup_insert_Some; [done|by apply Hk].
  - intros nums Hl. rewrite Hl in Hh. done.
  - by intros [?|[?|?]].
  - congruence.
  - intros Hl. specialize (Hdr Hl). congruence.
  - intros Hl Hx. destruct (Hex Hl Hx). congruence.
Qed.

(** A call that changes no piece. *)
Lemma set_caller_inv all s closed done l c :
  sub_inv all s → (l = su_loop s ∨ l = signal (su_loop s)) →
  (c = CClose1 ∨ c = CClose2 ∨ c = CFinished → su_todo s = []) →
  (done = true → c = CFinished) → (su_done s = true → done = true) → sub_inv all (set_caller closed done l c s).
Proof.
  intros [Ha Hk Hse Hcl Hdo Hdr Hex] Hl Hc Hd Hd'.
  assert (∀ l', l' ≠ LWoken → l = l' → su_loop s = l') as Hloop.
  { intros l' Hne ->. destruct Hl as [->|Hl]; [done|]. destruct (su_loop s); simpl in Hl; congruence. }
  split; unfold everywhere in *; cbn [set_caller su_pieces su_pieceChan su_closed su_done su_ctxDone su_loop su_caller su_todo su_received];
    try done.
  - intros nums Hn. apply Hse. by apply Hloop.
  - intros Hl'. apply Hd', Hdr. destruct Hl' as [Hl'|Hl']; [left|right]; by apply Hloop.
  - intros Hl' Hx. destruct (Hex (Hloop LExited ltac:(done) Hl') Hx) as [? ?]. split; [by apply Hd'|done].
Qed.

Lemma sub_step_inv all s s' :
  NoDup (sp_PieceNum <$> all) → sub_inv all s → sub_step s s' → sub_inv all s'.
Proof.
  intros Hnd Hi Hs. pose proof (si_draining _ _ Hi) as Hdr. pose proof (si_closing _ _ Hi) as Hcl.
  pose proof (si_done _ _ Hi) as Hdo.
  destruct Hs as [s Hl Hc|s Hl Hd|s Hl Hc Hd|s Hl Hp|s Hl Hp|s Hl|s Hl|s Hl Hp Hc|s Hl Hp|s Hl|s Hl|
    s num nums piece Hl Hp Hlen|s Hl|s piece todo Hc Ht Hh|s Hc|s Hc Ht|s Hc|s Hc|s piece rest Hr Hch|s];
    try (by apply all_sent_inv).
  - apply set_loop_inv; [done|done|by intros [?|?]|congruence].
  - by apply set_loop_inv.
  - by apply set_loop_inv; [done..|intros [?|?]|].
  - apply set_loop_inv; [done|done|by intros [?|?]|]. intros _ _. split; [apply Hdr; by left|done].
  - apply set_loop_inv; [done|done|intros _; apply Hdr; by left|done].
  - by apply set_loop_inv; [done..|intros [?|?]|].
  - by apply set_loop_inv; [done..|intros [?|?]|].
  - by apply set_loop_inv; [done..|intros [?|?]|].
  - by apply set_loop_inv; [done..|intros [?|?]|].
  - by apply (send_inv all s num).
  - by apply set_loop_inv; [done..|intros [?|?]|].
  - by apply notify_inv.
  - apply set_caller_inv; [done|by right|by intros [?|[?|?]]| |done]. intros Hd. apply Hdo in Hd. congruence.
  - apply set_caller_inv; [done|by left|done| |done]. intros Hd. apply Hdo in Hd. congruence.
  - apply set_caller_inv; [done|by right|intros _; apply Hcl; by left| |done]. intros Hd. apply Hdo in Hd. congruence.
  - apply set_caller_inv; [done|by left|intros _; apply Hcl; by right; left|done|done].
  - destruct Hi as [Ha Hk Hse _ _ _ Hex]. split; try done. unfold everywhere in *. simpl. rewrite <-Ha, Hch.
    solve_Permutation.
  - destruct Hi as [Ha Hk Hse _ _ _ Hex]. by split.
Qed.

Lemma sub_reach_inv pieces todo s :
  keyed pieces → NoDup (sp_PieceNum <$> (values pieces ++ todo)) → rtc sub_step (newSub pieces todo) s →
  sub_inv (values pieces ++ todo) s.
Proof.
  intros Hk Hnd Hr. assert (sub_inv (values pieces ++ todo) (newSub pieces todo)) as Hi.
  { split; try done; [by intros [|[|]]|by intros [|]]. }
  revert Hi. generalize (newSub pieces todo) as s0, Hr. induction 1 as [|s0 s1 s2 Hs Hr' IH]; intros Hi; [done|].
  apply IH; [done|]. by eapply sub_step_inv.
Qed.

(** C8: In every execution of a subscriber whose pieces, those it starts with and
    those it is notified of, have distinct numbers, no piece is sent twice and
    none is lost: those received, those in the channel, those pending and those
    to be published are together the pieces it started with and those it is
    notified of.  When the channel was closed although the request of the watcher
    has not ended, all of them have been sent. *)
Theorem subscriber_delivers pieces todo s :
  keyed pieces → NoDup (sp_PieceNum <$> (values pieces ++ todo)) → rtc sub_step (newSub pieces todo) s →
  su_received s ++ su_pieceChan s ++ values (su_pieces s) ++ su_todo s ≡ₚ values pieces ++ todo ∧
  (su_loop s = LExited → su_ctxDone s = false → su_received s ++ su_pieceChan s ≡ₚ values pieces ++ todo).
Proof.
  intros Hk Hnd Hr. destruct (sub_reach_inv pieces todo s Hk Hnd Hr) as [Ha _ _ Hcl Hdo _ Hex]. split; [done|].
  intros Hl Hx. destruct (Hex Hl Hx) as [Hd Hp]. rewrite <-Ha. unfold everywhere. rewrite Hp, Hcl by auto.
  unfold values. rewrite map_to_list_empty. simpl. by rewrite app_nil_r.
Qed.

(** ** Where it does not end *)

(** Only these steps are left, and they change neither. *)
Lemma waiting_forever s s' :
  su_loop s = LWaiting → su_caller s = CFinished → rtc sub_step s s' → su_loop s' = LWaiting ∧ su_caller s' = CFinished.
Proof.
  intros Hl Hc Hr. induction Hr as [|s s1 s2 Hs Hr IH]; [done|].
  apply IH; destruct Hs; simpl; congruence.
Qed.

(** [Close] signals without holding the lock, so its signal can be lost: a
    subscriber that had found nothing to send when it was closed may wait
    forever.  Its channel is never closed and whoever ranges over it hangs. *)
Theorem Close_wakeup_lost :
  ∃ s, rtc sub_step (newSub ∅ []) s ∧ su_done s = true ∧ ∀ s', rtc sub_step s s' → su_loop s' = LWaiting.
Proof.
  exists (mkSub ∅ [] true true false LWaiting CFinished [] true []). split; [|split; [done|]].
  - eapply rtc_l; [by apply step_default|]. eapply rtc_l; [by apply step_lock|]. eapply rtc_l; [by apply step_empty|].
    eapply rtc_l; [by apply step_close|]. eapply rtc_l; [by apply step_close_signal|].
    eapply rtc_l; [by apply step_close_done|]. eapply rtc_l; [by apply step_wait|]. done.
  - intros s' Hr. eapply waiting_forever in Hr as [Hl _]; done.
Qed.

Lemma sends k s nums :
  su_loop s = LSend nums → NoDup nums → (∀ n, n ∈ nums → is_Some (su_pieces s !! n)) →
  (k ≤ length nums)%nat → (length (su_pieceChan s) + k ≤ pieceChanSize)%nat →
  ∃ s', rtc sub_step s s' ∧ su_loop s' = LSend (drop k nums) ∧ length (su_pieceChan s') = (length (su_pieceChan s) + k)%nat ∧
    su_todo s' = su_todo s ∧ su_receiving s' = su_receiving s.
Proof.
  revert s nums. induction k as [|k IH]; intros s nums Hl Hnd Hin Hk Hlen.
  { exists s. rewrite drop_0, Nat.add_0_r. done. }
  destruct nums as [|n nums]; [simpl in Hk; lia|]. destruct (Hin n) as [piece Hp]; [left|].
  apply NoDup_cons in Hnd as [Hn Hnd].
  destruct (IH (mkSub (delete n (su_pieces s)) (su_pieceChan s ++ [piece]) (su_closed s) (su_done s) (su_ctxDone s)
    (LSend nums) (su_caller s) (su_todo s) (su_receiving s) (su_received s)) nums) as (s' & Hr & Hl' & Hc' & Ht' & Hr');
    simpl; [done|done| |simpl in Hk; lia|rewrite length_app; simpl; lia|].
  - intros m Hm. rewrite lookup_delete_ne by (by intros ->). apply Hin. by right.
  - exists s'. split; [eapply rtc_l; [|exact Hr]; eapply step_send; [done|done|lia]|]. split; [done|].
    simpl in Hc'. rewrite length_app in Hc'. simpl in Hc'. split; [lia|]. done.
Qed.

Lemma blocked_forever s s' n nums :
  su_loop s = LSend (n :: nums) → (pieceChanSize ≤ length (su_pieceChan s))%nat → su_receiving s = false →
  rtc sub_step s s' → su_loop s' = LSend (n :: nums) ∧ su_todo s' = su_todo s.
Proof.
  intros Hl Hc Hr Hs. induction Hs as [|s s1 s2 Hs Hrs IH]; [done|].
  assert (su_loop s1 = LSend (n :: nums) ∧ su_todo s1 = su_todo s ∧ su_pieceChan s1 = su_pieceChan s ∧
    su_receiving s1 = false) as (H1 & H2 & H3 & H4).
  { destruct Hs; simpl in *; rewrite ?Hl in *; simplify_eq; simpl in *; try done; try lia; try congruence. }
  destruct IH as [IH1 IH2]; [done|by rewrite H3|done|]. split; [done|congruence].
Qed.

(** A watcher that goes away while more than a hundred pieces are pending for
    it blocks the publication: its goroutine waits, holding the lock, for room
    in a channel that nobody reads, and the next [Notify] of the task, which
    needs the lock, never returns. *)
Theorem left_watcher_blocks pieces todo :
  (pieceChanSize < size pieces)%nat →
  ∃ s, rtc sub_step (newSub pieces todo) s ∧ ∀ s', rtc sub_step s s' → su_todo s' = todo.
Proof.
  intros Hsize. destruct (pieceNums_spec pieces) as [Hnd Hin].
  assert (pieces ≠ ∅) as Hne by (intros ->; rewrite map_size_empty in Hsize; lia).
  assert (length (pieceNums pieces) = size pieces) as Hlen.
  { unfold pieceNums. rewrite merge_sort_Permutation. by rewrite <-size_dom. }
  set (s0 := mkSub pieces [] false false true (LSend (pieceNums pieces)) CNext todo false []).
  destruct (sends pieceChanSize s0 (pieceNums pieces)) as (s & Hr & Hl & Hc & Ht & Hrc); simpl; [done|done| |lia|done|].
  { intros n. apply Hin. }
  exists s. split.
  - eapply rtc_l; [by apply step_default|]. eapply rtc_l; [by apply step_lock|].
    eapply rtc_l; [apply step_ready; [done|by left]|]. eapply rtc_l; [apply step_leave|]. exact Hr.
  - intros s' Hr'. destruct (drop pieceChanSize (pieceNums pieces)) as [|n nums] eqn:Hd.
    { apply (f_equal length) in Hd. rewrite length_drop in Hd. simpl in Hd. lia. }
    destruct (blocked_forever s s' n nums Hl ltac:(simpl in Hc; lia) Hrc Hr') as [_ ->]. done.
Qed.

(** ** Instances *)

Definition demoPiece (n : Z) : SeedPiece := mkSeedPiece n "md5" (mkByteRange 0 3) (mkByteRange 0 3) 4 0.

Lemma subscriber_delivers_witness :
  ∃ s, rtc sub_step (newSub {[ 0 := demoPiece 0 ]} []) s ∧ su_loop s = LExited ∧ su_received s = [demoPiece 0] ∧
    su_received s ++ su_pieceChan s ≡ₚ [demoPiece 0].
Proof.
  assert (∃ s, rtc sub_step (newSub {[ 0 := demoPiece 0 ]} []) s ∧ su_loop s = LExited ∧ su_ctxDone s = false ∧
    su_received s = [demoPiece 0]) as (s & Hr & Hl & Hx & Hrec).
  { eexists. split.
    - eapply rtc_l; [by apply step_default|]. eapply rtc_l; [by apply step_lock|].
      eapply rtc_l; [apply step_ready; [done|left; done]|].
      eapply rtc_l; [eapply (step_send _ 0 []); [vm_compute; reflexivity|vm_compute; reflexivity|simpl; unfold pieceChanSize; lia]|].
      eapply rtc_l; [by apply step_sent|]. eapply rtc_l; [eapply step_receive; done|].
      eapply rtc_l; [by apply step_close|]. eapply rtc_l; [by apply step_close_signal|].
      eapply rtc_l; [by apply step_close_done|]. eapply rtc_l; [by apply step_done|].
      eapply rtc_l; [apply step_return; vm_compute; reflexivity|]. apply rtc_refl.
    - done. }
  exists s. split; [exact Hr|]. split; [exact Hl|]. split; [exact Hrec|].
  destruct (subscriber_delivers {[ 0 := demoPiece 0 ]} [] s) as [_ Hall].
  - intros n p [<- <-]%lookup_singleton_Some. done.
  - vm_compute. repeat constructor. set_solver.
  - exact Hr.
  - exact (Hall Hl Hx).
Defined.

Lemma left_watcher_blocks_witness :
  ∃ pieces s, rtc sub_step (newSub pieces [demoPiece 101]) s ∧ ∀ s', rtc sub_step s s' → su_todo s' = [demoPiece 101].
Proof.
  exists (list_to_map ((λ n, (n, demoPiece n)) <$> seqZ 0 101)).
  apply (left_watcher_blocks (list_to_map ((λ n, (n, demoPiece n)) <$> seqZ 0 101)) [demoPiece 101]).
  apply Nat.ltb_lt. vm_compute. reflexivity.
Defined.
