(* ===== verification/CdnProgressProperties.v ===== *)
(** * CdnProgressProperties: the watchers of the CDN see every piece

    The manager of CdnProgress.v keeps the history of each subscriber in step
    with the pieces of its task; with the goroutine of CdnSubscriber.v, a
    watcher receives the pieces of the task, each once. *)

From S2P Require Import Prelude Text Ranges World CdnTask CdnProgress CdnSubscriber.
From stdpp Require Import options.
Local Open Scope Z_scope.

Inductive ProgressOp :=
  | OpWatch (now : Z) (id : string)
  | OpPiece (now : Z) (id : string) (p : SeedPiece)
  | OpTask (now : Z) (id : string) (update : SeedTask).

Definition runOp (pm : ProgressManager) (op : ProgressOp) : ProgressManager :=
  match op with
  | OpWatch now id => (WatchSeedProgress now id pm).1
  | OpPiece now id p => (PublishPiece now id p pm).1
  | OpTask now id update => (PublishTask now id (Some update) pm).1
  end.

Definition filed (m : gmap Z SeedPiece) (p : SeedPiece) : gmap Z SeedPiece := <[sp_PieceNum p := p]> m.

(** The pieces a history amounts to. *)
Definition piecesOf (sub : Subscription) : gmap Z SeedPiece := foldl filed (sb_pieces sub) (sb_notified sub).

Record follows (pm : ProgressManager) : Prop := {
  fo_tasks : ∀ id r, tm_taskStore (pg_taskManager pm) !! id = Some r →
    ∃ t, tm_heap (pg_taskManager pm) !! r = Some t ∧ st_ID t = id;
  fo_nodup : ∀ id subs, pg_seedTaskSubjects pm !! id = Some subs → NoDup subs;
  fo_subs : ∀ id subs s, pg_seedTaskSubjects pm !! id = Some subs → s ∈ subs →
    ∃ sub r, pg_subscribers pm !! s = Some sub ∧ sb_closed sub = false ∧
      tm_taskStore (pg_taskManager pm) !! id = Some r ∧ st_Pieces (getRef (pg_taskManager pm) r) = piecesOf sub;
  fo_apart : ∀ id id' subs subs' s, pg_seedTaskSubjects pm !! id = Some subs → pg_seedTaskSubjects pm !! id' = Some subs' →
    s ∈ subs → s ∈ subs' → id = id';
}.

(** ** The task manager's part *)

(** Two tasks are two objects. *)
Lemma follows_refs pm id id' r : follows pm → tm_taskStore (pg_taskManager pm) !! id = Some r →
  tm_taskStore (pg_taskManager pm) !! id' = Some r → id = id'.
Proof.
  intros Hf H1 H2. destruct (fo_tasks _ Hf _ _ H1) as (t & Ht & <-), (fo_tasks _ Hf _ _ H2) as (t' & Ht' & <-). congruence.
Qed.

(** The tasks after a change of one of them that keeps its ID. *)
Lemma fo_tasks_upd f r tm :
  (∀ t, st_ID (f t) = st_ID t) →
  (∀ id r, tm_taskStore tm !! id = Some r → ∃ t, tm_heap tm !! r = Some t ∧ st_ID t = id) →
  ∀ id r', tm_taskStore (updTask f r tm) !! id = Some r' → ∃ t, tm_heap (updTask f r tm) !! r' = Some t ∧ st_ID t = id.
Proof.
  intros Hid Ht id r' Hr'. destruct (Ht id r' Hr') as (t & Hh & Hi). simpl. rewrite lookup_alter.
  case_decide; subst; [|eauto]. rewrite Hh. exists (f t). split; [done|]. apply Hid.
Qed.

Lemma piecesOf_Notify p sub : piecesOf (Notify p sub) = <[sp_PieceNum p := p]> (piecesOf sub).
Proof. unfold piecesOf. simpl. by rewrite foldl_snoc. Qed.

Lemma applyUpdate_keeps u t : st_ID (applyUpdate u t) = st_ID t ∧ st_Pieces (applyUpdate u t) = st_Pieces t.
Proof. unfold applyUpdate. by repeat case_match. Qed.

(** ** The operations *)

Lemma watch_follows now id pm : follows pm → follows (WatchSeedProgress now id pm).1.
Proof.
  intros Hf. unfold WatchSeedProgress, tm_Get. destruct (tm_taskStore (pg_taskManager pm) !! id) as [r|] eqn:Hr.
  2: { by destruct Hf. }
  destruct Hf as [Ht Hnd Hs Ha]. case_match; [by split|]. cbn [fst].
  set (new := fresh (dom (pg_subscribers (set_pg_taskManager (touchTask now id (pg_taskManager pm)) pm)))).
  assert (pg_subscribers pm !! new = None) as Hnew by apply not_elem_of_dom, is_fresh.
  assert (∀ id' subs, pg_seedTaskSubjects pm !! id' = Some subs → new ∉ subs) as Hnotin.
  { intros id' subs Hsubs Hin. destruct (Hs id' subs new Hsubs Hin) as (sub & r' & Hsub & _). congruence. }
  set (subs0 := default [] (pg_seedTaskSubjects (set_pg_taskManager (touchTask now id (pg_taskManager pm)) pm) !! id)).
  assert (new ∉ subs0 ∧ NoDup subs0 ∧ ∀ s, s ∈ subs0 → ∃ subs, pg_seedTaskSubjects pm !! id = Some subs ∧ s ∈ subs)
    as (Hn0 & Hnd0 & Hin0).
  { unfold subs0. simpl. destruct (pg_seedTaskSubjects pm !! id) as [subs|] eqn:Hsubs; simpl.
    - split; [by eapply Hnotin|]. split; [by eapply Hnd|]. intros s Hin. by exists subs.
    - split_and!; [apply not_elem_of_nil|constructor|intros s Hin; by apply elem_of_nil in Hin]. }
  split; cbn [pg_taskManager pg_seedTaskSubjects pg_subscribers set_pg_taskManager touchTask].
  - done.
  - intros id' subs [[<- <-]|[_ Hsubs]]%lookup_insert_Some; [|by eapply Hnd].
    apply NoDup_app. split; [done|]. split; [|apply NoDup_singleton]. intros s Hin ->%list_elem_of_singleton. done.
  - intros id' subs s [[<- <-]|[Hne Hsubs]]%lookup_insert_Some Hin.
    + apply elem_of_app in Hin as [Hin| ->%list_elem_of_singleton].
      * destruct (Hin0 s Hin) as (subs & Hsubs & Hin'). destruct (Hs id subs s Hsubs Hin') as (sub & r' & Hsub & Hrest).
        exists sub, r'. rewrite lookup_insert_ne; [done|]. intros <-. congruence.
      * eexists _, r. rewrite lookup_insert_eq. done.
    + destruct (Hs id' subs s Hsubs Hin) as (sub & r' & Hsub & Hrest). exists sub, r'.
      rewrite lookup_insert_ne; [done|]. intros <-. congruence.
  - intros i1 i2 l1 l2 s H1 H2 Hi1 Hi2.
    apply lookup_insert_Some in H1 as [[<- <-]|[Hne1 H1]]; apply lookup_insert_Some in H2 as [[<- <-]|[Hne2 H2]]; [done|..].
    + apply elem_of_app in Hi1 as [Hi1| ->%list_elem_of_singleton]; [|by destruct (Hnotin _ _ H2)].
      destruct (Hin0 s Hi1) as (subs & Hsubs & Hin'). by apply (Ha id i2 subs l2 s).
    + apply elem_of_app in Hi2 as [Hi2| ->%list_elem_of_singleton]; [|by destruct (Hnotin _ _ H1)].
      destruct (Hin0 s Hi2) as (subs & Hsubs & Hin'). by apply (Ha i1 id l1 subs s).
    + by apply (Ha i1 i2 l1 l2 s).
Qed.

(** The subscribers after a publication to those of one task. *)
Lemma notified_lookup pm id subs p s sub :
  follows pm → pg_seedTaskSubjects pm !! id = Some subs → pg_subscribers pm !! s = Some sub →
  NotifySubscribers p subs (pg_subscribers pm) !! s = Some (if decide (s ∈ subs) then Notify p sub else sub).
Proof.
  intros Hf Hsubs Hs. unfold NotifySubscribers. case_decide as Hin.
  - rewrite foldl_alter_in by (done || by eapply fo_nodup). by rewrite Hs.
  - by rewrite foldl_alter_notin.
Qed.

Lemma piece_follows now id p pm : follows pm → follows (PublishPiece now id p pm).1.
Proof.
  intros Hf. pose proof Hf as [Ht Hnd Hs Ha]. unfold PublishPiece, tm_UpdateProgress.
  set (heap := match _ with Some subs => NotifySubscribers p subs (pg_subscribers pm) | None => _ end).
  assert (∀ id' subs s sub, pg_seedTaskSubjects pm !! id' = Some subs → s ∈ subs → pg_subscribers pm !! s = Some sub →
    heap !! s = Some (if decide (id' = id) then Notify p sub else sub)) as Hheap.
  { intros id' subs s sub Hsubs Hin Hsub. unfold heap. destruct (pg_seedTaskSubjects pm !! id) as [subs0|] eqn:Hs0.
    - rewrite (notified_lookup pm id subs0 p s sub Hf Hs0 Hsub).
      destruct (decide (id' = id)) as [->|Hne]; [rewrite decide_True by congruence; done|].
      rewrite decide_False; [done|]. intros Hin0. apply Hne. by apply (Ha id' id subs subs0 s).
    - rewrite decide_False by congruence. done. }
  destruct (tm_taskStore (pg_taskManager pm) !! id) as [r|] eqn:Hr; cbn [fst].
  - split; cbn [pg_taskManager pg_seedTaskSubjects pg_subscribers]; [|done| |done].
    + intros id' r' Hr'. exact (fo_tasks_upd (λ t, set_st_Pieces (<[sp_PieceNum p := p]> (st_Pieces t)) t) r _ (λ t, eq_refl)
        Ht id' r' Hr').
    + intros id' subs s Hsubs Hin. destruct (Hs id' subs s Hsubs Hin) as (sub & r' & Hsub & Hop & Hr' & Hp).
      eexists _, r'. split; [by eapply Hheap|]. split; [by case_decide|]. split; [done|].
      destruct (Ht id r Hr) as (t & Hh & _). unfold touchTask, getRef. simpl. rewrite lookup_alter.
      destruct (decide (id' = id)) as [->|Hne].
      * assert (r' = r) as -> by congruence. rewrite decide_True by done. rewrite Hh. simpl.
        rewrite piecesOf_Notify, <-Hp. unfold getRef. by rewrite Hh.
      * rewrite decide_False; [done|]. intros <-. apply Hne. by eapply follows_refs.
  - split; cbn [pg_taskManager pg_seedTaskSubjects pg_subscribers]; [done|done| |done].
    intros id' subs s Hsubs Hin. destruct (Hs id' subs s Hsubs Hin) as (sub & r' & Hsub & Hop & Hr' & Hp).
    exists sub, r'. split; [|done]. rewrite (Hheap id' subs s sub Hsubs Hin Hsub). rewrite decide_False by congruence. done.
Qed.

(** An update of a task leaves the pieces alone. *)
Lemma tm_Update_keeps now id u tm tm' err : tm_Update now id (Some u) tm = (tm', err) →
  tm_taskStore tm' = tm_taskStore tm ∧
  ∀ r t, tm_heap tm !! r = Some t → ∃ t', tm_heap tm' !! r = Some t' ∧ st_ID t' = st_ID t ∧ st_Pieces t' = st_Pieces t.
Proof.
  unfold tm_Update, updateTask. intros He.
  destruct (IsBlank (st_CdnStatus u)); [injection He as <- _; eauto 10|].
  destruct (tm_taskStore tm !! id) as [r|] eqn:Hr; [|injection He as <- _; eauto 10].
  injection He as <- _. split; [done|]. intros r' t Ht. simpl. rewrite lookup_alter. destruct (applyUpdate_keeps u t).
  case_decide; subst; [|eauto 10]. rewrite Ht. eauto 10.
Qed.

Lemma getRef_keeps tm tm' r :
  (∀ r t, tm_heap tm !! r = Some t → ∃ t', tm_heap tm' !! r = Some t' ∧ st_ID t' = st_ID t ∧ st_Pieces t' = st_Pieces t) →
  is_Some (tm_heap tm !! r) → st_Pieces (getRef tm' r) = st_Pieces (getRef tm r).
Proof.
  intros Hk [t Ht]. destruct (Hk r t Ht) as (t' & Ht' & _ & Hp). unfold getRef. by rewrite Ht, Ht'.
Qed.

(** The tasks may change as long as their pieces do not. *)
Lemma set_tasks_follows tm pm :
  follows pm → tm_taskStore tm = tm_taskStore (pg_taskManager pm) →
  (∀ r t, tm_heap (pg_taskManager pm) !! r = Some t →
     ∃ t', tm_heap tm !! r = Some t' ∧ st_ID t' = st_ID t ∧ st_Pieces t' = st_Pieces t) →
  follows (set_pg_taskManager tm pm).
Proof.
  intros [Ht Hnd Hs Ha] Hst Hk. split; cbn [pg_taskManager set_pg_taskManager pg_seedTaskSubjects pg_subscribers]; [|done| |done].
  - intros id r Hr. rewrite Hst in Hr. destruct (Ht id r Hr) as (t & Hh & Hi). destruct (Hk r t Hh) as (t' & Hh' & Hi' & _).
    exists t'. split; [done|congruence].
  - intros id subs s Hsubs Hin. destruct (Hs id subs s Hsubs Hin) as (sub & r & Hsub & Hop & Hr & Hp).
    exists sub, r. rewrite Hst. split_and!; [done..|]. rewrite <-Hp. apply getRef_keeps; [done|].
    destruct (Ht id r Hr) as (t & Hh & _). by exists t.
Qed.

Lemma task_follows now id u pm : follows pm → follows (PublishTask now id (Some u) pm).1.
Proof.
  intros Hf. unfold PublishTask. destruct (tm_Update now id (Some u) (pg_taskManager pm)) as [tm err] eqn:Hu.
  destruct (tm_Update_keeps _ _ _ _ _ _ Hu) as [Hst Hk]. pose proof (set_tasks_follows tm pm Hf Hst Hk) as Hf1.
  destruct err; [done|]. destruct (pg_seedTaskSubjects pm !! id) as [subs0|] eqn:Hs0; [|done]. cbn [fst].
  destruct Hf1 as [Ht Hnd Hs Ha]. split; cbn [pg_taskManager pg_seedTaskSubjects pg_subscribers]; [done|..].
  - intros id' subs [_ Hsubs]%lookup_delete_Some. by eapply Hnd.
  - intros id' subs s [Hne Hsubs]%lookup_delete_Some Hin. destruct (Hs id' subs s Hsubs Hin) as (sub & r & Hsub & Hrest).
    exists sub, r. split; [|done]. unfold RemoveAllSubscribers. rewrite foldl_alter_notin; [done|]. intros Hin0.
    apply Hne. symmetry. by apply (Ha id' id subs subs0 s).
  - intros i1 i2 l1 l2 s [_ H1]%lookup_delete_Some [_ H2]%lookup_delete_Some. by apply Ha.
Qed.

Lemma runOp_follows pm op : follows pm → follows (runOp pm op).
Proof. destruct op; [apply watch_follows|apply piece_follows|apply task_follows]. Qed.

(** The pieces filed under different numbers. *)
Lemma values_filed m l : keyed m → NoDup (sp_PieceNum <$> (values m ++ l)) → values (foldl filed m l) ≡ₚ values m ++ l.
Proof.
  revert m. induction l as [|p l IH]; intros m Hk Hnd; simpl; [by rewrite app_nil_r|].
  assert (m !! sp_PieceNum p = None) as Hp.
  { destruct (m !! sp_PieceNum p) as [q|] eqn:Hq; [|done]. exfalso. rewrite fmap_app in Hnd.
    apply NoDup_app in Hnd as (_ & Hno & _). apply (Hno (sp_PieceNum p)); [|by left].
    apply list_elem_of_fmap. exists q. pose proof (Hk _ _ Hq) as Hn. split; [done|]. apply elem_of_values; [done|]. by rewrite Hn. }
  assert (values (filed m p) ≡ₚ p :: values m) as Hv by (by apply values_insert).
  rewrite IH.
  - rewrite Hv. solve_Permutation.
  - unfold filed. intros n q [[<- <-]|[_ Hq]]%lookup_insert_Some; [done|by apply Hk].
  - rewrite Hv. rewrite fmap_app in *. simpl in *. rewrite <-Permutation_middle in Hnd. done.
Qed.

(** ** The watchers *)

(** C17: After any watches and publications on any tasks, when the end of a task
    is published each of its subscribers is closed with a history that amounts
    to the pieces of the task; so a watcher whose request has not ended when
    its channel is closed has been sent exactly the pieces of the task, each
    once, whatever its goroutine did meanwhile, if the pieces have distinct
    numbers.  (Registrations and collections of tasks are not among the steps.) *)
Theorem watchers_complete ops pm0 now id update pm subs s :
  follows pm0 → (PublishTask now id (Some update) (foldl runOp pm0 ops)) = (pm, None) →
  pg_seedTaskSubjects (foldl runOp pm0 ops) !! id = Some subs → s ∈ subs →
  ∃ sub r, pg_subscribers pm !! s = Some sub ∧ sb_closed sub = true ∧
    tm_taskStore (pg_taskManager pm) !! id = Some r ∧ piecesOf sub = st_Pieces (getRef (pg_taskManager pm) r) ∧
    ∀ su, keyed (sb_pieces sub) → NoDup (sp_PieceNum <$> (values (sb_pieces sub) ++ sb_notified sub)) →
      rtc sub_step (newSub (sb_pieces sub) (sb_notified sub)) su → su_loop su = LExited → su_ctxDone su = false →
      su_received su ++ su_pieceChan su ≡ₚ values (st_Pieces (getRef (pg_taskManager pm) r)).
Proof.
  intros Hf0 Hpub Hsubs Hin.
  assert (follows (foldl runOp pm0 ops)) as Hf by (apply foldl_invariant; [intros; by apply runOp_follows|done]).
  destruct (fo_subs _ Hf id subs s Hsubs Hin) as (sub & r & Hsub & _ & Hr & Hp). unfold PublishTask in Hpub.
  destruct (tm_Update now id (Some update) _) as [tm err] eqn:Hu. destruct (tm_Update_keeps _ _ _ _ _ _ Hu) as [Hst Hk].
  destruct err; [done|]. rewrite Hsubs in Hpub. injection Hpub as <-.
  assert (piecesOf (sub_Close sub) = st_Pieces (getRef tm r)) as Hpieces.
  { rewrite (getRef_keeps _ tm r Hk); [by rewrite Hp|]. destruct (fo_tasks _ Hf id r Hr) as (t & Hh & _). by exists t. }
  exists (sub_Close sub), r. cbn [pg_taskManager pg_subscribers]. split_and!.
  - unfold RemoveAllSubscribers. rewrite foldl_alter_in by (done || by eapply (fo_nodup _ Hf)). by rewrite Hsub.
  - done.
  - by rewrite Hst.
  - done.
  - intros su Hkey Hnd Hrun Hl Hx. rewrite <-Hpieces. unfold piecesOf. rewrite values_filed by done.
    destruct (sub_reach_inv _ _ su Hkey Hnd Hrun) as [Hall _ _ Hcl Hdo _ Hex]. destruct (Hex Hl Hx) as [Hd Hpe].
    rewrite <-Hall. unfold everywhere. rewrite Hpe, Hcl by auto. unfold values. rewrite map_to_list_empty. simpl.
    by rewrite app_nil_r.
Qed.

Definition demoWatched : SeedTask :=
  mkSeedTask "abcdef" "http://source/file" "http://source/file" 8 0 4 StatusRunning 2 "" "" "" "" "" "" None ∅.

Definition demoWatchedPm : ProgressManager :=
  mkProgressManager (mkTaskManager {[ 1%positive := demoWatched ]} {[ "abcdef" := 1%positive ]} ∅ ∅) ∅ ∅.

Lemma watchers_complete_witness :
  let ops := [OpPiece 1 "abcdef" (demoPiece 0); OpWatch 2 "abcdef"; OpPiece 3 "abcdef" (demoPiece 1)] in
  let update := set_st_Status StatusSuccess demoWatched in
  ∃ sub r, pg_subscribers (PublishTask 4 "abcdef" (Some update) (foldl runOp demoWatchedPm ops)).1 !! 1%positive = Some sub ∧
    piecesOf sub = st_Pieces (getRef (pg_taskManager (PublishTask 4 "abcdef" (Some update) (foldl runOp demoWatchedPm ops)).1) r).
Proof.
  intros ops update.
  destruct (watchers_complete ops demoWatchedPm 4 "abcdef" update
    (PublishTask 4 "abcdef" (Some update) (foldl runOp demoWatchedPm ops)).1 [1%positive] 1%positive)
    as (sub & r & Hsub & _ & _ & Hp & _).
  - split; [|done..]. intros id r Hr. unfold demoWatchedPm in Hr. simpl in Hr.
    apply lookup_singleton_Some in Hr as [<- <-]. by exists demoWatched.
  - vm_compute. reflexivity.
  - vm_compute. reflexivity.
  - left.
  - exists sub, r. exact (conj Hsub Hp).
Defined.
