(* ===== verification/CdnService.v ===== *)
(** * CdnService: cdn/supervisor/service.go and cdn/rpcserver/rpcserver.go

    The registration of a seed task, with the locks it takes by task, and the
    two calls of the RPC server: the stream of the pieces of a task and the
    list of its pieces.  A call that has to wait for a lock has no result
    ([None]).  [triggerCdnSyncAction] is also taken apart into the accesses of
    calls that overlap.  The goroutine that triggers the download is a task in
    [sv_triggered]; CdnManager.v runs it. *)

From S2P Require Import Prelude Text Ranges World KeyMutex LocalStorage SeedTask CdnTask CdnStorage CdnProgress.
From Stdlib Require Import Ascii.
From stdpp Require Import options.
Local Open Scope Z_scope.

Record Service := mkService {
  sv_progress : ProgressManager;
  sv_locks : gmap string RWMutex;        (* synclock, by task ID *)
  sv_triggered : list taskRef;
}.

Inductive ServiceError :=
  | ErrTask (e : TaskError)
  | errResourcesLacked.

(** Where a call of [triggerCdnSyncAction] is, for calls that overlap. *)
Inductive TriggerPC :=
  | TgGet                                   (* at [taskManager.Get] *)
  | TgRLock (seedTask : taskRef)            (* at [synclock.Lock(taskID, true)] *)
  | TgSpace (seedTask : taskRef)            (* at [TryFreeSpace] *)
  | TgCheck (seedTask : taskRef)            (* at the first [IsFrozen] *)
  | TgRUnlock (seedTask : taskRef) (frozen : bool)
  | TgLock (seedTask : taskRef)             (* at [synclock.Lock(seedTask.ID, false)] *)
  | TgRecheck (seedTask : taskRef)          (* at the second [IsFrozen] *)
  | TgStart (seedTask : taskRef)            (* at [StartTrigger] *)
  | TgUnlock (seedTask : taskRef)           (* at the deferred [synclock.UnLock] *)
  | TgEnd (err : option ServiceError).

Definition sv_tasks (sv : Service) : TaskManager := pg_taskManager (sv_progress sv).
Definition set_sv_tasks (tm : TaskManager) (sv : Service) : Service :=
  mkService (set_pg_taskManager tm (sv_progress sv)) (sv_locks sv) (sv_triggered sv).
Definition set_sv_progress (pm : ProgressManager) (sv : Service) : Service :=
  mkService pm (sv_locks sv) (sv_triggered sv).

(** [synclock.Lock] and [synclock.UnLock] *)
Definition synclock_Lock (key : string) (rLock : bool) (sv : Service) : option Service :=
  m ← RWMutex_lock rLock (default newRWMutex (sv_locks sv !! key));
  Some (mkService (sv_progress sv) (<[key := m]> (sv_locks sv)) (sv_triggered sv)).

Definition synclock_UnLock (key : string) (rLock : bool) (sv : Service) : option Service :=
  m ← RWMutex_unlock rLock (default newRWMutex (sv_locks sv !! key));
  Some (mkService (sv_progress sv) (<[key := m]> (sv_locks sv)) (sv_triggered sv)).

(** ** service.go *)

Section Service.
Context (config : TaskConfig) (now : Z) (GetContentLength : SourceRequest → SourceError + Z)
  (TryFreeSpace : Z → CdnError + bool).

(** [StartTrigger], and the goroutine that runs the download. *)
Definition startDownload (seedTask : taskRef) (sv : Service) : Service :=
  let sv := set_sv_tasks (updTask StartTrigger seedTask (sv_tasks sv)) sv in
  mkService (sv_progress sv) (sv_locks sv) (sv_triggered sv ++ [seedTask]).

(** The second half of [triggerCdnSyncAction], under the write lock. *)
Definition startTriggerLocked (seedTask : taskRef) (sv : Service) : Service :=
  if negb (IsFrozen (getRef (sv_tasks sv) seedTask)) then sv else startDownload seedTask sv.

(** Whether the storage cannot make room for the resource; an error of
    [TryFreeSpace] is only logged. *)
Definition lacksSpace (seedTask : SeedTask) : bool :=
  (0 <? st_SourceFileLength seedTask) &&
  match TryFreeSpace (st_SourceFileLength seedTask) with inl _ => false | inr ok => negb ok end.

Definition triggerCdnSyncAction (taskID : string) (sv : Service) : option (Service * option ServiceError) :=
  match tm_Get now taskID (sv_tasks sv) with
  | (tm, inl e) => Some (set_sv_tasks tm sv, Some (ErrTask e))
  | (tm, inr r) =>
      let sv := set_sv_tasks tm sv in
      sv ← synclock_Lock taskID true sv;
      let seedTask := getRef (sv_tasks sv) r in
      if lacksSpace seedTask then Some (sv, Some errResourcesLacked)
      else
        sv ← synclock_UnLock (st_ID seedTask) true sv;
        if negb (IsFrozen seedTask) then Some (sv, None)
        else
          sv ← synclock_Lock (st_ID seedTask) false sv;
          let sv := startTriggerLocked r sv in
          sv ← synclock_UnLock (st_ID seedTask) false sv;
          Some (sv, None)
  end.

(** One access of a call that others overlap: to the task, to its lock, or to the
    storage.  A call that waits for a lock cannot move. *)
Definition triggerStep (taskID : string) (pc : TriggerPC) (sv : Service) : option (Service * TriggerPC) :=
  let task r := getRef (sv_tasks sv) r in
  match pc with
  | TgGet =>
      match tm_Get now taskID (sv_tasks sv) with
      | (tm, inl e) => Some (set_sv_tasks tm sv, TgEnd (Some (ErrTask e)))
      | (tm, inr r) => Some (set_sv_tasks tm sv, TgRLock r)
      end
  | TgRLock r => sv ← synclock_Lock taskID true sv; Some (sv, TgSpace r)
  | TgSpace r => Some (sv, if lacksSpace (task r) then TgEnd (Some errResourcesLacked) else TgCheck r)
  | TgCheck r => Some (sv, TgRUnlock r (IsFrozen (task r)))
  | TgRUnlock r frozen =>
      sv ← synclock_UnLock (st_ID (task r)) true sv; Some (sv, if frozen then TgLock r else TgEnd None)
  | TgLock r => sv ← synclock_Lock (st_ID (task r)) false sv; Some (sv, TgRecheck r)
  | TgRecheck r => Some (sv, if negb (IsFrozen (task r)) then TgUnlock r else TgStart r)
  | TgStart r => Some (startDownload r sv, TgUnlock r)
  | TgUnlock r => sv ← synclock_UnLock (st_ID (task r)) false sv; Some (sv, TgEnd None)
  | TgEnd _ => None
  end.

(** A call that nobody overlaps. *)
Fixpoint runTrigger (fuel : nat) (taskID : string) (pc : TriggerPC) (sv : Service)
    : option (Service * option ServiceError) :=
  match pc, fuel with
  | TgEnd err, _ => Some (sv, err)
  | _, O => None
  | _, S fuel => '(sv, pc) ← triggerStep taskID pc sv; runTrigger fuel taskID pc sv
  end.

Definition RegisterSeedTask (registerTask : taskRef) (sv : Service)
    : option (Service * (ServiceError + (taskRef * Watch))) :=
  let id := st_ID (getRef (sv_tasks sv) registerTask) in
  match AddOrUpdate config now GetContentLength registerTask (sv_tasks sv) with
  | (tm, inl e) => Some (set_sv_tasks tm sv, inl (ErrTask e))
  | (tm, inr seedTask) =>
      '(sv, err) ← triggerCdnSyncAction id (set_sv_tasks tm sv);
      match err with
      | Some e => Some (sv, inl e)
      | None =>
          let '(pm, r) := WatchSeedProgress now id (sv_progress sv) in
          Some (set_sv_progress pm sv,
                match r with inl e => inl (ErrTask e) | inr watch => inr (seedTask, watch) end)
      end
  end.

Definition byPieceNum (a b : SeedPiece) : Prop := sp_PieceNum a <= sp_PieceNum b.
#[export] Instance byPieceNum_dec : RelDecision byPieceNum.
Proof. intros a b. unfold byPieceNum. apply _. Defined.

Definition GetSeedPieces (taskID : string) (tm : TaskManager) : TaskManager * (TaskError + list SeedPiece) :=
  match tm_GetProgress now taskID tm with
  | (tm, inl e) => (tm, inl e)
  | (tm, inr pieceMap) => (tm, inr (merge_sort byPieceNum (map_to_list pieceMap).*2))
  end.

Definition GetSeedTask (taskID : string) (tm : TaskManager) : TaskManager * (TaskError + taskRef) :=
  tm_Get now taskID tm.

(** ** rpcserver.go *)

Definition pieceInfoOf (piece : SeedPiece) : PieceInfo :=
  mkPieceInfo (int32 (sp_PieceNum piece)) (StartIndex (sp_PieceRange piece)) (sp_PieceLen piece)
    (sp_PieceMd5 piece) (StartIndex (sp_OriginRange piece)) (sp_PieceStyle piece).

(** The answer to a failed registration. *)
Definition registerCode (e : ServiceError) : Code :=
  match e with errResourcesLacked => Code_ResourceLacked | ErrTask _ => Code_CDNTaskRegistryFail end.

(** The seed of a piece that came over the channel. *)
Definition seedOf (peerID hostID : string) (registeredTask : SeedTask) (piece : SeedPiece) : PieceSeed :=
  mkPieceSeed peerID hostID (Some (pieceInfoOf piece)) false (st_SourceFileLength registeredTask)
    (st_TotalPieceCount registeredTask).

(** [ObtainSeeds] behind the end of its channel: the last seed or an error.  The
    error is wrapped before it is looked at, so that a task that is not found
    is not told from the rest. *)
Definition finishSeeds (peerID hostID taskID : string) (tm : TaskManager) : TaskManager * (Code + PieceSeed) :=
  match GetSeedTask taskID tm with
  | (tm, inl _) => (tm, inl Code_CDNError)
  | (tm, inr r) =>
      let seedTask := getRef tm r in
      (tm, if negb (IsSuccess seedTask) then inl Code_CDNTaskDownloadFail
           else inr (mkPieceSeed peerID hostID None true (st_SourceFileLength seedTask) (st_TotalPieceCount seedTask)))
  end.

(** [ObtainSeeds] for the pieces its channel delivered before it was closed, each
    with the registered task as it was then. *)
Definition ObtainSeeds (peerID hostID taskID : string) (pieces : list (SeedTask * SeedPiece))
    (tm : TaskManager) : TaskManager * list PieceSeed * option Code :=
  let seeds := (λ x, seedOf peerID hostID x.1 x.2) <$> pieces in
  match finishSeeds peerID hostID taskID tm with
  | (tm, inl code) => (tm, seeds, Some code)
  | (tm, inr last) => (tm, seeds ++ [last], None)
  end.

(** The loop of [GetPieceTasks] over the sorted pieces. *)
Fixpoint selectPieces (startNum limit count : Z) (pieces : list SeedPiece) : list PieceInfo :=
  match pieces with
  | [] => []
  | piece :: pieces =>
      if (startNum <=? sp_PieceNum piece) && ((count <? limit) || (limit <=? 0))
      then pieceInfoOf piece :: selectPieces startNum limit (uint32 (count + 1)) pieces
      else selectPieces startNum limit count pieces
  end.

Definition GetPieceTasks (taskID dstPid : string) (startNum limit : Z) (tm : TaskManager)
    : TaskManager * (Code + PiecePacket) :=
  match GetSeedTask taskID tm with
  | (tm, inl errTaskNotFound) => (tm, inl Code_CDNTaskNotFound)
  | (tm, inl _) => (tm, inl Code_CDNError)
  | (tm, inr r) =>
      let seedTask := getRef tm r in
      if IsError seedTask then (tm, inl Code_CDNTaskDownloadFail)
      else
        match GetSeedPieces taskID tm with
        | (tm, inl _) => (tm, inl Code_CDNError)
        | (tm, inr pieces) =>
            (tm, inr (mkPiecePacket taskID dstPid (st_TotalPieceCount seedTask) (st_SourceFileLength seedTask)
                        (st_PieceMd5Sign seedTask) (selectPieces startNum limit 0 pieces)))
        end
  end.

End Service.
