(* ===== verification/CdnServiceProperties.v ===== *)
(** * CdnServiceProperties: the service of the CDN

    The locks of a registration, that overlapping calls trigger a download once,
    and the pages of the piece list. *)

From S2P Require Import Prelude Text Ranges World KeyMutex LocalStorage SeedTask CdnTask CdnStorage CdnProgress CdnService CdnTaskProperties.
From stdpp Require Import options.
Local Open Scope Z_scope.

(** ** The pages of the list of pieces *)

Definition fromNum (startNum : Z) (pieces : list SeedPiece) : list SeedPiece :=
  filter (λ p, startNum <= sp_PieceNum p) pieces.

(** C36: The loop of [GetPieceTasks] selects what the request says: the first
    [limit] of the pieces from [startNum] on, all of them without a limit. *)
Theorem selectPieces_equiv startNum limit pieces :
  0 <= limit < 2 ^ 32 →
  selectPieces startNum limit 0 pieces =
    pieceInfoOf <$> (if decide (limit = 0) then fromNum startNum pieces
                     else take (Z.to_nat limit) (fromNum startNum pieces)).
Proof.
  intros Hlim.
  assert (∀ count, (limit = 0 ∨ 0 <= count <= limit) → selectPieces startNum limit count pieces =
    pieceInfoOf <$> (if decide (limit = 0) then fromNum startNum pieces
                     else take (Z.to_nat (limit - count)) (fromNum startNum pieces))) as Hgen.
  { unfold fromNum. induction pieces as [|p pieces IH]; intros count Hc; simpl.
    { rewrite filter_nil. case_decide; by rewrite ?take_nil. }
    rewrite filter_cons. destruct (Z.leb_spec startNum (sp_PieceNum p)) as [Hp|Hp].
    - rewrite (decide_True (P := startNum <= sp_PieceNum p)) by done. simpl andb.
      destruct (decide (limit = 0)) as [->|Hl].
      + rewrite orb_true_r, IH by auto. by destruct (decide (0 = 0)).
      + rewrite (proj2 (Z.leb_gt limit 0)), orb_false_r by lia.
        destruct (Z.ltb_spec count limit) as [Hcl|Hcl]; [|rewrite IH by lia;
          by replace (Z.to_nat (limit - count)) with 0%nat by lia].
        rewrite uint32_small, IH by lia.
        replace (Z.to_nat (limit - count)) with (S (Z.to_nat (limit - (count + 1)))) by lia. done.
    - rewrite (decide_False (P := startNum <= sp_PieceNum p)) by lia. simpl andb. by apply IH. }
  rewrite Hgen by lia. by rewrite Z.sub_0_r.
Qed.

Definition demoSeedPiece (n : Z) : SeedPiece := mkSeedPiece n "md5" (mkByteRange 0 3) (mkByteRange 0 3) 4 0.

Lemma selectPieces_equiv_witness :
  selectPieces 1 2 0 (demoSeedPiece <$> [0; 1; 2; 3; 4]) = pieceInfoOf <$> (demoSeedPiece <$> [1; 2]).
Proof. rewrite (selectPieces_equiv 1 2) by lia. reflexivity. Defined.

(** ** The locks of a trigger *)

(** The task [t] is registered at [r] under its ID. *)
Definition registered_at (sv : Service) (r : taskRef) (t : SeedTask) : Prop :=
  tm_taskStore (sv_tasks sv) !! st_ID t = Some r ∧ tm_heap (sv_tasks sv) !! r = Some t.

Definition lockOf (sv : Service) (key : string) : RWMutex := default newRWMutex (sv_locks sv !! key).

Definition withLock (key : string) (m : RWMutex) (sv : Service) : Service :=
  mkService (sv_progress sv) (<[key := m]> (sv_locks sv)) (sv_triggered sv).

Lemma lockOf_withLock key m sv : lockOf (withLock key m sv) key = m.
Proof. unfold lockOf. simpl. by rewrite lookup_insert_eq. Qed.

Lemma withLock_withLock key m m' sv : withLock key m (withLock key m' sv) = withLock key m sv.
Proof. unfold withLock. simpl. by rewrite insert_insert_eq. Qed.

Lemma synclock_Lock_spec key rLock sv m m' : lockOf sv key = m → RWMutex_lock rLock m = m' →
  synclock_Lock key rLock sv = (λ x, withLock key x sv) <$> m'.
Proof. intros <- <-. unfold synclock_Lock, lockOf. by destruct (RWMutex_lock _ _). Qed.

Lemma synclock_UnLock_spec key rLock sv m m' : lockOf sv key = m → RWMutex_unlock rLock m = m' →
  synclock_UnLock key rLock sv = (λ x, withLock key x sv) <$> m'.
Proof. intros <- <-. unfold synclock_UnLock, lockOf. by destruct (RWMutex_unlock _ _). Qed.

Section Trigger.
Context (r : taskRef) (t : SeedTask).
#[local] Set Default Proof Using "Type".

Definition lockedBy (n : nat) (sv : Service) : Prop := lockOf sv (st_ID t) = mkRWMutex false n.

(** A registered task whose read lock somebody keeps. *)
Definition leaked (sv : Service) : Prop :=
  registered_at sv r t ∧ ∃ n, lockedBy (S n) sv.

(** The state after a trigger: [n] readers are left, and the task is touched. *)
Definition afterTrigger (now : Z) (n : nat) (sv : Service) : Service :=
  withLock (st_ID t) (mkRWMutex false n) (set_sv_tasks (touchTask now (st_ID t) (sv_tasks sv)) sv).

Lemma trigger_spec now try sv n : registered_at sv r t → lockedBy n sv →
  triggerCdnSyncAction now try (st_ID t) sv =
    if lacksSpace try t then Some (afterTrigger now (S n) sv, Some errResourcesLacked)
    else if negb (IsFrozen t) then Some (afterTrigger now n sv, None)
    else if decide (n = 0%nat) then Some (startTriggerLocked r (afterTrigger now 0 sv), None) else None.
Proof.
  intros [Hs Hh] Hl. unfold triggerCdnSyncAction, tm_Get. rewrite Hs.
  assert (∀ sv', tm_heap (sv_tasks sv') = tm_heap (sv_tasks sv) → getRef (sv_tasks sv') r = t) as Hget.
  { intros sv' E. unfold getRef. by rewrite E, Hh. }
  rewrite (synclock_Lock_spec _ true (set_sv_tasks _ sv) (mkRWMutex false n) _ Hl eq_refl). simpl.
  rewrite !Hget by done. destruct (lacksSpace try t); [done|].
  rewrite (synclock_UnLock_spec _ true _ _ _ (lockOf_withLock _ _ _) eq_refl). simpl. rewrite withLock_withLock.
  destruct (IsFrozen t) eqn:Hf; simpl; [|done].
  rewrite (synclock_Lock_spec _ false _ _ _ (lockOf_withLock _ _ _) eq_refl).
  unfold RWMutex_lock. simpl. destruct (decide (n = 0%nat)) as [->|]; simpl; [|done].
  unfold startTriggerLocked, startDownload. rewrite !Hget by done. rewrite Hf. simpl.
  set (sv' := mkService _ _ _).
  assert (lockOf sv' (st_ID t) = mkRWMutex true 0) as Hl' by (unfold lockOf; simpl; by rewrite !lookup_insert_eq).
  rewrite (synclock_UnLock_spec _ false sv' _ _ Hl' eq_refl). unfold withLock. simpl. by rewrite !insert_insert_eq.
Qed.

Lemma afterTrigger_registered now n sv : registered_at sv r t → registered_at (afterTrigger now n sv) r t.
Proof. done. Qed.

Lemma afterTrigger_locked now n sv : lockedBy n (afterTrigger now n sv).
Proof. unfold lockedBy, lockOf. simpl. by rewrite lookup_insert_eq. Qed.

(** A later call of [triggerCdnSyncAction] for the task. *)
Definition laterTrigger (sv sv' : Service) : Prop :=
  ∃ now try err, triggerCdnSyncAction now try (st_ID t) sv = Some (sv', err).

Lemma leaked_kept sv sv' : IsFrozen t = true → leaked sv → rtc laterTrigger sv sv' →
  leaked sv' ∧ sv_triggered sv' = sv_triggered sv.
Proof.
  intros Hf Hl Hrtc. induction Hrtc as [|sv sv1 sv' (now & try & err & E) _ IH]; [done|].
  destruct Hl as [Hr [n Hl]]. rewrite (trigger_spec now try sv (S n) Hr Hl), Hf in E. simpl in E.
  destruct (lacksSpace try t); simplify_eq.
  destruct IH as [IH1 IH2]; [|done].
  split; [done|]. exists (S n). apply afterTrigger_locked.
Qed.

(** A trigger that lacks the space returns with its read lock held: whatever
    calls follow, the download of the task never starts, and once there is
    space the call waits forever for the write lock. *)
Theorem trigger_leaks_lock now try sv :
  IsFrozen t = true → registered_at sv r t → lockedBy 0 sv → lacksSpace try t = true →
  ∃ sv1, triggerCdnSyncAction now try (st_ID t) sv = Some (sv1, Some errResourcesLacked) ∧
    ∀ sv2, rtc laterTrigger sv1 sv2 →
      sv_triggered sv2 = sv_triggered sv ∧
      ∀ now' try', lacksSpace try' t = false → triggerCdnSyncAction now' try' (st_ID t) sv2 = None.
Proof.
  intros Hf Hr Hl Hlack. exists (afterTrigger now 1 sv).
  rewrite (trigger_spec now try sv 0 Hr Hl), Hlack. split; [done|]. intros sv2 Hrtc.
  destruct (leaked_kept (afterTrigger now 1 sv) sv2 Hf) as [[Hr2 [n Hn]] Htr]; [|done|].
  { split; [done|]. exists 0%nat. apply afterTrigger_locked. }
  split; [exact Htr|]. intros now' try' Hspace. by rewrite (trigger_spec now' try' sv2 (S n) Hr2 Hn), Hspace, Hf.
Qed.

End Trigger.

(** ** Triggers that overlap *)

Lemma runTrigger_S now try fuel taskID pc sv :
  runTrigger now try (S fuel) taskID pc sv =
    match pc with
    | TgEnd err => Some (sv, err)
    | _ => '(sv, pc) ← triggerStep now try taskID pc sv; runTrigger now try fuel taskID pc sv
    end.
Proof. by destruct pc. Qed.

Lemma runTrigger_End now try fuel taskID err sv :
  runTrigger now try fuel taskID (TgEnd err) sv = Some (sv, err).
Proof. by destruct fuel. Qed.

Ltac trigger_next :=
  repeat (progress (rewrite ?runTrigger_End, ?runTrigger_S; cbn [triggerStep mbind option_bind])); try done.

Lemma synclock_Lock_tasks key rLock sv sv' : synclock_Lock key rLock sv = Some sv' → sv_tasks sv' = sv_tasks sv.
Proof. unfold synclock_Lock. destruct (RWMutex_lock _ _); [|done]. by intros [= <-]. Qed.

Lemma synclock_UnLock_tasks key rLock sv sv' : synclock_UnLock key rLock sv = Some sv' → sv_tasks sv' = sv_tasks sv.
Proof. unfold synclock_UnLock. destruct (RWMutex_unlock _ _); [|done]. by intros [= <-]. Qed.

Lemma startDownload_ID r sv : st_ID (getRef (sv_tasks (startDownload r sv)) r) = st_ID (getRef (sv_tasks sv) r).
Proof.
  unfold startDownload, sv_tasks, getRef. simpl. rewrite lookup_alter_eq. by destruct (tm_heap _ !! r).
Qed.

(** A call that runs alone does what [triggerCdnSyncAction] does. *)
Lemma trigger_alone now try taskID sv :
  runTrigger now try 9 taskID TgGet sv = triggerCdnSyncAction now try taskID sv.
Proof.
  unfold triggerCdnSyncAction, startTriggerLocked. trigger_next.
  destruct (tm_Get now taskID (sv_tasks sv)) as [tm [e|r]]; trigger_next.
  destruct (synclock_Lock taskID true _) as [sv1|] eqn:H1; trigger_next.
  destruct (lacksSpace _ _); trigger_next.
  destruct (synclock_UnLock _ true sv1) as [sv2|] eqn:H2; trigger_next.
  apply synclock_UnLock_tasks in H2. destruct (IsFrozen _) eqn:Hf; simpl negb; cbv iota; trigger_next.
  rewrite H2. destruct (synclock_Lock _ false sv2) as [sv3|] eqn:H3; trigger_next.
  apply synclock_Lock_tasks in H3. rewrite H3, H2, Hf. simpl negb. cbv iota. trigger_next.
  rewrite startDownload_ID, H3, H2.
  destruct (synclock_UnLock _ false _); trigger_next.
Qed.

(** Calls for one task come and move in any order; [TryFreeSpace] and the clock
    answer each of them anew. *)
Inductive trigger_system (taskID : string) : Service * gmap nat TriggerPC → Service * gmap nat TriggerPC → Prop :=
  | trigger_comes sv cs i :
      cs !! i = None → trigger_system taskID (sv, cs) (sv, <[i := TgGet]> cs)
  | trigger_moves sv cs i pc now try sv' pc' :
      cs !! i = Some pc → triggerStep now try taskID pc sv = Some (sv', pc') →
      trigger_system taskID (sv, cs) (sv', <[i := pc']> cs).

(** Who holds the lock; a call that lacked the space keeps it. *)
Definition tgReads (pc : TriggerPC) : bool :=
  match pc with
  | TgSpace _ | TgCheck _ | TgRUnlock _ _ | TgEnd (Some errResourcesLacked) => true
  | _ => false
  end.
Definition tgWrites (pc : TriggerPC) : bool :=
  match pc with TgRecheck _ | TgStart _ | TgUnlock _ => true | _ => false end.

(** Where a call cannot be before the download has started, and behind it. *)
Definition tgEarly (pc : TriggerPC) : bool :=
  match pc with TgRUnlock _ false | TgUnlock _ | TgEnd None => false | _ => true end.
Definition tgLate (pc : TriggerPC) : bool :=
  match pc with TgStart _ => false | _ => true end.

Definition tgNil (pc : TriggerPC) : bool :=
  match pc with TgEnd None => true | _ => false end.

Section Overlap.
Context (r : taskRef) (t : SeedTask) (base : list taskRef).
Context (Hfrozen : IsFrozen t = true).
#[local] Set Default Proof Using "Type*".
Implicit Types (sv : Service) (cs : gmap nat TriggerPC).

Definition tgRef (pc : TriggerPC) : Prop :=
  match pc with
  | TgGet => True
  | TgRLock x | TgSpace x | TgCheck x | TgRUnlock x _ | TgLock x | TgRecheck x | TgStart x | TgUnlock x => x = r
  | TgEnd err => err = None ∨ err = Some errResourcesLacked
  end.

Definition tgPhase sv cs : Prop :=
  (sv_triggered sv = base ∧ tm_heap (sv_tasks sv) !! r = Some t ∧
    ∀ i pc, cs !! i = Some pc → tgEarly pc = true) ∨
  (sv_triggered sv = base ++ [r] ∧ tm_heap (sv_tasks sv) !! r = Some (StartTrigger t) ∧
    ∀ i pc, cs !! i = Some pc → tgLate pc = true).

Record tgInv sv cs : Prop := {
  tg_store : tm_taskStore (sv_tasks sv) !! st_ID t = Some r;
  tg_refs : ∀ i pc, cs !! i = Some pc → tgRef pc;
  tg_lock : heldBy (lockOf sv (st_ID t)) (cnt tgWrites cs) (cnt tgReads cs);
  tg_phase : tgPhase sv cs;
}.

Lemma tg_task sv cs : tgInv sv cs → ∃ t', getRef (sv_tasks sv) r = t' ∧ st_ID t' = st_ID t.
Proof.
  intros [_ _ _ [(_ & Hh & _)|(_ & Hh & _)]]; unfold getRef; rewrite Hh; eauto.
Qed.

(** A move that starts nothing. *)
Lemma tg_move sv cs i pc sv' pc' :
  tgInv sv cs → cs !! i = Some pc → tgRef pc' →
  tm_taskStore (sv_tasks sv') = tm_taskStore (sv_tasks sv) → tm_heap (sv_tasks sv') = tm_heap (sv_tasks sv) →
  sv_triggered sv' = sv_triggered sv →
  (tm_heap (sv_tasks sv) !! r = Some t → tgEarly pc = true → tgEarly pc' = true) →
  (tm_heap (sv_tasks sv) !! r = Some (StartTrigger t) → tgLate pc = true → tgLate pc' = true) →
  heldBy (lockOf sv' (st_ID t)) (cnt tgWrites (<[i := pc']> cs)) (cnt tgReads (<[i := pc']> cs)) →
  tgInv sv' (<[i := pc']> cs).
Proof.
  intros [Hs Hr _ Hp] Hi Href Es Eh Et Hearly Hlate Hl. split; [by rewrite Es| |done|].
  - intros j q [[<- <-]|[_ Hj]]%lookup_insert_Some; [done|by eapply Hr].
  - destruct Hp as [(Ht & Hh & Hq)|(Ht & Hh & Hq)]; [left|right]; rewrite Et, Eh;
      (split; [done|]; split; [done|]); intros j q [[<- <-]|[_ Hj]]%lookup_insert_Some; eauto.
Qed.

Lemma tg_counts (P : TriggerPC → bool) cs i pc pc' :
  cs !! i = Some pc → P pc = P pc' → cnt P (<[i := pc']> cs) = cnt P cs.
Proof. intros Hi HP. pose proof (cnt_update P cs i pc pc' Hi). rewrite HP in *. destruct (P pc'); lia. Qed.

(** A move that leaves the locks alone. *)
Lemma tg_quiet sv cs i pc sv' pc' :
  tgInv sv cs → cs !! i = Some pc → tgRef pc' →
  tm_taskStore (sv_tasks sv') = tm_taskStore (sv_tasks sv) → tm_heap (sv_tasks sv') = tm_heap (sv_tasks sv) →
  sv_triggered sv' = sv_triggered sv → sv_locks sv' = sv_locks sv →
  (tm_heap (sv_tasks sv) !! r = Some t → tgEarly pc = true → tgEarly pc' = true) →
  (tm_heap (sv_tasks sv) !! r = Some (StartTrigger t) → tgLate pc = true → tgLate pc' = true) →
  tgWrites pc = tgWrites pc' → tgReads pc = tgReads pc' →
  tgInv sv' (<[i := pc']> cs).
Proof.
  intros Hinv Hi Href Es Eh Et El He Hl HW HR. eapply tg_move; try done.
  rewrite (tg_counts tgWrites cs i pc pc'), (tg_counts tgReads cs i pc pc') by done.
  unfold lockOf. rewrite El. apply Hinv.
Qed.

(** A move that takes or gives back the lock. *)
Lemma tg_locks sv cs i pc m pc' :
  tgInv sv cs → cs !! i = Some pc → tgRef pc' → tgEarly pc' = true ∨ tgEarly pc = false → tgLate pc' = true →
  heldBy m (cnt tgWrites (<[i := pc']> cs)) (cnt tgReads (<[i := pc']> cs)) →
  tgInv (withLock (st_ID t) m sv) (<[i := pc']> cs).
Proof.
  intros Hinv Hi Href He Hl Hm. eapply tg_move; try done.
  - intros _ Hpc. destruct He; congruence.
  - by rewrite lockOf_withLock.
Qed.

Lemma tg_lock_step sv cs i pc pc' rLock sv' :
  tgInv sv cs → cs !! i = Some pc → tgRef pc' → tgEarly pc' = true → tgLate pc' = true →
  tgWrites pc = false → tgReads pc = false → tgWrites pc' = negb rLock → tgReads pc' = rLock →
  synclock_Lock (st_ID t) rLock sv = Some sv' → tgInv sv' (<[i := pc']> cs).
Proof.
  intros Hinv Hi Href He Hl W R W' R' Hlk.
  rewrite (synclock_Lock_spec (st_ID t) rLock sv _ _ eq_refl eq_refl) in Hlk.
  destruct (RWMutex_lock _ _) as [m|] eqn:Hm; [|done]. injection Hlk as <-.
  apply (tg_locks sv cs i pc); [done..|by left|done|].
  pose proof (lock_heldBy _ _ _ _ _ Hm (tg_lock _ _ Hinv)) as Hh.
  pose proof (cnt_update tgWrites cs i pc pc' Hi) as U. pose proof (cnt_update tgReads cs i pc pc' Hi) as V.
  rewrite W, W' in U. rewrite R, R' in V. rewrite !Nat.add_0_r in U, V. rewrite U, V. by destruct rLock.
Qed.

(** A call that holds the lock can give it back. *)
Lemma tg_unlock sv cs i pc pc' (rLock : bool) :
  tgInv sv cs → cs !! i = Some pc → tgWrites pc = negb rLock → tgReads pc = rLock →
  tgWrites pc' = false → tgReads pc' = false →
  ∃ m, synclock_UnLock (st_ID t) rLock sv = Some (withLock (st_ID t) m sv) ∧
    heldBy m (cnt tgWrites (<[i := pc']> cs)) (cnt tgReads (<[i := pc']> cs)).
Proof.
  intros Hinv Hi W R W' R'.
  pose proof (cnt_update tgWrites cs i pc pc' Hi) as U. pose proof (cnt_update tgReads cs i pc pc' Hi) as V.
  rewrite W, W', Nat.add_0_r in U. rewrite R, R', Nat.add_0_r in V.
  pose proof (tg_lock _ _ Hinv) as Hh. rewrite <-U, <-V in Hh.
  destruct (unlock_heldBy rLock (lockOf sv (st_ID t)) (cnt tgWrites (<[i := pc']> cs))
    (cnt tgReads (<[i := pc']> cs))) as (m & Hm & Hh'); [by destruct rLock|].
  exists m. split; [|done]. by rewrite (synclock_UnLock_spec (st_ID t) rLock sv _ _ eq_refl Hm).
Qed.

(** Only one call at a time is between the second test and the start. *)
Lemma tg_start sv cs i :
  tgInv sv cs → cs !! i = Some (TgStart r) → tgInv (startDownload r sv) (<[i := TgUnlock r]> cs).
Proof.
  intros Hinv Hi. pose proof Hinv as [Hs Hr Hl Hp].
  destruct Hp as [(Ht & Hh & Hq)|(Ht & Hh & Hq)]; [|by specialize (Hq i _ Hi)].
  split; [done| | |].
  - intros j q [[<- <-]|[_ Hj]]%lookup_insert_Some; [done|by eapply Hr].
  - rewrite (tg_counts tgWrites cs i (TgStart r) (TgUnlock r)), (tg_counts tgReads cs i (TgStart r) (TgUnlock r)) by done.
    exact Hl.
  - right. unfold startDownload, sv_tasks. simpl. fold (sv_tasks sv). rewrite Ht. split; [done|].
    split; [by rewrite lookup_alter_eq, Hh|].
    intros j q [[<- <-]|[Hne Hj]]%lookup_insert_Some; [done|]. destruct q as [| | | | | | |x| |]; try done.
    pose proof (cnt_two tgWrites cs i j _ _ Hne Hi Hj eq_refl eq_refl) as H2.
    destruct Hl as (_ & Hw & _). destruct (rw_writer _); lia.
Qed.

Lemma tg_step sv cs i pc now try sv' pc' :
  tgInv sv cs → cs !! i = Some pc → triggerStep now try (st_ID t) pc sv = Some (sv', pc') →
  tgInv sv' (<[i := pc']> cs).
Proof.
  intros Hinv Hi Hstep. pose proof (tg_refs _ _ Hinv i pc Hi) as Href.
  destruct (tg_task sv cs Hinv) as (t' & Ht' & Hid).
  assert (∀ h, tm_heap (sv_tasks sv) !! r = Some h → t' = h) as Hth by (intros h Hh; unfold getRef in Ht'; by rewrite Hh in Ht').
  destruct pc as [|x|x|x|x frozen|x|x|x|x|err]; simpl in Href, Hstep; try subst x; rewrite ?Ht', ?Hid in Hstep.
  - unfold tm_Get in Hstep. rewrite (tg_store _ _ Hinv) in Hstep. injection Hstep as <- <-.
    by eapply tg_quiet.
  - destruct (synclock_Lock (st_ID t) true sv) as [sv1|] eqn:Hl; [|done]. injection Hstep as <- <-.
    by apply (tg_lock_step sv cs i _ _ true sv1 Hinv Hi).
  - injection Hstep as <- <-. destruct (lacksSpace try t'); eapply tg_quiet; try done. by right.
  - injection Hstep as <- <-. eapply tg_quiet; try done. intros Hh%Hth _. by rewrite Hh, Hfrozen.
  - destruct (tg_unlock sv cs i _ (if frozen then TgLock r else TgEnd None) true Hinv Hi) as (m & Hu & Hm);
      [done|done|by destruct frozen..|].
    rewrite Hu in Hstep. injection Hstep as <- <-.
    apply (tg_locks sv cs i _ m _ Hinv Hi); [|destruct frozen; auto|by destruct frozen|done].
    destruct frozen; [done|by left].
  - destruct (synclock_Lock (st_ID t) false sv) as [sv1|] eqn:Hl; [|done]. injection Hstep as <- <-.
    by apply (tg_lock_step sv cs i _ _ false sv1 Hinv Hi).
  - injection Hstep as <- <-. destruct (IsFrozen t') eqn:Hf; simpl; eapply tg_quiet; try done.
    + intros Hh%Hth. by rewrite Hh in Hf.
    + intros Hh%Hth. congruence.
  - injection Hstep as <- <-. by apply tg_start.
  - destruct (tg_unlock sv cs i _ (TgEnd None) false Hinv Hi) as (m & Hu & Hm); [done..|].
    rewrite Hu in Hstep. injection Hstep as <- <-.
    apply (tg_locks sv cs i _ m _ Hinv Hi); [by left|by right|done|done].
  - done.
Qed.

Lemma tg_come sv cs i : tgInv sv cs → cs !! i = None → tgInv sv (<[i := TgGet]> cs).
Proof.
  intros [Hs Hr Hl Hp] Hi. split; [done| | |].
  - intros j q [[<- <-]|[_ Hj]]%lookup_insert_Some; [done|by eapply Hr].
  - by rewrite !cnt_insert by done.
  - destruct Hp as [(Ht & Hh & Hq)|(Ht & Hh & Hq)]; [left|right]; (split; [done|]; split; [done|]);
      intros j q [[<- <-]|[_ Hj]]%lookup_insert_Some; eauto.
Qed.

Lemma tg_reachable sv cs sv' cs' :
  tgInv sv cs → rtc (trigger_system (st_ID t)) (sv, cs) (sv', cs') → tgInv sv' cs'.
Proof.
  intros Hinv Hrtc. remember (sv, cs) as s eqn:Es. remember (sv', cs') as s' eqn:Es'.
  revert sv cs Hinv Es. induction Hrtc as [s|s s1 s2 Hst _ IH]; intros sv cs Hinv Es; [congruence|].
  subst s. inversion Hst; subst; (eapply IH; [done| |done]); eauto using tg_come, tg_step.
Qed.

(** A call that can move. *)
Definition moves sv (pc : TriggerPC) : Prop := ∃ sv' pc', triggerStep 0 (λ _, inr true) (st_ID t) pc sv = Some (sv', pc').

Lemma tg_holder_moves sv cs i pc :
  tgInv sv cs → cs !! i = Some pc → pc ≠ TgEnd (Some errResourcesLacked) →
  tgWrites pc || tgReads pc = true → moves sv pc.
Proof.
  intros Hinv Hi Hne Hh. pose proof (tg_refs _ _ Hinv i pc Hi) as Href.
  destruct (tg_task sv cs Hinv) as (t' & Ht' & Hid). unfold moves.
  destruct pc as [|x|x|x|x frozen|x|x|x|x|[[]|]]; try done; simpl in Href |- *; subst x; rewrite ?Ht', ?Hid; eauto.
  - destruct (tg_unlock sv cs i _ TgGet true Hinv Hi) as (m & -> & _); [done..|]. simpl. eauto.
  - destruct (tg_unlock sv cs i _ TgGet false Hinv Hi) as (m & -> & _); [done..|]. simpl. eauto.
Qed.

Lemma tg_progress sv cs i pc :
  tgInv sv cs → (∀ j, cs !! j ≠ Some (TgEnd (Some errResourcesLacked))) →
  cs !! i = Some pc → pc ≠ TgEnd None → ∃ j pc', cs !! j = Some pc' ∧ moves sv pc'.
Proof.
  intros Hinv Hlack Hi Hne.
  assert (∀ P : TriggerPC → bool, (∀ pc, P pc = true → tgWrites pc || tgReads pc = true) → (0 < cnt P cs)%nat →
    ∃ j pc', cs !! j = Some pc' ∧ moves sv pc') as Hholder.
  { intros P HP (j & q & Hj & Hq)%cnt_witness. exists j, q. split; [done|].
    eapply tg_holder_moves; [done|done| |by apply HP]. intros ->. by apply (Hlack j). }
  destruct (decide (0 < cnt tgWrites cs)%nat) as [Hw|Hw]; [apply (Hholder tgWrites); [|done]; by intros ? ->|].
  destruct (decide (0 < cnt tgReads cs)%nat) as [Hr|Hr].
  { apply (Hholder tgReads); [|done]. intros q ->. apply orb_true_r. }
  pose proof (tg_lock _ _ Hinv) as (Hn & Hwr & _).
  assert (lockOf sv (st_ID t) = mkRWMutex false 0) as Hlock.
  { destruct (lockOf sv (st_ID t)) as [wr n]; simpl in *. destruct wr; [lia|]. f_equal. lia. }
  assert (∀ rLock, is_Some (synclock_Lock (st_ID t) rLock sv)) as Hfree.
  { intros rLock. rewrite (synclock_Lock_spec _ rLock sv _ _ Hlock eq_refl). by destruct rLock. }
  exists i, pc. split; [done|]. pose proof (tg_refs _ _ Hinv i pc Hi) as Href.
  destruct (tg_task sv cs Hinv) as (t' & Ht' & Hid). destruct (Hfree true) as [s1 H1], (Hfree false) as [s2 H2].
  unfold moves. destruct pc as [|x|x|x|x frozen|x|x|x|x|err]; simpl in Href |- *; try subst x;
    rewrite ?Ht', ?Hid, ?H1, ?H2; simpl; eauto.
  - unfold tm_Get. rewrite (tg_store _ _ Hinv). eauto.
  - pose proof (cnt_pos tgReads cs i _ Hi eq_refl). lia.
  - pose proof (cnt_pos tgWrites cs i _ Hi eq_refl). lia.
  - destruct Href as [->| ->]; [done|by destruct (Hlack i)].
Qed.

End Overlap.

(** C28: Any number of overlapping calls of [triggerCdnSyncAction] for a frozen
    task, whose accesses to the task, its lock and the storage interleave in any
    way, start at most one download.  Once it is started the task has the status
    running and no pieces; before, no call has returned without an error.  And
    as long as no call lacked the space, some call can move unless all have
    returned without an error, and then the lock is free.  (The task stays
    registered, and the download it starts has not ended.) *)
Theorem trigger_once r t sv sv' cs :
  IsFrozen t = true → registered_at sv r t → lockedBy t 0 sv →
  rtc (trigger_system (st_ID t)) (sv, ∅) (sv', cs) →
  (sv_triggered sv' = sv_triggered sv ∧ getRef (sv_tasks sv') r = t ∧ (∀ i, cs !! i ≠ Some (TgEnd None)) ∨
   sv_triggered sv' = sv_triggered sv ++ [r] ∧
   st_CdnStatus (getRef (sv_tasks sv') r) = StatusRunning ∧ st_Pieces (getRef (sv_tasks sv') r) = ∅) ∧
  ((∀ i, cs !! i ≠ Some (TgEnd (Some errResourcesLacked))) →
   (∀ i pc, cs !! i = Some pc → pc = TgEnd None) ∧ lockedBy t 0 sv' ∨
   ∃ i pc sv2 pc2, cs !! i = Some pc ∧ triggerStep 0 (λ _, inr true) (st_ID t) pc sv' = Some (sv2, pc2)).
Proof.
  intros Hf [Hs Hh] Hl Hrtc.
  assert (tgInv r t (sv_triggered sv) sv ∅) as H0.
  { split; [done|done| |by left]. rewrite Hl. rewrite !cnt_none by done. done. }
  pose proof (tg_reachable r t _ Hf sv ∅ sv' cs H0 Hrtc) as Hinv. split.
  - destruct (tg_phase _ _ _ _ _ Hinv) as [(Ht & Hh' & Hq)|(Ht & Hh' & _)]; unfold getRef; rewrite Hh'; [left|by right].
    split_and!; [done..|]. intros i Hi. by specialize (Hq i _ Hi).
  - intros Hlack. destruct (decide (map_Forall (λ _ pc, tgNil pc = true) cs)) as [Hnil|Hno].
    + assert (∀ i pc, cs !! i = Some pc → pc = TgEnd None) as Hall.
      { intros i pc Hi. specialize (Hnil i pc Hi). by destruct pc as [| | | | | | | | |[]]. }
      left. split; [exact Hall|]. unfold lockedBy. pose proof (tg_lock _ _ _ _ _ Hinv) as (Hn & Hw & _).
      rewrite !cnt_none in Hn, Hw by (intros i c Hc; by rewrite (Hall i c Hc)).
      destruct (lockOf sv' (st_ID t)) as [wr n]; simpl in *. destruct wr; [lia|]. by rewrite Hn.
    + right. apply map_not_Forall in Hno as (i & pc & Hi & Hne); [|apply _].
      destruct (tg_progress r t _ Hf sv' cs i pc Hinv Hlack Hi) as (j & q & Hj & sv2 & q2 & Hm);
        [by intros ->|].
      by exists j, q, sv2, q2.
Qed.

(** ** Witnesses *)

Definition knownTask : SeedTask := set_st_Source 10 None 4 3 demoSeedTask.
Definition demoService : Service :=
  mkService (mkProgressManager (mkTaskManager {[ 1%positive := knownTask ]} {[ "task"%string := 1%positive ]} ∅ ∅) ∅ ∅) ∅ [].

Lemma trigger_leaks_lock_witness :
  ∃ sv1, triggerCdnSyncAction 0 (λ _, inr false) "task" demoService = Some (sv1, Some errResourcesLacked) ∧
    triggerCdnSyncAction 1 (λ _, inr true) "task" sv1 = None.
Proof.
  destruct (trigger_leaks_lock 1 knownTask 0 (λ _, inr false) demoService eq_refl
    (conj eq_refl eq_refl) eq_refl eq_refl) as (sv1 & E & H).
  exists sv1. split; [exact E|]. exact (proj2 (H sv1 (rtc_refl _ _)) 1 (λ _, inr true) eq_refl).
Defined.

(** The calls that move one after the other under a schedule. *)
Definition runCall (s : Service * gmap nat TriggerPC) (i : nat) : Service * gmap nat TriggerPC :=
  match s.2 !! i with
  | None => (s.1, <[i := TgGet]> s.2)
  | Some pc => match triggerStep 0 (λ _, inr true) "task" pc s.1 with
               | Some (sv, pc) => (sv, <[i := pc]> s.2)
               | None => s
               end
  end.

Lemma runCalls_reachable sched s : rtc (trigger_system "task") s (foldl runCall s sched).
Proof.
  revert s. induction sched as [|i sched IH]; intros [sv cs]; [apply rtc_refl|]. simpl. unfold runCall at 2. simpl.
  destruct (cs !! i) as [pc|] eqn:Hi; [destruct (triggerStep _ _ _ pc sv) as [[sv' pc']|] eqn:Hs|].
  - eapply rtc_l; [by eapply trigger_moves|apply IH].
  - apply IH.
  - eapply rtc_l; [by apply trigger_comes|apply IH].
Qed.

Definition demoCalls : Service * gmap nat TriggerPC :=
  foldl runCall (demoService, ∅) [0; 1; 0; 1; 0; 1; 0; 1; 0; 1; 0; 1; 0; 0; 0; 0; 1; 1; 1]%nat.

Lemma demoCalls_reachable : rtc (trigger_system "task") (demoService, ∅) (demoCalls.1, demoCalls.2).
Proof. rewrite <-surjective_pairing. apply runCalls_reachable. Qed.

Lemma demoCalls_ended : demoCalls.2 !! 0%nat = Some (TgEnd None) ∧ demoCalls.2 !! 1%nat = Some (TgEnd None).
Proof. split; vm_compute; reflexivity. Qed.

(** Two calls both pass the first test; the second one to get the write lock
    starts nothing. *)
Lemma trigger_once_witness :
  demoCalls.2 !! 0%nat = Some (TgEnd None) ∧ demoCalls.2 !! 1%nat = Some (TgEnd None) ∧
  sv_triggered demoCalls.1 = [1%positive].
Proof.
  destruct demoCalls_ended as [H0 H1]. split; [exact H0|]. split; [exact H1|].
  destruct (trigger_once 1 knownTask demoService demoCalls.1 demoCalls.2 eq_refl (conj eq_refl eq_refl) eq_refl
    demoCalls_reachable) as [[(_ & _ & Hno)|(Ht & _)] _]; [destruct (Hno 0%nat H0)|].
  rewrite Ht. reflexivity.
Defined.
