(* ===== verification/CdnWriter.v ===== *)
(** * CdnWriter: cdn/supervisor/cdn/cache_writer.go and reporter.go

    The download written to the storage: one goroutine reads the body piece by
    piece and sends each piece over a channel without a buffer, a pool of
    goroutines writes them.  The pool is a state and an executable step for
    each choice of the goroutine that runs next; a schedule is a list of
    choices.  A step is one critical section: a read of the source, a transfer
    over the channel, one call of the storage or of the progress manager. *)

From S2P Require Import Prelude Text Ranges World FileSystem StoreDriver CdnTask CdnStorage Digests CdnMetadata.
From S2P Require Import CdnDetector CdnProgress.
From Stdlib Require Import Ascii.
From stdpp Require Import options.
Local Open Scope Z_scope.

Record piece := mkPiece {
  pc_taskID : string;
  pc_pieceNum : Z;       (* uint32 *)
  pc_pieceSize : Z;      (* uint32 *)
  pc_pieceContent : list byte;
}.

Record downloadMetadata := mkDownloadMetadata {
  dm_backSourceLength : Z;
  dm_realCdnFileLength : Z;
  dm_realSourceFileLength : Z;
  dm_totalPieceCount : Z;
  dm_pieceMd5Sign : string;
  dm_sourceRealDigest : string;
}.

(** The managers that the CDN manager holds. *)
Record Cdn (St : Type) := mkCdn { cdn_store : St; cdn_progress : ProgressManager }.
Arguments mkCdn {_} _ _.
Arguments cdn_store {_} _.
Arguments cdn_progress {_} _.

(** ** reporter.go *)

Definition convertPieceMeta2SeedPiece (record : PieceMetaRecord) : SeedPiece :=
  mkSeedPiece (pmr_PieceNum record) (pmr_Md5 record) (pmr_Range record) (pmr_OriginRange record)
    (pmr_PieceLen record) (pmr_PieceStyle record).

Definition reportPieceMetaRecord {St} (now : Z) (taskID : string) (record : PieceMetaRecord) (c : Cdn St)
    : Cdn St * option CdnError :=
  let '(pm, err) := PublishPiece now taskID (convertPieceMeta2SeedPiece record) (cdn_progress c) in
  (mkCdn (cdn_store c) pm, ErrProgress <$> err).

Fixpoint reportDetectResult {St} (now : Z) (taskID : string) (records : list PieceMetaRecord) (c : Cdn St)
    : Cdn St * option CdnError :=
  match records with
  | [] => (c, None)
  | record :: records =>
      match reportPieceMetaRecord now taskID record c with
      | (c, Some e) => (c, Some e)
      | (c, None) => reportDetectResult now taskID records c
      end
  end.

(** ** The goroutines *)

Inductive Reader :=
  | RLoop
  | RSend (p : piece) (last : bool)     (* in [jobCh <- p]; whether the loop ends behind it *)
  | RClosed                             (* the channel is closed, in [g.Wait] *)
  | RFailed (e : CdnError).             (* the channel is closed, returned *)

Inductive Worker :=
  | WIdle                               (* in [range pieceCh] *)
  | WTook (p : piece)
  | WAppend (r : PieceMetaRecord)
  | WReport (r : PieceMetaRecord)
  | WDone (err : option CdnError).

Record Pool (St : Type) := mkPool {
  pl_cdn : Cdn St;
  pl_body : Stream DriverError;
  pl_digest : option Hash;
  pl_curPieceNum : Z;          (* int32 *)
  pl_backSourceLength : Z;     (* int64 *)
  pl_reader : Reader;
  pl_workers : list Worker;
  pl_err : option CdnError;    (* the first error of the group, which ends its context *)
}.
Arguments mkPool {_} _ _ _ _ _ _ _ _.
Arguments pl_cdn {_} _.
Arguments pl_body {_} _.
Arguments pl_digest {_} _.
Arguments pl_curPieceNum {_} _.
Arguments pl_backSourceLength {_} _.
Arguments pl_reader {_} _.
Arguments pl_workers {_} _.
Arguments pl_err {_} _.

Inductive Choice :=
  | CRead
  | CSend (i : nat)
  | CWork (i : nat) (now : Z).

Definition isSome {A} (o : option A) : bool := match o with Some _ => true | None => false end.

(** [calculateRoutineCount] *)
Definition calculateRoutineCount (remainingFileLength pieceSize writerRoutineLimit : Z) : Z :=
  if (remainingFileLength <? 0) || (pieceSize <=? 0) then writerRoutineLimit
  else if remainingFileLength =? 0 then 1
  else
    let tmpSize := Z.quot (int64 (remainingFileLength + int32 (pieceSize - 1))) pieceSize in
    let tmpSize := if tmpSize =? 0 then 1 else tmpSize in
    if tmpSize <? writerRoutineLimit then tmpSize else writerRoutineLimit.

Section Writer.
Context {St : Type} `{CdnStore St} `{Hashes}.

Definition set_reader (cdn : Cdn St) (reader : Reader) (workers : list Worker) (pl : Pool St) : Pool St :=
  mkPool cdn (pl_body pl) (pl_digest pl) (pl_curPieceNum pl) (pl_backSourceLength pl) reader workers (pl_err pl).

(** One turn of the loop of [doWrite], up to the send. *)
Definition readStep (seedTask : SeedTask) (pl : Pool St) : Pool St :=
  if isSome (pl_err pl) then set_reader (pl_cdn pl) RClosed (pl_workers pl) pl
  else
    let '(bs, rest, err) := copyLimited (pl_body pl) (st_PieceSize seedTask) in
    let next len reader :=
      mkPool (pl_cdn pl) rest (hash_Write bs <$> pl_digest pl) (pl_curPieceNum pl) len reader
        (pl_workers pl) (pl_err pl) in
    match err with
    | Some e => next (pl_backSourceLength pl) (RFailed (ErrReadSource e))
    | None =>
        let n := Z.of_nat (length bs) in
        if n =? 0 then next (pl_backSourceLength pl) RClosed
        else next (int64 (pl_backSourceLength pl + n))
               (RSend (mkPiece (st_ID seedTask) (uint32 (pl_curPieceNum pl)) (uint32 (st_PieceSize seedTask)) bs)
                  (n <? st_PieceSize seedTask))
    end.

(** The piece handed over to worker [i]. *)
Definition sendStep (i : nat) (pl : Pool St) : option (Pool St) :=
  match pl_reader pl, pl_workers pl !! i with
  | RSend p last, Some WIdle =>
      Some (mkPool (pl_cdn pl) (pl_body pl) (pl_digest pl) (int32 (pl_curPieceNum pl + 1))
              (pl_backSourceLength pl) (if last then RClosed else RLoop)
              (<[i := WTook p]> (pl_workers pl)) (pl_err pl))
  | _, _ => None
  end.

Definition pieceRecord (p : piece) : PieceMetaRecord :=
  let pieceLen := Z.of_nat (length (pc_pieceContent p)) in
  let start := uint64 (pc_pieceNum p * pc_pieceSize p) in
  let range := mkByteRange start (uint64 (uint64 (start + uint64 pieceLen) - 1)) in
  mkPieceMetaRecord (pc_pieceNum p) (uint32 pieceLen) (Md5Bytes (pc_pieceContent p)) range range 0.

(** The function of the goroutine returns an error to its group. *)
Definition failWorker (cdn : Cdn St) (i : nat) (e : CdnError) (pl : Pool St) : Pool St :=
  mkPool cdn (pl_body pl) (pl_digest pl) (pl_curPieceNum pl) (pl_backSourceLength pl) (pl_reader pl)
    (<[i := WDone (Some e)]> (pl_workers pl)) (if isSome (pl_err pl) then pl_err pl else Some e).

(** Worker [i] with the result of a call. *)
Definition workerNext (i : nat) (next : Worker) (r : Cdn St * option CdnError) (pl : Pool St) : Pool St :=
  match r with
  | (cdn, Some e) => failWorker cdn i e pl
  | (cdn, None) => set_reader cdn (pl_reader pl) (<[i := next]> (pl_workers pl)) pl
  end.

Definition onStore (f : St → St * option CdnError) (c : Cdn St) : Cdn St * option CdnError :=
  let '(s, err) := f (cdn_store c) in (mkCdn s (cdn_progress c), err).

Definition workStep (taskID : string) (i : nat) (now : Z) (pl : Pool St) : option (Pool St) :=
  match pl_workers pl !! i with
  | Some WIdle =>
      match pl_reader pl with
      | RClosed | RFailed _ => Some (set_reader (pl_cdn pl) (pl_reader pl) (<[i := WDone None]> (pl_workers pl)) pl)
      | _ => None
      end
  | Some (WTook p) =>
      if isSome (pl_err pl) then Some (failWorker (pl_cdn pl) i ErrCancelled pl)
      else
        Some (workerNext i (WAppend (pieceRecord p))
                (onStore (WriteDownloadFile (pc_taskID p) (int64 (pc_pieceNum p * pc_pieceSize p))
                            (Z.of_nat (length (pc_pieceContent p))) (mkStream (pc_pieceContent p) None))
                   (pl_cdn pl)) pl)
  | Some (WAppend r) =>
      Some (workerNext i (WReport r) (onStore (appendPieceMetadata taskID r) (pl_cdn pl)) pl)
  | Some (WReport r) =>
      Some (workerNext i WIdle (reportPieceMetaRecord now taskID r (pl_cdn pl)) pl)
  | Some (WDone _) | None => None
  end.

Definition poolStep (seedTask : SeedTask) (c : Choice) (pl : Pool St) : option (Pool St) :=
  match c with
  | CRead => match pl_reader pl with RLoop => Some (readStep seedTask pl) | _ => None end
  | CSend i => sendStep i pl
  | CWork i now => workStep (st_ID seedTask) i now pl
  end.

Fixpoint runPool (seedTask : SeedTask) (sched : list Choice) (pl : Pool St) : option (Pool St) :=
  match sched with
  | [] => Some pl
  | c :: sched => pl' ← poolStep seedTask c pl; runPool seedTask sched pl'
  end.

Definition isDone (w : Worker) : bool := match w with WDone _ => true | _ => false end.

(** What [doWrite] returns, once it does. *)
Definition poolResult (pl : Pool St) : option (CdnError + (Z * Z)) :=
  match pl_reader pl with
  | RFailed e => Some (inl e)
  | RClosed =>
      if forallb isDone (pl_workers pl) then
        Some (match pl_err pl with
              | Some e => inl e
              | None => inr (pl_backSourceLength pl, pl_curPieceNum pl)
              end)
      else None
  | _ => None
  end.

Definition newPool (cdn : Cdn St) (seedTask : SeedTask) (body : Stream DriverError) (digest : option Hash)
    (breakPoint routineCount : Z) : Pool St :=
  mkPool cdn body digest (int32 (Z.quot breakPoint (st_PieceSize seedTask))) 0 RLoop
    (replicate (Z.to_nat routineCount) WIdle) None.

(** [doWrite] under a schedule: [None] while it has not returned.  The division
    of the break point panics for pieces without a size. *)
Definition doWrite (sched : list Choice) (seedTask : SeedTask) (body : Stream DriverError)
    (digest : option Hash) (routineCount breakPoint : Z) (cdn : Cdn St)
    : Outcome (option (Pool St * (CdnError + (Z * Z)))) :=
  if st_PieceSize seedTask =? 0 then Panic DivideByZero
  else
    Ok (pl ← runPool seedTask sched (newPool cdn seedTask body digest breakPoint routineCount);
        r ← poolResult pl;
        Some (pl, r)).

Definition startWriter (sched : list Choice) (seedTask : SeedTask) (body : Stream DriverError)
    (digest : option Hash) (digestType : option Algorithm) (breakPoint writerRoutineLimit : Z) (cdn : Cdn St)
    : Outcome (option (Cdn St * (CdnError + downloadMetadata))) :=
  let routineCount :=
    calculateRoutineCount (int64 (st_SourceFileLength seedTask - breakPoint)) (st_PieceSize seedTask)
      writerRoutineLimit in
  written ← doWrite sched seedTask body digest routineCount breakPoint cdn;
  Ok ('(pl, r) ← written;
      let cdn := pl_cdn pl in
      Some (cdn,
        match r with
        | inl e => inl e
        | inr (backSourceLength, totalPieceCount) =>
            match StatDownloadFile (st_ID seedTask) (cdn_store cdn) with
            | inl e => inl e
            | inr storageInfo =>
                match getPieceMd5Sign (st_ID seedTask) (cdn_store cdn) with
                | inl e => inl e
                | inr (sign, _) =>
                    inr (mkDownloadMetadata backSourceLength (si_Size storageInfo)
                           (int64 (breakPoint + backSourceLength)) totalPieceCount sign
                           (LimitReader_Digest (pl_digest pl) digestType))
                end
            end
        end)).

End Writer.
