(* ===== verification/CdnWriterProperties.v ===== *)
(** * CdnWriterProperties: the writer pool of the CDN

    For every interleaving of the reader and the writers: what is in the
    storage when [doWrite] returns, that it returns, and the schedules under
    which it never does. *)

From S2P Require Import Prelude Text Ranges World FileSystem StoreDriver CdnTask CdnStorage Digests CdnMetadata.
From S2P Require Import CdnDetector CdnProgress CdnWriter.
From Stdlib Require Import Ascii.
From stdpp Require Import options.
Local Open Scope Z_scope.

(** ** Helpers *)

Lemma framed_trans `{CdnStoreLaws St} id (s1 s2 s3 : St) : framed id s1 s2 → framed id s2 s3 → framed id s1 s3.
Proof. intros [_ H12] [H3 H23]. split; [done|]. intros id' f Hne Hid Hs. by apply H23, H12. Qed.

(** The tasks that are registered stay so while pieces are published. *)
Definition publishAll (id : string) (log : list (Z * SeedPiece)) (pm : ProgressManager) : ProgressManager :=
  foldl (λ pm x, (PublishPiece x.1 id x.2 pm).1) pm log.

Definition registered (id : string) (pm : ProgressManager) : Prop :=
  is_Some (tm_taskStore (pg_taskManager pm) !! id).

Lemma PublishPiece_registered now id p pm : registered id pm →
  (PublishPiece now id p pm).2 = None ∧ registered id (PublishPiece now id p pm).1.
Proof.
  intros [r Hr]. unfold PublishPiece, tm_UpdateProgress. rewrite Hr. split; [done|]. exists r. simpl. done.
Qed.

Lemma publishAll_registered id log pm : registered id pm → registered id (publishAll id log pm).
Proof.
  revert pm. induction log as [|x log IH]; intros pm Hr; [done|]. simpl. apply IH.
  by apply PublishPiece_registered.
Qed.

Lemma publishAll_snoc id log x pm :
  publishAll id (log ++ [x]) pm = (PublishPiece x.1 id x.2 (publishAll id log pm)).1.
Proof. unfold publishAll. by rewrite foldl_snoc. Qed.

(** The update of one element of a list, up to the order. *)
Lemma insert_Permutation {A} (l : list A) i x : l !! i = Some x →
  ∃ rest, l ≡ₚ x :: rest ∧ ∀ y, <[i := y]> l ≡ₚ y :: rest.
Proof.
  intros Hi. exists (take i l ++ drop (S i) l). pose proof (lookup_lt_Some _ _ _ Hi) as Hlt. split.
  - rewrite <-(take_drop_middle l i x Hi) at 1. by rewrite Permutation_middle.
  - intros y. rewrite insert_take_drop by done. by rewrite Permutation_middle.
Qed.

(** ** The pool when nothing fails *)

(** A writer by the index of its piece. *)
Inductive GWorker := GIdle | GTook (j : nat) | GAppend (j : nat) | GReport (j : nat) | GDone.

#[export] Instance GWorker_eq_dec : EqDecision GWorker.
Proof. solve_decision. Defined.

Section Pool.
Context {St : Type} `{CdnStoreLaws St} `{HashesLaws}.
Context (t : SeedTask) (rest : list byte) (k sz : nat) (s0 : St) (f0 : TaskFiles) (pm0 : ProgressManager)
  (d0 : option Hash).

Notation id := (st_ID t).
Notation len := (length rest).

Definition chunk (j : nat) : list byte := take sz (drop (j * sz) rest).
Definition pieceAt (j : nat) : piece := mkPiece id (Z.of_nat (k + j)) (Z.of_nat sz) (chunk j).
Definition recordAt (j : nat) : PieceMetaRecord := pieceRecord (pieceAt j).

(** The task, what is stored of it, and the bytes to come: pieces from number
    [k] on. *)
Record pool_pre : Prop := {
  pp_size : st_PieceSize t = Z.of_nat sz;
  pp_sz : (0 < sz)%nat ∧ Z.of_nat sz < 2 ^ 31;
  pp_fit : Z.of_nat (k * sz + len) < 2 ^ 62;
  pp_count : ∀ m, (m * sz ≤ len)%nat → Z.of_nat (k + m) < 2 ^ 31 - 1;
  pp_id : id_ok id;
  pp_inv : store_inv s0;
  pp_stores : stores s0 id f0;
  pp_closed : tf_closed f0 = true;
  pp_prefix : (k * sz ≤ length (tf_data f0) ≤ k * sz + len)%nat;
}.

Definition toWorker (w : GWorker) : Worker :=
  match w with
  | GIdle => WIdle
  | GTook j => WTook (pieceAt j)
  | GAppend j => WAppend (recordAt j)
  | GReport j => WReport (recordAt j)
  | GDone => WDone None
  end.

Definition inWork (w : GWorker) : option nat :=
  match w with GTook j | GAppend j | GReport j => Some j | _ => None end.
Definition written (w : GWorker) : option nat :=
  match w with GAppend j | GReport j => Some j | _ => None end.
Definition recorded (w : GWorker) : option nat := match w with GReport j => Some j | _ => None end.

Definition segment (j : nat) (data : list byte) : list byte := take (length (chunk j)) (drop ((k + j) * sz) data).

(** What the reader has done, [m] pieces being sent. *)
Definition reader_inv (m : nat) (pl : Pool St) : Prop :=
  let readBytes n := pl_body pl = mkStream (drop n rest) None ∧
    pl_backSourceLength pl = Z.of_nat (Nat.min n len) ∧ pl_digest pl = hash_Write (take n rest) <$> d0 in
  match pl_reader pl with
  | RLoop => (m * sz ≤ len)%nat ∧ readBytes (m * sz)%nat
  | RSend p last => (m * sz < len)%nat ∧ p = pieceAt m ∧ last = (Z.of_nat (length (chunk m)) <? Z.of_nat sz) ∧
      readBytes (S m * sz)%nat
  | RClosed => (len ≤ m * sz)%nat ∧ pl_backSourceLength pl = Z.of_nat len ∧
      pl_digest pl = hash_Write rest <$> d0
  | RFailed _ => False
  end.

Record pool_inv (pl : Pool St) (m : nat) (f : TaskFiles) (ws : list GWorker) (log : list (Z * nat)) : Prop := {
  pi_inv : store_inv (cdn_store (pl_cdn pl));
  pi_stores : stores (cdn_store (pl_cdn pl)) id f;
  pi_framed : framed id s0 (cdn_store (pl_cdn pl));
  pi_closed : tf_closed f = true;
  pi_meta : tf_meta f = tf_meta f0;
  pi_workers : pl_workers pl = toWorker <$> ws;
  pi_sent : omap inWork ws ++ log.*2 ≡ₚ seq 0 m;
  pi_below : ∀ j, (j < m)%nat → (j * sz < len)%nat;
  pi_records : ∃ rs, tf_records f = tf_records f0 ++ rs ∧ rs ≡ₚ recordAt <$> (omap recorded ws ++ log.*2);
  pi_written : ∀ j, j ∈ omap written ws ++ log.*2 → segment j (tf_data f) = chunk j ∧
    ((k + j) * sz + length (chunk j) ≤ length (tf_data f))%nat;
  pi_prefix : take (k * sz) (tf_data f) = take (k * sz) (tf_data f0);
  pi_length : (k * sz ≤ length (tf_data f) ≤ k * sz + len)%nat;
  pi_progress : cdn_progress (pl_cdn pl) =
    publishAll id ((λ x, (x.1, convertPieceMeta2SeedPiece (recordAt x.2))) <$> log) pm0;
  pi_cur : pl_curPieceNum pl = Z.of_nat (k + m);
  pi_reader : reader_inv m pl;
  pi_err : pl_err pl = None;
  pi_done : GDone ∈ ws → pl_reader pl = RClosed;
}.

#[local] Set Default Proof Using "All".

Context (Hpre : pool_pre).

Lemma chunk_length j : length (chunk j) = Nat.min sz (len - j * sz).
Proof. unfold chunk. rewrite length_take, length_drop. done. Qed.

Lemma Hsz : (0 < sz)%nat ∧ Z.of_nat sz < 2 ^ 31.
Proof. apply (pp_sz Hpre). Qed.

Lemma pieceAt_small j : (j * sz < len)%nat →
  uint32 (Z.of_nat (k + j)) = Z.of_nat (k + j) ∧ 0 <= Z.of_nat ((k + j) * sz) < 2 ^ 62.
Proof.
  intros Hj. pose proof (pp_count Hpre j ltac:(lia)). pose proof (pp_fit Hpre). split; [apply uint32_small; lia|]. nia.
Qed.

Lemma recordAt_eq j : (j * sz < len)%nat →
  recordAt j = let n := length (chunk j) in
    let range := mkByteRange (Z.of_nat ((k + j) * sz)) (Z.of_nat ((k + j) * sz + n) - 1) in
    mkPieceMetaRecord (Z.of_nat (k + j)) (Z.of_nat n) (Md5Bytes (chunk j)) range range 0.
Proof.
  intros Hj. destruct (pieceAt_small j Hj) as [_ Ho]. destruct Hsz. pose proof (pp_fit Hpre).
  unfold recordAt, pieceRecord, pieceAt. cbn [pc_pieceContent pc_pieceNum pc_pieceSize].
  pose proof (chunk_length j) as Hl. set (n := length (chunk j)) in *. cbv zeta.
  rewrite <-Nat2Z.inj_mul. rewrite (uint64_small (Z.of_nat ((k + j) * sz))) by lia.
  rewrite (uint64_small (Z.of_nat n)) by lia.
  rewrite (uint64_small (Z.of_nat ((k + j) * sz) + Z.of_nat n)) by nia.
  rewrite uint64_small by nia. rewrite uint32_small by lia.
  by replace (Z.of_nat ((k + j) * sz) + Z.of_nat n - 1) with (Z.of_nat ((k + j) * sz + n) - 1) by lia.
Qed.

Lemma recordAt_ok j : (j * sz < len)%nat → record_ok (recordAt j).
Proof.
  intros Hj. rewrite recordAt_eq by done. destruct (pieceAt_small j Hj) as [_ Ho]. destruct Hsz.
  pose proof (pp_fit Hpre). pose proof (pp_count Hpre j ltac:(lia)). pose proof (chunk_length j) as Hl. cbv zeta.
  set (n := length (chunk j)) in *.
  assert (strings_Contains ":" (Md5Bytes (chunk j)) = false ∧ strings_Contains "010" (Md5Bytes (chunk j)) = false)
    as [Hm1 Hm2] by (split; apply allHex_notIn; first [apply hexSum_hex | done]).
  unfold record_ok, range_ok. simpl. split_and!; first [done | nia].
Qed.

(** A step of the reader leaves the rest as it is. *)
Lemma pool_inv_reader pl pl' m f ws log :
  pool_inv pl m f ws log → pl_cdn pl' = pl_cdn pl → pl_workers pl' = pl_workers pl →
  pl_curPieceNum pl' = pl_curPieceNum pl → pl_err pl' = pl_err pl → pl_reader pl ≠ RClosed →
  reader_inv m pl' → pool_inv pl' m f ws log.
Proof.
  intros [] Hc Hw Hn He Hr Hr'. split; rewrite ?Hc, ?Hw, ?Hn, ?He; try done. intros Hd. by apply pi_done0 in Hd.
Qed.

Lemma readStep_inv pl m f ws log :
  pool_inv pl m f ws log → pl_reader pl = RLoop → pool_inv (readStep t pl) m f ws log.
Proof.
  intros Hi Hr. pose proof (pi_reader _ _ _ _ _ Hi) as Hri. unfold reader_inv in Hri. rewrite Hr in Hri.
  destruct Hri as (Hm & Hb & Hl & Hd). destruct Hsz as [Hs1 Hs2].
  assert (copyLimited (pl_body pl) (st_PieceSize t) = (chunk m, mkStream (drop (S m * sz) rest) None, None)) as Hcopy.
  { rewrite Hb, (pp_size Hpre). unfold copyLimited, chunk. simpl s_data. simpl s_err. rewrite Nat2Z.id, drop_drop.
    replace (m * sz + sz)%nat with (S m * sz)%nat by lia. by case_decide. }
  assert (hash_Write (chunk m) <$> pl_digest pl = hash_Write (take (S m * sz) rest) <$> d0) as Hdig.
  { rewrite Hd. destruct d0 as [h|]; [|done]. simpl. f_equal. unfold hash_Write. simpl. f_equal.
    rewrite <-(assoc_L (++)). f_equal. unfold chunk. rewrite take_take_drop. f_equal. lia. }
  pose proof (chunk_length m) as Hcl. unfold readStep. rewrite (pi_err _ _ _ _ _ Hi). simpl isSome. cbv iota.
  rewrite Hcopy. destruct (Z.eqb_spec (Z.of_nat (length (chunk m))) 0) as [Hz|Hz].
  - eapply pool_inv_reader; [exact Hi|done|done|done|symmetry; apply (pi_err _ _ _ _ _ Hi)|congruence|]. unfold reader_inv.
    cbn [pl_reader pl_body pl_backSourceLength pl_digest]. split; [lia|]. rewrite Hl. split; [lia|].
    rewrite Hdig. by rewrite take_ge by lia.
  - eapply pool_inv_reader; [exact Hi|done|done|done|symmetry; apply (pi_err _ _ _ _ _ Hi)|congruence|]. unfold reader_inv.
    cbn [pl_reader pl_body pl_backSourceLength pl_digest].
    rewrite (pi_cur _ _ _ _ _ Hi), (pp_size Hpre), (uint32_small (Z.of_nat sz)) by lia.
    destruct (pieceAt_small m) as [-> _]; [lia|]. pose proof (pp_fit Hpre).
    split; [lia|]. split; [done|]. split; [done|]. split; [done|]. split; [|done].
    rewrite Hl, int64_small by lia. lia.
Qed.

(** What a list of the writers says, when one of them changes. *)
Lemma omap_swap (g : GWorker → option nat) ws i w w' : ws !! i = Some w →
  ∃ l, omap g ws ≡ₚ option_list (g w) ++ l ∧ omap g (<[i := w']> ws) ≡ₚ option_list (g w') ++ l.
Proof.
  intros Hi. destruct (insert_Permutation ws i w Hi) as (l & Hw & Hw'). exists (omap g l).
  split; [rewrite Hw; simpl; by destruct (g w)|rewrite (Hw' w'); simpl; by destruct (g w')].
Qed.

Lemma omap_same (g : GWorker → option nat) ws i w w' : ws !! i = Some w → g w = g w' →
  omap g (<[i := w']> ws) ≡ₚ omap g ws.
Proof. intros Hi Hg. destruct (omap_swap g ws i w w' Hi) as (l & -> & ->). by rewrite Hg. Qed.

Lemma worker_at pl m f ws log i w : pool_inv pl m f ws log → pl_workers pl !! i = Some w →
  ∃ g, ws !! i = Some g ∧ w = toWorker g.
Proof.
  intros Hi. rewrite (pi_workers _ _ _ _ _ Hi), list_lookup_fmap. destruct (ws !! i) as [g|]; [|done].
  intros [= <-]. by exists g.
Qed.

Lemma sendStep_inv pl m f ws log i pl' :
  pool_inv pl m f ws log → sendStep i pl = Some pl' →
  pool_inv pl' (S m) f (<[i := GTook m]> ws) log ∧ ws !! i = Some GIdle.
Proof.
  intros Hi Hs. unfold sendStep in Hs. destruct (pl_reader pl) as [|p last| |] eqn:Hr; try done.
  destruct (pl_workers pl !! i) as [w|] eqn:Hw; [|done].
  destruct (worker_at _ _ _ _ _ _ _ Hi Hw) as (g & Hg & ->). destruct g; try done. simpl in Hs.
  injection Hs as <-. pose proof (pi_reader _ _ _ _ _ Hi) as Hri. unfold reader_inv in Hri. rewrite Hr in Hri.
  destruct Hri as (Hm & -> & -> & Hb & Hl & Hd). destruct Hi. destruct Hsz. split; [|done].
  pose proof (pp_count Hpre m ltac:(lia)) as Hc. pose proof (chunk_length m) as Hcl.
  split; cbn [pl_cdn pl_workers pl_curPieceNum pl_err pl_reader]; try done.
  - rewrite pi_workers0. by rewrite list_fmap_insert.
  - destruct (omap_swap inWork ws i GIdle (GTook m) Hg) as (l & Hl1 & Hl2).
    rewrite seq_S, Hl2, <-pi_sent0, Hl1. simpl. solve_Permutation.
  - intros j Hj. destruct (decide (j = m)) as [->|]; [done|]. apply pi_below0. lia.
  - destruct pi_records0 as (rs & Hrs & Hp). exists rs. split; [done|]. rewrite Hp.
    by rewrite (omap_same recorded ws i GIdle (GTook m) Hg eq_refl).
  - intros j Hj. apply pi_written0. by rewrite (omap_same written ws i GIdle (GTook m) Hg eq_refl) in Hj.
  - rewrite pi_cur0, int32_small by lia. lia.
  - unfold reader_inv. cbn [pl_reader pl_body pl_backSourceLength pl_digest].
    destruct (Z.ltb_spec (Z.of_nat (length (chunk m))) (Z.of_nat sz)) as [Hlt|Hge].
    + split; [lia|]. split; [rewrite Hl; lia|]. rewrite Hd. by rewrite take_ge by lia.
    + split; [lia|]. done.
  - intros Hd0. exfalso. assert (GDone ∈ ws) as Hd1; [|by apply pi_done0 in Hd1; congruence].
    apply list_elem_of_lookup in Hd0 as [i' Hi']. apply list_lookup_insert_Some in Hi' as [(_ & [=] & _)|[_ Hi']].
    by eapply list_elem_of_lookup_2.
Qed.

(** A step of writer [i]: the fields it does not concern are as they were. *)
Lemma pool_inv_work pl m f ws log i w w' cdn f' log' :
  pool_inv pl m f ws log → ws !! i = Some w → (w' = GDone → pl_reader pl = RClosed) →
  framed id (cdn_store (pl_cdn pl)) (cdn_store cdn) → stores (cdn_store cdn) id f' →
  tf_closed f' = true → tf_meta f' = tf_meta f →
  omap inWork (<[i := w']> ws) ++ log'.*2 ≡ₚ seq 0 m →
  (∃ rs, tf_records f' = tf_records f0 ++ rs ∧ rs ≡ₚ recordAt <$> (omap recorded (<[i := w']> ws) ++ log'.*2)) →
  (∀ j, j ∈ omap written (<[i := w']> ws) ++ log'.*2 → segment j (tf_data f') = chunk j ∧
    ((k + j) * sz + length (chunk j) ≤ length (tf_data f'))%nat) →
  take (k * sz) (tf_data f') = take (k * sz) (tf_data f0) →
  (k * sz ≤ length (tf_data f') ≤ k * sz + len)%nat →
  cdn_progress cdn = publishAll id ((λ x, (x.1, convertPieceMeta2SeedPiece (recordAt x.2))) <$> log') pm0 →
  pool_inv (set_reader cdn (pl_reader pl) (<[i := toWorker w']> (pl_workers pl)) pl) m f' (<[i := w']> ws) log'.
Proof.
  intros [] Hw Hd Hfr Hst Hcl Hme Hse Hre Hwr Hpf Hln Hpg.
  split; cbn [set_reader pl_cdn pl_workers pl_curPieceNum pl_err pl_reader]; try done.
  - apply Hfr.
  - by eapply framed_trans.
  - congruence.
  - rewrite pi_workers0. by rewrite list_fmap_insert.
  - intros Hd0. apply list_elem_of_lookup in Hd0 as [i' Hi'].
    apply list_lookup_insert_Some in Hi' as [(_ & Heq & _)|[_ Hi']]; [by apply Hd|].
    apply pi_done0. by eapply list_elem_of_lookup_2.
Qed.

Lemma log_member pl m f ws log j : pool_inv pl m f ws log → j ∈ omap inWork ws → (j < m)%nat.
Proof.
  intros Hi Hj. assert (j ∈ seq 0 m) as Hs; [|apply elem_of_seq in Hs; lia].
  rewrite <-(pi_sent _ _ _ _ _ Hi). set_solver.
Qed.

Lemma inWork_below pl m f ws log i w j : pool_inv pl m f ws log → ws !! i = Some w → inWork w = Some j →
  (j * sz < len)%nat.
Proof.
  intros Hi Hw Hj. apply (pi_below _ _ _ _ _ Hi), (log_member _ _ _ _ _ _ Hi).
  apply list_elem_of_omap. exists w. split; [by eapply list_elem_of_lookup_2|done].
Qed.

(** The write of a piece. *)
Lemma write_inv pl m f ws log i j :
  pool_inv pl m f ws log → ws !! i = Some (GTook j) →
  ∃ cdn f', onStore (WriteDownloadFile id (int64 (Z.of_nat (k + j) * Z.of_nat sz)) (Z.of_nat (length (chunk j)))
      (mkStream (chunk j) None)) (pl_cdn pl) = (cdn, None) ∧
    pool_inv (set_reader cdn (pl_reader pl) (<[i := toWorker (GAppend j)]> (pl_workers pl)) pl) m f'
      (<[i := GAppend j]> ws) log.
Proof.
  intros Hi Hw. pose proof (inWork_below _ _ _ _ _ _ _ j Hi Hw eq_refl) as Hj.
  destruct (pieceAt_small j Hj) as [_ Ho]. pose proof (chunk_length j) as Hl. destruct Hsz as [Hs1 Hs2].
  assert (chunk j ≠ []) as Hne by (intros Hn; rewrite Hn in Hl; simpl in Hl; lia).
  rewrite <-Nat2Z.inj_mul, int64_small by lia.
  destruct (WriteDownload_law id f (Z.of_nat ((k + j) * sz)) (chunk j) (cdn_store (pl_cdn pl)))
    as (s' & He & Hfr & Hst); [apply Hi|apply Hpre|apply Hi|done|lia|].
  unfold onStore. rewrite He. rewrite Nat2Z.id in Hst. eexists _, _. split; [done|].
  pose proof (pi_length _ _ _ _ _ Hi) as Hlen.
  eapply pool_inv_work; [exact Hi|exact Hw|done|exact Hfr|exact Hst|..]; cbn [tf_closed tf_meta tf_data tf_records].
  - apply Hi.
  - done.
  - rewrite (omap_same inWork ws i (GTook j) (GAppend j) Hw eq_refl). apply Hi.
  - destruct (pi_records _ _ _ _ _ Hi) as (rs & Hrs & Hp). exists rs. split; [done|]. rewrite Hp.
    by rewrite (omap_same recorded ws i (GTook j) (GAppend j) Hw eq_refl).
  - intros j' Hj'. rewrite splice_length by done. unfold segment.
    destruct (decide (j' = j)) as [->|Hne']; [split; [apply read_splice|lia]|].
    assert (j' ∈ omap written ws ++ log.*2) as Hold.
    { destruct (omap_swap written ws i (GTook j) (GAppend j) Hw) as (l & Hl1 & Hl2). rewrite Hl2 in Hj'.
      rewrite Hl1. simpl in *. set_solver. }
    destruct (pi_written _ _ _ _ _ Hi j' Hold) as [Hseg Hb]. split; [|lia].
    pose proof (chunk_length j'). rewrite read_splice_other; [done|lia|nia].
  - pose proof (read_splice_other (tf_data f) ((k + j) * sz) (chunk j) 0 (k * sz)) as Hp.
    rewrite !drop_0 in Hp. rewrite Hp; [apply Hi|lia|nia].
  - rewrite splice_length by done. nia.
  - apply Hi.
Qed.

(** The record of a piece. *)
Lemma append_inv pl m f ws log i j :
  pool_inv pl m f ws log → ws !! i = Some (GAppend j) →
  ∃ cdn f', onStore (appendPieceMetadata id (recordAt j)) (pl_cdn pl) = (cdn, None) ∧
    pool_inv (set_reader cdn (pl_reader pl) (<[i := toWorker (GReport j)]> (pl_workers pl)) pl) m f'
      (<[i := GReport j]> ws) log.
Proof.
  intros Hi Hw. pose proof (inWork_below _ _ _ _ _ _ _ j Hi Hw eq_refl) as Hj.
  destruct (Append_law id f (recordAt j) (cdn_store (pl_cdn pl))) as (s' & He & Hfr & Hst);
    [apply Hi|apply Hpre|apply Hi|apply Hi|by apply recordAt_ok|].
  unfold onStore, appendPieceMetadata. rewrite He. eexists _, _. split; [done|].
  eapply pool_inv_work; [exact Hi|exact Hw|done|exact Hfr|exact Hst|..];
    cbn [tf_closed tf_meta tf_data tf_records]; try apply Hi; try done.
  - rewrite (omap_same inWork ws i (GAppend j) (GReport j) Hw eq_refl). apply Hi.
  - destruct (pi_records _ _ _ _ _ Hi) as (rs & Hrs & Hp). exists (rs ++ [recordAt j]).
    split; [rewrite Hrs; by rewrite (assoc_L (++))|].
    destruct (omap_swap recorded ws i (GAppend j) (GReport j) Hw) as (l & Hl1 & Hl2).
    rewrite Hp, Hl1, Hl2. simpl. solve_Permutation.
  - intros j'. rewrite (omap_same written ws i (GAppend j) (GReport j) Hw eq_refl).
    apply (pi_written _ _ _ _ _ Hi).
Qed.

Lemma newPool_inv n : pool_inv (newPool (mkCdn s0 pm0) t (mkStream rest None) d0 (Z.of_nat (k * sz)) n) 0 f0
  (replicate (Z.to_nat n) GIdle) [].
Proof.
  destruct Hsz. destruct Hpre.
  assert (∀ (g : GWorker → option nat) l, g GIdle = None → omap g (replicate l GIdle) = []) as Hom.
  { intros g l Hg. induction l as [|l IH]; [done|]. simpl. by rewrite Hg. }
  split; cbn [newPool pl_cdn cdn_store cdn_progress pl_workers pl_curPieceNum pl_reader pl_err]; try done.
  - by rewrite fmap_replicate.
  - by rewrite Hom.
  - intros j Hj. lia.
  - exists []. rewrite app_nil_r. by rewrite Hom.
  - intros j. rewrite Hom by done. intros Hj. by apply elem_of_nil in Hj.
  - rewrite pp_size0, Nat2Z.inj_mul, Z.quot_mul by lia. specialize (pp_count0 0%nat).
    rewrite int32_small by lia. lia.
  - unfold reader_inv. cbn [newPool pl_reader pl_body pl_backSourceLength pl_digest]. simpl.
    split; [lia|]. split; [by rewrite drop_0|]. split; [done|]. destruct d0 as [h|]; [|done]. simpl. f_equal.
    unfold hash_Write. simpl. rewrite take_0, app_nil_r. by destruct h.
  - intros [Hd _]%elem_of_replicate. done.
Qed.

(** ** The steps of a writer *)

Lemma workStep_took pl m f ws log i j now :
  pool_inv pl m f ws log → ws !! i = Some (GTook j) →
  ∃ pl' f', workStep id i now pl = Some pl' ∧ pool_inv pl' m f' (<[i := GAppend j]> ws) log ∧
    pl_reader pl' = pl_reader pl.
Proof.
  intros Hi Hg. destruct (write_inv _ _ _ _ _ _ _ Hi Hg) as (cdn & f' & He & Hi'). unfold workStep.
  rewrite (pi_workers _ _ _ _ _ Hi), list_lookup_fmap, Hg, (pi_err _ _ _ _ _ Hi). simpl. unfold workerNext.
  rewrite He. by eexists _, f'.
Qed.

Lemma workStep_append pl m f ws log i j now :
  pool_inv pl m f ws log → ws !! i = Some (GAppend j) →
  ∃ pl' f', workStep id i now pl = Some pl' ∧ pool_inv pl' m f' (<[i := GReport j]> ws) log ∧
    pl_reader pl' = pl_reader pl.
Proof.
  intros Hi Hg. destruct (append_inv _ _ _ _ _ _ _ Hi Hg) as (cdn & f' & He & Hi'). unfold workStep.
  rewrite (pi_workers _ _ _ _ _ Hi), list_lookup_fmap, Hg. simpl. unfold workerNext.
  rewrite He. by eexists _, f'.
Qed.

(** There is a piece to read. *)
Lemma readStep_sends pl m f ws log :
  pool_inv pl m f ws log → pl_reader pl = RLoop → (m * sz < len)%nat →
  pool_inv (readStep t pl) m f ws log ∧
  pl_reader (readStep t pl) = RSend (pieceAt m) (Z.of_nat (length (chunk m)) <? Z.of_nat sz).
Proof.
  intros Hi Hr Hm. pose proof (readStep_inv _ _ _ _ _ Hi Hr) as Hi'. split; [done|].
  pose proof (pi_reader _ _ _ _ _ Hi') as Hri. unfold reader_inv in Hri.
  destruct (pl_reader (readStep t pl)) eqn:Hr'; [|by destruct Hri as (_ & -> & -> & _)|lia|done].
  exfalso. unfold readStep in Hr'. repeat case_match; simplify_eq.
Qed.

(** ** When a report fails *)

(** The writer is gone, and nobody takes the next piece. *)
Lemma poolStep_stuck (pl : Pool St) p last : pl_reader pl = RSend p last → forallb isDone (pl_workers pl) = true →
  poolResult pl = None ∧ ∀ c, poolStep t c pl = None.
Proof.
  intros Hr Hall. split; [unfold poolResult; by rewrite Hr|].
  assert (∀ i w, pl_workers pl !! i = Some w → isDone w = true) as Hw.
  { intros i w Hi. rewrite forallb_forall in Hall. apply Hall. by apply list_elem_of_In, (list_elem_of_lookup_2 _ i). }
  intros [|i|i now]; simpl; [by rewrite Hr|..].
  - unfold sendStep. rewrite Hr. destruct (pl_workers pl !! i) as [w|] eqn:Hi; [|done].
    apply Hw in Hi. by destruct w.
  - unfold workStep. destruct (pl_workers pl !! i) as [w|] eqn:Hi; [|done]. apply Hw in Hi. by destruct w.
Qed.

Lemma pool_deadlock now : tm_taskStore (pg_taskManager pm0) !! id = None → (sz < len)%nat →
  ∃ pl, runPool t [CRead; CSend 0; CWork 0 now; CWork 0 now; CRead; CWork 0 now]
      (newPool (mkCdn s0 pm0) t (mkStream rest None) d0 (Z.of_nat (k * sz)) 1) = Some pl ∧
    poolResult pl = None ∧ ∀ c, poolStep t c pl = None.
Proof.
  intros Hgone Hlen. destruct Hsz as [Hs _]. pose proof (newPool_inv 1) as Hi0. set (pl0 := newPool _ _ _ _ _ _) in *.
  destruct (readStep_sends _ _ _ _ _ Hi0 eq_refl ltac:(lia)) as [Hi1 Hr1]. set (pl1 := readStep t pl0) in *.
  rewrite chunk_length in Hr1. rewrite (proj2 (Z.ltb_ge _ _)) in Hr1 by lia.
  destruct (sendStep 0 pl1) as [pl2|] eqn:Hs2.
  2: { unfold sendStep in Hs2. rewrite Hr1, (pi_workers _ _ _ _ _ Hi1) in Hs2. done. }
  destruct (sendStep_inv _ _ _ _ _ _ _ Hi1 Hs2) as [Hi2 _]. change (<[0%nat := GTook 0]> _) with [GTook 0] in Hi2.
  assert (pl_reader pl2 = RLoop) as Hr2.
  { unfold sendStep in Hs2. rewrite Hr1, (pi_workers _ _ _ _ _ Hi1) in Hs2. by injection Hs2 as <-. }
  destruct (workStep_took _ _ _ _ _ 0 0 now Hi2 eq_refl) as (pl3 & f3 & Hs3 & Hi3 & Hr3).
  destruct (workStep_append _ _ _ _ _ 0 0 now Hi3 eq_refl) as (pl4 & f4 & Hs4 & Hi4 & Hr4).
  destruct (readStep_sends _ _ _ _ _ Hi4 ltac:(congruence) ltac:(lia)) as [Hi5 Hr5]. set (pl5 := readStep t pl4) in *.
  assert (∃ cdn, workStep id 0 now pl5 = Some (failWorker cdn 0 (ErrProgress errTaskNotFound) pl5)) as [cdn Hs6].
  { unfold workStep. rewrite (pi_workers _ _ _ _ _ Hi5). simpl. unfold workerNext, reportPieceMetaRecord.
    rewrite (pi_progress _ _ _ _ _ Hi5). unfold PublishPiece, tm_UpdateProgress. simpl. rewrite Hgone. by eexists. }
  eexists. split; [|eapply (poolStep_stuck _ (pieceAt 1))].
  - cbn [runPool poolStep]. change (pl_reader pl0) with RLoop. cbn [mbind option_bind]. fold pl1. rewrite Hs2.
    cbn [mbind option_bind]. rewrite Hs3. cbn [mbind option_bind]. rewrite Hs4. cbn [mbind option_bind].
    rewrite Hr4, Hr3, Hr2. cbn [mbind option_bind]. fold pl5. by rewrite Hs6.
  - exact Hr5.
  - simpl. by rewrite (pi_workers _ _ _ _ _ Hi5).
Qed.

(** ** When the task is registered *)

Context (Hreg0 : registered id pm0).

(** The report of a piece. *)
Lemma report_inv pl m f ws log i j now :
  pool_inv pl m f ws log → ws !! i = Some (GReport j) →
  ∃ cdn, reportPieceMetaRecord now id (recordAt j) (pl_cdn pl) = (cdn, None) ∧
    pool_inv (set_reader cdn (pl_reader pl) (<[i := toWorker GIdle]> (pl_workers pl)) pl) m f
      (<[i := GIdle]> ws) (log ++ [(now, j)]).
Proof.
  intros Hi Hw. unfold reportPieceMetaRecord.
  assert (registered id (cdn_progress (pl_cdn pl))) as Hreg.
  { rewrite (pi_progress _ _ _ _ _ Hi). apply publishAll_registered, Hreg0. }
  destruct (PublishPiece_registered now id (convertPieceMeta2SeedPiece (recordAt j)) _ Hreg) as [He _].
  destruct (PublishPiece _ _ _ _) as [pm err] eqn:Hp. simpl in He. subst err. eexists. split; [done|].
  eapply pool_inv_work; [exact Hi|exact Hw|done|split; [apply Hi|done]|apply Hi|..]; try apply Hi; try done;
    rewrite ?fmap_app.
  - destruct (omap_swap inWork ws i (GReport j) GIdle Hw) as (l & Hl1 & Hl2).
    rewrite <-(pi_sent _ _ _ _ _ Hi), Hl1, Hl2. simpl. solve_Permutation.
  - destruct (pi_records _ _ _ _ _ Hi) as (rs & Hrs & Hp'). exists rs. split; [done|].
    destruct (omap_swap recorded ws i (GReport j) GIdle Hw) as (l & Hl1 & Hl2).
    rewrite Hp', Hl1, Hl2, !fmap_app. simpl. solve_Permutation.
  - intros j' Hj'. apply (pi_written _ _ _ _ _ Hi).
    destruct (omap_swap written ws i (GReport j) GIdle Hw) as (l & Hl1 & Hl2).
    rewrite Hl2 in Hj'. rewrite Hl1. simpl in *. set_solver.
  - simpl. rewrite publishAll_snoc. simpl. by rewrite <-(pi_progress _ _ _ _ _ Hi), Hp.
Qed.

Lemma workStep_inv pl m f ws log i now pl' :
  pool_inv pl m f ws log → workStep id i now pl = Some pl' →
  ∃ f' ws' log', pool_inv pl' m f' ws' log' ∧
    ∃ w w', ws !! i = Some w ∧ ws' = <[i := w']> ws ∧ pl_reader pl' = pl_reader pl ∧
      match w, w' with
      | GIdle, GDone => True
      | GTook j, GAppend j' | GAppend j, GReport j' => j = j'
      | GReport _, GIdle => True
      | _, _ => False
      end.
Proof.
  intros Hi Hs. destruct (pl_workers pl !! i) as [w|] eqn:Hw; [|unfold workStep in Hs; by rewrite Hw in Hs].
  destruct (worker_at _ _ _ _ _ _ _ Hi Hw) as (g & Hg & ->). destruct g as [|j|j|j|].
  - assert (pl_reader pl = RClosed ∧ pl' = set_reader (pl_cdn pl) (pl_reader pl)
      (<[i := toWorker GDone]> (pl_workers pl)) pl) as [Hr ->].
    { pose proof (pi_reader _ _ _ _ _ Hi) as Hri. unfold reader_inv in Hri. unfold workStep in Hs. rewrite Hw in Hs.
      simpl in Hs. by destruct (pl_reader pl); simplify_eq. }
    exists f, (<[i := GDone]> ws), log. split; [|by exists GIdle, GDone].
    eapply pool_inv_work; [exact Hi|exact Hg|done|split; [apply Hi|done]|apply Hi|..]; try apply Hi; try done.
    + rewrite (omap_same inWork ws i GIdle GDone Hg eq_refl). apply Hi.
    + destruct (pi_records _ _ _ _ _ Hi) as (rs & Hrs & Hp'). exists rs. split; [done|].
      by rewrite (omap_same recorded ws i GIdle GDone Hg eq_refl).
    + intros j'. rewrite (omap_same written ws i GIdle GDone Hg eq_refl). apply (pi_written _ _ _ _ _ Hi).
  - destruct (workStep_took _ _ _ _ _ _ _ now Hi Hg) as (pl1 & f' & He & Hi' & Hr). rewrite He in Hs.
    injection Hs as <-. exists f', (<[i := GAppend j]> ws), log. split; [done|]. by exists (GTook j), (GAppend j).
  - destruct (workStep_append _ _ _ _ _ _ _ now Hi Hg) as (pl1 & f' & He & Hi' & Hr). rewrite He in Hs.
    injection Hs as <-. exists f', (<[i := GReport j]> ws), log. split; [done|]. by exists (GAppend j), (GReport j).
  - destruct (report_inv _ _ _ _ _ _ _ now Hi Hg) as (cdn & He & Hi'). unfold workStep in Hs. rewrite Hw in Hs.
    simpl in Hs. unfold workerNext in Hs. rewrite He in Hs. injection Hs as <-.
    exists f, (<[i := GIdle]> ws), (log ++ [(now, j)]). split; [exact Hi'|]. by exists (GReport j), GIdle.
  - unfold workStep in Hs. by rewrite Hw in Hs.
Qed.

(** ** Every execution ends *)

Definition weight (w : GWorker) : nat :=
  match w with GIdle => 1 | GTook _ => 4 | GAppend _ => 3 | GReport _ => 2 | GDone => 0 end.

Definition measure (m : nat) (r : Reader) (ws : list GWorker) : nat :=
  (match r with RLoop => 6 * (len - m) + 1 | RSend _ _ => 6 * (len - m) - 1 | _ => 0 end + sum_list (weight <$> ws))%nat.

Lemma sum_weight_insert ws i w w' : ws !! i = Some w →
  (sum_list (weight <$> <[i := w']> ws) + weight w = sum_list (weight <$> ws) + weight w')%nat.
Proof.
  revert i. induction ws as [|x ws IH]; intros [|i] Hw; simplify_eq/=; [lia|]. specialize (IH i Hw). lia.
Qed.

Lemma poolStep_inv pl m f ws log c pl' :
  pool_inv pl m f ws log → poolStep t c pl = Some pl' →
  ∃ m' f' ws' log', pool_inv pl' m' f' ws' log' ∧ length ws' = length ws ∧
    (measure m' (pl_reader pl') ws' < measure m (pl_reader pl) ws)%nat.
Proof.
  intros Hi Hs. destruct Hsz as [Hs1 _]. destruct c as [|i|i now]; simpl in Hs.
  - destruct (pl_reader pl) eqn:Hr; try done. injection Hs as <-.
    pose proof (readStep_inv _ _ _ _ _ Hi Hr) as Hi'. exists m, f, ws, log. split; [done|]. split; [done|].
    pose proof (pi_reader _ _ _ _ _ Hi') as Hri. unfold reader_inv in Hri. unfold measure.
    destruct (pl_reader (readStep t pl)) eqn:Hr'; try done; [|destruct Hri; nia|lia].
    exfalso. unfold readStep in Hr'. repeat case_match; simplify_eq.
  - destruct (sendStep_inv _ _ _ _ _ _ _ Hi Hs) as [Hi' Hw]. exists (S m), f, (<[i := GTook m]> ws), log.
    split; [done|]. split; [by rewrite length_insert|]. pose proof (sum_weight_insert ws i _ (GTook m) Hw) as Hsum.
    simpl in Hsum. unfold sendStep in Hs. pose proof (pi_reader _ _ _ _ _ Hi) as Hri. unfold reader_inv in Hri.
    destruct (pl_reader pl) as [|p last| |] eqn:Hr; try done. destruct Hri as (Hm & _).
    unfold measure. assert (pl_reader pl' = if last then RClosed else RLoop) as ->.
    { repeat case_match; simplify_eq; done. }
    destruct last; nia.
  - destruct (workStep_inv _ _ _ _ _ _ _ _ Hi Hs) as (f' & ws' & log' & Hi' & w & w' & Hw & -> & -> & Htr).
    exists m, f', (<[i := w']> ws), log'. split; [done|]. split; [by rewrite length_insert|].
    pose proof (sum_weight_insert ws i w w' Hw) as Hsum. unfold measure.
    destruct w, w'; try done; simpl in Hsum; lia.
Qed.

Lemma runPool_inv sched pl m f ws log pl' :
  pool_inv pl m f ws log → runPool t sched pl = Some pl' →
  ∃ m' f' ws' log', pool_inv pl' m' f' ws' log' ∧ length ws' = length ws ∧
    (length sched + measure m' (pl_reader pl') ws' ≤ measure m (pl_reader pl) ws)%nat.
Proof.
  revert pl m f ws log. induction sched as [|c sched IH]; intros pl m f ws log Hi Hr; simpl in Hr.
  - injection Hr as <-. exists m, f, ws, log. split; [done|]. split; [done|]. simpl. lia.
  - destruct (poolStep t c pl) as [pl1|] eqn:Hc; [|done]. simpl in Hr.
    destruct (poolStep_inv _ _ _ _ _ _ _ Hi Hc) as (m1 & f1 & ws1 & log1 & Hi1 & Hl1 & Hm1).
    destruct (IH _ _ _ _ _ Hi1 Hr) as (m2 & f2 & ws2 & log2 & Hi2 & Hl2 & Hm2).
    exists m2, f2, ws2, log2. split; [done|]. split; [lia|]. simpl. lia.
Qed.

(** ** No execution is stuck *)

Lemma worker_enabled pl m f ws log i w now : pool_inv pl m f ws log → ws !! i = Some w →
  w ≠ GDone → (w = GIdle → pl_reader pl = RClosed) → is_Some (workStep id i now pl).
Proof.
  intros Hi Hw Hnd Hid. unfold workStep. rewrite (pi_workers _ _ _ _ _ Hi), list_lookup_fmap, Hw.
  rewrite (pi_err _ _ _ _ _ Hi). destruct w; simpl; try done. by rewrite Hid.
Qed.

Lemma pool_progress pl m f ws log :
  pool_inv pl m f ws log → ws ≠ [] → poolResult pl = None → ∃ c, is_Some (poolStep t c pl).
Proof.
  intros Hi Hne Hres. pose proof (pi_reader _ _ _ _ _ Hi) as Hri. unfold reader_inv in Hri.
  destruct (pl_reader pl) as [|p last| |] eqn:Hr; [| | |done].
  - exists CRead. simpl. by rewrite Hr.
  - destruct ws as [|w ws]; [done|]. assert ((w :: ws) !! 0%nat = Some w) as Hw by done.
    destruct (decide (w = GIdle)) as [->|Hni].
    + exists (CSend 0). simpl. unfold sendStep. by rewrite Hr, (pi_workers _ _ _ _ _ Hi).
    + exists (CWork 0 0). eapply worker_enabled; [done|done| |done]. intros ->.
      assert (pl_reader pl = RClosed) as Hc by (apply (pi_done _ _ _ _ _ Hi); left). congruence.
  - unfold poolResult in Hres. rewrite Hr in Hres. destruct (forallb isDone (pl_workers pl)) eqn:Hall; [done|].
    assert (∃ i w, ws !! i = Some w ∧ w ≠ GDone) as (i & w & Hw & Hnd).
    { rewrite (pi_workers _ _ _ _ _ Hi) in Hall. clear -Hall. induction ws as [|w ws IH]; [done|]. simpl in Hall.
      destruct (decide (w = GDone)) as [->|Hn]; [|by exists 0%nat, w].
      destruct IH as (i & w & Hi & Hw); [done|]. by exists (S i), w. }
    exists (CWork i 0). simpl. by eapply worker_enabled.
Qed.

(** So it can always be completed. *)
Lemma pool_finishes pl m f ws log :
  pool_inv pl m f ws log → ws ≠ [] → ∃ sched pl', runPool t sched pl = Some pl' ∧ is_Some (poolResult pl').
Proof.
  remember (measure m (pl_reader pl) ws) as n eqn:Hn. revert pl m f ws log Hn.
  induction n as [n IH] using lt_wf_ind. intros pl m f ws log -> Hi Hne.
  destruct (poolResult pl) as [r|] eqn:Hres; [by exists [], pl|].
  destruct (pool_progress _ _ _ _ _ Hi Hne Hres) as (c & pl1 & Hc).
  destruct (poolStep_inv _ _ _ _ _ _ _ Hi Hc) as (m1 & f1 & ws1 & log1 & Hi1 & Hl1 & Hm1).
  destruct (IH _ Hm1 pl1 m1 f1 ws1 log1 eq_refl Hi1) as (sched & pl' & Hrun & Hr).
  { destruct ws, ws1; done. }
  exists (c :: sched), pl'. simpl. by rewrite Hc.
Qed.

(** ** The storage at the end *)

Definition npieces : nat := (len + sz - 1) / sz.

Lemma npieces_unique m : (len ≤ m * sz)%nat → (∀ j, j < m → j * sz < len)%nat → m = npieces.
Proof.
  intros Hge Hlt. destruct Hsz as [Hs _]. unfold npieces. apply Nat.div_unique with (r := (len + sz - 1 - m * sz)%nat).
  - destruct m as [|m]; [simpl in *; lia|]. specialize (Hlt m). nia.
  - destruct m as [|m]; [simpl in *; lia|]. specialize (Hlt m). nia.
Qed.

(** The data whose segments are right. *)
Lemma segments_data data :
  length data = (k * sz + len)%nat → (∀ j, (j * sz < len)%nat → segment j data = chunk j) →
  drop (k * sz) data = rest.
Proof.
  intros Hl Hseg. destruct Hsz as [Hs _]. apply list_eq. intros i. rewrite lookup_drop.
  destruct (decide (i < len)%nat) as [Hi|Hi]; [|by rewrite !lookup_ge_None_2 by lia].
  pose proof (Nat.div_mod i sz ltac:(lia)) as Hdm. pose proof (Nat.mod_upper_bound i sz ltac:(lia)) as Hub.
  set (j := (i / sz)%nat) in *. set (x := (i mod sz)%nat) in *.
  assert (segment j data !! x = chunk j !! x) as Heq by (rewrite Hseg; [done|nia]).
  unfold segment in Heq. pose proof (chunk_length j) as Hcl. rewrite lookup_take_lt in Heq by nia.
  rewrite lookup_drop in Heq. unfold chunk in Heq. rewrite lookup_take_lt, lookup_drop in Heq by done.
  replace (k * sz + i)%nat with ((k + j) * sz + x)%nat by nia. rewrite Heq. f_equal. nia.
Qed.

Lemma done_nothing (g : GWorker → option nat) ws : forallb isDone (toWorker <$> ws) = true →
  g GDone = None → omap g ws = [].
Proof.
  intros Hall Hg. induction ws as [|w ws IH]; [done|]. simpl in Hall. apply andb_prop in Hall as [Hw Hall].
  destruct w; try done. simpl. rewrite Hg. by apply IH.
Qed.

(** What is left behind: the bytes behind those that were there, a record for
    each piece, and each piece published once. *)
Definition doWrite_post (s : St) (pm : ProgressManager) : Prop :=
  framed id s0 s ∧
  (∃ rs, rs ≡ₚ recordAt <$> seq 0 npieces ∧
     stores s id (mkTaskFiles (take (k * sz) (tf_data f0) ++ rest) (tf_meta f0) (tf_records f0 ++ rs) true)) ∧
  ∃ log, log.*2 ≡ₚ seq 0 npieces ∧
     pm = publishAll id ((λ x, (x.1, convertPieceMeta2SeedPiece (recordAt x.2))) <$> log) pm0.

Lemma pool_result pl m f ws log r :
  pool_inv pl m f ws log → poolResult pl = Some r →
  r = inr (Z.of_nat len, Z.of_nat (k + npieces)) ∧ pl_digest pl = hash_Write rest <$> d0 ∧
  doWrite_post (cdn_store (pl_cdn pl)) (cdn_progress (pl_cdn pl)).
Proof.
  intros Hi Hres. pose proof (pi_reader _ _ _ _ _ Hi) as Hri. unfold reader_inv in Hri. unfold poolResult in Hres.
  destruct (pl_reader pl) as [|p last| |] eqn:Hr; try done. destruct Hri as (Hm & Hb & Hd).
  destruct (forallb isDone (pl_workers pl)) eqn:Hall; [|done]. rewrite (pi_err _ _ _ _ _ Hi) in Hres.
  injection Hres as <-. rewrite (pi_workers _ _ _ _ _ Hi) in Hall.
  pose proof (npieces_unique m Hm (pi_below _ _ _ _ _ Hi)) as Hnp.
  pose proof (pi_sent _ _ _ _ _ Hi) as Hsent. rewrite (done_nothing inWork ws Hall eq_refl) in Hsent. simpl in Hsent.
  split; [rewrite Hb, (pi_cur _ _ _ _ _ Hi), Hnp; done|]. split; [done|]. split; [apply Hi|]. rewrite <-Hnp. split.
  - destruct (pi_records _ _ _ _ _ Hi) as (rs & Hrs & Hp). rewrite (done_nothing recorded ws Hall eq_refl) in Hp.
    exists rs. split; [by rewrite Hp; simpl; rewrite Hsent|].
    assert (take (k * sz) (tf_data f0) ++ rest = tf_data f) as ->.
    { rewrite <-(pi_prefix _ _ _ _ _ Hi). rewrite <-(take_drop (k * sz) (tf_data f)) at 2. f_equal. symmetry.
      assert (∀ j, (j * sz < len)%nat → segment j (tf_data f) = chunk j ∧
        ((k + j) * sz + length (chunk j) ≤ length (tf_data f))%nat) as Hw.
      { intros j Hj. apply (pi_written _ _ _ _ _ Hi). apply elem_of_app. right. rewrite Hsent. apply elem_of_seq. nia. }
      apply segments_data; [|intros j Hj; by apply Hw].
      pose proof (pi_length _ _ _ _ _ Hi). destruct (decide (len = 0)%nat) as [Hz|Hz]; [lia|].
      destruct (Hw (m - 1)%nat) as [_ Hlast]; [apply (pi_below _ _ _ _ _ Hi); destruct m; simpl in *; lia|].
      rewrite chunk_length in Hlast. destruct m as [|m]; [simpl in *; lia|].
      pose proof (pi_below _ _ _ _ _ Hi m ltac:(lia)). replace (S m - 1)%nat with m in Hlast by lia. nia. }
    rewrite <-Hrs, <-(pi_meta _ _ _ _ _ Hi), <-(pi_closed _ _ _ _ _ Hi). pose proof (pi_stores _ _ _ _ _ Hi).
    by destruct f.
  - exists log. split; [done|]. apply Hi.
Qed.

End Pool.
