(* ===== verification/CdnManager.v ===== *)
(** * CdnManager: cdn/supervisor/cdn/manager.go

    The trigger of a download: what the storage holds is detected and reported,
    the rest is downloaded and written, and the result is kept in the metadata
    and published.  The write lock of the task is held throughout.  A trigger
    runs under a schedule of the writer pool ([CdnWriter.v]) and has not
    returned ([None]) when the schedule ends before the pool does.  [nowMs] and
    [now] are the clocks in milliseconds and nanoseconds. *)

From S2P Require Import Prelude Text Ranges World FileSystem StoreDriver CdnTask CdnStorage Digests CdnMetadata.
From S2P Require Import CdnDetector CdnProgress CdnWriter.
From Stdlib Require Import Ascii.
From stdpp Require Import options.
Local Open Scope Z_scope.

Definition getUpdateTaskInfoWithStatusOnly (seedTask : SeedTask) (cdnStatus : string) : SeedTask :=
  set_st_Status cdnStatus (SeedTask_Clone seedTask).

Definition getUpdateTaskInfo (seedTask : SeedTask) (cdnStatus realMD5 pieceMd5Sign : string)
    (sourceFileLength cdnFileLength totalPieceCount : Z) : SeedTask :=
  set_st_Result cdnStatus realMD5 pieceMd5Sign sourceFileLength cdnFileLength totalPieceCount
    (SeedTask_Clone seedTask).

(** The hash of the file, and the algorithm it is named with. *)
Definition digestOf (seedTask : SeedTask) : option Hash * option Algorithm :=
  if IsBlank (st_Digest seedTask) then (Some (hash_New Md5Hash), Some Md5Hash)
  else
    let digestType := default ""%string (head (digestutils_Parse (st_Digest seedTask))) in
    (CreateHash digestType, Algorithms digestType).

(** The checks of [handleCDNResult]: the error message when one fails. *)
Definition checkResult (seedTask : SeedTask) (dm : downloadMetadata) : option string :=
  if negb (IsBlank (st_Digest seedTask)) && negb (bool_decide (st_Digest seedTask = dm_sourceRealDigest dm))
  then Some "file digest not match"%string
  else if (0 <=? st_SourceFileLength seedTask) &&
          negb (st_SourceFileLength seedTask =? dm_realSourceFileLength dm)
  then Some "file length not match"%string
  else if (0 <? st_TotalPieceCount seedTask) && negb (dm_totalPieceCount dm =? st_TotalPieceCount seedTask)
  then Some "task total piece count not match"%string
  else None.

Section Manager.
Context {St : Type} `{CdnStore St} `{Hashes} `{CdnSource}.

(** The metadata that is merged into the stored one. *)
Definition resultMetadata (seedTask : SeedTask) (dm : downloadMetadata) (success : bool) : FileMetadata :=
  mkFileMetadata "" "" 0
    (if success && (st_SourceFileLength seedTask <=? 0) then dm_realSourceFileLength dm
     else st_SourceFileLength seedTask)
    0 0 (dm_realCdnFileLength dm) "" (dm_sourceRealDigest dm) "" ∅ true success
    (dm_totalPieceCount dm) (dm_pieceMd5Sign dm) "" "".

Definition handleCDNResult (seedTask : SeedTask) (dm : downloadMetadata) (c : Cdn St) : Cdn St * option CdnError :=
  let failed := checkResult seedTask dm in
  let '(c, err) :=
    onStore (updateStatusAndResult (st_ID seedTask) (resultMetadata seedTask dm (negb (isSome failed)))) c in
  match err with
  | Some e => (c, Some e)
  | None => (c, ErrResult <$> failed)
  end.

(** The download behind the detection of the cache. *)
Definition downloadRest (sched : list Choice) (writerRoutineLimit : Z) (seedTask : SeedTask)
    (digest : option Hash) (digestType : option Algorithm) (breakPoint : Z) (c : Cdn St)
    : Outcome (option (Cdn St * (CdnError + SeedTask))) :=
  let '(s, body) := cdn_download seedTask breakPoint (cdn_store c) in
  let c := mkCdn s (cdn_progress c) in
  match body with
  | inl e => Ok (Some (c, inl e))
  | inr respBody =>
      r ← startWriter sched seedTask respBody digest digestType breakPoint writerRoutineLimit c;
      Ok ('(c, dm) ← r;
          Some (match dm with
                | inl e => (c, inl e)
                | inr dm =>
                    match handleCDNResult seedTask dm c with
                    | (c, Some e) => (c, inl e)
                    | (c, None) =>
                        (c, inr (getUpdateTaskInfo seedTask StatusSuccess (dm_sourceRealDigest dm)
                                   (dm_pieceMd5Sign dm) (dm_realSourceFileLength dm)
                                   (dm_realCdnFileLength dm) (dm_totalPieceCount dm)))
                    end
                end))
  end.

Definition doTrigger (sched : list Choice) (writerRoutineLimit nowMs now : Z) (seedTask : SeedTask) (c : Cdn St)
    : Outcome (option (Cdn St * (CdnError + SeedTask))) :=
  let '(fileDigest, digestType) := digestOf seedTask in
  '(s, fileDigest, detectResult) ← detectCache nowMs seedTask fileDigest (cdn_store c);
  let c := mkCdn s (cdn_progress c) in
  match detectResult with
  | inl e => Ok (Some (c, inl e))
  | inr detectResult =>
      match reportDetectResult now (st_ID seedTask) (cr_PieceMetaRecords detectResult) c with
      | (c, Some e) => Ok (Some (c, inl e))
      | (c, None) =>
          if cr_BreakPoint detectResult =? -1 then
            let m := cr_FileMetadata detectResult in
            Ok (Some (c, inr (getUpdateTaskInfo seedTask StatusSuccess (fm_SourceRealDigest m)
                                (fm_PieceMd5Sign m) (fm_SourceFileLen m) (fm_CdnFileLength m)
                                (fm_TotalPieceCount m))))
          else
            downloadRest sched writerRoutineLimit seedTask fileDigest digestType
              (cr_BreakPoint detectResult) c
      end
  end.

Definition TriggerCDN (sched : list Choice) (writerRoutineLimit nowMs now : Z) (seedTask : SeedTask) (c : Cdn St)
    : Outcome (option (Cdn St * SeedTask * option TaskError)) :=
  r ← doTrigger sched writerRoutineLimit nowMs now seedTask c;
  Ok (option_map (λ '(c, result),
        let updateTaskInfo :=
          match result with
          | inl _ => getUpdateTaskInfoWithStatusOnly seedTask StatusFailed
          | inr info => info
          end in
        let '(pm, err) := PublishTask now (st_ID seedTask) (Some updateTaskInfo) (cdn_progress c) in
        (mkCdn (cdn_store c) pm, updateTaskInfo, err)) r).

Definition cdn_Delete (taskID : string) (s : St) : St * option CdnError := DeleteTask taskID s.

End Manager.
