(* ===== verification/CdnDownload.v ===== *)
(** * CdnDownload: the lemmas of a download through the CDN

    The steps of [doTrigger], over any storage that keeps the laws of
    CdnStorage.v, for a content of which the first [k] pieces are stored already
    (none of them in a fresh download). *)

From S2P Require Import Prelude Text Ranges World FileSystem StoreDriver CdnTask CdnStorage Digests CdnMetadata.
From S2P Require Import CdnDetector CdnProgress CdnWriter CdnWriterProperties CdnManager.
From Stdlib Require Import Ascii.
From stdpp Require Import options.
Local Open Scope Z_scope.

(** ** Texts that are not blank *)

Lemma IsBlank_hex s : allHex s = true → s ≠ ""%string → IsBlank s = false.
Proof.
  destruct s as [|c s]; [done|]. simpl. intros [Hc _]%andb_prop _. apply andb_false_iff. left.
  destruct c as [[] [] [] [] [] [] [] []]; done.
Qed.

Lemma md5Sign_not_blank `{HashesLaws} rs : rs ≠ [] → IsBlank (md5Sign rs) = false.
Proof.
  intros Hne. unfold md5Sign, digestutils_Sha256. destruct rs as [|r rs]; [done|]. rewrite fmap_cons.
  apply IsBlank_hex; [apply hexSum_hex|apply hexSum_nonempty].
Qed.

Section Trigger.
Context {St : Type} `{CdnStoreLaws St} `{HashesLaws} `{CdnSource}.
Context (t : SeedTask) (content : list byte) (sz : nat).

Notation id := (st_ID t).
Notation len := (length content).

(** The records of the content, in order. *)
Definition recordsOf : list PieceMetaRecord :=
  recordAt t content 0 sz <$> seq 0 (npieces content sz).

Definition fileDigest : option Hash := hash_Write content <$> (digestOf t).1.
Definition realDigest : string := LimitReader_Digest fileDigest (digestOf t).2.

(** A task whose download fits what is expected of it. *)
Record content_ok : Prop := {
  co_id : id_ok id;
  co_url : url_Parse (st_RawURL t) = true;
  co_size : st_PieceSize t = Z.of_nat sz ∧ (0 < sz)%nat ∧ Z.of_nat sz < 2 ^ 31;
  co_fit : Z.of_nat len < 2 ^ 62;
  co_count : ∀ m, (m * sz ≤ len)%nat → Z.of_nat m < 2 ^ 31 - 1;
  co_length : -2 ^ 62 <= st_SourceFileLength t < 0 ∨ st_SourceFileLength t = Z.of_nat len;
  co_total : st_TotalPieceCount t <= 0 ∨ st_TotalPieceCount t = Z.of_nat (npieces content sz);
  co_digest : IsBlank (st_Digest t) = true ∨ st_Digest t = realDigest;
}.

(** The metadata of a task that is stored in full. *)
Record metadata_full (m : FileMetadata) : Prop := {
  mf_same : checkMetadata t m = None;
  mf_finish : fm_Finish m = true ∧ fm_Success m = true;
  mf_length : fm_CdnFileLength m = Z.of_nat len ∧ fm_SourceFileLen m = Z.of_nat len;
  mf_count : fm_TotalPieceCount m = Z.of_nat (npieces content sz);
  mf_sign : fm_PieceMd5Sign m = md5Sign recordsOf;
  mf_digest : fm_SourceRealDigest m = realDigest;
}.

(** What a success reports of the task. *)
Definition fullInfo : SeedTask :=
  getUpdateTaskInfo t StatusSuccess realDigest (md5Sign recordsOf) (Z.of_nat len) (Z.of_nat len)
    (Z.of_nat (npieces content sz)).

(** The content is stored, with its records in some order and the metadata. *)
Definition stored_full (s : St) : Prop :=
  store_inv s ∧ ∃ rs m, rs ≡ₚ recordsOf ∧ metadata_full m ∧ stores s id (mkTaskFiles content (Some m) rs true).

#[local] Set Default Proof Using "All".

Context (Hco : content_ok).

Lemma npieces_below j : (j < npieces content sz)%nat → (j * sz < len)%nat.
Proof.
  destruct (co_size Hco) as (_ & Hs & _). unfold npieces. intros Hj.
  pose proof (Nat.div_mod (len + sz - 1) sz ltac:(lia)). nia.
Qed.

Lemma pmr_PieceNum_recordAt j : pmr_PieceNum (recordAt t content 0 sz j) = Z.of_nat j.
Proof. done. Qed.

Lemma records_sorted i n :
  StronglySorted (λ a b, pmr_PieceNum a < pmr_PieceNum b) (recordAt t content 0 sz <$> seq i n).
Proof.
  revert i. induction n as [|n IH]; intros i; simpl; constructor; [apply IH|].
  apply Forall_fmap, Forall_forall. intros j [Hj _]%elem_of_seq. simpl. lia.
Qed.

Lemma sorted_records rs : rs ≡ₚ recordsOf → sortRecords rs = recordsOf.
Proof. intros Hp. apply sortRecords_unique; [done|]. apply records_sorted. Qed.

(** ** Nothing usable is stored *)

Lemma detect_miss nowMs d s d' e :
  store_inv s → doDetect t d s = Ok (s, d', inl e) →
  ∃ s', detectCache nowMs t d s = Ok (s', d', inr (mkCacheResult 0 [] (metadataOf nowMs t))) ∧ framed id s s' ∧
    stores s' id (mkTaskFiles [] (Some (metadataOf nowMs t)) [] true).
Proof.
  intros Hinv Hd. unfold detectCache. rewrite Hd. cbn [mbind outcome_bind]. unfold resetCache.
  destruct (ResetRepo_law t s Hinv (co_id Hco)) as (s1 & -> & Hf1 & Hs1). unfold writeFileMetadataByTask.
  destruct (WriteMetadata_law id newFiles (metadataOf nowMs t) s1) as (s2 & -> & Hf2 & Hs2);
    [apply Hf1|apply Hco|done|].
  exists s2. split; [done|]. split; [by eapply framed_trans|]. done.
Qed.

(** ** The pieces from number [k] on *)

Notation restOf k := (drop (k * sz) content).

(** The first [k] pieces are stored and recorded. *)
Record partial (k : nat) (f : TaskFiles) : Prop := {
  pa_closed : tf_closed f = true;
  pa_records : tf_records f ≡ₚ recordAt t content 0 sz <$> seq 0 k;
  pa_prefix : take (k * sz) (tf_data f) = take (k * sz) content;
  pa_length : (k * sz ≤ length (tf_data f) ≤ len)%nat;
}.

Lemma partial_new m : partial 0 (mkTaskFiles [] m [] true).
Proof. split; try done. simpl. lia. Qed.

Lemma recordAt_rest k j : recordAt t (restOf k) k sz j = recordAt t content 0 sz (k + j).
Proof.
  unfold recordAt, pieceAt, chunk. rewrite drop_drop.
  by replace (k * sz + j * sz)%nat with ((k + j) * sz)%nat by lia.
Qed.

Lemma npieces_rest k : (k * sz ≤ len)%nat → (k + npieces (restOf k) sz)%nat = npieces content sz.
Proof.
  intros Hk. destruct (co_size Hco) as (_ & Hs & _). unfold npieces. rewrite length_drop.
  replace (len + sz - 1)%nat with ((len - k * sz + sz - 1) + k * sz)%nat by lia. rewrite Nat.div_add by lia. lia.
Qed.

(** ** The writers *)

Lemma routineCount_pos k lim : (k * sz ≤ len)%nat → 0 < lim →
  0 < calculateRoutineCount (int64 (st_SourceFileLength t - Z.of_nat (k * sz))) (st_PieceSize t) lim.
Proof.
  intros Hk Hlim. destruct (co_size Hco) as (Hsz & Hs & Hs31). pose proof (co_fit Hco). pose proof (co_length Hco) as Hl.
  rewrite int64_small by lia. unfold calculateRoutineCount. rewrite Hsz.
  assert (st_SourceFileLength t - Z.of_nat (k * sz) < 2 ^ 62) as Hrem by lia.
  set (rem := _ - Z.of_nat (k * sz)) in *. clearbody rem.
  destruct (Z.ltb_spec rem 0) as [|Hge]; [done|].
  rewrite (proj2 (Z.leb_gt (Z.of_nat sz) 0)) by lia. simpl orb. cbv iota.
  destruct (Z.eqb_spec rem 0); [done|].
  rewrite (int32_small (Z.of_nat sz - 1)), int64_small by lia.
  pose proof (Z.quot_pos (rem + (Z.of_nat sz - 1)) (Z.of_nat sz) ltac:(lia) ltac:(lia)) as Hq.
  set (q := Z.quot _ _) in *. destruct (Z.eqb_spec q 0).
  - by destruct (1 <? lim).
  - destruct (q <? lim); lia.
Qed.

(** The state the writers start in. *)
Lemma writer_pre k s f :
  store_inv s → stores s id f → partial k f → pool_pre t (restOf k) k sz s f.
Proof.
  intros Hinv Hst [Hc Hr Hp Hl]. destruct (co_size Hco) as (Hsz & Hs & Hs31). pose proof (co_fit Hco).
  split; rewrite ?length_drop; try done.
  - lia.
  - intros m Hm. apply (co_count Hco). lia.
  - apply (co_id Hco).
  - lia.
Qed.

(** What [startWriter] is called with. *)
Definition writerOf (k : nat) (lim : Z) (sched : list Choice) (c : Cdn St)
    : Outcome (option (Cdn St * (CdnError + downloadMetadata))) :=
  startWriter sched t (mkStream (restOf k) None) (hash_Write (take (k * sz) content) <$> (digestOf t).1)
    (digestOf t).2 (Z.of_nat (k * sz)) lim c.

(** What is stored when the writers are done. *)
Definition written_full (k : nat) (f : TaskFiles) (s s' : St) (pm pm' : ProgressManager) : Prop :=
  framed id s s' ∧
  (∃ rs, rs ≡ₚ recordsOf ∧ stores s' id (mkTaskFiles content (tf_meta f) rs true)) ∧
  ∃ log, log.*2 ≡ₚ seq k (npieces content sz - k) ∧
    pm' = publishAll id ((λ x, (x.1, convertPieceMeta2SeedPiece (recordAt t content 0 sz x.2))) <$> log) pm.

Lemma written_of_post k f s pm c :
  partial k f → doWrite_post t (restOf k) k sz s f pm (cdn_store c) (cdn_progress c) →
  written_full k f s (cdn_store c) pm (cdn_progress c).
Proof.
  intros [Hc Hr Hp Hl] (Hfr & (rs & Hrs & Hst) & (log & Hlog & Hpm)).
  pose proof (npieces_rest k ltac:(lia)) as Hn. split; [done|]. split.
  - exists (tf_records f ++ rs). rewrite Hp, take_drop in Hst. split; [|done].
    rewrite Hr, Hrs. unfold recordsOf. rewrite <-Hn, seq_app, fmap_app. f_equiv.
    replace (seq (0 + k) (npieces (restOf k) sz)) with (Nat.add k <$> seq 0 (npieces (restOf k) sz))
      by (rewrite fmap_add_seq; f_equal; lia).
    rewrite <-list_fmap_compose. match goal with |- ?a ≡ₚ ?b => enough (a = b) as -> by done end.
    apply list_fmap_ext. intros _ j _. apply recordAt_rest.
  - exists ((λ x, (x.1, k + x.2)%nat) <$> log). split.
    + rewrite <-list_fmap_compose. change (snd ∘ _) with (Nat.add k ∘ (snd : Z * nat → nat)).
      rewrite list_fmap_compose, Hlog, fmap_add_seq, Nat.add_0_r.
      by replace (npieces content sz - k)%nat with (npieces (restOf k) sz) by lia.
    + rewrite Hpm, <-list_fmap_compose. f_equal. apply list_fmap_ext. intros _ [z j] _. simpl. by rewrite recordAt_rest.
Qed.

(** What [startWriter] does with the pool's result. *)
Lemma startWriter_runs k sched lim s f pm c r :
  store_inv s → stores s id f → partial k f → registered id pm → 0 < lim →
  writerOf k lim sched (mkCdn s pm) = Ok (Some (c, r)) →
  written_full k f s (cdn_store c) pm (cdn_progress c) ∧
  r = match getPieceMd5Sign id (cdn_store c) with
      | inl e => inl e
      | inr (sign, _) =>
          inr (mkDownloadMetadata (Z.of_nat (length (restOf k))) (Z.of_nat len) (Z.of_nat len)
                 (Z.of_nat (npieces content sz)) sign realDigest)
      end.
Proof.
  intros Hinv Hst Hpa Hreg Hlim Hw. pose proof (writer_pre _ _ _ Hinv Hst Hpa) as Hpre.
  destruct (co_size Hco) as (Hsz & Hs & Hs31). unfold writerOf, startWriter, doWrite in Hw.
  rewrite (proj2 (Z.eqb_neq _ 0)) in Hw by lia. cbn [mbind outcome_bind] in Hw.
  set (n := calculateRoutineCount _ _ _) in Hw.
  destruct (runPool t sched _) as [pl|] eqn:Hrun; [|done]. cbn [mbind option_bind] in Hw.
  destruct (poolResult pl) as [res|] eqn:Hres; [|done]. cbn [mbind option_bind] in Hw.
  pose proof (newPool_inv t _ k sz s _ pm (hash_Write (take (k * sz) content) <$> (digestOf t).1) Hpre n) as Hi0.
  destruct (runPool_inv t _ k sz s _ pm _ Hpre Hreg _ _ _ _ _ _ _ Hi0 Hrun) as (m' & f' & ws' & log' & Hi & _).
  destruct (pool_result _ _ _ _ _ _ _ _ Hpre Hreg _ _ _ _ _ _ Hi Hres) as (-> & Hdig & Hpost).
  pose proof (written_of_post _ _ _ _ _ Hpa Hpost) as Hwf.
  pose proof Hwf as (Hfr & (rs & Hrs & Hst') & _). pose proof (pa_length _ _ Hpa) as Hl.
  rewrite (Stat_law id _ _ (proj1 Hfr) (co_id Hco) Hst'), Hdig in Hw. cbn [si_Size tf_data] in Hw. injection Hw as <- <-.
  split; [done|]. destruct (getPieceMd5Sign _ _) as [|[sign ?]]; [done|]. do 2 f_equal.
  - rewrite length_drop. pose proof (co_fit Hco). rewrite int64_small by lia. lia.
  - by rewrite npieces_rest by lia.
  - unfold realDigest, fileDigest. f_equal. destruct (digestOf t).1 as [h|]; [|done]. simpl. f_equal.
    unfold hash_Write. simpl. by rewrite <-(assoc_L (++)), take_drop.
Qed.

Lemma startWriter_returns k lim s f pm :
  store_inv s → stores s id f → partial k f → registered id pm → 0 < lim →
  (∀ sched, ∃ o, writerOf k lim sched (mkCdn s pm) = Ok o) ∧
  ∃ sched r, writerOf k lim sched (mkCdn s pm) = Ok (Some r).
Proof.
  intros Hinv Hst Hpa Hreg Hlim. pose proof (writer_pre _ _ _ Hinv Hst Hpa) as Hpre.
  destruct (co_size Hco) as (Hsz & Hs & Hs31). unfold writerOf, startWriter, doWrite.
  rewrite (proj2 (Z.eqb_neq _ 0)) by lia. cbn [mbind outcome_bind]. split; [by eexists|].
  pose proof (routineCount_pos k lim ltac:(destruct (pa_length _ _ Hpa); lia) Hlim) as Hn.
  set (n := calculateRoutineCount _ _ _) in *.
  pose proof (newPool_inv t _ k sz s _ pm (hash_Write (take (k * sz) content) <$> (digestOf t).1) Hpre n) as Hi0.
  destruct (pool_finishes _ _ _ _ _ _ _ _ Hpre Hreg _ _ _ _ _ Hi0) as (sched & pl & Hrun & [r Hr]).
  { destruct (Z.to_nat n) eqn:Hz; [lia|done]. }
  exists sched. rewrite Hrun. cbn [mbind option_bind]. rewrite Hr. cbn [mbind option_bind]. by eexists.
Qed.

(** Nothing is recorded of a resource without content. *)
Lemma startWriter_empty sched lim s f pm c r :
  content = [] → store_inv s → stores s id f → partial 0 f → registered id pm → 0 < lim →
  writerOf 0 lim sched (mkCdn s pm) = Ok (Some (c, r)) → ∃ e, r = inl e.
Proof.
  intros Hnil Hinv Hst Hpa Hreg Hlim Hw.
  destruct (startWriter_runs _ _ _ _ _ _ _ _ Hinv Hst Hpa Hreg Hlim Hw) as [(Hfr & (rs & Hrs & Hst') & _) ->].
  unfold getPieceMd5Sign. destruct (ReadRecords_law id _ _ (proj1 Hfr) (co_id Hco) Hst') as [_ Hread].
  destruct Hread as [e He].
  - simpl. assert (npieces content sz = 0%nat) as Hnp.
    { rewrite Hnil. unfold npieces. simpl. destruct (co_size Hco) as (_ & Hs & _). apply Nat.div_small. lia. }
    unfold recordsOf in Hrs. rewrite Hnp in Hrs. by apply Permutation_nil_r in Hrs.
  - rewrite He. by eexists.
Qed.

(** ** The source and the reports *)

(** The range that is asked for: that of the task, or the rest behind the
    first pieces of a task without a range. *)
Definition rangeFrom (k : nat) : option string :=
  match k with
  | O => if IsBlank (st_Range t) then None else Some (st_Range t)
  | _ => Some (fmt_Sprint (Z.of_nat (k * sz)) +:+ String "-" (fmt_Sprint (Z.of_nat len - 1)))
  end.

(** The source delivers the content from there on. *)
Definition source_serves (k : nat) : Prop :=
  ∃ lastModified etag,
    source_Download (mkSourceRequest (st_RawURL t) (st_Header t) (rangeFrom k)) =
      inr (mkSourceResponse (mkStream (restOf k) None) lastModified etag).

(** The pieces from number [k] on are published, each once, in some order. *)
Definition published_full (k : nat) (pm pm' : ProgressManager) : Prop :=
  ∃ log, log.*2 ≡ₚ seq k (npieces content sz - k) ∧
    pm' = publishAll id ((λ x, (x.1, convertPieceMeta2SeedPiece (recordAt t content 0 sz x.2))) <$> log) pm.

(** More than nothing is asked for only without a range, and of a known length. *)
Definition resumable (k : nat) : Prop :=
  k = 0%nat ∨ (k * sz < len)%nat ∧ IsBlank (st_Range t) = true ∧ st_SourceFileLength t = Z.of_nat len.

Lemma IsBlank_Sprint z s : 0 <= z → IsBlank (fmt_Sprint z +:+ s) = false.
Proof.
  intros Hz. destruct (Sprint_ok z Hz) as [Hd Hne]. destruct (fmt_Sprint z) as [|c u]; [done|].
  destruct Hd as [Hc _]. change (String c u +:+ s) with (String c (u +:+ s)). cbn [IsBlank].
  by rewrite (isSpace_digit c).
Qed.

Lemma break_range k : resumable k →
  ∃ r, (if 0 <? Z.of_nat (k * sz) then getBreakRange (Z.of_nat (k * sz)) (st_Range t) (st_SourceFileLength t)
        else inr (st_Range t)) = inr r ∧ (if IsBlank r then None else Some r) = rangeFrom k.
Proof.
  intros [->|(Hk & Hb & Hl)]; [by eexists|]. destruct k as [|k]; [by eexists|].
  destruct (co_size Hco) as (_ & Hs & _). pose proof (co_fit Hco).
  rewrite (proj2 (Z.ltb_lt 0 _)) by nia. unfold getBreakRange. rewrite Hb, Hl.
  rewrite !(proj2 (Z.leb_gt _ 0)) by nia. simpl orb. cbv iota. rewrite int64_small by lia. eexists. split; [done|].
  by rewrite IsBlank_Sprint by lia.
Qed.

Lemma cdn_download_ok k s f m :
  store_inv s → stores s id f → tf_meta f = Some m → resumable k → source_serves k →
  ∃ s' e, cdn_download t (Z.of_nat (k * sz)) s = (s', inr (mkStream (restOf k) None)) ∧ framed id s s' ∧
    stores s' id (mkTaskFiles (tf_data f) (Some (set_fm_ExpireInfo e m)) (tf_records f) (tf_closed f)).
Proof.
  intros Hinv Hst Hm Hres (lm & et & Hsrc). unfold cdn_download. destruct (break_range k Hres) as (r & -> & ->).
  rewrite (co_url Hco). cbn [negb]. rewrite Hsrc.
  cbn [negb sr_LastModified sr_ETag sr_Body]. unfold updateExpireInfo.
  destruct (modifyMetadata_ok id _ (set_fm_ExpireInfo (<[LastModified := lm]> {[ETag := et]})) m s Hinv (co_id Hco) Hst
    Hm) as (s' & He & Hfr & Hst').
  rewrite He. exists s'. eexists. split; [done|]. split; [done|]. exact Hst'.
Qed.

Lemma partial_meta k f m : partial k f → partial k (mkTaskFiles (tf_data f) m (tf_records f) (tf_closed f)).
Proof. by intros []. Qed.

Lemma checkMetadata_new nowMs : checkMetadata t (metadataOf nowMs t) = None.
Proof. unfold checkMetadata, metadataOf. simpl. by rewrite !bool_decide_eq_true_2. Qed.

(** The pieces that were found are published in their order. *)
Lemma reportDetectResult_ok now rs (s : St) pm : registered id pm →
  reportDetectResult now id rs (mkCdn s pm) =
    (mkCdn s (publishAll id ((λ r, (now, convertPieceMeta2SeedPiece r)) <$> rs) pm), None).
Proof.
  revert pm. induction rs as [|r rs IH]; intros pm Hreg; [done|]. simpl. unfold reportPieceMetaRecord.
  destruct (PublishPiece_registered now id (convertPieceMeta2SeedPiece r) pm Hreg) as [He Hreg'].
  cbn [cdn_progress cdn_store]. destruct (PublishPiece _ _ _ pm) as [pm1 err]. simpl in He, Hreg' |- *. subst err. simpl.
  by apply IH.
Qed.

Lemma touch_ok s f m now :
  store_inv s → stores s id f → tf_meta f = Some m →
  ∃ s' interval, (updateAccessTime id now s).1 = s' ∧ framed id s s' ∧
    stores s' id (mkTaskFiles (tf_data f) (Some (set_fm_Access now interval m)) (tf_records f) (tf_closed f)).
Proof.
  intros Hinv Hst Hm. unfold updateAccessTime.
  match goal with |- context [modifyMetadata _ ?g _] =>
    destruct (modifyMetadata_ok id _ g m s Hinv (co_id Hco) Hst Hm) as (s' & He & Hfr & Hst') end.
  rewrite He. exists s'. by eexists.
Qed.

(** ** What is detected of the first pieces *)

(** The fields of a record; any storage will do. *)
Lemma record_fields s f pm j : store_inv s → stores s id f → tf_closed f = true → (length (tf_data f) ≤ len)%nat →
  registered id pm → (S j * sz ≤ len)%nat →
  recordAt t content 0 sz j =
    let range := mkByteRange (Z.of_nat (j * sz)) (Z.of_nat (S j * sz) - 1) in
    mkPieceMetaRecord (Z.of_nat j) (Z.of_nat sz) (Md5Bytes (chunk content sz j)) range range 0.
Proof.
  intros Hinv Hst Hcl Hl Hreg Hj. destruct (co_size Hco) as (Hsz & Hs & Hs31). pose proof (co_fit Hco).
  assert (pool_pre t content 0 sz s f) as Hpre.
  { split; try done; [apply (co_count Hco)|apply (co_id Hco)|lia]. }
  rewrite (recordAt_eq t content 0 sz s f pm None Hpre) by lia.
  rewrite (chunk_length t content 0 sz s f pm None Hpre). cbv zeta.
  replace (Nat.min sz (len - j * sz)) with sz by lia. simpl (0 + j)%nat.
  by replace (j * sz + sz)%nat with (S j * sz)%nat by lia.
Qed.

Lemma checkRecords_ok s f pm k n i h bp :
  store_inv s → stores s id f → partial k f → registered id pm → (i + n = k)%nat →
  checkRecords (Z.of_nat i) (recordAt t content 0 sz <$> seq i n) (drop (i * sz) (tf_data f)) (Some h) bp =
    Ok (if decide (n = 0%nat) then bp else Z.of_nat (k * sz), recordAt t content 0 sz <$> seq i n,
        Some (hash_Write (take (n * sz) (drop (i * sz) content)) h)).
Proof.
  intros Hinv Hst Hpa Hreg. pose proof Hpa as [Hcl _ Hpf Hl]. destruct (co_size Hco) as (Hsz & Hs & Hs31).
  revert i h bp. induction n as [|n IH]; intros i h bp Hk.
  { simpl. by rewrite hash_Write_nil. }
  cbn [seq]. rewrite fmap_cons. cbn [checkRecords]. pose proof (co_count Hco i ltac:(nia)). pose proof (co_fit Hco).
  assert (Hrec := record_fields s f pm i Hinv Hst Hcl ltac:(lia) Hreg ltac:(nia)). cbv zeta in Hrec.
  rewrite uint32_small by lia. rewrite pmr_PieceNum_recordAt, Z.eqb_refl. cbn [negb].
  assert (take sz (drop (i * sz) (tf_data f)) = chunk content sz i) as Hchunk.
  { unfold chunk. rewrite !take_drop_commute. f_equal. replace (i * sz + sz)%nat with (Nat.min (i * sz + sz) (k * sz)) by nia.
    by rewrite <-!take_take, Hpf. }
  assert (checkPieceContent (drop (i * sz) (tf_data f)) (recordAt t content 0 sz i) (Some h) =
    Ok (drop (S i * sz) (tf_data f), Some (hash_Write (chunk content sz i) h), None)) as ->.
  { unfold checkPieceContent. rewrite Hrec. cbn [pmr_PieceLen pmr_Md5]. rewrite Nat2Z.id, Hchunk.
    assert (length (chunk content sz i) = sz) as Hcl'.
    { rewrite <-Hchunk, length_take, length_drop. nia. }
    rewrite drop_drop. replace (i * sz + sz)%nat with (S i * sz)%nat by lia. rewrite Hcl', Z.eqb_refl.
    rewrite bool_decide_eq_true_2 by done. cbn [negb fmap option_fmap option_map].
    by destruct (chunk content sz i). }
  cbn [mbind outcome_bind]. rewrite Hrec at 1. cbn [pmr_OriginRange EndIndex].
  replace (Z.of_nat i + 1) with (Z.of_nat (S i)) by lia. rewrite IH by lia. cbn [mbind outcome_bind].
  rewrite (decide_False (P := S n = 0%nat)) by lia. do 2 f_equal; [f_equal|].
  - case_decide; [|done]. rewrite uint64_small, int64_small by nia. nia.
  - rewrite hash_Write_app. do 2 f_equal. unfold chunk.
    replace (S i * sz)%nat with (i * sz + sz)%nat by lia. rewrite <-drop_drop, take_take_drop. f_equal.
Qed.

(** Behind an interrupted download the first pieces are found. *)
Lemma detect_partial k s f m h pm :
  store_inv s → stores s id f → partial k f → (0 < k)%nat → tf_meta f = Some m → checkMetadata t m = None →
  fm_Finish m = false → registered id pm →
  (∀ lastModified etag, IsExpired (mkSourceRequest (st_RawURL t) (st_Header t) None) lastModified etag = false) →
  IsSupportRange (mkSourceRequest (st_RawURL t) (st_Header t) (Some "0-0"%string)) = inr true →
  doDetect t (Some h) s =
    Ok (s, Some (hash_Write (take (k * sz) content) h),
        inr (mkCacheResult (Z.of_nat (k * sz)) (recordAt t content 0 sz <$> seq 0 k) m)).
Proof.
  intros Hinv Hst Hpa Hk Hm Hck Hfin Hreg Hexp Hsup. pose proof (co_id Hco) as Hid. unfold doDetect.
  rewrite (Stat_law id _ s Hinv Hid Hst), (ReadMetadata_law id _ m s Hinv Hid Hst Hm), Hck, (co_url Hco), Hexp.
  cbn [negb]. rewrite Hfin, Hsup. unfold detectByReadFile, readPieceMetaRecords.
  rewrite (ReadDownload_law id _ s Hinv Hid Hst). destruct (ReadRecords_law id _ s Hinv Hid Hst) as [Hread _].
  assert (sortRecords (tf_records f) = recordAt t content 0 sz <$> seq 0 k) as Hsort.
  { apply sortRecords_unique; [apply (pa_records _ _ Hpa)|]. apply records_sorted. }
  rewrite Hread, Hsort.
  2: { intros Hnil. pose proof (pa_records _ _ Hpa) as Hr. rewrite Hnil in Hr. symmetry in Hr.
       apply Permutation_nil_r, fmap_nil_inv in Hr. by destruct k; [lia|]. }
  pose proof (checkRecords_ok s f pm k k 0 h 0 Hinv Hst Hpa Hreg eq_refl) as Hc.
  simpl (0 * sz)%nat in Hc. rewrite !drop_0 in Hc. rewrite decide_False in Hc by lia.
  change (Z.of_nat 0) with 0 in Hc. rewrite Hc. cbn [mbind outcome_bind].
  by rewrite bool_decide_eq_true_2 by done.
Qed.

(** ** Content *)

Context (Hne : content ≠ []).

Lemma npieces_pos : (0 < npieces content sz)%nat.
Proof.
  destruct (co_size Hco) as (_ & Hs & _). unfold npieces.
  apply Nat.div_str_pos. destruct content; [done|simpl; lia].
Qed.

Lemma recordsOf_nonempty : recordsOf ≠ [].
Proof. pose proof npieces_pos. unfold recordsOf. by destruct (npieces content sz); [lia|]. Qed.

Definition resultOf (k : nat) : downloadMetadata :=
  mkDownloadMetadata (Z.of_nat (length (restOf k))) (Z.of_nat len) (Z.of_nat len) (Z.of_nat (npieces content sz))
    (md5Sign recordsOf) realDigest.

Lemma startWriter_ok k sched lim s f pm c r :
  store_inv s → stores s id f → partial k f → registered id pm → 0 < lim →
  writerOf k lim sched (mkCdn s pm) = Ok (Some (c, r)) →
  r = inr (resultOf k) ∧ written_full k f s (cdn_store c) pm (cdn_progress c).
Proof.
  intros Hinv Hst Hpa Hreg Hlim Hw.
  destruct (startWriter_runs _ _ _ _ _ _ _ _ Hinv Hst Hpa Hreg Hlim Hw) as [Hpost ->].
  split; [|done]. destruct Hpost as (Hfr & (rs & Hrs & Hst') & _). unfold getPieceMd5Sign.
  destruct (ReadRecords_law id _ _ (proj1 Hfr) (co_id Hco) Hst') as [Hread _]. simpl in Hread. rewrite Hread.
  - by rewrite (sorted_records rs Hrs).
  - intros ->. symmetry in Hrs. apply Permutation_nil_r in Hrs. by apply recordsOf_nonempty.
Qed.

Lemma checkResult_ok k : checkResult t (resultOf k) = None.
Proof.
  unfold checkResult, resultOf. cbn [dm_sourceRealDigest dm_realSourceFileLength dm_totalPieceCount].
  assert (negb (IsBlank (st_Digest t)) && negb (bool_decide (st_Digest t = realDigest)) = false) as ->.
  { destruct (co_digest Hco) as [->|Hd]; [done|]. rewrite bool_decide_eq_true_2 by done. by rewrite andb_false_r. }
  assert ((0 <=? st_SourceFileLength t) && negb (st_SourceFileLength t =? Z.of_nat len) = false) as ->.
  { destruct (co_length Hco) as [Hl|Hl]; [by rewrite (proj2 (Z.leb_gt 0 _)) by lia|].
    by rewrite Hl, Z.eqb_refl, andb_false_r. }
  assert ((0 <? st_TotalPieceCount t) && negb (Z.of_nat (npieces content sz) =? st_TotalPieceCount t) = false) as ->;
    [|done].
  destruct (co_total Hco) as [Ht|Ht]; [by rewrite (proj2 (Z.ltb_ge 0 _)) by lia|].
  by rewrite Ht, Z.eqb_refl, andb_false_r.
Qed.

(** The algorithm of the digest is one of those that are known. *)
Lemma realDigest_not_blank : IsBlank realDigest = false.
Proof.
  destruct fileDigest as [h|] eqn:Hf.
  { unfold realDigest, LimitReader_Digest. rewrite Hf. by destruct (digestOf t).2 as [[]|]. }
  exfalso. assert (IsBlank (st_Digest t) = true) as Hb.
  { destruct (co_digest Hco) as [|Hd]; [done|]. rewrite Hd. unfold realDigest. by rewrite Hf. }
  unfold fileDigest, digestOf in Hf. by rewrite Hb in Hf.
Qed.

Lemma metadata_result k m : checkMetadata t m = None →
  metadata_full (mergeResult (resultMetadata t (resultOf k) true) m).
Proof.
  intros Hck. unfold mergeResult, resultMetadata, resultOf.
  cbn [fm_Success fm_TotalPieceCount fm_SourceRealDigest fm_PieceMd5Sign dm_totalPieceCount dm_sourceRealDigest
       dm_pieceMd5Sign dm_realSourceFileLength dm_realCdnFileLength fm_Finish fm_CdnFileLength fm_SourceFileLen].
  pose proof npieces_pos. rewrite (proj2 (Z.ltb_lt 0 _)) by lia.
  rewrite (md5Sign_not_blank _ recordsOf_nonempty).
  rewrite realDigest_not_blank. split; try done.
  split; [done|]. simpl. destruct (co_length Hco) as [Hl| ->].
  - by rewrite (proj2 (Z.leb_le _ 0)) by lia.
  - by destruct (Z.of_nat len <=? 0).
Qed.

Lemma handleCDNResult_ok k m rs s pm :
  store_inv s → checkMetadata t m = None → rs ≡ₚ recordsOf → stores s id (mkTaskFiles content (Some m) rs true) →
  ∃ s', handleCDNResult t (resultOf k) (mkCdn s pm) = (mkCdn s' pm, None) ∧ framed id s s' ∧ stored_full s'.
Proof.
  intros Hinv Hck Hrs Hst. unfold handleCDNResult, onStore, updateStatusAndResult. rewrite checkResult_ok.
  cbn [isSome negb cdn_store].
  destruct (modifyMetadata_ok id _ (mergeResult (resultMetadata t (resultOf k) true)) m s Hinv (co_id Hco) Hst eq_refl)
    as (s' & He & Hfr & Hst'). rewrite He. exists s'. split; [done|]. split; [done|]. split; [apply Hfr|].
  exists rs. eexists. split; [done|]. split; [|exact Hst']. by apply metadata_result.
Qed.

(** What [downloadRest] is called with behind the first [k] pieces. *)
Notation downloadFrom k lim sched c :=
  (downloadRest sched lim t (hash_Write (take (k * sz) content) <$> (digestOf t).1) (digestOf t).2
     (Z.of_nat (k * sz)) c).

Lemma downloadRest_ok k sched lim s f m pm c r :
  store_inv s → stores s id f → partial k f → tf_meta f = Some m → checkMetadata t m = None → registered id pm →
  resumable k → source_serves k → 0 < lim → downloadFrom k lim sched (mkCdn s pm) = Ok (Some (c, r)) →
  r = inr fullInfo ∧ framed id s (cdn_store c) ∧ stored_full (cdn_store c) ∧ published_full k pm (cdn_progress c).
Proof.
  intros Hinv Hst Hpa Hm Hck Hreg Hres Hsrc Hlim Hd. unfold downloadRest in Hd. cbn [cdn_store cdn_progress] in Hd.
  destruct (cdn_download_ok k s f m Hinv Hst Hm Hres Hsrc) as (s1 & e & He & Hf1 & Hs1). rewrite He in Hd.
  destruct (startWriter sched t _ _ _ _ lim (mkCdn s1 pm)) as [[[c2 dm]|]| |] eqn:Hw; try done.
  destruct (startWriter_ok k _ _ _ _ _ _ _ (proj1 Hf1) Hs1 (partial_meta _ _ _ Hpa) Hreg Hlim Hw)
    as (-> & Hf2 & (rs & Hrs & Hs2) & Hlog).
  cbn [mbind outcome_bind option_bind] in Hd. destruct c2 as [s2 pm2]. cbn [cdn_store cdn_progress] in *.
  destruct (handleCDNResult_ok k (set_fm_ExpireInfo e m) rs s2 pm2 (proj1 Hf2) Hck Hrs Hs2) as (s3 & Hh & Hf3 & Hfull).
  rewrite Hh in Hd. injection Hd as <- <-. split; [done|]. split; [|split; [done|exact Hlog]].
  eapply framed_trans; [exact Hf1|]. eapply framed_trans; [exact Hf2|exact Hf3].
Qed.

Lemma downloadRest_returns k lim s f m pm :
  store_inv s → stores s id f → partial k f → tf_meta f = Some m → registered id pm →
  resumable k → source_serves k → 0 < lim →
  (∀ sched, ∃ o, downloadFrom k lim sched (mkCdn s pm) = Ok o) ∧
  ∃ sched r, downloadFrom k lim sched (mkCdn s pm) = Ok (Some r).
Proof.
  intros Hinv Hst Hpa Hm Hreg Hres Hsrc Hlim. unfold downloadRest. cbn [cdn_store cdn_progress].
  destruct (cdn_download_ok k s f m Hinv Hst Hm Hres Hsrc) as (s1 & e & He & Hf1 & Hs1).
  destruct (startWriter_returns k lim s1 _ pm (proj1 Hf1) Hs1 (partial_meta _ _ _ Hpa) Hreg Hlim)
    as [Hall (sched & [c2 dm] & Hw)]. unfold writerOf in *. split.
  - intros sched'. rewrite He. destruct (Hall sched') as [o ->]. by eexists.
  - exists sched. rewrite He, Hw. by eexists.
Qed.

(** ** A trigger that finds the content *)

Lemma detect_hit d s rs m :
  store_inv s → rs ≡ₚ recordsOf → metadata_full m → stores s id (mkTaskFiles content (Some m) rs true) →
  (∀ lastModified etag, IsExpired (mkSourceRequest (st_RawURL t) (st_Header t) None) lastModified etag = false) →
  doDetect t d s = Ok (s, d, inr (mkCacheResult (-1) recordsOf m)).
Proof.
  intros Hinv Hrs Hm Hst Hexp. pose proof (co_id Hco) as Hid. unfold doDetect.
  rewrite (Stat_law id _ s Hinv Hid Hst), (ReadMetadata_law id _ m s Hinv Hid Hst eq_refl).
  rewrite (mf_same _ Hm), (co_url Hco), Hexp. cbn [negb]. destruct (mf_finish _ Hm) as [Hfin Hsuc]. rewrite Hfin.
  unfold detectByReadMetaFile. rewrite Hsuc. cbn [negb]. unfold getPieceMd5Sign.
  destruct (ReadRecords_law id _ s Hinv Hid Hst) as [Hread _]. simpl in Hread. rewrite Hread.
  2: { intros ->. symmetry in Hrs. apply Permutation_nil_r in Hrs. by apply recordsOf_nonempty. }
  rewrite (sorted_records rs Hrs), (mf_count _ Hm), (mf_sign _ Hm).
  assert (length recordsOf = npieces content sz) as ->.
  { unfold recordsOf. by rewrite length_fmap, length_seq. }
  rewrite Z.eqb_refl, (bool_decide_eq_true_2 (md5Sign recordsOf = md5Sign recordsOf)) by done.
  simpl negb. rewrite !andb_false_r.
  rewrite (Stat_law id _ s Hinv Hid Hst). simpl. destruct (mf_length _ Hm) as [-> _]. by rewrite Z.eqb_refl.
Qed.

Lemma stored_full_touched s now : stored_full s →
  ∃ s', (updateAccessTime id now s).1 = s' ∧ framed id s s' ∧ stored_full s'.
Proof.
  intros (Hinv & rs & m & Hrs & Hm & Hst). destruct (touch_ok s _ m now Hinv Hst eq_refl) as (s' & i & He & Hfr & Hst').
  exists s'. split; [done|]. split; [done|]. split; [apply Hfr|].
  exists rs, (set_fm_Access now i m). split; [done|]. split; [by destruct Hm; split|done].
Qed.

End Trigger.
