(* ===== verification/CdnDemo.v ===== *)
(** * CdnDemo: a small CDN to evaluate the theorems on

    Instances of the hashes and of the metadata codec with their laws, a source
    that serves one resource, and a CDN with a registered task over an empty
    disk. *)

From S2P Require Import Prelude Text Ranges World FileSystem FileUtils StoreDriver CdnTask CdnStorage DiskStorage DiskLaws.
From S2P Require Import Digests CdnMetadata CdnDetector CdnProgress CdnWriter CdnWriterProperties CdnManager.
From Stdlib Require Import Ascii.
From stdpp Require Import options.
Local Open Scope Z_scope.

(** ** Hashes *)

Fixpoint zeros (n : nat) : string := match n with O => "" | S n => String "0" (zeros n) end.

Definition hexDigit (n : nat) : ascii :=
  nth (n mod 16) ["0"; "1"; "2"; "3"; "4"; "5"; "6"; "7"; "8"; "9"; "a"; "b"; "c"; "d"; "e"; "f"]%char "0"%char.

(** The sum of the bytes in the first digit. *)
#[export] Instance demoHashes : Hashes := λ a bs,
  String (hexDigit (sum_list (Byte.to_nat <$> bs)))
    (zeros (match a with Md5Hash => 31 | Sha256Hash => 63 end)).

Lemma hexDigit_hex n : isHex (hexDigit n) = true.
Proof.
  unfold hexDigit. pose proof (Nat.mod_upper_bound n 16 ltac:(lia)) as Hb. revert Hb.
  generalize (n mod 16)%nat as k. intros k Hk. do 16 (destruct k as [|k]; [done|]). lia.
Qed.

#[export] Instance demoHashes_laws : HashesLaws.
Proof.
  split.
  - intros a bs. unfold hexSum, demoHashes. cbn [allHex]. rewrite hexDigit_hex. by destruct a.
  - intros a bs. by destruct a.
Qed.

(** ** A codec *)

#[export] Instance FileMetadata_eq_dec : EqDecision FileMetadata.
Proof. solve_decision. Defined.

#[export] Instance FileMetadata_countable : Countable FileMetadata.
Proof.
  refine (inj_countable
    (λ m, [encode (fm_TaskID m); encode (fm_TaskURL m); encode (fm_PieceSize m); encode (fm_SourceFileLen m);
           encode (fm_AccessTime m); encode (fm_Interval m); encode (fm_CdnFileLength m); encode (fm_Digest m);
           encode (fm_SourceRealDigest m); encode (fm_Tag m); encode (fm_ExpireInfo m); encode (fm_Finish m);
           encode (fm_Success m); encode (fm_TotalPieceCount m); encode (fm_PieceMd5Sign m); encode (fm_Range m);
           encode (fm_Filter m)])
    (λ l, match l with
          | [a; b; c; d; e; f; g; h; i; j; k; l; m; n; o; p; q] =>
              a ← decode a; b ← decode b; c ← decode c; d ← decode d; e ← decode e; f ← decode f;
              g ← decode g; h ← decode h; i ← decode i; j ← decode j; k ← decode k; l ← decode l;
              m ← decode m; n ← decode n; o ← decode o; p ← decode p; q ← decode q;
              Some (mkFileMetadata a b c d e f g h i j k l m n o p q)
          | _ => None
          end) _).
  intros [a b c d e f g h i j k l m n o p q].
  cbn [fm_TaskID fm_TaskURL fm_PieceSize fm_SourceFileLen fm_AccessTime fm_Interval fm_CdnFileLength fm_Digest
       fm_SourceRealDigest fm_Tag fm_ExpireInfo fm_Finish fm_Success fm_TotalPieceCount fm_PieceMd5Sign fm_Range
       fm_Filter].
  by repeat (rewrite decode_encode; cbn [mbind option_bind]).
Defined.

Fixpoint cdnPrint (p : positive) : list byte :=
  match p with xH => [] | xO p => Byte.x30 :: cdnPrint p | xI p => Byte.x31 :: cdnPrint p end.

Fixpoint cdnParse (l : list byte) : option positive :=
  match l with
  | [] => Some xH
  | Byte.x30 :: rest => xO <$> cdnParse rest
  | Byte.x31 :: rest => xI <$> cdnParse rest
  | _ => None
  end.

#[export] Instance cdnCodec : MetaCodec := {|
  marshalMeta m := cdnPrint (encode m);
  unmarshalMeta l := cdnParse l ≫= decode;
|}.

Lemma cdnParse_print p : cdnParse (cdnPrint p) = Some p.
Proof. induction p as [p IH|p IH|]; simpl; by rewrite ?IH. Qed.

#[export] Instance cdnCodec_laws : MetaCodecLaws.
Proof. split. intros m. simpl. rewrite cdnParse_print. apply decode_encode. Qed.

(** ** A disk *)

Definition demoBase : fpath := ["cdn"].

#[export] Instance demoStore : CdnStore FS := disk_store demoBase.
#[export] Instance demoStore_laws : CdnStoreLaws FS := disk_store_laws demoBase.

Definition demoCdnDisk : FS := mkFS (<[["cdn"] := NodeDir]> {[ [] := NodeDir ]}) ∅ 1.

Lemma demoCdnDisk_inv : store_inv demoCdnDisk.
Proof.
  assert (∀ q n, fs_nodes demoCdnDisk !! q = Some n → n = NodeDir ∧ (q = ["cdn"] ∨ q = [])) as Hall.
  { intros q n. unfold demoCdnDisk. simpl fs_nodes.
    intros [[<- <-]|[_ [<- <-]%lookup_singleton_Some]]%lookup_insert_Some; auto. }
  split.
  - intros q [l Hl]. destruct q as [|x q]; [done|]. injection Hl as <- Hl. destruct q; done.
  - intros rel n Hne Hn. apply Hall in Hn as [_ [Hn|Hn]]; destruct rel; done.
  - intros q ino Hq. apply Hall in Hq as [Hq _]. done.
  - intros q q' ino Hq. apply Hall in Hq as [Hq _]. done.
Qed.

(** ** A source and a task *)

Definition demoContent : list byte := String.list_byte_of_string "0123456789".

#[export] Instance demoSource : CdnSource := {|
  url_Parse _ := true;
  IsExpired _ _ _ := false;
  IsSupportRange _ := inr true;
  source_Download r := inr (mkSourceResponse (mkStream (match sq_Range r with
      | Some range => match GetRange range with
                      | inr br => drop (Z.to_nat (StartIndex br)) demoContent
                      | inl _ => demoContent
                      end
      | None => demoContent
      end) None) "Mon" "v1");
|}.

Definition demoSeedTask : SeedTask :=
  mkSeedTask "abcdef" "http://source/file" "http://source/file" 10 0 4 StatusRunning 3 "" "" "" "tag" "" ""
    None ∅.

Definition demoTasks : TaskManager :=
  mkTaskManager {[ 1%positive := demoSeedTask ]} {[ "abcdef" := 1%positive ]} {[ "abcdef" := 0 ]} ∅.

Definition demoProgress : ProgressManager := mkProgressManager demoTasks ∅ ∅.

Definition demoCdn : Cdn FS := mkCdn demoCdnDisk demoProgress.

Lemma demoSeedTask_id : id_ok "abcdef".
Proof. split; [simpl; lia|done]. Qed.

Lemma demo_registered : registered "abcdef" demoProgress.
Proof. by exists 1%positive. Qed.
