(* ===== verification/CdnCleaner.v ===== *)
(** * CdnCleaner: cdn/supervisor/cdn/storage/storage_gc.go, and the space of the disk

    The cleaner that picks the tasks to collect, against what it calls of a
    driver and of a storage manager, and the collection and [TryFreeSpace] of the disk
    manager.  The free space of the disk and the clock are parameters.  A
    treemap is a map whose values come in the order of their keys. *)

From S2P Require Import Prelude Text World Units FileSystem FileUtils StoreDriver CdnTask CdnStorage DiskStorage.
From Stdlib Require Import Ascii.
From stdpp Require Import options.
Local Open Scope Z_scope.

Record DriverGCConfig := mkDriverGCConfig {
  YoungGCThreshold : Bytes;
  FullGCThreshold : Bytes;
  CleanRatio : Z;              (* int *)
  IntervalThreshold : Z;       (* time.Duration *)
}.

(** [strings.Split(name, ".")[0]] of the last element of a path. *)
Definition taskIDOf (p : fpath) : string :=
  default ""%string (head (strings_Split "." (default ""%string (last p)))).

(** ** treemap.Map with the keys of [Int64Comparator] *)

Notation treemap := (gmap Z (list string)) (only parsing).

Definition keyLe (a b : Z * list string) : Prop := a.1 <= b.1.

#[export] Instance keyLe_dec : RelDecision keyLe.
Proof. intros a b. unfold keyLe. apply _. Defined.
#[export] Instance keyLe_trans : Transitive keyLe.
Proof. intros a b c. unfold keyLe. lia. Qed.
#[export] Instance keyLe_total : Total keyLe.
Proof. intros a b. unfold keyLe. lia. Qed.

Definition treemap_entries (m : treemap) : list (Z * list string) := merge_sort keyLe (map_to_list m).
Definition treemap_Values (m : treemap) : list (list string) := snd <$> treemap_entries m.

Definition treemap_append (key : Z) (taskID : string) (m : treemap) : treemap :=
  <[key := default [] (m !! key) ++ [taskID]]> m.

(** ** The cleaner *)

(** The variables of [GC] that its walk changes. *)
Record GCWalk := mkGCWalk {
  gw_walkTaskIds : gset string;
  gw_gcTaskIDs : list string;
  gw_gapTasks : treemap;
  gw_intervalTasks : treemap;
}.

(** What a cleaner works on: the part of its driver and of its storage manager
    that it calls. *)
Record Cleaner (S : Type) := mkCleaner {
  cl_GetFreeSpace : S → DriverError + Bytes;
  cl_CreateBaseDir : S → S * option DriverError;
  cl_Walk : S → DriverError + list (fpath * Node);
  cl_ReadFileMetadata : string → S → CdnError + FileMetadata;
  cl_StatDownloadFile : string → S → CdnError + StorageInfo;
}.
Arguments mkCleaner {S} _ _ _ _ _.
Arguments cl_GetFreeSpace {S} _ _.
Arguments cl_CreateBaseDir {S} _ _.
Arguments cl_Walk {S} _ _.
Arguments cl_ReadFileMetadata {S} _ _ _.
Arguments cl_StatDownloadFile {S} _ _ _.

Section Cleaner.
Context {S : Type} (cleaner : Cleaner S) (config : DriverGCConfig).
Context (tm : TaskManager) (now : Z).    (* milliseconds *)

Definition millisecond : Z := 1000000.
Definition second : Z := 1000000000.

(** [int64(IntervalThreshold.Seconds()) * int64(time.Millisecond)] *)
Definition intervalThreshold : Z := int64 (Z.quot (IntervalThreshold config) second * millisecond).

Definition cleaner_sortInert (s : S) (metadata : FileMetadata) (w : GCWalk) : GCWalk :=
  let gap := int64 (now - fm_AccessTime metadata) in
  if (0 <? fm_Interval metadata) && (gap <=? int64 (fm_Interval metadata + intervalThreshold)) then
    match cl_StatDownloadFile cleaner (fm_TaskID metadata) s with
    | inl _ => w
    | inr info =>
        mkGCWalk (gw_walkTaskIds w) (gw_gcTaskIDs w) (gw_gapTasks w)
          (treemap_append (si_Size info) (fm_TaskID metadata) (gw_intervalTasks w))
    end
  else
    mkGCWalk (gw_walkTaskIds w) (gw_gcTaskIDs w)
      (treemap_append gap (fm_TaskID metadata) (gw_gapTasks w)) (gw_intervalTasks w).

Definition addGC (taskID : string) (w : GCWalk) : GCWalk :=
  mkGCWalk (gw_walkTaskIds w) (gw_gcTaskIDs w ++ [taskID]) (gw_gapTasks w) (gw_intervalTasks w).

Definition cleaner_walkFn (s : S) (fullGC : bool) (w : GCWalk) (entry : fpath * Node) : GCWalk :=
  let '(path, info) := entry in
  if bool_decide (info = NodeDir) then w
  else
    let taskID := taskIDOf path in
    if bool_decide (taskID ∈ gw_walkTaskIds w) then w
    else
      let w := mkGCWalk ({[taskID]} ∪ gw_walkTaskIds w) (gw_gcTaskIDs w) (gw_gapTasks w) (gw_intervalTasks w) in
      match tm_Exist taskID tm with
      | Some _ => w
      | None =>
          if fullGC then addGC taskID w
          else
            match cl_ReadFileMetadata cleaner taskID s with
            | inl _ => addGC taskID w
            | inr metadata => cleaner_sortInert s metadata w
            end
      end.

(** A slice beyond the tasks is taken as a panic. *)
Definition cleaner_getGCTasks (w : GCWalk) : Outcome (list string) :=
  let gcTasks := concat (treemap_Values (gw_gapTasks w)) ++ concat (treemap_Values (gw_intervalTasks w)) in
  let gcLen := Z.quot (Z.of_nat (length gcTasks) * CleanRatio config + 9) 10 in
  if (0 <=? gcLen) && (gcLen <=? Z.of_nat (length gcTasks)) then Ok (take (Z.to_nat gcLen) gcTasks)
  else Panic IndexOutOfRange.

(** The free space, once the base directory is there. *)
Definition cleaner_freeSpace (s : S) : S * (CdnError + Bytes) :=
  match cl_GetFreeSpace cleaner s with
  | inr free => (s, inr free)
  | inl e =>
      if isNotExist e then
        match cl_CreateBaseDir cleaner s with
        | (s, Some e) => (s, inl (ErrDriver e))
        | (s, None) => (s, match cl_GetFreeSpace cleaner s with inl e => inl (ErrDriver e) | inr free => inr free end)
        end
      else (s, inl (ErrDriver e))
  end.

Definition cleaner_GC (force : bool) (s : S) : Outcome (S * (CdnError + list string)) :=
  match cleaner_freeSpace s with
  | (s, inl e) => Ok (s, inl e)
  | (s, inr freeSpace) =>
      if negb force && (YoungGCThreshold config <? freeSpace) then Ok (s, inr [])
      else
        let fullGC := force || (freeSpace <=? FullGCThreshold config) in
        match cl_Walk cleaner s with
        | inl e => Ok (s, inl (ErrDriver e))
        | inr entries =>
            let w := foldl (cleaner_walkFn s fullGC) (mkGCWalk ∅ [] ∅ ∅) entries in
            if fullGC then Ok (s, inr (gw_gcTaskIDs w))
            else
              ids ← cleaner_getGCTasks w;
              Ok (s, inr (gw_gcTaskIDs w ++ ids))
        end
  end.

End Cleaner.

(** ** The space of a driver *)

(** The bytes still to come for the tasks of the files: the walk of [TryFreeSpace]. *)
Definition remainderOf (tm : TaskManager) (fs : FS) (acc : Z) (entry : fpath * Node) : Z :=
  let '(path, info) := entry in
  if IsRegular fs path then
    match tm_Exist (taskIDOf path) tm with
    | Some seedTask =>
        let totalLen := if 0 <? st_CdnFileLength seedTask then st_CdnFileLength seedTask
                        else st_SourceFileLength seedTask in
        if 0 <? totalLen then int64 (acc + int64 (totalLen - lstatSize fs info)) else acc
    | None => acc
    end
  else acc.

Definition enoughSpace (free remainder fileLength : Z) : bool :=
  int64 (fileLength + 5 * GB) <? int64 (free - remainder).

(** [TryFreeSpace], which both storage managers have. *)
Definition tryFreeSpace (cleaner : Cleaner FS) (config : DriverGCConfig) (tm : TaskManager) (now fileLength : Z) (fs : FS)
    : Outcome (FS * (CdnError + bool)) :=
  let remainder fs entries := foldl (remainderOf tm fs) 0 entries in
  match cl_GetFreeSpace cleaner fs with
  | inl e => Ok (fs, inl (ErrDriver e))
  | inr free =>
      if (100 * GB <? free) && (fileLength <? free) then Ok (fs, inr true)
      else
        match cl_Walk cleaner fs with
        | inl e => Ok (fs, inl (ErrDriver e))
        | inr entries =>
            if enoughSpace free (remainder fs entries) fileLength then Ok (fs, inr true)
            else
              '(fs, r) ← cleaner_GC cleaner config tm now true fs;
              match r with
              | inl e => Ok (fs, inl e)
              | inr _ =>
                  match cl_Walk cleaner fs with
                  | inl e => Ok (fs, inl (ErrDriver e))
                  | inr entries =>
                      match cl_GetFreeSpace cleaner fs with
                      | inl e => Ok (fs, inl (ErrDriver e))
                      | inr free => Ok (fs, inr (enoughSpace free (remainder fs entries) fileLength))
                      end
                  end
              end
        end
  end.

(** ** disk.go *)

Section Disk.
Context (BaseDir : fpath) `{MetaCodec} (config : DriverGCConfig).
(** What [statfs] answers. *)
Context (freeSpace : FS → DriverError + Bytes).

(** The walk of a driver over all of its files. *)
Definition walkAll (fs : FS) : DriverError + list (fpath * Node) :=
  driver_Walk BaseDir fs (mkRaw "" [] 0 0 false 0 false).

Definition diskCleaner : Cleaner FS :=
  mkCleaner freeSpace (driver_CreateBaseDir BaseDir) walkAll (disk_ReadFileMetadata BaseDir)
    (disk_StatDownloadFile BaseDir).

(** The loop of [GC]; [tmAt] is the task manager when the lock of a task is held. *)
Fixpoint collectTasks (tmAt : string → TaskManager) (taskIDs : list string) (fs : FS) : FS :=
  match taskIDs with
  | [] => fs
  | taskID :: taskIDs =>
      match tm_Exist taskID (tmAt taskID) with
      | Some _ => collectTasks tmAt taskIDs fs
      | None => collectTasks tmAt taskIDs (disk_DeleteTask BaseDir taskID fs).1
      end
  end.

Definition disk_GC (tm : TaskManager) (now : Z) (tmAt : string → TaskManager) (fs : FS) : Outcome FS :=
  '(fs, r) ← cleaner_GC diskCleaner config tm now false fs;
  Ok (match r with inl _ => fs | inr taskIDs => collectTasks tmAt taskIDs fs end).

Definition disk_TryFreeSpace := tryFreeSpace diskCleaner config.

End Disk.
