(* ===== verification/CdnCleanerProperties.v ===== *)
(** * CdnCleanerProperties: what a collection of the CDN's disk removes

    A collection removes tasks that are not in use, and all of them when the
    disk is full; when it is not, it starts with the tasks that were used last.
    [TryFreeSpace] frees nothing. *)

From S2P Require Import Prelude Text World Units FileSystem FileUtils StoreDriver CdnTask CdnStorage DiskStorage.
From S2P Require Import DiskLaws CdnCleaner CdnDemo.
From Stdlib Require Import Ascii.
From stdpp Require Import options.
Local Open Scope Z_scope.

Definition unused (tm : TaskManager) (id : string) : Prop := tm_Exist id tm = None.

(** A file belongs to a task, and its metadata names it. *)
Definition tidyEntry (read : string → CdnError + FileMetadata) (e : fpath * Node) : Prop :=
  e.2 ≠ NodeDir → id_ok (taskIDOf e.1) ∧ ∀ m, read (taskIDOf e.1) = inr m → fm_TaskID m = taskIDOf e.1.

(** ** The walk *)

Section Walk.
Context {S : Type} (cleaner : Cleaner S) (config : DriverGCConfig) (tm : TaskManager) (now : Z) (s : S).
#[local] Set Default Proof Using "Type".

Definition hasFile (entries : list (fpath * Node)) (id : string) : Prop :=
  ∃ e, e ∈ entries ∧ e.2 ≠ NodeDir ∧ taskIDOf e.1 = id.

Definition gapOf (m : FileMetadata) : Z := int64 (now - fm_AccessTime m).

(** The task is refreshed often enough to be kept longer. *)
Definition inert (m : FileMetadata) : bool :=
  (0 <? fm_Interval m) && (gapOf m <=? int64 (fm_Interval m + intervalThreshold config)).

(** The tasks that the walk takes at once, that it sorts by their gap, and that
    it keeps for later. *)
Definition atOnce (fullGC : bool) (id : string) : Prop :=
  unused tm id ∧ (fullGC = true ∨ ∃ e, cl_ReadFileMetadata cleaner id s = inl e).
Definition byGap (fullGC : bool) (k : Z) (id : string) : Prop :=
  unused tm id ∧ fullGC = false ∧ ∃ m, cl_ReadFileMetadata cleaner id s = inr m ∧ inert m = false ∧ k = gapOf m.
Definition later (fullGC : bool) (id : string) : Prop :=
  unused tm id ∧ fullGC = false ∧ ∃ m, cl_ReadFileMetadata cleaner id s = inr m ∧ inert m = true.

Record walk_ok (fullGC : bool) (w : GCWalk) : Prop := {
  wo_gc : ∀ id, id ∈ gw_gcTaskIDs w ↔ id ∈ gw_walkTaskIds w ∧ atOnce fullGC id;
  wo_gap : ∀ k id, id ∈ default [] (gw_gapTasks w !! k) ↔ id ∈ gw_walkTaskIds w ∧ byGap fullGC k id;
  wo_interval : ∀ k id, id ∈ default [] (gw_intervalTasks w !! k) → id ∈ gw_walkTaskIds w ∧ later fullGC id;
}.

Lemma seen_without (Q : string → Prop) id id' (X : gset string) : ¬ Q id →
  id' ∈ {[id]} ∪ X ∧ Q id' ↔ id' ∈ X ∧ Q id'.
Proof. intros Hn. rewrite elem_of_union, elem_of_singleton. split; [intros [[->|?] ?]; done|intros []; auto]. Qed.

Lemma seen_with (Q : string → Prop) id id' (X : gset string) : Q id →
  id' ∈ {[id]} ∪ X ∧ Q id' ↔ id' = id ∨ id' ∈ X ∧ Q id'.
Proof.
  intros Hq. rewrite elem_of_union, elem_of_singleton. split; [intros [[->|?] ?]; auto|].
  intros [->|[]]; auto.
Qed.

Lemma treemap_append_elem k id k' id' m :
  id' ∈ default [] (treemap_append k id m !! k') ↔ (k' = k ∧ id' = id) ∨ id' ∈ default [] (m !! k').
Proof.
  unfold treemap_append. destruct (decide (k' = k)) as [->|Hne].
  - rewrite lookup_insert_eq. simpl. rewrite elem_of_app, list_elem_of_singleton. naive_solver.
  - rewrite lookup_insert_ne by done. naive_solver.
Qed.

Definition see (id : string) (w : GCWalk) : GCWalk :=
  mkGCWalk ({[id]} ∪ gw_walkTaskIds w) (gw_gcTaskIDs w) (gw_gapTasks w) (gw_intervalTasks w).

(** A task that is neither taken nor sorted. *)
Lemma see_ok fullGC w id : walk_ok fullGC w → ¬ atOnce fullGC id → (∀ k, ¬ byGap fullGC k id) →
  walk_ok fullGC (see id w).
Proof.
  intros [Hg Hp Hi] H1 H2. split; simpl.
  - intros id'. by rewrite Hg, seen_without.
  - intros k id'. by rewrite Hp, seen_without.
  - intros k id' [? ?]%Hi. split; [set_solver|done].
Qed.

Lemma addGC_ok fullGC w id : walk_ok fullGC w → atOnce fullGC id → (∀ k, ¬ byGap fullGC k id) →
  walk_ok fullGC (addGC id (see id w)).
Proof.
  intros [Hg Hp Hi] H1 H2. split; simpl.
  - intros id'. rewrite seen_with, elem_of_app, Hg, list_elem_of_singleton by done. apply or_comm.
  - intros k id'. by rewrite Hp, seen_without.
  - intros k id' [? ?]%Hi. split; [set_solver|done].
Qed.

Lemma sortInert_ok w m id : walk_ok false w → unused tm id → cl_ReadFileMetadata cleaner id s = inr m → fm_TaskID m = id →
  walk_ok false (cleaner_sortInert cleaner config now s m (see id w)).
Proof.
  intros Hw Hu Hr Hid. assert (¬ atOnce false id) as Hn by (intros [_ [?|[e ?]]]; congruence).
  unfold cleaner_sortInert. fold (gapOf m). fold (inert m). rewrite Hid. destruct (inert m) eqn:Hin.
  - assert (walk_ok false (see id w)) as Hw1.
    { apply see_ok; [done..|]. intros k (_ & _ & m' & Hr' & Hin' & _). congruence. }
    destruct (cl_StatDownloadFile cleaner id s); [done|]. destruct Hw1 as [Hg1 Hp1 Hi1]. split; simpl; [done..|].
    intros k id'. rewrite treemap_append_elem. intros [[-> ->]|Hk]; [|by eapply Hi1].
    split; [set_solver|]. split; [done|]. split; [done|]. by exists m.
  - destruct Hw as [Hg Hp Hi]. split; simpl.
    + intros id'. by rewrite Hg, seen_without.
    + intros k id'. rewrite treemap_append_elem, Hp. destruct (decide (k = gapOf m)) as [->|Hk].
      * rewrite (seen_with (byGap false (gapOf m))) by (split; [done|]; split; [done|]; by exists m). tauto.
      * rewrite seen_without; [tauto|]. intros (_ & _ & m' & Hr' & _ & Hk'). congruence.
    + intros k id' [? ?]%Hi. split; [set_solver|done].
Qed.

Lemma walkFn_ok fullGC w e : tidyEntry (λ id, cl_ReadFileMetadata cleaner id s) e → walk_ok fullGC w → walk_ok fullGC (cleaner_walkFn cleaner config tm now s fullGC w e).
Proof.
  destruct e as [path info]. intros Htidy Hw. unfold cleaner_walkFn. case_bool_decide as Hd; [done|].
  destruct (Htidy Hd) as [_ Hname]. simpl in Hname. set (id := taskIDOf path) in *.
  case_bool_decide as Hseen; [done|]. fold (see id w). destruct (tm_Exist id tm) eqn:Hu.
  { apply see_ok; [done|..]; unfold atOnce, byGap, unused; rewrite Hu; (by intros []) || (by intros ? []). }
  destruct fullGC.
  { apply addGC_ok; [done|split; [done|by left]|]. by intros k (_ & ? & _). }
  destruct (cl_ReadFileMetadata cleaner id s) as [err|m] eqn:Hr.
  { apply addGC_ok; [done|split; [done|right; by eauto]|]. intros k (_ & _ & m & Hr' & _). congruence. }
  apply sortInert_ok; auto.
Qed.

Lemma walk_seen fullGC entries w id :
  id ∈ gw_walkTaskIds (foldl (cleaner_walkFn cleaner config tm now s fullGC) w entries) ↔
  id ∈ gw_walkTaskIds w ∨ hasFile entries id.
Proof.
  revert w. induction entries as [|[path info] entries IH]; intros w; simpl.
  { split; [by left|]. intros [?|(e & He & _)]; [done|]. by apply elem_of_nil in He. }
  rewrite IH. assert (id ∈ gw_walkTaskIds (cleaner_walkFn cleaner config tm now s fullGC w (path, info)) ↔
    id ∈ gw_walkTaskIds w ∨ info ≠ NodeDir ∧ taskIDOf path = id) as ->.
  { unfold cleaner_walkFn, cleaner_sortInert, addGC. case_bool_decide; [tauto|]. case_bool_decide as Hs.
    - split; [auto|]. intros [?|[_ <-]]; done.
    - assert (id ∈ {[taskIDOf path]} ∪ gw_walkTaskIds w ↔ id ∈ gw_walkTaskIds w ∨ info ≠ NodeDir ∧ taskIDOf path = id) as Hx.
      { rewrite elem_of_union, elem_of_singleton. split; [intros [->|?]; auto|]. intros [?|[_ <-]]; auto. }
      repeat case_match; exact Hx. }
  unfold hasFile. split.
  - intros [[?|[Hd Hi]]|(e & He & Hx)]; [by left|right; exists (path, info)|right; exists e]; (split; [by constructor|done]).
  - intros [?|(e & He & Hd & Hi)]; [by left; left|].
    apply elem_of_cons in He as [->|He]; [by left; right|right; by exists e].
Qed.

Lemma walk_result fullGC entries : Forall (tidyEntry (λ id, cl_ReadFileMetadata cleaner id s)) entries →
  walk_ok fullGC (foldl (cleaner_walkFn cleaner config tm now s fullGC) (mkGCWalk ∅ [] ∅ ∅) entries).
Proof.
  intros Ht. assert (walk_ok fullGC (mkGCWalk ∅ [] ∅ ∅)) as Hw.
  { split; simpl; [intros id|intros k id; rewrite lookup_empty..]; simpl; rewrite ?elem_of_nil, ?elem_of_empty; tauto. }
  revert Hw. generalize (mkGCWalk ∅ [] ∅ ∅). induction Ht as [|e entries He Ht IH]; intros w Hw; [done|].
  apply IH. by apply walkFn_ok.
Qed.

End Walk.

(** ** The order *)

Lemma take_prefers {A} (X Y : list A) a b n :
  a ∈ X → b ∉ X → b ∈ take n (X ++ Y) → a ∈ take n (X ++ Y).
Proof.
  intros Ha Hb Ht. rewrite take_app in *. apply elem_of_app in Ht as [Ht|Ht].
  { destruct Hb. apply list_elem_of_lookup in Ht as [i Hi]. apply lookup_take_Some in Hi as [Hi _].
    by eapply list_elem_of_lookup_2. }
  apply elem_of_app. left. rewrite take_ge; [done|]. destruct (decide (n ≤ length X)%nat); [|lia].
  replace (n - length X)%nat with 0%nat in Ht by lia. by apply elem_of_nil in Ht.
Qed.

(** The entries before a key have smaller ones. *)
Lemma treemap_entries_split (m : gmap Z (list string)) k l : m !! k = Some l →
  ∃ l1 l2, treemap_entries m = l1 ++ (k, l) :: l2 ∧ ∀ k' l', (k', l') ∈ l1 → k' <= k ∧ m !! k' = Some l'.
Proof.
  intros Hk. pose proof (merge_sort_Permutation keyLe (map_to_list m)) as Hp.
  pose proof (StronglySorted_merge_sort keyLe (map_to_list m)) as Hs. fold (treemap_entries m) in Hp, Hs.
  assert ((k, l) ∈ treemap_entries m) as Hin by (by rewrite Hp, elem_of_map_to_list).
  apply list_elem_of_split in Hin as (l1 & l2 & E). exists l1, l2. split; [done|]. intros k' l' Hl1. split.
  - rewrite E in Hs. apply (StronglySorted_app_1_elem_of keyLe _ _ (k', l') (k, l) Hs); [done|constructor].
  - apply elem_of_map_to_list. rewrite <-Hp, E. apply elem_of_app. by left.
Qed.

(** A slice of the sorted tasks that has one of two tasks has the one with the
    smaller key. *)
Lemma treemap_take_prefers (m : gmap Z (list string)) rest a b ka n :
  a ∈ default [] (m !! ka) → (∀ k, k <= ka → b ∉ default [] (m !! k)) →
  b ∈ take n (concat (treemap_Values m) ++ rest) → a ∈ take n (concat (treemap_Values m) ++ rest).
Proof.
  intros Ha Hb. destruct (m !! ka) as [la|] eqn:Hka; [|by apply elem_of_nil in Ha]. simpl in Ha.
  destruct (treemap_entries_split m ka la Hka) as (l1 & l2 & E & Hl1).
  unfold treemap_Values. rewrite E, fmap_app, fmap_cons, concat_app. simpl.
  rewrite (assoc_L (++)), <-(assoc_L (++) _ (concat l2.*2) rest). apply take_prefers.
  - apply elem_of_app. by right.
  - intros [Hc|Hc]%elem_of_app.
    + apply list_elem_of_In, in_concat in Hc as (l & Hl & Hbl). apply list_elem_of_In in Hl, Hbl.
      apply list_elem_of_fmap in Hl as ([k' l'] & -> & Hk'). destruct (Hl1 k' l' Hk') as [Hle Hm].
      apply (Hb k' Hle). by rewrite Hm.
    + apply (Hb ka ltac:(lia)). by rewrite Hka.
Qed.

Section Cleaner.
Context {S : Type} (cleaner : Cleaner S) (config : DriverGCConfig) (tm : TaskManager) (now : Z).

Definition cutAt (n : nat) : nat := Z.to_nat (Z.quot (Z.of_nat n * CleanRatio config + 9) 10).

Lemma getGCTasks_ok w : 0 <= CleanRatio config <= 10 →
  let gcTasks := concat (treemap_Values (gw_gapTasks w)) ++ concat (treemap_Values (gw_intervalTasks w)) in
  cleaner_getGCTasks config w = Ok (take (cutAt (length gcTasks)) gcTasks).
Proof.
  intros Hr gcTasks. unfold cleaner_getGCTasks. fold gcTasks. unfold cutAt.
  set (k := Z.quot _ 10). assert (0 <= k <= Z.of_nat (length gcTasks)) as Hk.
  { subst k. rewrite Z.quot_div_nonneg by nia. split; [apply Z.div_pos; nia|]. apply Z.lt_succ_r, Z.div_lt_upper_bound; nia. }
  destruct (Z.leb_spec 0 k), (Z.leb_spec k (Z.of_nat (length gcTasks))); try lia. done.
Qed.

(** The collection of a disk that is not full, whose free space is known. *)
Lemma young_GC s free entries : cl_GetFreeSpace cleaner s = inr free →
  FullGCThreshold config < free <= YoungGCThreshold config → cl_Walk cleaner s = inr entries →
  0 <= CleanRatio config <= 10 →
  let w := foldl (cleaner_walkFn cleaner config tm now s false) (mkGCWalk ∅ [] ∅ ∅) entries in
  let gcTasks := concat (treemap_Values (gw_gapTasks w)) ++ concat (treemap_Values (gw_intervalTasks w)) in
  cleaner_GC cleaner config tm now false s =
    Ok (s, inr (gw_gcTaskIDs w ++ take (cutAt (length gcTasks)) gcTasks)).
Proof.
  intros Hf Hy Hw Hr w gcTasks. unfold cleaner_GC, cleaner_freeSpace. rewrite Hf.
  destruct (Z.ltb_spec (YoungGCThreshold config) free); [lia|].
  destruct (Z.leb_spec free (FullGCThreshold config)); [lia|]. simpl. rewrite Hw. fold w.
  by rewrite (getGCTasks_ok w Hr).
Qed.

(** The young collection of the storage cleaner takes the tasks that were
    accessed last before those that were accessed earlier: of two tasks that
    are not in use and that no refresh interval keeps, the one whose access is
    older is only removed together with the other one. *)
Theorem young_gc_recent_first s free entries a b ma mb :
  cl_GetFreeSpace cleaner s = inr free → FullGCThreshold config < free <= YoungGCThreshold config →
  cl_Walk cleaner s = inr entries → Forall (tidyEntry (λ id, cl_ReadFileMetadata cleaner id s)) entries → 0 <= CleanRatio config <= 10 →
  hasFile entries a → unused tm a → cl_ReadFileMetadata cleaner a s = inr ma → fm_Interval ma <= 0 →
  hasFile entries b → unused tm b → cl_ReadFileMetadata cleaner b s = inr mb → fm_Interval mb <= 0 →
  0 <= fm_AccessTime mb < fm_AccessTime ma → fm_AccessTime ma <= now < 2 ^ 62 →
  ∃ taskIDs, cleaner_GC cleaner config tm now false s = Ok (s, inr taskIDs) ∧ (b ∈ taskIDs → a ∈ taskIDs).
Proof.
  intros Hf Hy Hw Ht Hr Ha Hua Hra Hia Hb Hub Hrb Hib Hab Hn.
  eexists. split; [by eapply young_GC|].
  set (w := foldl _ _ entries). pose proof (walk_result cleaner config tm now s false entries Ht) as [Hg Hp Hi]. fold w in Hg, Hp, Hi.
  assert (∀ m, fm_Interval m <= 0 → inert config now m = false) as Hin.
  { intros m Hm. unfold inert. by destruct (Z.ltb_spec 0 (fm_Interval m)); [lia|]. }
  assert (gapOf now ma < gapOf now mb) as Hgap by (unfold gapOf; rewrite !int64_small by lia; lia).
  intros [Hc|Hc]%elem_of_app; apply elem_of_app.
  - apply Hg in Hc as (_ & _ & [?|[e ?]]); congruence.
  - right. revert Hc. apply (treemap_take_prefers _ _ a b (gapOf now ma)).
    + apply Hp. split; [by apply walk_seen; right|]. split; [done|]. split; [done|]. exists ma. auto.
    + intros k Hk [_ (_ & _ & m & Hm & _ & ->)]%Hp. assert (m = mb) as -> by congruence. lia.
Qed.

Lemma treemap_Values_elem (m : gmap Z (list string)) id :
  id ∈ concat (treemap_Values m) → ∃ k, id ∈ default [] (m !! k).
Proof.
  intros (l & Hl & Hid)%list_elem_of_In%in_concat. apply list_elem_of_In in Hl, Hid.
  apply list_elem_of_fmap in Hl as ([k l'] & -> & Hk). exists k.
  unfold treemap_entries in Hk. rewrite merge_sort_Permutation, elem_of_map_to_list in Hk. by rewrite Hk.
Qed.

(** What a collection picks. *)
Lemma cleaner_GC_spec s free entries : cl_GetFreeSpace cleaner s = inr free → cl_Walk cleaner s = inr entries →
  Forall (tidyEntry (λ id, cl_ReadFileMetadata cleaner id s)) entries → 0 <= CleanRatio config <= 10 →
  ∃ taskIDs, cleaner_GC cleaner config tm now false s = Ok (s, inr taskIDs) ∧
    (∀ id, id ∈ taskIDs → hasFile entries id ∧ unused tm id ∧ free <= YoungGCThreshold config) ∧
    (free <= YoungGCThreshold config → free <= FullGCThreshold config →
       ∀ id, hasFile entries id → unused tm id → id ∈ taskIDs).
Proof.
  intros Hf Hw Ht Hr. pose proof (walk_result cleaner config tm now s) as Hres.
  assert (∀ fullGC id, id ∈ gw_walkTaskIds (foldl (cleaner_walkFn cleaner config tm now s fullGC) (mkGCWalk ∅ [] ∅ ∅) entries) ↔
    hasFile entries id) as Hseen.
  { intros fullGC id. rewrite walk_seen. simpl. set_solver. }
  destruct (decide (YoungGCThreshold config < free)) as [Hy|Hy].
  { exists []. unfold cleaner_GC, cleaner_freeSpace. rewrite Hf.
    destruct (Z.ltb_spec (YoungGCThreshold config) free); [|lia].
    split; [done|]. split; [by intros id Hid%elem_of_nil|lia]. }
  destruct (decide (free <= FullGCThreshold config)) as [Hfull|Hfull].
  - eexists. split.
    { unfold cleaner_GC, cleaner_freeSpace. rewrite Hf. destruct (Z.ltb_spec (YoungGCThreshold config) free); [lia|].
      destruct (Z.leb_spec free (FullGCThreshold config)); [|lia]. simpl. by rewrite Hw. }
    destruct (Hres true entries Ht) as [Hg _ _]. split.
    + intros id [Hid [Hu _]]%Hg. split_and!; [by apply (Hseen true)|done|lia].
    + intros _ _ id Hid Hu. apply Hg. split; [by apply Hseen|]. split; [done|by left].
  - eexists. split; [eapply young_GC; done || lia|]. split; [|lia].
    destruct (Hres false entries Ht) as [Hg Hp Hi]. set (w := foldl _ _ entries) in *.
    assert (∀ id, id ∈ gw_walkTaskIds w → unused tm id → hasFile entries id ∧ unused tm id ∧ free <= YoungGCThreshold config) as Hall.
    { intros id Hid Hu. split_and!; [by apply (Hseen false)|done|lia]. }
    intros id [[Hid [Hu _]]%Hg|Hid]%elem_of_app; [by apply Hall|].
    apply list_elem_of_lookup in Hid as [i Hid]. apply lookup_take_Some in Hid as [Hid _].
    apply list_elem_of_lookup_2, elem_of_app in Hid as [[k [Hid [Hu _]]%Hp]%treemap_Values_elem|[k [Hid [Hu _]]%Hi]%treemap_Values_elem];
      by apply Hall.
Qed.

End Cleaner.

(** [TryFreeSpace] frees nothing: its forced collection only lists tasks, and
    the space is tested again as it was before. *)
Theorem TryFreeSpace_frees_nothing (cleaner : Cleaner FS) config tm now fileLength fs free entries :
  cl_GetFreeSpace cleaner fs = inr free → cl_Walk cleaner fs = inr entries →
  tryFreeSpace cleaner config tm now fileLength fs =
    Ok (fs, inr ((100 * GB <? free) && (fileLength <? free) ||
                 enoughSpace free (foldl (remainderOf tm fs) 0 entries) fileLength)).
Proof.
  intros Hfree Hwalk. unfold tryFreeSpace. rewrite Hfree, Hwalk.
  destruct ((100 * GB <? free) && (fileLength <? free)); [done|]. simpl orb.
  destruct (enoughSpace _ _ _) eqn:He; [done|].
  assert (∃ ids, cleaner_GC cleaner config tm now true fs = Ok (fs, inr ids)) as [ids ->].
  { eexists. unfold cleaner_GC, cleaner_freeSpace. rewrite Hfree. cbn [negb andb orb]. by rewrite Hwalk. }
  simpl. rewrite Hwalk, Hfree. by rewrite He.
Qed.

(** ** The disk *)

Section Disk.
Context (BaseDir : fpath) {codec : MetaCodec} {laws : MetaCodecLaws}.

Notation downloadOf id := (BaseDir ++ [DownloadHome; px id; id]).

(** The files of the directory belong to tasks, and the metadata names them. *)
Definition tidy (fs : FS) : Prop := Forall (tidyEntry (λ id, disk_ReadFileMetadata BaseDir id fs)) (walk fs BaseDir).

Lemma walk_elem fs root p n : (p, n) ∈ walk fs root ↔ fs_nodes fs !! p = Some n ∧ root `prefix_of` p.
Proof.
  unfold walk. rewrite merge_sort_Permutation, elem_of_map_to_list, map_lookup_filter_Some. unfold isUnder.
  by rewrite bool_decide_eq_true.
Qed.

Lemma stores_hasFile fs id f : id_ok id → disk_stores BaseDir fs id f → hasFile (walk fs BaseDir) id.
Proof.
  intros [_ Hdot] Hst. destruct (ds_data _ _ _ _ Hst) as (ino & Hi & _).
  exists (downloadOf id, NodeFile ino). split; [apply walk_elem; split; [done|by apply prefix_app_r]|]. split; [done|].
  unfold taskIDOf. simpl. rewrite last_app_cons. simpl. by rewrite strings_Split_single.
Qed.

Lemma collectTasks_ok tmAt taskIDs fs : disk_inv BaseDir fs → Forall id_ok taskIDs →
  let fs' := collectTasks BaseDir tmAt taskIDs fs in
  disk_inv BaseDir fs' ∧
  (∀ id, id_ok id → id ∉ taskIDs ∨ ¬ unused (tmAt id) id → ∀ f, disk_stores BaseDir fs id f → disk_stores BaseDir fs' id f) ∧
  (∀ id, id_ok id → fs_nodes fs !! downloadOf id = None ∨ id ∈ taskIDs ∧ unused (tmAt id) id → fs_nodes fs' !! downloadOf id = None).
Proof using laws.
  revert fs. induction taskIDs as [|t taskIDs IH]; intros fs Hinv Hall; simpl.
  { split; [done|]. split; [done|]. intros id _ [?|[?%elem_of_nil _]]; done. }
  apply Forall_cons in Hall as [Ht Hall]. destruct (tm_Exist t (tmAt t)) eqn:Hu.
  - destruct (IH fs Hinv Hall) as (Hinv' & Hk & Hg). split; [done|]. split.
    + intros id Hid Hc. apply Hk; [done|]. destruct Hc as [Hc|Hc]; [left; set_solver|by right].
    + intros id Hid Hc. apply Hg; [done|]. destruct Hc as [?|[[->|?]%elem_of_cons Hun]]; [by left|by unfold unused in Hun; congruence|by right].
  - destruct (DeleteTask_ok BaseDir fs t Hinv Ht) as (fs1 & -> & Hinv1 & Ha & Hd & _). simpl.
    destruct (IH fs1 Hinv1 Hall) as (Hinv' & Hk & Hg). split; [done|]. split.
    + intros id Hid Hc f Hst. assert (id ≠ t) as Hne.
      { intros ->. destruct Hc as [Hc|Hc]; [apply Hc; constructor|by apply Hc]. }
      apply Hk; [done| |by eapply (apart_stores BaseDir t)]. destruct Hc as [Hc|Hc]; [left; set_solver|by right].
    + intros id Hid Hc. apply Hg; [done|]. destruct (decide (id = t)) as [->|Hne]; [by left|].
      destruct Hc as [Hc|[[->|?]%elem_of_cons Hun]]; [left|done|by right].
      rewrite (proj1 (Ha DownloadHome (px id) id ltac:(apply (mine_apart BaseDir id t); [done..|by left]))). done.
Qed.

Context (config : DriverGCConfig) (freeSpace : FS → DriverError + Bytes).

Lemma disk_Walk_ok fs : disk_inv BaseDir fs → walkAll BaseDir fs = inr (walk fs BaseDir).
Proof.
  intros Hinv. unfold walkAll, driver_Walk, driver_statPath, driver_GetPath. simpl. rewrite app_nil_r.
  rewrite (Stat_node _ _ NodeDir); [done|by apply (di_base _ _ Hinv)|done].
Qed.

(** A task without a file. *)
Definition gone (fs : FS) (id : string) : Prop :=
  disk_StatDownloadFile BaseDir id fs = inl ErrTaskNotPersisted.

Lemma absent_gone fs id : id_ok id → fs_nodes fs !! downloadOf id = None → gone fs id.
Proof.
  intros Hid Hn. unfold gone, disk_StatDownloadFile, driver_Stat, GetDownloadRaw, getDownloadKey, driver_statPath,
    driver_GetPath. rewrite parentKey_ok by done. simpl. by rewrite Stat_absent.
Qed.

(** C10: A collection of the CDN's disk never removes a task that is in use, by
    the task manager of the scan or by the one at the time its lock is held;
    every task it does not remove keeps all of its files, and one that it removes
    has no download file any more.  When the free space is below the thresholds
    of a young and of a full collection, every task that is not in use is
    removed; above the first nothing is.  (The disk holds files of tasks only,
    the free space is known, and the clean ratio is between 0 and 10.) *)
Theorem disk_GC_outcome tm now tmAt fs free :
  disk_inv BaseDir fs → tidy fs → freeSpace fs = inr free → 0 <= CleanRatio config <= 10 →
  ∃ fs', disk_GC BaseDir config freeSpace tm now tmAt fs = Ok fs' ∧ disk_inv BaseDir fs' ∧
    ∀ id f, id_ok id → disk_stores BaseDir fs id f →
      (disk_stores BaseDir fs' id f ∨
         gone fs' id ∧ unused tm id ∧ unused (tmAt id) id ∧ free <= YoungGCThreshold config) ∧
      (free <= YoungGCThreshold config → free <= FullGCThreshold config →
         unused tm id → unused (tmAt id) id → gone fs' id).
Proof using laws.
  intros Hinv Htidy Hfree Hr.
  destruct (cleaner_GC_spec (diskCleaner BaseDir freeSpace) config tm now fs free
    (walk fs BaseDir) Hfree (disk_Walk_ok fs Hinv) Htidy Hr) as (taskIDs & E & Hpick & Hfull).
  assert (Forall id_ok taskIDs) as Hids.
  { apply Forall_forall. intros id (e & He & Hd & <-)%Hpick%proj1. unfold tidy in Htidy.
    rewrite Forall_forall in Htidy. by apply (Htidy e He). }
  destruct (collectTasks_ok tmAt taskIDs fs Hinv Hids) as (Hinv' & Hkeep & Hgone).
  exists (collectTasks BaseDir tmAt taskIDs fs). unfold disk_GC. rewrite E. simpl.
  split; [done|]. split; [done|]. intros id f Hid Hst. split.
  - destruct (decide (id ∈ taskIDs)) as [Hin|Hout]; [|left; apply Hkeep; auto].
    destruct (tm_Exist id (tmAt id)) eqn:Hu; [left; apply Hkeep; [done| |done]; right; unfold unused; congruence|].
    destruct (Hpick id Hin) as (_ & Hun & Hy). right. split_and!; try done.
    apply absent_gone; [done|]. apply Hgone; [done|]. by right.
  - intros Hy Hf Hu Hu'. apply absent_gone; [done|]. apply Hgone; [done|]. right. split; [|done].
    apply Hfull; [done..| |done]. by eapply stores_hasFile.
Qed.

End Disk.

(** ** Witnesses: two tasks on a disk, and a task manager without tasks *)

Definition demoSeed (id : string) : SeedTask :=
  mkSeedTask id "http://source/file" "http://source/file" 10 0 4 StatusRunning 3 "" "" "" "tag" "" "" None ∅.

Definition demoMetadata (id : string) (access : Z) : FileMetadata :=
  mkFileMetadata id "http://source/file" 4 10 access 0 10 "" "" "tag" ∅ true true 3 "" "" "".

Definition addDemo (id : string) (access : Z) (fs : FS) : FS :=
  (disk_WriteFileMetadata demoBase id (demoMetadata id access) (disk_ResetRepo demoBase (demoSeed id) fs).1).1.

Definition demoDisk : FS := addDemo "bbbbbb" 50 (addDemo "aaaaaa" 80 demoCdnDisk).

Lemma addDemo_ok id access fs : disk_inv demoBase fs → id_ok id →
  disk_framed demoBase id fs (addDemo id access fs) ∧ ∃ f, disk_stores demoBase (addDemo id access fs) id f.
Proof.
  intros Hinv Hid. unfold addDemo.
  destruct (disk_ResetRepo_law demoBase (demoSeed id) fs Hinv Hid) as (fs1 & -> & [Hinv1 Hf1] & Hst).
  cbn [fst st_ID demoSeed] in *.
  destruct (disk_WriteMetadata demoBase id newFiles (demoMetadata id access) fs1 Hinv1 Hid Hst) as (fs2 & -> & [Hinv2 Hf2] & Hst2).
  cbn [fst]. split; [|by eexists]. split; [done|]. intros id' f Hne Hid' Hs. by apply Hf2, Hf1.
Qed.

Lemma demo_ids : id_ok "aaaaaa" ∧ id_ok "bbbbbb".
Proof. split; split; simpl; done || lia. Qed.

Lemma demoDisk_ok : disk_inv demoBase demoDisk ∧
  (∃ f, disk_stores demoBase demoDisk "aaaaaa" f) ∧ ∃ f, disk_stores demoBase demoDisk "bbbbbb" f.
Proof.
  destruct demo_ids as [Ha Hb]. unfold demoDisk.
  destruct (addDemo_ok "aaaaaa" 80 demoCdnDisk demoCdnDisk_inv Ha) as [[Hinv1 _] [f1 Hs1]].
  destruct (addDemo_ok "bbbbbb" 50 _ Hinv1 Hb) as [[Hinv2 Hf2] Hs2].
  split; [done|]. split; [|done]. exists f1. by apply Hf2.
Qed.

(** The files are tidy, as a test. *)
Definition tidyTest (fs : FS) (e : fpath * Node) : bool :=
  bool_decide (e.2 = NodeDir) ||
  ((3 <=? String.length (taskIDOf e.1))%nat && negb (strings_Contains "." (taskIDOf e.1)) &&
   match disk_ReadFileMetadata demoBase (taskIDOf e.1) fs with
   | inr m => bool_decide (fm_TaskID m = taskIDOf e.1)
   | inl _ => true
   end).

Lemma tidyTest_ok fs : forallb (tidyTest fs) (walk fs demoBase) = true → tidy demoBase fs.
Proof.
  intros Ht. apply Forall_forall. intros e He Hd. rewrite forallb_forall in Ht.
  pose proof (Ht e (proj1 (list_elem_of_In _ _) He)) as Hx. unfold tidyTest in Hx. rewrite bool_decide_eq_false_2 in Hx by done.
  cbn [orb] in Hx. apply andb_true_iff in Hx as [[Hl Hc]%andb_true_iff Hm]. apply Nat.leb_le in Hl. apply negb_true_iff in Hc.
  split; [by split|]. intros m Hr. change (disk_ReadFileMetadata demoBase (taskIDOf e.1) fs = inr m) in Hr.
  rewrite Hr in Hm. by apply bool_decide_eq_true in Hm.
Qed.

Lemma demoDisk_tidy : tidy demoBase demoDisk.
Proof. apply tidyTest_ok. vm_compute. reflexivity. Qed.

Definition demoGCConfig : DriverGCConfig := mkDriverGCConfig 100 10 5 7200000000000.

(** One of the two tasks is to be removed: the one that was used last goes. *)
Lemma young_gc_recent_first_witness :
  cleaner_GC (diskCleaner demoBase (λ _, inr 50)) demoGCConfig NewTaskManager 100 false demoDisk =
    Ok (demoDisk, inr ["aaaaaa"]) ∧
  ∃ taskIDs, cleaner_GC (diskCleaner demoBase (λ _, inr 50)) demoGCConfig NewTaskManager 100 false demoDisk =
    Ok (demoDisk, inr taskIDs) ∧ ("bbbbbb" ∈ taskIDs → "aaaaaa" ∈ taskIDs).
Proof.
  destruct demoDisk_ok as (Hinv & [fa Ha] & [fb Hb]). destruct demo_ids as [Hia Hib].
  split; [vm_compute; reflexivity|].
  apply (young_gc_recent_first (diskCleaner demoBase (λ _, inr 50)) demoGCConfig NewTaskManager 100 demoDisk 50
    (walk demoDisk demoBase) "aaaaaa" "bbbbbb" (demoMetadata "aaaaaa" 80) (demoMetadata "bbbbbb" 50)).
  - reflexivity.
  - simpl. lia.
  - by apply disk_Walk_ok.
  - exact demoDisk_tidy.
  - simpl. lia.
  - by eapply stores_hasFile.
  - reflexivity.
  - vm_compute. reflexivity.
  - simpl. lia.
  - by eapply stores_hasFile.
  - reflexivity.
  - vm_compute. reflexivity.
  - simpl. lia.
  - simpl. lia.
  - simpl. lia.
Defined.

(** A full disk: both tasks are removed. *)
Lemma disk_GC_outcome_witness : ∃ fs',
  disk_GC demoBase demoGCConfig (λ _, inr 5) NewTaskManager 100 (λ _, NewTaskManager) demoDisk = Ok fs' ∧
  gone demoBase fs' "aaaaaa" ∧ gone demoBase fs' "bbbbbb".
Proof.
  destruct demoDisk_ok as (Hinv & [fa Ha] & [fb Hb]). destruct demo_ids as [Hia Hib].
  destruct (disk_GC_outcome demoBase demoGCConfig (λ _, inr 5) NewTaskManager 100 (λ _, NewTaskManager) demoDisk 5)
    as (fs' & E & _ & Hall); [done|exact demoDisk_tidy|reflexivity|simpl; lia|].
  exists fs'. split; [exact E|]. split; (eapply Hall; [|eassumption|simpl; lia|simpl; lia|reflexivity|reflexivity]; done).
Defined.
