(* ===== verification/HybridStorage.v ===== *)
(** * HybridStorage: cdn/supervisor/cdn/storage/hybrid

    The storage manager that keeps the data of large tasks in shared memory and
    everything else on disk.  Both drivers are directories of one file system.
    The spaces of the devices and the regular expressions of the white list are
    parameters.  The two goroutines of a collection take their tasks under a
    schedule. *)

From S2P Require Import Prelude Text Ranges World Units FileSystem FileUtils StoreDriver CdnTask CdnStorage DiskStorage.
From S2P Require Import DiskLaws CdnDemo CdnCleaner.
From Stdlib Require Import Ascii.
From stdpp Require Import options.
Local Open Scope Z_scope.

(** ** shm_switch.go *)

Record shmSwitch := mkShmSwitch {
  sw_off : bool;
  sw_whiteList : list string;
  sw_useShmThreshold : Z;    (* int64 *)
}.

Definition newShmSwitch : shmSwitch := mkShmSwitch false [] (1024 * 1024 * 1024).

(** [MatchString] answers an error for a pattern that does not compile. *)
Definition shmSwitch_check (MatchString : string → string → option bool) (s : shmSwitch) (url : string)
    (fileLength : Z) : bool :=
  if negb (sw_off s) then
    if (fileLength =? 0) || (fileLength <? sw_useShmThreshold s) then false
    else if bool_decide (sw_whiteList s = []) then true
    else if existsb (λ reg, bool_decide (MatchString reg url = Some true)) (sw_whiteList s) then true
    else true
  else true.

(** ** hybrid.go *)

Definition secureLevel : Bytes := 500 * MB.

Definition getHardLinkRaw (taskID : string) : Raw :=
  let raw := GetDownloadRaw taskID in
  mkRaw (raw_Bucket raw) (getParentKey taskID ++ [taskID +:+ ".hard"]) (raw_Offset raw) (raw_Length raw)
    (raw_Trunc raw) (raw_TruncSize raw) (raw_Append raw).

Section Hybrid.
Context (diskDir memoryDir : fpath) `{MetaCodec}.
Context (diskConfig memoryConfig : DriverGCConfig).
(** What [statfs] answers on the disk, and the total and the free space of the memory. *)
Context (diskFree : FS → DriverError + Bytes) (memorySpace : FS → DriverError + (Bytes * Bytes)).
Context (MatchString : string → string → option bool) (sw : shmSwitch) (hasShm : bool).

Definition hybrid_WriteDownloadFile := disk_WriteDownloadFile diskDir.
Definition hybrid_ReadDownloadFile := disk_ReadDownloadFile diskDir.
Definition hybrid_ReadPieceMetaRecords := disk_ReadPieceMetaRecords diskDir.
Definition hybrid_ReadFileMetadata := disk_ReadFileMetadata diskDir.
Definition hybrid_AppendPieceMetadata := disk_AppendPieceMetadata diskDir.
Definition hybrid_WriteFileMetadata := disk_WriteFileMetadata diskDir.

(** The file is not truncated before. *)
Definition hybrid_WritePieceMetaRecords (taskID : string) (records : list PieceMetaRecord) (fs : FS)
    : FS * option CdnError :=
  liftErr (driver_PutBytes diskDir fs (GetPieceMetadataRaw taskID) (joinRecords records)).

(** A missing file is the error of the driver. *)
Definition hybrid_StatDownloadFile (taskID : string) (fs : FS) : CdnError + StorageInfo :=
  liftDriver (driver_Stat diskDir fs (GetDownloadRaw taskID)).

Definition hybrid_GetDownloadPath (raw : Raw) : fpath := driver_GetPath diskDir raw.

(** What is left to do when the files that come first are gone. *)
Definition thenRemove (dir : fpath) (raw : Raw) (r : FS * option DriverError) : FS * option DriverError :=
  match r with
  | (fs, Some e) => (fs, Some e)
  | (fs, None) => removeIfThere dir fs raw
  end.

Definition deleteTaskFiles (taskID : string) (deleteHardLink : bool) (fs : FS) : FS * option CdnError :=
  let r := thenRemove diskDir (GetUploadRaw taskID)
             (thenRemove memoryDir (GetDownloadRaw taskID)
                (removeIfThere diskDir fs (GetDownloadRaw taskID))) in
  match r with
  | (fs, Some e) => (fs, Some (ErrDriver e))
  | (fs, None) =>
      let r :=
        if negb deleteHardLink && driver_Exits diskDir fs (getHardLinkRaw taskID) then
          driver_MoveFile fs (driver_GetPath diskDir (getHardLinkRaw taskID))
            (driver_GetPath diskDir (GetDownloadRaw taskID))
        else
          thenRemove diskDir (GetPieceMetadataRaw taskID)
            (thenRemove diskDir (GetTaskMetadataRaw taskID)
               (removeIfThere diskDir fs (getHardLinkRaw taskID))) in
      match r with
      | (fs, Some e) => (fs, Some (ErrDriver e))
      | (fs, None) => ((driver_Remove diskDir fs (GetParentRaw taskID)).1, None)
      end
  end.

Definition hybrid_DeleteTask (taskID : string) : FS → FS * option CdnError := deleteTaskFiles taskID true.
Definition deleteDiskFiles (taskID : string) : FS → FS * option CdnError := deleteTaskFiles taskID true.
Definition deleteMemoryFiles (taskID : string) : FS → FS * option CdnError := deleteTaskFiles taskID false.

Definition getMemoryUsableSpace (fs : FS) : Bytes :=
  match memorySpace fs with
  | inl _ => 0
  | inr (totalSize, freeSize) =>
      if 72 * GB <=? totalSize then freeSize
      else
        let usableSpace := int64 (freeSize - int64 (72 * GB - totalSize)) in
        if 0 <? usableSpace then usableSpace else 0
  end.

Definition diskDriverCleaner : Cleaner FS :=
  mkCleaner diskFree (driver_CreateBaseDir diskDir) (walkAll diskDir) hybrid_ReadFileMetadata hybrid_StatDownloadFile.
Definition memoryDriverCleaner : Cleaner FS :=
  mkCleaner (λ fs, match memorySpace fs with inl e => inl e | inr (_, free) => inr free end)
    (driver_CreateBaseDir memoryDir) (walkAll memoryDir) hybrid_ReadFileMetadata hybrid_StatDownloadFile.

Definition hybrid_TryFreeSpace := tryFreeSpace diskDriverCleaner diskConfig.

Section Tasks.
Context (tm : TaskManager) (now : Z).

(** The name of the file in memory, when there is room for it. *)
Definition tryShmSpace (url taskID : string) (fileLength : Z) (fs : FS) : Outcome (FS * (CdnError + fpath)) :=
  if shmSwitch_check MatchString sw url fileLength && hasShm then
    match walkAll memoryDir fs with
    | inl e => Ok (fs, inl (ErrDriver e))
    | inr entries =>
        let remainder := foldl (remainderOf tm fs) 0 entries in
        let canUseShm fs :=
          fileLength <=? int64 (int64 (getMemoryUsableSpace fs - remainder) - secureLevel) in
        let answer fs : CdnError + fpath :=
          if canUseShm fs : bool then inr (driver_GetPath memoryDir (mkRaw "" [taskID] 0 0 false 0 false))
          else inl (ErrResult "not enough free space left") in
        if canUseShm fs then Ok (fs, answer fs)
        else
          '(fs, r) ← cleaner_GC memoryDriverCleaner memoryConfig tm now true fs;
          Ok (fs, match r with inl e => inl e | inr _ => answer fs end)
    end
  else Ok (fs, inl (ErrResult "shared memory is not allowed")).

Definition hybrid_ResetRepo (seedTask : SeedTask) (fs : FS) : Outcome (FS * option CdnError) :=
  let downloadPath := driver_GetPath diskDir (GetDownloadRaw (st_ID seedTask)) in
  let link dest new fs :=
    let '(fs, err) := SymbolicLink fs dest new in (fs, (λ e, ErrDriver (ErrFile e)) <$> err) in
  match deleteTaskFiles (st_ID seedTask) true fs with
  | (fs, Some e) => Ok (fs, Some e)
  | (fs, None) =>
      '(fs, shm) ← tryShmSpace (st_RawURL seedTask) (st_ID seedTask) (st_SourceFileLength seedTask) fs;
      let '(fs, err) :=
        match shm with
        | inl _ =>
            match os_OpenTrunc fs downloadPath with
            | (fs, inl e) => (fs, Some (ErrDriver (ErrFile (FileIO e))))
            | (fs, inr _) => (fs, None)
            end
        | inr shmPath => link shmPath downloadPath fs
        end in
      Ok (match err with
          | Some e => (fs, Some e)
          | None => link downloadPath (driver_GetPath diskDir (GetUploadRaw (st_ID seedTask))) fs
          end)
  end.

(** A task of [gcTasks]; [tmAt] is the task manager when it is its turn. *)
Definition gcTask (tmAt : string → TaskManager) (isDisk : bool) (taskID : string) (fs : FS) : FS :=
  match tm_Exist taskID (tmAt taskID) with
  | Some _ => fs
  | None => (if isDisk then deleteDiskFiles taskID fs else deleteMemoryFiles taskID fs).1
  end.

(** The two goroutines of [GC] with their tasks, once both have walked; the
    schedule says whose turn it is, and the rest is done in order. *)
Fixpoint gcTasks (tmAt : string → TaskManager) (sched : list bool) (disk memory : list string) (fs : FS) : FS :=
  match sched, disk, memory with
  | true :: sched, id :: disk, _ => gcTasks tmAt sched disk memory (gcTask tmAt true id fs)
  | false :: sched, _, id :: memory => gcTasks tmAt sched disk memory (gcTask tmAt false id fs)
  | _ :: sched, _, _ => gcTasks tmAt sched disk memory fs
  | [], _, _ => foldl (λ fs id, gcTask tmAt false id fs) (foldl (λ fs id, gcTask tmAt true id fs) fs disk) memory
  end.

(** The tasks of a cleaner; none when it fails. *)
Definition picked (r : CdnError + list string) : list string := match r with inl _ => [] | inr ids => ids end.

Definition hybrid_GC (tmAt : string → TaskManager) (sched : list bool) (fs : FS) : Outcome FS :=
  '(fs, disk) ← cleaner_GC diskDriverCleaner diskConfig tm now false fs;
  if hasShm then
    '(fs, memory) ← cleaner_GC memoryDriverCleaner memoryConfig tm now false fs;
    Ok (gcTasks tmAt sched (picked disk) (picked memory) fs)
  else Ok (gcTasks tmAt sched (picked disk) [] fs).

End Tasks.

(** ** The first task of a bucket *)

Lemma removeIfThere_absent dir fs raw : fs_nodes fs !! driver_GetPath dir raw = None →
  removeIfThere dir fs raw = (fs, None).
Proof. intros Hn. unfold removeIfThere, driver_Remove, driver_statPath. by rewrite Stat_absent. Qed.

(** The first task of a bucket cannot be stored on the disk by the hybrid
    storage: [ResetRepo] creates the file of its data without the directory of
    the bucket, and fails. *)
Theorem hybrid_first_task_fails tm now seedTask fs :
  let id := st_ID seedTask in
  id_ok id →
  (∀ l, fs_nodes fs !! (diskDir ++ DownloadHome :: px id :: l) = None) →
  fs_nodes fs !! (diskDir ++ [UploadHome; px id; id]) = None →
  fs_nodes fs !! (memoryDir ++ [DownloadHome; px id; id]) = None →
  shmSwitch_check MatchString sw (st_RawURL seedTask) (st_SourceFileLength seedTask) && hasShm = false →
  hybrid_ResetRepo tm now seedTask fs = Ok (fs, Some (ErrDriver (ErrFile (FileIO ENOENT)))).
Proof.
  intros id Hid Hd Hu Hm Hshm. unfold hybrid_ResetRepo, deleteTaskFiles. fold id.
  assert (∀ n, driver_GetPath diskDir (mkRaw DownloadHome (getParentKey id ++ n) 0 0 false 0 false) =
    diskDir ++ DownloadHome :: px id :: n) as Hpath.
  { intros n. unfold driver_GetPath. simpl. by rewrite parentKey_ok. }
  assert (∀ trunc n, fs_nodes fs !! driver_GetPath diskDir (mkRaw DownloadHome (getParentKey id ++ n) 0 0 trunc 0 false) = None) as Hno.
  { intros trunc n. unfold driver_GetPath. simpl. rewrite parentKey_ok by done. apply Hd. }
  unfold thenRemove. rewrite (removeIfThere_absent diskDir fs (GetDownloadRaw id)) by apply Hno.
  rewrite (removeIfThere_absent memoryDir fs (GetDownloadRaw id))
    by (unfold driver_GetPath; simpl; unfold getDownloadKey; by rewrite parentKey_ok).
  rewrite (removeIfThere_absent diskDir fs (GetUploadRaw id))
    by (unfold driver_GetPath; simpl; unfold getDownloadKey; by rewrite parentKey_ok).
  cbn [negb andb]. rewrite (removeIfThere_absent diskDir fs (getHardLinkRaw id)) by apply Hno.
  rewrite (removeIfThere_absent diskDir fs (GetTaskMetadataRaw id)) by apply Hno.
  rewrite (removeIfThere_absent diskDir fs (GetPieceMetadataRaw id)) by apply Hno.
  assert ((driver_Remove diskDir fs (GetParentRaw id)).1 = fs) as ->.
  { unfold driver_Remove, driver_statPath. rewrite Stat_absent; [done|].
    unfold GetParentRaw. rewrite <-(app_nil_r (getParentKey id)). apply Hno. }
  unfold tryShmSpace. rewrite Hshm. simpl.
  unfold os_OpenTrunc, os_OpenCreate. rewrite Stat_absent by apply Hno.
  rewrite linkTarget_absent by apply Hno. unfold parentIsDir, GetDownloadRaw, getDownloadKey. rewrite Hpath.
  change (diskDir ++ [DownloadHome; px id; id]) with (diskDir ++ [DownloadHome; px id] ++ [id]).
  rewrite (assoc_L (++)), removelast_last. by rewrite (Stat_absent fs) by apply Hd.
Qed.

(** ** What stays in memory *)

Context (Hdisk : ¬ diskDir `prefix_of` memoryDir) (Hmemory : ¬ memoryDir `prefix_of` diskDir).
#[local] Set Default Proof Using "Type".

(** The file of a task in memory, and what an operation leaves of such files. *)
Definition memoryFile (id : string) : fpath := memoryDir ++ [id].
Definition memoryKept (fs fs' : FS) : Prop :=
  fs_data fs' = fs_data fs ∧
  ∀ id n, id ≠ DownloadHome → fs_nodes fs !! memoryFile id = Some n → fs_nodes fs' !! memoryFile id = Some n.

Lemma memoryKept_refl fs : memoryKept fs fs.
Proof. done. Qed.

Lemma memoryKept_trans fs1 fs2 fs3 : memoryKept fs1 fs2 → memoryKept fs2 fs3 → memoryKept fs1 fs3.
Proof. intros [Hd1 Hn1] [Hd2 Hn2]. split; [congruence|auto]. Qed.

(** The paths the manager works on. *)
Definition elsewhere (p : fpath) : Prop := diskDir `prefix_of` p ∨ ∃ l, p = memoryDir ++ DownloadHome :: l.

Lemma elsewhere_ne p id : id ≠ DownloadHome → elsewhere p → ¬ p `prefix_of` memoryFile id.
Proof using Hdisk Hmemory.
  unfold memoryFile. intros Hid [Hp|[l ->]] Hq.
  - destruct (prefix_weak_total diskDir memoryDir (memoryDir ++ [id])); [by trans p|by apply prefix_app_r|done..].
  - apply prefix_app_inv in Hq as [k Hk]. injection Hk as Hk _. congruence.
Qed.

Lemma GetPath_elsewhere raw : elsewhere (driver_GetPath diskDir raw).
Proof. left. unfold driver_GetPath. by apply prefix_app_r. Qed.

Lemma RemoveAll_kept fs p : elsewhere p → memoryKept fs (os_RemoveAll fs p).
Proof using Hdisk Hmemory.
  intros Hp. split; [done|]. intros id n Hid Hn. simpl. apply map_lookup_filter_Some. split; [done|].
  apply bool_decide_eq_false. by apply elsewhere_ne.
Qed.

Lemma removeIfThere_kept dir fs raw : elsewhere (driver_GetPath dir raw) → memoryKept fs (removeIfThere dir fs raw).1.
Proof using Hdisk Hmemory.
  intros Hp. unfold removeIfThere, driver_Remove, driver_statPath.
  destruct (os_Stat fs _) as [info|]; [|destruct (isNotExist _); apply memoryKept_refl].
  destruct (raw_Trunc raw || _); [by apply RemoveAll_kept|].
  destruct (IsEmptyDir fs _) as [e|[]]; [destruct (isNotExist _); apply memoryKept_refl|by apply RemoveAll_kept|apply memoryKept_refl].
Qed.

Lemma thenRemove_kept dir fs raw r : elsewhere (driver_GetPath dir raw) → memoryKept fs r.1 →
  memoryKept fs (thenRemove dir raw r).1.
Proof using Hdisk Hmemory.
  intros Hp Hr. unfold thenRemove. destruct r as [fs1 [e|]]; [done|].
  eapply memoryKept_trans; [exact Hr|by apply removeIfThere_kept].
Qed.

Lemma Remove_kept fs raw : memoryKept fs (driver_Remove diskDir fs raw).1.
Proof using Hdisk Hmemory.
  pose proof (GetPath_elsewhere raw) as Hp. unfold driver_Remove, driver_statPath.
  destruct (os_Stat fs _); [|apply memoryKept_refl]. destruct (raw_Trunc raw || _); [by apply RemoveAll_kept|].
  destruct (IsEmptyDir fs _) as [e|[]]; [apply memoryKept_refl|by apply RemoveAll_kept|apply memoryKept_refl].
Qed.

Lemma MoveFile_kept fs raw raw' :
  memoryKept fs (driver_MoveFile fs (driver_GetPath diskDir raw) (driver_GetPath diskDir raw')).1.
Proof using Hdisk Hmemory.
  pose proof (λ raw id Hid Heq, elsewhere_ne _ id Hid (GetPath_elsewhere raw) (reflexive_eq (R := prefix) _ _ Heq)) as Hne.
  unfold driver_MoveFile, MoveFile.
  destruct (negb _); [apply memoryKept_refl|].
  assert (∀ p fs, elsewhere p → memoryKept fs (DeleteFile fs p).1) as Hdel.
  { intros p fs0 Hp. unfold DeleteFile, os_Remove. destruct (PathExist fs0 p), (IsDir fs0 p); try apply memoryKept_refl.
    assert (∀ nodes, nodes = delete p (fs_nodes fs0) → memoryKept fs0 (set_fs_nodes nodes fs0)) as Hd.
    { intros ? ->. split; [done|]. intros id n Hid Hn. simpl. rewrite lookup_delete_ne; [done|].
      intros ->. by apply (elsewhere_ne (memoryFile id) id). }
    destruct (os_Lstat fs0 p) as [[]|]; [destruct (decide _)|..]; simpl; first [apply memoryKept_refl | by apply Hd]. }
  set (r := if PathExist fs _ && _ then _ else _).
  assert (memoryKept fs r.1) as Hr.
  { subst r. destruct (_ && _); [apply Hdel, GetPath_elsewhere|apply memoryKept_refl]. }
  destruct r as [fs1 [e|]]; [done|]. eapply memoryKept_trans; [exact Hr|].
  unfold os_Rename. destruct (os_Lstat fs1 _) as [n|]; [|apply memoryKept_refl].
  destruct (parentIsDir fs1 _); [|apply memoryKept_refl].
  assert (memoryKept fs1 (set_fs_nodes (<[driver_GetPath diskDir raw' := n]> (delete (driver_GetPath diskDir raw) (fs_nodes fs1))) fs1)) as Hk.
  { split; [done|]. intros id m Hid Hm. simpl. rewrite lookup_insert_ne, lookup_delete_ne; [done|..]; intros Heq; by eapply Hne. }
  destruct (os_Lstat fs1 (driver_GetPath diskDir raw')) as [[]|]; simpl; done || apply memoryKept_refl.
Qed.

Lemma deleteTaskFiles_kept id deleteHardLink fs : memoryKept fs (deleteTaskFiles id deleteHardLink fs).1.
Proof using Hdisk Hmemory.
  unfold deleteTaskFiles. set (r := thenRemove diskDir (GetUploadRaw id) _).
  assert (memoryKept fs r.1) as Hr.
  { apply thenRemove_kept; [apply GetPath_elsewhere|]. apply thenRemove_kept.
    - right. unfold driver_GetPath. simpl. by eexists.
    - apply removeIfThere_kept, GetPath_elsewhere. }
  destruct r as [fs1 [e|]]; [done|]. simpl in Hr. set (r2 := if negb deleteHardLink && _ then _ else _).
  assert (memoryKept fs1 r2.1) as Hr2.
  { subst r2. destruct (_ && _); [apply MoveFile_kept|].
    do 2 (apply thenRemove_kept; [apply GetPath_elsewhere|]). apply removeIfThere_kept, GetPath_elsewhere. }
  destruct r2 as [fs2 [e|]]; [by eapply memoryKept_trans|]. simpl.
  eapply memoryKept_trans; [by eapply memoryKept_trans|apply Remove_kept].
Qed.

Lemma gcTasks_kept tmAt sched disk memory fs : memoryKept fs (gcTasks tmAt sched disk memory fs).
Proof using Hdisk Hmemory.
  assert (∀ isDisk id fs, memoryKept fs (gcTask tmAt isDisk id fs)) as Hone.
  { intros isDisk id fs0. unfold gcTask. destruct (tm_Exist id _); [apply memoryKept_refl|].
    destruct isDisk; [unfold deleteDiskFiles|unfold deleteMemoryFiles]; apply deleteTaskFiles_kept. }
  assert (∀ isDisk ids fs, memoryKept fs (foldl (λ fs id, gcTask tmAt isDisk id fs) fs ids)) as Hall.
  { intros isDisk ids. induction ids as [|id ids IH]; intros fs0; [apply memoryKept_refl|].
    eapply memoryKept_trans; [apply Hone|apply IH]. }
  revert disk memory fs. induction sched as [|b sched IH]; intros disk memory fs.
  { exact (memoryKept_trans _ _ _ (Hall true disk fs) (Hall false memory _)). }
  assert (∀ isDisk id disk memory, memoryKept fs (gcTasks tmAt sched disk memory (gcTask tmAt isDisk id fs))) as Hstep.
  { intros isDisk id disk0 memory0. exact (memoryKept_trans _ _ _ (Hone isDisk id fs) (IH disk0 memory0 _)). }
  destruct b, disk as [|d disk], memory as [|m memory]; cbn [gcTasks].
  - exact (IH [] [] fs).
  - exact (IH [] (m :: memory) fs).
  - exact (Hstep true d disk []).
  - exact (Hstep true d disk (m :: memory)).
  - exact (IH [] [] fs).
  - exact (Hstep false m [] memory).
  - exact (IH (d :: disk) [] fs).
  - exact (Hstep false m (d :: disk) memory).
Qed.

Lemma mkdirs_kept fs done rest : memoryKept fs (mkdirs fs done rest).1.
Proof.
  revert fs done. induction rest as [|x rest IH]; intros fs d; [apply memoryKept_refl|]. simpl.
  destruct (os_Stat fs (d ++ [x])) as [[]|]; [apply IH|apply memoryKept_refl..|].
  destruct (os_Lstat fs (d ++ [x])) eqn:Hl; [apply memoryKept_refl|].
  eapply memoryKept_trans; [|apply IH]. split; [done|]. intros id n Hid Hn. simpl.
  rewrite lookup_insert_ne; [done|]. intros Heq. unfold os_Lstat in Hl. congruence.
Qed.

Lemma cleaner_kept cleaner config tm now force fs fs' r :
  (∀ fs, memoryKept fs (cl_CreateBaseDir cleaner fs).1) →
  cleaner_GC cleaner config tm now force fs = Ok (fs', r) → memoryKept fs fs'.
Proof.
  intros Hc. unfold cleaner_GC. destruct (cleaner_freeSpace cleaner fs) as [fs1 r1] eqn:Hf.
  assert (memoryKept fs fs1) as Hk.
  { unfold cleaner_freeSpace in Hf. destruct (cl_GetFreeSpace cleaner fs) as [e|]; [|by simplify_eq].
    pose proof (Hc fs) as Hcf. destruct (isNotExist e); [|by simplify_eq].
    destruct (cl_CreateBaseDir cleaner fs) as [fs2 [e2|]]; by simplify_eq. }
  destruct r1 as [e|free]; [by intros [= <- <-]|]. destruct (negb force && _); [by intros [= <- <-]|].
  destruct (cl_Walk cleaner fs1) as [e|entries]; [by intros [= <- <-]|].
  destruct (force || _); [by intros [= <- <-]|]. destruct (cleaner_getGCTasks _ _); [|done..]. by intros [= <- <-].
Qed.

Lemma CreateBaseDir_kept dir fs : memoryKept fs (driver_CreateBaseDir dir fs).1.
Proof.
  unfold driver_CreateBaseDir, fileutils_MkdirAll, os_MkdirAll. pose proof (mkdirs_kept fs [] dir) as Hk.
  destruct (mkdirs fs [] dir) as [fs1 err]. done.
Qed.

(** A collection of the hybrid storage frees no memory, in no interleaving of
    its two goroutines: the data of a task lies in the base directory of the
    memory, and the file that is removed is another one, below its download
    directory. *)
Theorem hybrid_GC_frees_no_memory tm now tmAt sched fs fs' :
  hybrid_GC tm now tmAt sched fs = Ok fs' →
  (∀ fs url id len fs1 p, tryShmSpace tm now url id len fs = Ok (fs1, inr p) → p = memoryFile id) ∧
  ∀ id ino, id ≠ DownloadHome → fs_nodes fs !! memoryFile id = Some (NodeFile ino) →
    fs_nodes fs' !! memoryFile id = Some (NodeFile ino) ∧ fileData fs' ino = fileData fs ino.
Proof using Hdisk Hmemory.
  intros Hgc. split.
  - intros fs0 url id len fs1 p. unfold tryShmSpace. destruct (shmSwitch_check _ _ _ _ && hasShm); [|done].
    destruct (walkAll memoryDir fs0) as [e|entries]; [done|].
    assert (driver_GetPath memoryDir (mkRaw "" [id] 0 0 false 0 false) = memoryFile id) as -> by done.
    destruct (len <=? _); [by intros [= _ <-]|].
    destruct (cleaner_GC _ _ _ _ _ _) as [[fs2 [e|ids]]| |]; simpl; try done.
    destruct (len <=? _); by intros [= _ <-].
  - assert (memoryKept fs fs') as [Hd Hn].
    { unfold hybrid_GC in Hgc. destruct (cleaner_GC _ diskConfig _ _ _ _) as [[fs1 r1]| |] eqn:H1; simpl in Hgc; try done.
      apply cleaner_kept in H1; [|apply CreateBaseDir_kept].
      destruct hasShm; [|injection Hgc as <-; eapply memoryKept_trans; [done|apply gcTasks_kept]].
      destruct (cleaner_GC _ memoryConfig _ _ _ _) as [[fs2 r2]| |] eqn:H2; simpl in Hgc; try done.
      apply cleaner_kept in H2; [|apply CreateBaseDir_kept]. injection Hgc as <-.
      eapply memoryKept_trans; [done|]. eapply memoryKept_trans; [done|apply gcTasks_kept]. }
    intros id ino Hid Hf. split; [by apply Hn|]. unfold fileData. by rewrite Hd.
Qed.

End Hybrid.

(** ** Witnesses: a task in memory *)

Definition demoHybrid : FS :=
  mkFS (<[["shm"; "cccccc"] := NodeFile 1%positive]> (<[["shm"] := NodeDir]> (fs_nodes demoCdnDisk)))
    {[ 1%positive := demoContent ]} 2.

Definition demoHybridConfig : DriverGCConfig := mkDriverGCConfig 100 10 5 7200000000000.

Definition demoHybridGC (sched : list bool) (fs : FS) : Outcome FS :=
  hybrid_GC ["cdn"] ["shm"] demoHybridConfig demoHybridConfig (λ _, inr 5) (λ _, inr (100, 5)) true
    NewTaskManager 100 (λ _, NewTaskManager) sched fs.

Lemma hybrid_GC_frees_no_memory_witness : ∃ fs', demoHybridGC [false; true] demoHybrid = Ok fs' ∧
  fs_nodes fs' !! ["shm"; "cccccc"] = Some (NodeFile 1) ∧ fileData fs' 1 = demoContent.
Proof.
  destruct (demoHybridGC [false; true] demoHybrid) as [fs'| |] eqn:E; [|vm_compute in E; discriminate E..].
  exists fs'. split; [reflexivity|].
  refine (proj2 (hybrid_GC_frees_no_memory ["cdn"] ["shm"] demoHybridConfig demoHybridConfig (λ _, inr 5)
    (λ _, inr (100, 5)) (λ _ _, None) newShmSwitch true _ _ NewTaskManager 100 (λ _, NewTaskManager)
    [false; true] demoHybrid fs' E) "cccccc" 1%positive _ _).
  - by intros [l [=]].
  - by intros [l [=]].
  - done.
  - vm_compute. reflexivity.
Defined.

Lemma hybrid_first_task_fails_witness :
  hybrid_ResetRepo ["cdn"] ["shm"] demoHybridConfig (λ _, inr (100, 5)) (λ _ _, None) newShmSwitch true
    NewTaskManager 100 demoSeedTask demoHybrid = Ok (demoHybrid, Some (ErrDriver (ErrFile (FileIO ENOENT)))).
Proof.
  apply (hybrid_first_task_fails ["cdn"] ["shm"] demoHybridConfig (λ _, inr (100, 5)) (λ _ _, None) newShmSwitch true
    NewTaskManager 100 demoSeedTask demoHybrid demoSeedTask_id).
  - intros l. unfold demoHybrid, demoCdnDisk. cbn [fs_nodes].
    rewrite !lookup_insert_ne by discriminate. by apply lookup_singleton_ne.
  - vm_compute. reflexivity.
  - vm_compute. reflexivity.
  - reflexivity.
Defined.
