(* ===== verification/CdnTriggerProperties.v ===== *)
(** * CdnTriggerProperties: downloads through the CDN

    What a trigger leaves in the storage, over any storage that keeps the laws
    of CdnStorage.v and for every schedule of the writers, and what the next
    trigger makes of it.  The instances are over the disk manager. *)

From S2P Require Import Prelude Text Ranges World FileSystem StoreDriver CdnTask CdnStorage Digests CdnMetadata.
From S2P Require Import CdnDetector CdnProgress CdnWriter CdnWriterProperties CdnManager CdnDownload CdnDemo.
From Stdlib Require Import Ascii.
From stdpp Require Import options.
Local Open Scope Z_scope.

(** ** The writer pool *)

(** C14: For a task that stays registered with the task manager, and a stream
    that ends without a read error, every execution of the reader and of the
    positive number of writers of a download is bounded and never stuck before
    [doWrite] returns, and when it returns the bytes stand behind those that were
    stored, every piece has one record and was published once, in whatever order
    the writers ran.  (The lengths, the number of pieces and their size fit their
    integers, and the storage has the task's files with the pieces before.)  When
    the task has left the task manager a download by one writer can get stuck. *)
Theorem doWrite_total {St : Type} `{CdnStoreLaws St} `{HashesLaws} t rest k sz (s : St) f pm d n sched pl :
  pool_pre t rest k sz s f → registered (st_ID t) pm → 0 < n →
  runPool t sched (newPool (mkCdn s pm) t (mkStream rest None) d (Z.of_nat (k * sz)) n) = Some pl →
  (length sched ≤ 6 * length rest + 1 + Z.to_nat n)%nat ∧
  match poolResult pl with
  | None => ∃ c, is_Some (poolStep t c pl)
  | Some r =>
      r = inr (Z.of_nat (length rest), Z.of_nat (k + npieces rest sz)) ∧
      pl_digest pl = hash_Write rest <$> d ∧
      doWrite_post t rest k sz s f pm (cdn_store (pl_cdn pl)) (cdn_progress (pl_cdn pl))
  end.
Proof.
  intros Hpre Hreg Hn Hrun. pose proof (newPool_inv t rest k sz s f pm d Hpre n) as Hi0.
  destruct (runPool_inv t rest k sz s f pm d Hpre Hreg _ _ _ _ _ _ _ Hi0 Hrun) as (m & f' & ws & log & Hi & Hl & Hm).
  rewrite length_replicate in Hl. split.
  - unfold measure in Hm. cbn [newPool pl_reader] in Hm.
    assert (sum_list (weight <$> replicate (Z.to_nat n) GIdle) = Z.to_nat n) as Hsum.
    { clear. generalize (Z.to_nat n). induction n0 as [|n0 IH]; [done|]. simpl. f_equal. exact IH. }
    rewrite Hsum in Hm. destruct (pl_reader pl); lia.
  - destruct (poolResult pl) as [r|] eqn:Hres.
    + by apply (pool_result t rest k sz s f pm d Hpre Hreg _ _ _ _ _ _ Hi).
    + eapply (pool_progress t rest k sz s f pm d Hpre Hreg); [exact Hi| |exact Hres].
      intros ->. simpl in Hl. lia.
Qed.

Lemma demo_pool_pre : ∃ s f, pool_pre demoSeedTask demoContent 0 4 s f.
Proof.
  destruct (ResetRepo_law demoSeedTask demoCdnDisk demoCdnDisk_inv demoSeedTask_id) as (s & _ & Hf & Hs).
  exists s, newFiles. split; try done; [lia|intros m Hm; simpl in Hm; lia|apply demoSeedTask_id|apply Hf|simpl; lia].
Qed.

Lemma doWrite_total_witness :
  ∃ s f pl, runPool demoSeedTask [CRead; CSend 1; CRead; CSend 0]
      (newPool (mkCdn s demoProgress) demoSeedTask (mkStream demoContent None) None 0 2) = Some pl ∧
    pool_pre demoSeedTask demoContent 0 4 s f ∧ ∃ c, is_Some (poolStep demoSeedTask c pl).
Proof.
  destruct demo_pool_pre as (s & f & Hpre). exists s, f.
  destruct (runPool demoSeedTask [CRead; CSend 1; CRead; CSend 0]
    (newPool (mkCdn s demoProgress) demoSeedTask (mkStream demoContent None) None 0 2)) as [pl|] eqn:Hrun; [|discriminate Hrun].
  exists pl. split; [reflexivity|]. split; [exact Hpre|].
  destruct (doWrite_total demoSeedTask demoContent 0 4 s f demoProgress None 2 _ pl Hpre demo_registered ltac:(lia) Hrun)
    as [_ Hr]. injection Hrun as <-. exact Hr.
Defined.

(** When the task has gone from the task manager during a download by one
    writer, the first report fails and ends the writer, while the reader may be
    sending the next piece already: no goroutine can move any more, and
    [doWrite], which holds the lock of the task, never returns. *)
Theorem doWrite_deadlocks {St : Type} `{CdnStoreLaws St} `{HashesLaws} t rest k sz (s : St) f pm d :
  pool_pre t rest k sz s f → (sz < length rest)%nat → tm_taskStore (pg_taskManager pm) !! st_ID t = None →
  ∃ sched pl, runPool t sched (newPool (mkCdn s pm) t (mkStream rest None) d (Z.of_nat (k * sz)) 1) = Some pl ∧
    poolResult pl = None ∧ ∀ c, poolStep t c pl = None.
Proof.
  intros Hpre Hlen Hgone. exists [CRead; CSend 0; CWork 0 0; CWork 0 0; CRead; CWork 0 0].
  exact (pool_deadlock t rest k sz s f pm d Hpre 0 Hgone Hlen).
Qed.

Lemma doWrite_deadlocks_witness :
  ∃ s sched pl, runPool demoSeedTask sched (newPool (mkCdn s (mkProgressManager NewTaskManager ∅ ∅)) demoSeedTask
      (mkStream demoContent None) None 0 1) = Some pl ∧
    poolResult pl = None ∧ ∀ c, poolStep demoSeedTask c pl = None.
Proof.
  destruct demo_pool_pre as (s & f & Hpre). exists s.
  exact (doWrite_deadlocks demoSeedTask demoContent 0 4 s f (mkProgressManager NewTaskManager ∅ ∅) None Hpre
    ltac:(simpl; lia) eq_refl).
Defined.

Section Trigger.
Context {St : Type} `{CdnStoreLaws St} `{HashesLaws} `{CdnSource}.
#[local] Set Default Proof Using "All".

(** A trigger behind a detection that found nothing usable. *)
Lemma doTrigger_fresh t content sz s pm lim nowMs now e :
  content_ok t content sz → store_inv s →
  doDetect t (digestOf t).1 s = Ok (s, (digestOf t).1, inl e) →
  ∃ s1, (∀ sched, doTrigger sched lim nowMs now t (mkCdn s pm) =
      downloadRest sched lim t (hash_Write (take (0 * sz) content) <$> (digestOf t).1) (digestOf t).2
        (Z.of_nat (0 * sz)) (mkCdn s1 pm)) ∧
    framed (st_ID t) s s1 ∧ stores s1 (st_ID t) (mkTaskFiles [] (Some (metadataOf nowMs t)) [] true).
Proof.
  intros Hco Hinv Hmiss.
  destruct (detect_miss t content sz Hco nowMs _ s _ e Hinv Hmiss) as (s1 & Hd & Hf1 & Hs1).
  exists s1. split; [|done]. intros sched. unfold doTrigger. destruct (digestOf t) as [d a].
  cbn [cdn_store cdn_progress fst snd] in *. rewrite Hd. cbn [mbind outcome_bind cr_BreakPoint cr_PieceMetaRecords].
  simpl (0 * sz)%nat. rewrite take_0. f_equal. destruct d as [h|]; [|done]. simpl. by rewrite hash_Write_nil.
Qed.

(** C3: A trigger of a registered task of which nothing usable is stored (the
    cache detection fails), whose content is not empty and is delivered by the
    source from its start, never panics, can always be run to its end, and
    whatever the schedule of its writers was, when it returns it reports success
    with the real length, digest and number of pieces; the storage holds exactly
    the content, a record for each piece and finished metadata, the other tasks
    are untouched, and every piece has been published once.  (There is at least
    one writer; what is known of the length, the number of pieces and the digest
    is right, the URL and the ID are well formed, and the sizes fit their
    integers.  A trigger of an empty content fails.) *)
Theorem doTrigger_stores t content sz c lim nowMs now e :
  content_ok t content sz → content ≠ [] → store_inv (cdn_store c) → registered (st_ID t) (cdn_progress c) →
  source_serves t content sz 0 → 0 < lim →
  doDetect t (digestOf t).1 (cdn_store c) = Ok (cdn_store c, (digestOf t).1, inl e) →
  (∀ sched, ∃ o, doTrigger sched lim nowMs now t c = Ok o) ∧
  (∃ sched r, doTrigger sched lim nowMs now t c = Ok (Some r)) ∧
  ∀ sched c' r, doTrigger sched lim nowMs now t c = Ok (Some (c', r)) →
    r = inr (fullInfo t content sz) ∧ framed (st_ID t) (cdn_store c) (cdn_store c') ∧
    stored_full t content sz (cdn_store c') ∧ published_full t content sz 0 (cdn_progress c) (cdn_progress c').
Proof.
  intros Hco Hne Hinv Hreg Hsrc Hlim Hmiss. destruct c as [s pm]. simpl in Hinv, Hreg, Hmiss |- *.
  destruct (doTrigger_fresh t content sz s pm lim nowMs now e Hco Hinv Hmiss) as (s1 & Heq & Hf1 & Hs1).
  pose proof (partial_new t content sz Hco (Some (metadataOf nowMs t))) as Hpa.
  destruct (downloadRest_returns t content sz Hco Hne 0 lim s1 _ _ pm (proj1 Hf1) Hs1 Hpa eq_refl Hreg
    (or_introl eq_refl) Hsrc Hlim) as [Hall Hsome].
  split; [intros sched; by rewrite Heq|]. split; [destruct Hsome as (sched & r & Hr); exists sched, r; by rewrite Heq|].
  intros sched c' r Hrun. rewrite Heq in Hrun.
  destruct (downloadRest_ok t content sz Hco Hne 0 _ _ _ _ _ _ _ _ (proj1 Hf1) Hs1 Hpa eq_refl
    (checkMetadata_new t content sz Hco nowMs) Hreg (or_introl eq_refl) Hsrc Hlim Hrun) as (-> & Hf & Hfull & Hpub).
  split; [done|]. split; [by eapply framed_trans|done].
Qed.

(** C9: A trigger behind a download that stopped after its first [k] pieces, with
    more to come, finds them, publishes them in order, asks the source for the
    rest only, and can be run to its end; whatever the schedule, it ends with the
    same storage and the same report as an uninterrupted download.  (The task is
    registered, asks for no range, has a known source length and a digest
    algorithm; its metadata is that of an unfinished download of the same task;
    the source says that it has not expired and that it supports ranges, and
    delivers the rest; the task and its sizes are as for a first download.) *)
Theorem doTrigger_resumes t content sz c lim nowMs now k f m h :
  content_ok t content sz → store_inv (cdn_store c) → registered (st_ID t) (cdn_progress c) →
  stores (cdn_store c) (st_ID t) f → partial t content sz k f → (0 < k)%nat → (k * sz < length content)%nat →
  IsBlank (st_Range t) = true → st_SourceFileLength t = Z.of_nat (length content) →
  tf_meta f = Some m → checkMetadata t m = None → fm_Finish m = false → (digestOf t).1 = Some h →
  (∀ lastModified etag, IsExpired (mkSourceRequest (st_RawURL t) (st_Header t) None) lastModified etag = false) →
  IsSupportRange (mkSourceRequest (st_RawURL t) (st_Header t) (Some "0-0"%string)) = inr true →
  source_serves t content sz k → 0 < lim →
  (∃ sched r, doTrigger sched lim nowMs now t c = Ok (Some r)) ∧
  ∀ sched c' r, doTrigger sched lim nowMs now t c = Ok (Some (c', r)) →
    r = inr (fullInfo t content sz) ∧ framed (st_ID t) (cdn_store c) (cdn_store c') ∧
    stored_full t content sz (cdn_store c') ∧
    published_full t content sz k
      (publishAll (st_ID t) ((λ r, (now, convertPieceMeta2SeedPiece r)) <$> (recordAt t content 0 sz <$> seq 0 k))
         (cdn_progress c)) (cdn_progress c').
Proof.
  intros Hco Hinv Hreg Hst Hpa Hk Hkl Hrng Hlen Hm Hck Hfin Hh Hexp Hsup Hsrc Hlim. destruct c as [s pm].
  simpl in Hinv, Hreg, Hst |- *. assert (content ≠ []) as Hne by (intros ->; simpl in Hkl; lia).
  pose proof (detect_partial t content sz Hco k s f m h pm Hinv Hst Hpa Hk Hm Hck Hfin Hreg Hexp Hsup) as Hd.
  destruct (touch_ok t content sz Hco s f m nowMs Hinv Hst Hm) as (s1 & i & Hs1 & Hf1 & Hst1).
  set (m1 := set_fm_Access nowMs i m) in *.
  set (pm1 := publishAll _ _ pm).
  assert (∀ sched, doTrigger sched lim nowMs now t (mkCdn s pm) =
    downloadRest sched lim t (hash_Write (take (k * sz) content) <$> (digestOf t).1) (digestOf t).2
      (Z.of_nat (k * sz)) (mkCdn s1 pm1)) as Heq.
  { intros sched. unfold doTrigger. destruct (digestOf t) as [d a]. cbn [fst] in Hh. subst d.
    unfold detectCache. cbn [cdn_store cdn_progress]. rewrite Hd. cbn [mbind outcome_bind cr_PieceMetaRecords cr_BreakPoint].
    rewrite Hs1, (reportDetectResult_ok t content sz Hco) by done. rewrite (proj2 (Z.eqb_neq _ _)) by lia. done. }
  assert (registered (st_ID t) pm1) as Hreg1 by (by apply publishAll_registered).
  assert (resumable t content sz k) as Hres by (by right).
  pose proof (partial_meta t content sz Hco k f (Some m1) Hpa) as Hpa1.
  destruct (downloadRest_returns t content sz Hco Hne k lim s1 _ _ pm1 (proj1 Hf1) Hst1 Hpa1 eq_refl Hreg1 Hres Hsrc Hlim)
    as [_ (sched & r & Hr)].
  split; [exists sched, r; by rewrite Heq|]. intros sched' c' r' Hrun. rewrite Heq in Hrun.
  destruct (downloadRest_ok t content sz Hco Hne k _ _ _ _ _ _ _ _ (proj1 Hf1) Hst1 Hpa1 eq_refl
    Hck Hreg1 Hres Hsrc Hlim Hrun) as (-> & Hf & Hfull & Hpub).
  split; [done|]. split; [by eapply framed_trans|done].
Qed.

(** An empty resource is never downloaded successfully: the file of its
    piece records does not exist, so the trigger ends with an error whatever
    the schedule. *)
Theorem doTrigger_empty_fails t sz c lim nowMs now e sched c' r :
  content_ok t [] sz → store_inv (cdn_store c) → registered (st_ID t) (cdn_progress c) →
  source_serves t [] sz 0 → 0 < lim →
  doDetect t (digestOf t).1 (cdn_store c) = Ok (cdn_store c, (digestOf t).1, inl e) →
  doTrigger sched lim nowMs now t c = Ok (Some (c', r)) → ∃ e', r = inl e'.
Proof.
  intros Hco Hinv Hreg Hsrc Hlim Hmiss. destruct c as [s pm]. simpl in Hinv, Hreg, Hmiss |- *.
  destruct (doTrigger_fresh t [] sz s pm lim nowMs now e Hco Hinv Hmiss) as (s1 & Heq & Hf1 & Hs1).
  pose proof (partial_new t [] sz Hco (Some (metadataOf nowMs t))) as Hpa.
  destruct (cdn_download_ok t [] sz Hco 0 s1 _ _ (proj1 Hf1) Hs1 eq_refl (or_introl eq_refl) Hsrc)
    as (s2 & ex & He & Hf2 & Hs2).
  rewrite Heq. unfold downloadRest. cbn [cdn_store cdn_progress]. rewrite He. intros Hrun.
  destruct (startWriter sched t _ _ _ _ lim _) as [[[c2 dm]|]| |] eqn:Hw; try done.
  destruct (startWriter_empty t [] sz Hco _ _ _ _ _ _ _ eq_refl (proj1 Hf2) Hs2 (partial_new t [] sz Hco _) Hreg Hlim Hw)
    as [e' ->].
  injection Hrun as <- <-. by eexists.
Qed.

(** C27: A trigger of a registered task whose content, not empty, is stored, and
    has not expired at the source, downloads nothing: it reports what the first
    download reported, and publishes the pieces in the order of their numbers. *)
Theorem doTrigger_hits t content sz c sched lim nowMs now :
  content_ok t content sz → content ≠ [] → stored_full t content sz (cdn_store c) → registered (st_ID t) (cdn_progress c) →
  (∀ lastModified etag, IsExpired (mkSourceRequest (st_RawURL t) (st_Header t) None) lastModified etag = false) →
  ∃ s', doTrigger sched lim nowMs now t c =
      Ok (Some (mkCdn s' (publishAll (st_ID t) ((λ r, (now, convertPieceMeta2SeedPiece r)) <$> recordsOf t content sz)
                            (cdn_progress c)), inr (fullInfo t content sz))) ∧
    framed (st_ID t) (cdn_store c) s' ∧ stored_full t content sz s'.
Proof.
  intros Hco Hne Hfull Hreg Hexp. pose proof Hfull as (Hinv & rs & m & Hrs & Hm & Hst). destruct c as [s pm].
  simpl in Hinv, Hst, Hreg, Hfull |- *.
  destruct (stored_full_touched t content sz Hco Hne s nowMs Hfull) as (s' & Hs' & Hfr & Hfull'). exists s'.
  split; [|done]. unfold doTrigger. destruct (digestOf t) as [d a]. cbn [cdn_store cdn_progress].
  unfold detectCache. rewrite (detect_hit t content sz Hco Hne d s rs m Hinv Hrs Hm Hst Hexp).
  cbn [mbind outcome_bind cr_PieceMetaRecords cr_BreakPoint cr_FileMetadata]. rewrite Hs'.
  rewrite (reportDetectResult_ok t content sz Hco) by done. simpl (-1 =? -1). cbv iota.
  destruct (mf_length _ _ _ _ Hm) as [-> ->]. by rewrite (mf_digest _ _ _ _ Hm), (mf_sign _ _ _ _ Hm), (mf_count _ _ _ _ Hm).
Qed.

End Trigger.

(** ** Instances *)

Lemma demo_content_ok : content_ok demoSeedTask demoContent 4.
Proof.
  split; try done.
  - apply demoSeedTask_id.
  - split_and!; [done|lia|lia].
  - intros m Hm. simpl in Hm. lia.
  - by right.
  - by right.
  - by left.
Qed.

Lemma demo_miss : doDetect demoSeedTask (digestOf demoSeedTask).1 demoCdnDisk =
  Ok (demoCdnDisk, (digestOf demoSeedTask).1, inl ErrTaskNotPersisted).
Proof. vm_compute. reflexivity. Qed.

Lemma doTrigger_stores_witness :
  content_ok demoSeedTask demoContent 4 ∧
  ∃ sched c', doTrigger sched 2 100 200 demoSeedTask demoCdn = Ok (Some (c', inr (fullInfo demoSeedTask demoContent 4))) ∧
    stored_full demoSeedTask demoContent 4 (cdn_store c').
Proof.
  split; [apply demo_content_ok|].
  destruct (doTrigger_stores demoSeedTask demoContent 4 demoCdn 2 100 200 ErrTaskNotPersisted demo_content_ok
    ltac:(done) demoCdnDisk_inv demo_registered (ex_intro _ _ (ex_intro _ _ eq_refl)) ltac:(lia) demo_miss)
    as (_ & (sched & [c' r] & Hrun) & Hall).
  destruct (Hall sched c' r Hrun) as (-> & _ & Hfull & _). exists sched, c'. exact (conj Hrun Hfull).
Defined.

Lemma demo_stored : ∃ c : Cdn FS, stored_full demoSeedTask demoContent 4 (cdn_store c) ∧ registered "abcdef" (cdn_progress c).
Proof.
  destruct (doTrigger_fresh demoSeedTask demoContent 4 demoCdnDisk demoProgress 2 100 200 ErrTaskNotPersisted demo_content_ok
    demoCdnDisk_inv demo_miss) as (s1 & _ & Hf1 & Hs1).
  pose proof (partial_new demoSeedTask demoContent 4 demo_content_ok (Some (metadataOf 100 demoSeedTask))) as Hpa.
  assert (source_serves demoSeedTask demoContent 4 0) as Hsrc by (eexists _, _; reflexivity).
  destruct (downloadRest_returns demoSeedTask demoContent 4 demo_content_ok ltac:(done) 0 2 s1 _ _ demoProgress (proj1 Hf1) Hs1
    Hpa eq_refl demo_registered (or_introl eq_refl) Hsrc ltac:(lia)) as [_ (sched & [c r] & Hd)].
  destruct (downloadRest_ok demoSeedTask demoContent 4 demo_content_ok ltac:(done) 0 sched 2 s1 _ _ demoProgress c r
    (proj1 Hf1) Hs1 Hpa eq_refl eq_refl demo_registered (or_introl eq_refl) Hsrc ltac:(lia) Hd)
    as (_ & _ & Hfull & (log & _ & Hpm)).
  exists c. split; [exact Hfull|]. rewrite Hpm. apply publishAll_registered, demo_registered.
Qed.

(** A download that stopped behind its first piece. *)
Lemma demo_partial : ∃ s f, store_inv s ∧ stores s "abcdef" f ∧ partial demoSeedTask demoContent 4 1 f ∧
  tf_meta f = Some (metadataOf 100 demoSeedTask).
Proof.
  destruct (doTrigger_fresh demoSeedTask demoContent 4 demoCdnDisk demoProgress 2 100 200 ErrTaskNotPersisted demo_content_ok
    demoCdnDisk_inv demo_miss) as (s1 & _ & Hf1 & Hs1).
  destruct (WriteDownload_law "abcdef" _ 0 (chunk demoContent 4 0) s1 (proj1 Hf1) demoSeedTask_id Hs1 ltac:(done) ltac:(lia))
    as (s2 & _ & Hf2 & Hs2).
  destruct (Append_law "abcdef" _ (recordAt demoSeedTask demoContent 0 4 0) s2 (proj1 Hf2) demoSeedTask_id Hs2 eq_refl)
    as (s3 & _ & Hf3 & Hs3).
  { unfold record_ok, range_ok. vm_compute. split_and!; congruence. }
  eexists s3, _. split; [apply Hf3|]. split; [exact Hs3|]. split; [|done]. split; simpl; [done|done|done|].
  unfold splice. simpl. lia.
Qed.

Lemma doTrigger_resumes_witness :
  ∃ s f, stores s "abcdef" f ∧ partial demoSeedTask demoContent 4 1 f ∧
  ∃ sched c', doTrigger sched 2 300 400 demoSeedTask (mkCdn s demoProgress) =
      Ok (Some (c', inr (fullInfo demoSeedTask demoContent 4))) ∧
    stored_full demoSeedTask demoContent 4 (cdn_store c').
Proof.
  destruct demo_partial as (s & f & Hinv & Hst & Hpa & Hm). exists s, f. split; [exact Hst|]. split; [exact Hpa|].
  destruct (doTrigger_resumes demoSeedTask demoContent 4 (mkCdn s demoProgress) 2 300 400 1 f _ (hash_New Md5Hash)
    demo_content_ok Hinv demo_registered Hst Hpa ltac:(lia) ltac:(simpl; lia) eq_refl eq_refl Hm eq_refl eq_refl eq_refl
    ltac:(done) eq_refl (ex_intro _ _ (ex_intro _ _ eq_refl)) ltac:(lia)) as [(sched & [c' r] & Hrun) Hall].
  destruct (Hall sched c' r Hrun) as (-> & _ & Hfull & _). exists sched, c'. exact (conj Hrun Hfull).
Defined.

Lemma doTrigger_hits_witness :
  ∃ c s', stored_full demoSeedTask demoContent 4 (cdn_store c) ∧
    doTrigger [] 2 300 400 demoSeedTask c =
      Ok (Some (mkCdn s' (publishAll "abcdef" ((λ r, (400, convertPieceMeta2SeedPiece r)) <$> recordsOf demoSeedTask demoContent 4)
                            (cdn_progress c)), inr (fullInfo demoSeedTask demoContent 4))).
Proof.
  destruct demo_stored as (c & Hfull & Hreg).
  destruct (doTrigger_hits demoSeedTask demoContent 4 c [] 2 300 400 demo_content_ok ltac:(done) Hfull Hreg
    ltac:(done)) as (s' & He & _). by exists c, s'.
Defined.

(** A source of an empty resource. *)
Definition emptySource : CdnSource := {|
  url_Parse _ := true;
  IsExpired _ _ _ := false;
  IsSupportRange _ := inr true;
  source_Download r := inr (mkSourceResponse (mkStream [] None) "Mon" "v1");
|}.

Definition emptySeedTask : SeedTask :=
  mkSeedTask "abcdef" "http://source/empty" "http://source/empty" 0 0 4 StatusRunning 0 "" "" "" "tag" "" ""
    None ∅.

Lemma empty_run_ends :
  match @doTrigger FS demoStore demoHashes emptySource [CRead; CWork 0 300] 2 100 200 emptySeedTask demoCdn with
  | Ok (Some _) => True
  | _ => False
  end.
Proof. vm_compute. exact I. Qed.

Lemma doTrigger_empty_fails_witness :
  ∃ c' e, @doTrigger FS demoStore demoHashes emptySource [CRead; CWork 0 300] 2 100 200 emptySeedTask demoCdn =
    Ok (Some (c', inl e)).
Proof.
  assert (@content_ok demoHashes emptySource emptySeedTask [] 4) as Hco.
  { split; try done; [apply demoSeedTask_id|split_and!; [done|lia|lia]|intros m Hm; simpl in Hm; lia|by right|by left|by left]. }
  pose proof empty_run_ends as Hends.
  destruct (@doTrigger FS demoStore demoHashes emptySource [CRead; CWork 0 300] 2 100 200 emptySeedTask demoCdn)
    as [[[c' r]|]| |] eqn:Hrun; [|contradiction Hends..].
  destruct (@doTrigger_empty_fails FS demoStore demoStore_laws demoHashes demoHashes_laws emptySource emptySeedTask 4 demoCdn
    2 100 200 ErrTaskNotPersisted [CRead; CWork 0 300] c' r Hco demoCdnDisk_inv demo_registered
    (ex_intro _ _ (ex_intro _ _ eq_refl)) ltac:(lia) ltac:(vm_compute; reflexivity) Hrun) as [e ->].
  exists c', e. reflexivity.
Defined.
